(* ===== verification/_CoqProject ===== *)
-Q . S2P
Prelude.v
Destructors.v
Teardown.v
Ss58.v
Plotting.v
Traits.v
Newtypes.v
Pieces.v
Tasks.v
FarmDriver.v
Farmer.v
Building.v
Substrate.v
ChainSpec.v
Domain.v
Dsn.v
Node.v
Service.v
System.v
Codec.v
SavedConfig.v
Interaction.v
Programs.v
Rpc.v
Handles.v
