(* ===== verification/Prelude.v ===== *)
(** Verification of the Subspace SDK (Rust, src/): the library that runs a
    Subspace node and farmer inside another program.

    * The program

    A [Node] (src/node) is built from a configuration and a chain specification;
    it runs Substrate's services, the distributed storage network, DSN
    (src/dsn), and optionally a domain node (src/node/src/domains).  A [Farmer]
    (src/farmer) is built on a node: it opens farms, keeps a table of their
    sectors and a piece cache, and registers both in two slots that it shares
    with the node's DSN, whose request handlers look there for pieces.
    src/substrate wraps Substrate's configuration; src/utils holds what all use:
    the set of destructors that every long-lived object owns and that decides
    what is torn down, when and in which order, the SS58 parser, the RPC handle
    and the properties of chain specifications.

    * Files

    - [Prelude] (this file): [result] and [outcome] (Rust's [Result], and a
      computation that may panic), machine integers with both overflow
      profiles, slices, the monad [prog] of fallible stateful programs with its
      rules [wp_*], programs cut into [steps] that others interleave with and
      their rely-guarantee rules, invariants and step bounds of transition
      systems, runs of labelled systems and simulations between them.
    - [Destructors]: utils/src/lib.rs, [Defer], [DropCollection],
      [AsyncDropFutures], [DestructorSet].  The registration operations and
      [async_drop] follow the code; [drop_set] writes out Rust's drop order of
      the fields.  [async_drop] takes which futures are ready, and suspends at
      the first that is not.
    - [Teardown]: what clients rely on, as the classes [TeardownApi] and
      [TeardownLaws] over an abstract stack of entries; [DestructorSet] is an
      instance.  The farmer, the DSN, the node and the domain are verified
      against the class only.
    - [Tasks]: [TaskOutput], and the runtime as classes with laws: bounded
      channels [Mpsc], one-shot channels [Oneshot], retries [Retry]; each has a
      concrete instance.
    - [Ss58]: utils/src/lib.rs, module [parse_ss58].
    - [Plotting]: farmer/src/lib.rs, the accounting at the end of [Farm::new]
      and the streams of initial plotting progress.
    - [Traits]: traits/src/lib.rs, the interfaces between farmer and node as
      classes; the instances are in [Pieces] and [Node].
    - [Newtypes]: utils/src/lib.rs, [ByteSize], the addresses and their
      conversions, [PublicKey], task spawning, [generate_builder!].
    - [Pieces]: farmer/src/lib.rs [create_readers_and_pieces],
      [handler_on_sector_plotted], [get_piece_by_index]; node/src/lib.rs, the two
      request handlers; dsn/src/local_provider_record_utils.rs.
    - [FarmDriver]: farmer/src/lib.rs, the loop of the farms-driver task and
      [Farmer::close].
    - [Farmer]: farmer/src/lib.rs, [Config] and [Builder], the thread pools,
      [Farm::new], [Config::build], [Farmer::close], [Farmer::get_info], over a
      [world] of slots, handlers and running tasks.
    - [Building]: the same [Config::build] cut at its await points and between its
      accesses to shared state, [build_steps], and what every interleaving with
      the node's requests and the cache worker guarantees.
    - [Substrate]: substrate/src/types.rs and lib.rs, the configuration types,
      builders, presets and [Base::configuration].
    - [ChainSpec]: utils/src/lib.rs module [chain_spec], node/src/chain_spec.rs,
      node/src/domains/evm_chain_spec.rs.
    - [Domain]: node/src/domains/builder.rs, domain.rs and
      domain_instance_starter.rs; the bootstrapper and runner tasks and their
      environment are the relation [step] on [state].
    - [Dsn]: dsn/src/builder.rs.
    - [Node]: node/src/builder.rs and lib.rs; [node_build] composes the files
      above; the task-manager task is the relation [tm_step].
    - [Service]: the piece service as a specification ([service_step], and
      [spec_step] with requests in flight, which may be answered what some moment
      of theirs permits), and the node's request handler as the sequence of its
      accesses to the slots.
    - [System]: a node and the farmers built on it one after the other.
      [sys_step] interleaves the steps of builds, plotting events, the cache
      worker and the single steps of a shutdown; [served_step] adds the
      requests in flight.
    - [Codec], [SavedConfig]: the configurations as they are saved to disk and
      loaded: the derived serialization with the attributes of every field.
    - [Interaction], [Programs]: the example programs (src/examples) as
      interaction trees over the calls of the SDK, the rules [always_*] for
      their runs, and an interpreter that plays a program against an environment.
    - [Rpc]: utils/src/lib.rs, [Rpc]; the subscription task is the relation
      [sub_step].
    - [Handles]: utils/src/lib.rs, [Rpc] as jsonrpsee client and as the farmer's
      node client; the remaining operations of a running node and farmer.

    A definition has the name of the Rust item it models where that is free;
    methods are [Type_method].  Where the code mutates in place the definition
    returns the new state; where it shares ([Arc<Mutex<_>>], slots, channels) the
    shared cell is one component of a state all users see.

    * What the theorems show

    - Teardown.  A set of destructors refines a stack: [async_drop] runs exactly
      what was registered, last in first out; the fields' drop order does the
      same when it was never run; a cancelled [async_drop] tears everything down
      once; no [expect] of the set is ever reached.
    - The farmer.  A build that fails leaves nothing behind and one that
      succeeds gives back everything on [close]; its result is characterized;
      the driver reports every farm that ends and terminates; [close] returns
      the first error; counting sectors neither overflows nor exceeds the
      allotted space for a cache percentage of at most 100, and what happens
      above, with and without overflow checks.
    - Plotting progress.  One subscriber sees every item and the end, also of
      the sectors plotted after it subscribed; several subscribers share one
      counter, and what follows from that.  However they interleave, no poll overflows and every sector is handed to
      one subscriber, in order.
    - The whole.  A built node with its farmers implements the piece service
      under every interleaving of the single accesses of requests with the steps
      of builds, plotting and shutdowns, and a shutdown always comes to an end
      that leaves no trace of the farmer.
    - Serving.  A piece request is answered as soon as a farmer has registered
      and with the piece whenever cache or sectors have it; segment headers are
      returned newest first, bounded and complete.
    - The node and the domain.  The progress of a domain is monotone; its [close]
      ends, and panics exactly when the runner does; the node's [close] ends its
      task and fails exactly when the task has delivered an error, before or
      during the call; what a built node consists of; what [sync] returns, and
      when it waits.
    - Parsing and configuration.  The SS58 parser accepts exactly the encodings
      of 32-byte keys in allowed formats, and never panics; configurations are
      produced, with their limits; the genesis of a compiled chain specification
      is consistent; a chain of builder setters gives each field its last value; a
      saved configuration is the configuration that is loaded.
    - The examples.  How every run of the mini farmer and of the complete
      example ends, what it has closed by then, and what it has reported.
    - RPC subscriptions deliver a prefix, in order, and drain.

    Several theorems state a behaviour that the comments or names in the code do
    not suggest: the shared progress counter, the size hints, the period of the
    storage monitor, the length of a vesting month, a domain that is closed but
    keeps running.

    * Assumptions and bounds

    Code outside src/ is a parameter: either an argument, a field of a record of
    externals ([Farmer.externals], [domain_externals], [dsn_externals],
    [node_externals]) or a class whose laws state its documented behaviour.
    [usize] has 64 bits.  Overflow is a panic or wraps, by the argument
    [profile].  Futures that are run by the executor are polled at arbitrary
    moments; [select] prefers its left side, [select!] polls in an order that is
    an argument.  Between two pieces of a farmer's build, and between two accesses
    of a request, anything may happen; a build whose future is dropped or unwinds
    leaves at one of these points.  Starting a domain node is one step of the
    runner: a [close] meanwhile waits for it to be answered.  Logging and tracing have no effect.

    Fuel.  The driver's loop runs at most once per farm and once for the drop
    signal or the end of the farms: 257 turns suffice for the at most 256 farms
    [create_readers_and_pieces] admits.  A signalled bootstrapper ends within
    two polls and a signalled runner within six ([Domain.await_task]); that this
    is enough is part of [domain_close_total].  The interpreter [play] takes
    fuel; it is only used to exhibit runs.  The rest is structural.

    The codecs of [SavedConfig] are serde's derived implementations at the data
    model of serde_json; foreign types (paths, sizes, durations, addresses, ids)
    have codecs without laws, and the theorems ask that the values at hand
    survive theirs.

    * Not modelled

    The subspace, substrate, libp2p, tokio and jsonrpsee crates; metrics; the
    text of errors that are only passed on; parsing of arguments and log setup
    of the examples; the executor dispatch tables, which forward to generated
    code; the facade crate, which re-exports; build scripts and tests. *)
From stdpp Require Export base option numbers list strings gmap relations.
From Stdlib Require Export ZArith Lia.

(** ** Rust outcomes

    [result] is Rust's [Result]; [outcome] separates a computation that
    returns from one that panics (an [expect] on an empty value, an index out
    of bounds, an overflow in a build with overflow checks). *)

Inductive result (E A : Type) : Type :=
| Ok (a : A)
| Err (e : E).
Arguments Ok {E A} a.
Arguments Err {E A} e.

Inductive outcome (A : Type) : Type :=
| Ret (a : A)
| Panic (why : string).
Arguments Ret {A} a.
Arguments Panic {A} why.

#[export] Instance result_ret {E} : MRet (result E) := fun _ a => Ok a.
#[export] Instance result_bind {E} : MBind (result E) :=
  fun _ _ f m => match m with Ok a => f a | Err e => Err e end.
#[export] Instance result_fmap {E} : FMap (result E) :=
  fun _ _ f m => match m with Ok a => Ok (f a) | Err e => Err e end.

#[export] Instance outcome_ret : MRet outcome := fun _ a => Ret a.
#[export] Instance outcome_bind : MBind outcome :=
  fun _ _ f m => match m with Ret a => f a | Panic w => Panic w end.
#[export] Instance outcome_fmap : FMap outcome :=
  fun _ _ f m => match m with Ret a => Ret (f a) | Panic w => Panic w end.

(** [r.map_err(f)], [r.ok()], [o.ok_or(e)], [o.expect(msg)]. *)
Definition map_err {E E' A} (f : E -> E') (r : result E A) : result E' A :=
  match r with Ok a => Ok a | Err e => Err (f e) end.
Definition ok {E A} (r : result E A) : option A :=
  match r with Ok a => Some a | Err _ => None end.
Definition ok_or {E A} (e : E) (o : option A) : result E A :=
  match o with Some a => Ok a | None => Err e end.
Definition expect {A} (msg : string) (o : option A) : outcome A :=
  match o with Some a => Ret a | None => Panic msg end.
Definition expect_ok {E A} (msg : string) (r : result E A) : outcome A :=
  match r with Ok a => Ret a | Err _ => Panic msg end.
Definition is_ok {E A} (r : result E A) : bool :=
  match r with Ok _ => true | Err _ => false end.

(** [iter.collect::<Result<Vec<_>, _>>()]: the first error wins. *)
Fixpoint collect_result {E A} (l : list (result E A)) : result E (list A) :=
  match l with
  | [] => Ok []
  | Ok a :: l' => a' ← collect_result l'; Ok (a :: a')
  | Err e :: _ => Err e
  end.

(** [iter.collect::<Option<Vec<_>>>()]. *)
Fixpoint collect_option {A} (l : list (option A)) : option (list A) :=
  match l with
  | [] => Some []
  | Some a :: l' => a' ← collect_option l'; Some (a :: a')
  | None :: _ => None
  end.

(** ** Machine integers

    A [w]-bit unsigned integer is a [Z] in [0, 2^w).  [arith p w z] is the
    result of a Rust operator whose exact value is [z]: under a profile with
    overflow checks an out-of-range value panics, without them it wraps.  [cast]
    is [as], which never panics; [try_into_u] is [TryInto]. *)

Inductive profile := Debug | Release.

Definition in_u (w z : Z) : Prop := (0 <= z < 2 ^ w)%Z.
#[export] Instance in_u_dec w z : Decision (in_u w z) := _.

Definition cast (w z : Z) : Z := (z mod 2 ^ w)%Z.

Definition arith (p : profile) (w z : Z) : outcome Z :=
  if decide (in_u w z) then Ret z
  else match p with
       | Debug => Panic "arithmetic overflow"
       | Release => Ret (cast w z)
       end.

Definition add_u (p : profile) (w a b : Z) : outcome Z := arith p w (a + b)%Z.
Definition sub_u (p : profile) (w a b : Z) : outcome Z := arith p w (a - b)%Z.
Definition mul_u (p : profile) (w a b : Z) : outcome Z := arith p w (a * b)%Z.
Definition div_u (a b : Z) : outcome Z :=
  if decide (b = 0%Z) then Panic "attempt to divide by zero" else Ret (a / b)%Z.
Definition saturating_sub (a b : Z) : Z := Z.max 0 (a - b).
Definition try_into_u (w z : Z) : option Z :=
  if decide (in_u w z) then Some z else None.

(** ** Slices *)

Definition index {A} (l : list A) (i : nat) : outcome A :=
  expect "index out of bounds" (l !! i).
Definition slice {A} (l : list A) (from to : nat) : outcome (list A) :=
  if decide (from <= to /\ to <= length l)
  then Ret (take (to - from) (drop from l))
  else Panic "slice index out of range".

(** ** Automation *)

Create HintDb sdk discriminated.
Create Rewrite HintDb sdk.

(** Split the innermost [match]/[if] of a goal or hypothesis, keeping the
    equation. *)
Ltac destruct_match :=
  match goal with
  | |- context [match ?x with _ => _ end] =>
      lazymatch x with context [match _ with _ => _ end] => fail | _ => destruct x eqn:? end
  | H : context [match ?x with _ => _ end] |- _ =>
      lazymatch x with context [match _ with _ => _ end] => fail | _ => destruct x eqn:? end
  end.

(** Unfold the monads. *)
Ltac unfold_monad :=
  unfold mbind, mret, fmap, outcome_bind, outcome_ret, outcome_fmap,
    result_bind, result_ret, result_fmap in *; cbn [option_bind] in *.

(** Decide closed membership of a machine range. *)
Ltac solve_in_u := unfold in_u in *; cbn in *; lia.

(** ** Lemmas on outcomes *)

Lemma bind_Ret {A B} (m : outcome A) (f : A -> outcome B) b :
  m ≫= f = Ret b -> exists a, m = Ret a /\ f a = Ret b.
Proof. destruct m; unfold_monad; [eauto | discriminate]. Qed.

Lemma expect_Ret {A} msg (o : option A) a : expect msg o = Ret a <-> o = Some a.
Proof. destruct o; cbn; split; congruence. Qed.

(** ** Lemmas on machine integers *)

Lemma arith_exact p w z : in_u w z -> arith p w z = Ret z.
Proof. intros H. unfold arith. by rewrite decide_True. Qed.

Lemma arith_debug w z r : arith Debug w z = Ret r -> r = z /\ in_u w z.
Proof. unfold arith. case_decide; naive_solver. Qed.

Lemma arith_release w z : (0 <= w)%Z -> arith Release w z = Ret (cast w z).
Proof.
  intros Hw. unfold arith, cast. case_decide as H; [|done].
  f_equal. symmetry. apply Z.mod_small, H.
Qed.

Lemma cast_in_u w z : (0 <= w)%Z -> in_u w (cast w z).
Proof. intros. unfold in_u, cast. apply Z.mod_pos_bound. lia. Qed.

Lemma cast_small w z : in_u w z -> cast w z = z.
Proof. intros H. apply Z.mod_small, H. Qed.

Lemma try_into_u_Some w z r : try_into_u w z = Some r <-> r = z /\ in_u w z.
Proof. unfold try_into_u. case_decide; naive_solver. Qed.

Lemma div_u_pos a b : b <> 0%Z -> div_u a b = Ret (a / b)%Z.
Proof. intros H. unfold div_u. by rewrite decide_False. Qed.

#[export] Hint Resolve arith_exact cast_in_u : sdk.
#[export] Hint Rewrite @cast_small using solve_in_u : sdk.

(** ** Lemmas on slices and collected iterators *)

Lemma slice_Ret {A} (l : list A) a b :
  a <= b -> b <= length l -> slice l a b = Ret (take (b - a) (drop a l)).
Proof. intros. unfold slice. by rewrite decide_True. Qed.

Lemma index_Ret {A} (l : list A) i x : index l i = Ret x <-> l !! i = Some x.
Proof. apply expect_Ret. Qed.

Lemma collect_option_Some {A} (l : list (option A)) r :
  collect_option l = Some r <-> l = Some <$> r.
Proof.
  split.
  - revert r. induction l as [|[a|] l IH]; intros r; cbn; [by intros [= <-]| |done].
    destruct (collect_option l) as [l'|]; cbn; [|done].
    intros [= <-]. cbn. f_equal. by apply IH.
  - intros ->. induction r as [|a r IH]; [done|].
    rewrite fmap_cons. cbn [collect_option]. by rewrite IH.
Qed.

Lemma collect_option_None {A} (l : list (option A)) :
  collect_option l = None <-> None ∈ l.
Proof.
  induction l as [|[a|] l IH]; cbn.
  - split; [done|]. intros H. by apply not_elem_of_nil in H.
  - rewrite elem_of_cons. destruct (collect_option l); cbn; naive_solver.
  - split; [intros _|done]. apply elem_of_cons. by left.
Qed.

Lemma collect_result_Ok {E A} (l : list (result E A)) r :
  collect_result l = Ok r <-> l = (fun a => Ok a) <$> r.
Proof.
  split.
  - revert r. induction l as [|[a|e] l IH]; intros r; cbn; [by intros [= <-]| |done].
    destruct (collect_result l) as [l'|]; cbn; [|done].
    intros [= <-]. cbn. f_equal. by apply IH.
  - intros ->. induction r as [|a r IH]; [done|].
    rewrite fmap_cons. cbn [collect_result]. by rewrite IH.
Qed.

(** ** Transition systems: invariants and step bounds *)

Section lts.
Context {S : Type} (step : relation S).

Lemma invariant_rtc (P : S -> Prop) s s' :
  (forall x y, P x -> step x y -> P y) -> rtc step s s' -> P s -> P s'.
Proof. intros Hpres Hrtc. induction Hrtc; eauto. Qed.

(** A measure that decreases at every step bounds the length of every run. *)
Lemma measure_nsteps (m : S -> nat) n s s' :
  (forall x y, step x y -> m y < m x) -> nsteps step n s s' -> n + m s' <= m s.
Proof.
  intros Hdec Hn. induction Hn as [|n x y z Hxy _ IH]; [lia|].
  specialize (Hdec _ _ Hxy). lia.
Qed.
End lts.

(** ** Labelled systems: runs and refinement mappings *)

Section labelled.
Context {L : Type}.

(** The visible labels of a run; [None] labels a silent step. *)
Inductive run {S} (step : S -> option L -> S -> Prop) : S -> list L -> S -> Prop :=
| run_nil s : run step s [] s
| run_silent s1 s2 s3 ls : step s1 None s2 -> run step s2 ls s3 -> run step s1 ls s3
| run_visible s1 s2 s3 l ls : step s1 (Some l) s2 -> run step s2 ls s3 -> run step s1 (l :: ls) s3.

Lemma run_invariant {S} (step : S -> option L -> S -> Prop) (I : S -> Prop) s ls s' :
  (forall s l s', I s -> step s l s' -> I s') -> run step s ls s' -> I s -> I s'.
Proof. intros Hstep Hrun. induction Hrun; eauto. Qed.

(** Forward simulation: every step of a system is matched by a step of its
    specification, or is invisible to it. *)
Lemma simulation {S A} (step : S -> option L -> S -> Prop) (spec : A -> option L -> A -> Prop)
    (R : S -> A -> Prop) :
  (forall s a l s', R s a -> step s l s' -> exists a', R s' a' /\ (spec a l a' \/ l = None /\ a' = a)) ->
  forall s ls s', run step s ls s' -> forall a, R s a -> exists a', R s' a' /\ run spec a ls a'.
Proof.
  intros Hstep s ls s' Hrun. induction Hrun as [s|s1 s2 s3 ls H1 _ IH|s1 s2 s3 l ls H1 _ IH]; intros a HR.
  - exists a. split; [done|constructor].
  - destruct (Hstep _ _ _ _ HR H1) as (a2 & HR2 & Hs). destruct (IH _ HR2) as (a3 & HR3 & Hrun3).
    exists a3. split; [done|]. destruct Hs as [Hs|[_ ->]]; [by eapply run_silent|done].
  - destruct (Hstep _ _ _ _ HR H1) as (a2 & HR2 & [Hs|[? _]]); [|done].
    destruct (IH _ HR2) as (a3 & HR3 & Hrun3). exists a3. split; [done|]. by eapply run_visible.
Qed.

Lemma run_app {S} (step : S -> option L -> S -> Prop) s1 ls1 s2 ls2 s3 :
  run step s1 ls1 s2 -> run step s2 ls2 s3 -> run step s1 (ls1 ++ ls2) s3.
Proof.
  intros Hrun H2. induction Hrun as [|? ? ? ? H1 _ IH|? ? ? ? ? H1 _ IH]; [done|..].
  - eapply run_silent; [done|by apply IH].
  - cbn. eapply run_visible; [done|by apply IH].
Qed.
End labelled.

(** ** Programs with a state, [?] and panics

    [prog S E A] is an [async fn] returning [Result<A, E>] that works on a
    shared state [S]: [mbind] is sequencing with [?]. *)

Definition prog (S E A : Type) : Type := S -> outcome (S * result E A).

#[export] Instance prog_ret {S E} : MRet (prog S E) := fun _ a s => Ret (s, Ok a).
#[export] Instance prog_bind {S E} : MBind (prog S E) :=
  fun _ _ f m s =>
    match m s with
    | Ret (s', Ok a) => f a s'
    | Ret (s', Err e) => Ret (s', Err e)
    | Panic w => Panic w
    end.

Definition prog_err {S E A} (e : E) : prog S E A := fun s => Ret (s, Err e).
Definition prog_get {S E A} (f : S -> A) : prog S E A := fun s => Ret (s, Ok (f s)).
Definition prog_modify {S E} (f : S -> S) : prog S E unit := fun s => Ret (f s, Ok tt).
Definition lift_result {S E A} (r : result E A) : prog S E A := fun s => Ret (s, r).
Definition lift_outcome {S E A} (o : outcome A) : prog S E A :=
  fun s => a ← o; Ret (s, Ok a).
Definition lift {S E A} (o : outcome (result E A)) : prog S E A := fun s => r ← o; Ret (s, r).

Section wp.
Context {S E : Type}.

(** [wp m Q P s]: from [s], [m] ends in a result and state in [Q]; it panics only if [P]. *)
Definition wp {A} (m : prog S E A) (Q : result E A -> S -> Prop) (P : Prop) (s : S) : Prop :=
  match m s with Ret (s', r) => Q r s' | Panic _ => P end.

Lemma wp_bind {A B} (m : prog S E A) (f : A -> prog S E B) Q P s :
  wp m (fun r s' => match r with Ok a => wp (f a) Q P s' | Err e => Q (Err e) s' end) P s ->
  wp (m ≫= f) Q P s.
Proof. unfold wp, mbind, prog_bind. destruct (m s) as [[s' [a|e]]|w]; auto. Qed.

Lemma wp_mono {A} (m : prog S E A) (Q Q' : result E A -> S -> Prop) (P P' : Prop) s :
  wp m Q P s -> (forall r s', Q r s' -> Q' r s') -> (P -> P') -> wp m Q' P' s.
Proof. unfold wp. destruct (m s) as [[s' r]|w]; auto. Qed.

Lemma wp_panics {A} (m : prog S E A) Q (P P' : Prop) s : wp m Q P s -> (P -> P') -> wp m Q P' s.
Proof. intros Hwp HP. by eapply wp_mono. Qed.

Lemma wp_ret {A} (a : A) (Q : result E A -> S -> Prop) P s : Q (Ok a) s -> wp (mret a) Q P s.
Proof. done. Qed.

Lemma wp_modify f (Q : result E unit -> S -> Prop) P s : Q (Ok tt) (f s) -> wp (prog_modify f) Q P s.
Proof. done. Qed.

Lemma wp_get {A} (f : S -> A) (Q : result E A -> S -> Prop) P s :
  Q (Ok (f s)) s -> wp (prog_get f) Q P s.
Proof. done. Qed.

Lemma wp_err {A} e (Q : result E A -> S -> Prop) P s : Q (Err e) s -> wp (prog_err e) Q P s.
Proof. done. Qed.

Lemma wp_lift_result {A} (r : result E A) (Q : result E A -> S -> Prop) P s :
  Q r s -> wp (lift_result r) Q P s.
Proof. done. Qed.

Lemma wp_lift_outcome {A} (o : outcome A) (Q : result E A -> S -> Prop) (P : Prop) s :
  (forall a, o = Ret a -> Q (Ok a) s) -> (forall w, o = Panic w -> P) ->
  wp (lift_outcome o) Q P s.
Proof. unfold wp, lift_outcome. destruct o; unfold_monad; eauto. Qed.

Lemma wp_lift {A} (o : outcome (result E A)) (Q : result E A -> S -> Prop) (P : Prop) s :
  (forall r, o = Ret r -> Q r s) -> (forall w, o = Panic w -> P) -> wp (lift o) Q P s.
Proof. unfold wp, lift. destruct o; unfold_monad; eauto. Qed.
End wp.

(** ** Programs that others interleave with

    [steps S E A] is a program cut into pieces: each runs without interruption
    and leaves the rest of the program; between two pieces the shared state may
    be changed by others.  [run_steps] runs the pieces one after the other. *)

#[warnings="-register-all"]
Inductive steps (S E A : Type) : Type :=
| Completed (a : A)
| Pause (m : prog S E (steps S E A)).
Arguments Completed {S E A} a.
Arguments Pause {S E A} m.

Section steps.
Context {S E A : Type}.

(** Run [m], then be interrupted, then go on with [k]. *)
Definition pause {B} (m : prog S E B) (k : B -> steps S E A) : steps S E A :=
  Pause (b ← m; mret (k b)).

Fixpoint run_steps (p : steps S E A) : prog S E A :=
  match p with
  | Completed a => mret a
  | Pause m => fun s =>
      match m s with
      | Ret (s', Ok p') => run_steps p' s'
      | Ret (s', Err e) => Ret (s', Err e)
      | Panic why => Panic why
      end
  end.

Lemma steps_rest_ind (P : steps S E A -> Prop) :
  (forall a, P (Completed a)) ->
  (forall m, (forall s s' p, m s = Ret (s', Ok p) -> P p) -> P (Pause m)) -> forall p, P p.
Proof.
  intros HF HP. fix IH 1. intros [a|m]; [apply HF|]. apply HP. intros s s' p.
  destruct (m s) as [[s0 [p0|e]]|why]; [|discriminate..]. intros Heq. injection Heq as <- <-. apply IH.
Qed.

Lemma run_steps_pause {B} (m : prog S E B) (k : B -> steps S E A) s :
  run_steps (pause m k) s = (b ← m; run_steps (k b)) s.
Proof. unfold pause, mbind, prog_bind. cbn. by destruct (m s) as [[s' [b|e]]|why]. Qed.

(** What holds of a program whoever interferes: others change the state by
    [rely] only; at every interruption [safe] holds; every piece changes the state
    as [guar] allows, or fails and leaves it alone; the program ends in [Q]. *)
Section rely_guarantee.
Context (rely guar : relation S) (safe : S -> Prop) `{!Reflexive rely, !Transitive rely}.

Fixpoint interleaved (p : steps S E A) (Q : A -> S -> Prop) (s : S) : Prop :=
  forall s', rely s s' -> safe s' /\
  match p with
  | Completed a => Q a s'
  | Pause m =>
      match m s' with
      | Ret (s2, Ok p') => guar s' s2 /\ interleaved p' Q s2
      | Ret (s2, Err e) => s2 = s'
      | Panic _ => True
      end
  end.

Lemma interleaved_rely p Q s s' : interleaved p Q s -> rely s s' -> interleaved p Q s'.
Proof. intros Hp Hs. destruct p; intros s2 Hs2; apply Hp; by transitivity s'. Qed.

Lemma interleaved_safe p Q s : interleaved p Q s -> safe s.
Proof. intros Hp. by destruct p; apply (Hp s). Qed.

Lemma interleaved_pause {B} (m : prog S E B) (k : B -> steps S E A) (Q : A -> S -> Prop) s :
  (forall s', rely s s' -> safe s' /\
     wp m (fun r s2 =>
       match r with Ok b => guar s' s2 /\ interleaved (k b) Q s2 | Err _ => s2 = s' end) True s') ->
  interleaved (pause m k) Q s.
Proof.
  intros Hm s' Hs'. destruct (Hm s' Hs') as [Hsafe Hwp]. split; [done|].
  unfold pause, mbind, prog_bind, wp in *. by destruct (m s') as [[s2 [b|e]]|why].
Qed.

Lemma interleaved_completed a (Q : A -> S -> Prop) s :
  (forall s', rely s s' -> safe s' /\ Q a s') -> interleaved (Completed a) Q s.
Proof. done. Qed.
End rely_guarantee.
End steps.

(** Equations of programs, state by state. *)
Lemma prog_bind_ext {S E A B} (m m' : prog S E A) (f f' : A -> prog S E B) s :
  (forall s, m s = m' s) -> (forall a s, f a s = f' a s) -> (m ≫= f) s = (m' ≫= f') s.
Proof.
  intros Hm Hf. unfold mbind, prog_bind. rewrite Hm. destruct (m' s) as [[s' [a|e]]|why]; auto.
Qed.

Lemma prog_bind_assoc {S E A B C} (m : prog S E A) (f : A -> prog S E B) (g : B -> prog S E C) s :
  ((m ≫= f) ≫= g) s = (m ≫= (fun a => f a ≫= g)) s.
Proof. unfold mbind, prog_bind. by destruct (m s) as [[s' [a|e]]|why]. Qed.

(** ** Lists *)

Lemma fmap_reverse_app {A B} (f : A -> B) (l1 l2 : list A) :
  f <$> reverse (l1 ++ l2) = (f <$> reverse l2) ++ (f <$> reverse l1).
Proof. by rewrite reverse_app, fmap_app. Qed.

Lemma omap_reverse {A B} (f : A -> option B) (l : list A) :
  omap f (reverse l) = reverse (omap f l).
Proof.
  induction l as [|x l IH]; [done|].
  rewrite reverse_cons, omap_app, IH.
  change (omap f (x :: l)) with (match f x with Some y => y :: omap f l | None => omap f l end).
  change (omap f [x]) with (match f x with Some y => [y] | None => [] end).
  destruct (f x); [by rewrite reverse_cons | by rewrite app_nil_r].
Qed.
