(* ===== verification/Destructors.v ===== *)
(** The destructor set of the SDK (utils/src/lib.rs): [Defer],
    [DropCollection], [AsyncDropFutures] and [DestructorSet], with the Rust
    drop order written out. *)
From S2P Require Import Prelude.

Section destructors.
(** [F]: the boxed sync closures; [A]: the boxed futures; [I]: the items kept
    only to be dropped.  The set never looks inside any of them. *)
Context {F A I : Type}.

(** What dropping or running a destructor does, as seen from outside. *)
Inductive event :=
| RanSync (f : F)
| AwaitedAsync (a : A)
| DroppedAsync (a : A)
| DroppedItem (i : I)
| WarnedNotAsyncDropped (name : string).

(** ** Defer *)

Record Defer := mkDefer { defer_fn : option F }.

Definition Defer_new (f : F) : Defer := mkDefer (Some f).

Definition Defer_drop (self : Defer) : outcome (list event) :=
  f ← expect "Always set" (defer_fn self);
  Ret [RanSync f].

(** ** DropCollection *)

(** A [Box<dyn Send + Sync>] of the collection: a [Defer] or some other item. *)
Inductive boxed :=
| BoxDefer (d : Defer)
| BoxItem (i : I).

Definition drop_boxed (b : boxed) : outcome (list event) :=
  match b with
  | BoxDefer d => Defer_drop d
  | BoxItem i => Ret [DroppedItem i]
  end.

(** Dropping a [Vec], or the remaining range of a [Drain]: front to back. *)
Fixpoint drop_vec (v : list boxed) : outcome (list event) :=
  match v with
  | [] => Ret []
  | b :: v' => e ← drop_boxed b; es ← drop_vec v'; Ret (e ++ es)
  end.

Definition DropCollection := list boxed.
Definition DropCollection_new : DropCollection := [].
Definition DropCollection_push (t : boxed) (self : DropCollection) : DropCollection :=
  self ++ [t].
Definition DropCollection_defer (f : F) (self : DropCollection) : DropCollection :=
  DropCollection_push (BoxDefer (Defer_new f)) self.

(** [FromIterator] and [Extend]. *)
Definition DropCollection_extend (iter : list boxed) (self : DropCollection) : DropCollection :=
  foldl (fun me item => DropCollection_push item me) self iter.
Definition DropCollection_from_iter (iter : list boxed) : DropCollection :=
  DropCollection_extend iter DropCollection_new.

(** ** AsyncDropFutures *)

Definition AsyncDropFutures := list A.
Definition AsyncDropFutures_new : AsyncDropFutures := [].
Definition AsyncDropFutures_push (fut : A) (self : AsyncDropFutures) : AsyncDropFutures :=
  self ++ [fut].

(** ** DestructorSet *)

Inductive ToDestruct := Sync | Async | Item.

Record DestructorSet := mkSet {
  name : string;
  items_to_drop : DropCollection;
  sync_destructors : DropCollection;
  async_destructors : AsyncDropFutures;
  order : list ToDestruct;
  already_ran : bool;
  allow_async : bool;
}.

Definition new (n : string) : DestructorSet :=
  mkSet n DropCollection_new DropCollection_new AsyncDropFutures_new [] false true.

Definition new_without_async (n : string) : DestructorSet :=
  mkSet n DropCollection_new DropCollection_new AsyncDropFutures_new [] false false.

(** [DestructorSet::already_ran]. *)
Definition DestructorSet_already_ran (self : DestructorSet) : bool := already_ran self.

Definition has_been_run (n : string) : string :=
  "Destructor set: " +:+ n +:+ " has been run already".
Definition async_disabled (n : string) : string :=
  "async destructors are disabled in Destructor set: " +:+ n.
Definition only_sync (n : string) : string :=
  "Destructor set: " +:+ n +:+ " is only configured to run sync destructors. To run them drop this instance.".

Definition add_sync_destructor (f : F) (self : DestructorSet)
    : DestructorSet * result string unit :=
  if already_ran self then (self, Err (has_been_run (name self)))
  else (mkSet (name self) (items_to_drop self)
          (DropCollection_defer f (sync_destructors self))
          (async_destructors self) (order self ++ [Sync])
          (already_ran self) (allow_async self), Ok tt).

Definition add_async_destructor (fut : A) (self : DestructorSet)
    : DestructorSet * result string unit :=
  if already_ran self then (self, Err (has_been_run (name self)))
  else if negb (allow_async self) then (self, Err (async_disabled (name self)))
  else (mkSet (name self) (items_to_drop self) (sync_destructors self)
          (AsyncDropFutures_push fut (async_destructors self)) (order self ++ [Async])
          (already_ran self) (allow_async self), Ok tt).

Definition add_items_to_drop (t : I) (self : DestructorSet)
    : DestructorSet * result string unit :=
  if already_ran self then (self, Err (has_been_run (name self)))
  else (mkSet (name self) (DropCollection_push (BoxItem t) (items_to_drop self))
          (sync_destructors self) (async_destructors self) (order self ++ [Item])
          (already_ran self) (allow_async self), Ok tt).

(** The four drains leave empty vectors behind. *)
Definition drained (self : DestructorSet) (ran : bool) : DestructorSet :=
  mkSet (name self) [] [] [] [] ran (allow_async self).

(** What the three drains still hold when they go out of scope, in reverse
    order of declaration; [sync], [async] and [items] are what is left of the
    reversed iterators, and a [Drain] drops its range front to back. *)
Definition drop_drains (sync : list boxed) (async : list A) (items : list boxed)
    : outcome (list event) :=
  ei ← drop_vec (reverse items);
  es ← drop_vec (reverse sync);
  Ret (ei ++ (DroppedAsync <$> reverse async) ++ es).

(** The loop of [Drop::drop]. *)
Fixpoint drop_loop (ord : list ToDestruct) (sync : list boxed) (async : list A)
    (items : list boxed) : outcome (list event) :=
  match ord with
  | [] => drop_drains sync async items
  | Sync :: ord' =>
      match sync with
      | [] => Panic "sync fn always set"
      | b :: sync' => e ← drop_boxed b; es ← drop_loop ord' sync' async items; Ret (e ++ es)
      end
  | Async :: ord' =>
      match async with
      | [] => Panic "async fn always set"
      | a :: async' => es ← drop_loop ord' sync async' items; Ret (DroppedAsync a :: es)
      end
  | Item :: ord' =>
      match items with
      | [] => Panic "item always set"
      | b :: items' => e ← drop_boxed b; es ← drop_loop ord' sync async items'; Ret (e ++ es)
      end
  end.

(** [<DestructorSet as Drop>::drop]. *)
Definition Drop_drop (self : DestructorSet) : outcome (list event * DestructorSet) :=
  if already_ran self then Ret ([], self)
  else
    es ← drop_loop (reverse (order self)) (reverse (sync_destructors self))
           (reverse (async_destructors self)) (reverse (items_to_drop self));
    Ret ((if allow_async self then [WarnedNotAsyncDropped (name self)] else []) ++ es,
         drained self (already_ran self)).

(** Dropping the value: [Drop::drop], then the fields in declaration order. *)
Definition drop_set (self : DestructorSet) : outcome (list event) :=
  p ← Drop_drop self;
  let '(es, self') := p in
  ei ← drop_vec (items_to_drop self');
  e2 ← drop_vec (sync_destructors self');
  Ret (es ++ ei ++ e2 ++ (DroppedAsync <$> async_destructors self')).

(** The future of [async_drop] suspended in [async_fn.await]: the set with its
    vectors drained, the future being awaited, and what the iterators hold. *)
Record suspended := mkSuspended {
  sp_set : DestructorSet;
  sp_future : A;
  sp_order : list ToDestruct;
  sp_sync : list boxed;
  sp_async : list A;
  sp_items : list boxed;
}.

Inductive loop_end :=
| LoopDone (es : list event) (sync : list boxed) (async : list A) (items : list boxed)
| LoopPending (es : list event) (fut : A) (ord : list ToDestruct)
    (sync : list boxed) (async : list A) (items : list boxed).

Definition prepend (es : list event) (r : loop_end) : loop_end :=
  match r with
  | LoopDone es' s a i => LoopDone (es ++ es') s a i
  | LoopPending es' f o s a i => LoopPending (es ++ es') f o s a i
  end.

Inductive status :=
| Finished (es : list event) (r : result string unit)
| Pending (es : list event) (s : suspended).

Section polling.
(** Whether polling a future finds it complete. *)
Variable ready : A -> bool.

(** The loop of [async_drop], up to the first future that is not ready. *)
Fixpoint async_loop (ord : list ToDestruct) (sync : list boxed) (async : list A)
    (items : list boxed) : outcome loop_end :=
  match ord with
  | [] => Ret (LoopDone [] sync async items)
  | Sync :: ord' =>
      match sync with
      | [] => Panic "sync fn always set"
      | b :: sync' =>
          e ← drop_boxed b; r ← async_loop ord' sync' async items; Ret (prepend e r)
      end
  | Async :: ord' =>
      match async with
      | [] => Panic "async fn always set"
      | a :: async' =>
          if ready a
          then r ← async_loop ord' sync async' items; Ret (prepend [AwaitedAsync a] r)
          else Ret (LoopPending [] a ord' sync async' items)
      end
  | Item :: ord' =>
      match items with
      | [] => Panic "item always set"
      | b :: items' =>
          e ← drop_boxed b; r ← async_loop ord' sync async items'; Ret (prepend e r)
      end
  end.

(** The end of [async_drop]: set the flag, drop the drains, drop [self]. *)
Definition finish (self : DestructorSet) (r : loop_end) : outcome status :=
  match r with
  | LoopDone es sync async items =>
      ed ← drop_drains sync async items;
      e2 ← drop_set (drained self true);
      Ret (Finished (es ++ ed ++ e2) (Ok tt))
  | LoopPending es fut ord sync async items =>
      Ret (Pending es (mkSuspended (drained self (already_ran self)) fut ord sync async items))
  end.

(** [async_drop(mut self)]: [self] is consumed, so an early return drops it. *)
Definition async_drop (self : DestructorSet) : outcome status :=
  if already_ran self then
    es ← drop_set self; Ret (Finished es (Err (has_been_run (name self))))
  else if negb (allow_async self) then
    es ← drop_set self; Ret (Finished es (Err (only_sync (name self))))
  else
    r ← async_loop (reverse (order self)) (reverse (sync_destructors self))
          (reverse (async_destructors self)) (reverse (items_to_drop self));
    finish self r.

(** The awaited future has completed: the rest of the loop. *)
Definition resume (s : suspended) : outcome status :=
  r ← async_loop (sp_order s) (sp_sync s) (sp_async s) (sp_items s);
  finish (sp_set s) (prepend [AwaitedAsync (sp_future s)] r).
End polling.

(** The caller drops the suspended future instead of polling it again: the
    awaited future goes first, then the drains, then the set. *)
Definition cancel (s : suspended) : outcome (list event) :=
  ed ← drop_drains (sp_sync s) (sp_async s) (sp_items s);
  e2 ← drop_set (sp_set s);
  Ret (DroppedAsync (sp_future s) :: ed ++ e2).

(** ** Specification: a stack of registered entries *)

Inductive entry := ESync (f : F) | EAsync (a : A) | EItem (i : I).

Definition tag (e : entry) : ToDestruct :=
  match e with ESync _ => Sync | EAsync _ => Async | EItem _ => Item end.
Definition as_sync (e : entry) : option boxed :=
  match e with ESync f => Some (BoxDefer (Defer_new f)) | _ => None end.
Definition as_async (e : entry) : option A :=
  match e with EAsync a => Some a | _ => None end.
Definition as_item (e : entry) : option boxed :=
  match e with EItem i => Some (BoxItem i) | _ => None end.

(** What an entry does when it is run, and when it is only dropped. *)
Definition run_entry (e : entry) : event :=
  match e with ESync f => RanSync f | EAsync a => AwaitedAsync a | EItem i => DroppedItem i end.
Definition drop_entry (e : entry) : event :=
  match e with ESync f => RanSync f | EAsync a => DroppedAsync a | EItem i => DroppedItem i end.

Definition is_EItem (e : entry) : bool := match e with EItem _ => true | _ => false end.
Definition is_EAsync (e : entry) : bool := match e with EAsync _ => true | _ => false end.
Definition is_ESync (e : entry) : bool := match e with ESync _ => true | _ => false end.

(** [holds d allow l]: [d] has not run, and [l] is what was registered in it. *)
Definition holds (d : DestructorSet) (allow : bool) (l : list entry) : Prop :=
  already_ran d = false /\ allow_async d = allow /\ order d = tag <$> l /\
  sync_destructors d = omap as_sync l /\ async_destructors d = omap as_async l /\
  items_to_drop d = omap as_item l.

(** Registering a list of entries, ignoring errors. *)
Definition register1 (e : entry) (d : DestructorSet) : DestructorSet :=
  match e with
  | ESync f => (add_sync_destructor f d).1
  | EAsync a => (add_async_destructor a d).1
  | EItem i => (add_items_to_drop i d).1
  end.
Definition register (l : list entry) (d : DestructorSet) : DestructorSet :=
  foldl (fun d e => register1 e d) d l.

Definition entry_ready (ready : A -> bool) (e : entry) : bool :=
  match e with EAsync a => ready a | _ => true end.

(** A set some program built: a constructor followed by registrations. *)
Inductive built : DestructorSet -> Prop :=
| built_new n : built (new n)
| built_new_without_async n : built (new_without_async n)
| built_sync f d : built d -> built (add_sync_destructor f d).1
| built_async a d : built d -> built (add_async_destructor a d).1
| built_item i d : built d -> built (add_items_to_drop i d).1.
End destructors.

Arguments event : clear implicits.
Arguments boxed : clear implicits.
Arguments DestructorSet : clear implicits.
Arguments suspended : clear implicits.
Arguments status : clear implicits.
Arguments entry : clear implicits.

(** ** Lemmas *)

Section facts.
Context {F A I : Type}.
Implicit Types (d : DestructorSet F A I) (l : list (entry F A I)) (e : entry F A I).
Implicit Types (ready : A -> bool).

Lemma drop_vec_sync l : drop_vec (omap as_sync l) = Ret (run_entry <$> filter (fun e => is_ESync e) l).
Proof.
  induction l as [|[f|a|i] l IH]; [done| | |]; rewrite filter_cons; csimpl; [|done..].
  by rewrite IH.
Qed.

Lemma drop_vec_item l : drop_vec (omap as_item l) = Ret (run_entry <$> filter (fun e => is_EItem e) l).
Proof.
  induction l as [|[f|a|i] l IH]; [done| | |]; rewrite filter_cons; csimpl; [done..|].
  by rewrite IH.
Qed.

Lemma dropped_async l :
  DroppedAsync <$> omap as_async l = drop_entry <$> filter (fun e => is_EAsync e) l.
Proof.
  induction l as [|[f|a|i] l IH]; [done| | |]; rewrite filter_cons; csimpl; [done| |done].
  by f_equal.
Qed.

(** What the drains drop when [l] (in drain order) is still in them. *)
Definition drop_rest l : list (event F A I) :=
  (run_entry <$> filter (fun e => is_EItem e) (reverse l)) ++
  (drop_entry <$> filter (fun e => is_EAsync e) (reverse l)) ++
  (run_entry <$> filter (fun e => is_ESync e) (reverse l)).

Lemma drop_drains_entries l :
  drop_drains (omap as_sync l) (omap as_async l) (omap as_item l) = Ret (drop_rest l).
Proof.
  unfold drop_drains. rewrite <-!omap_reverse, drop_vec_item, drop_vec_sync.
  cbn. by rewrite dropped_async.
Qed.

Lemma drop_set_drained d ran :
  drop_set (drained d ran) =
  Ret (if ran then [] else if allow_async d then [WarnedNotAsyncDropped (name d)] else []).
Proof. destruct d as [????? [] []], ran; reflexivity. Qed.

(** Where the drains hold [l], the loop of [Drop::drop] drops it in order. *)
Lemma drop_loop_entries l :
  drop_loop (tag <$> l) (omap as_sync l) (omap as_async l) (omap as_item l) =
  Ret (drop_entry <$> l).
Proof.
  induction l as [|[f|a|i] l IH]; [done|..]; csimpl; by rewrite IH.
Qed.

(** The loop of [async_drop] runs every entry up to the first future that is
    not ready, then goes on with the rest. *)
Lemma async_loop_entries ready l1 l2 :
  Forall (fun e => entry_ready ready e) l1 ->
  async_loop ready (tag <$> l1 ++ l2) (omap as_sync (l1 ++ l2)) (omap as_async (l1 ++ l2))
    (omap as_item (l1 ++ l2)) =
  (prepend (run_entry <$> l1)) <$>
    async_loop ready (tag <$> l2) (omap as_sync l2) (omap as_async l2) (omap as_item l2).
Proof.
  induction 1 as [|e l1 He Hl IH].
  - cbn [app]. destruct (async_loop ready (tag <$> l2) _ _ _) as [[]|]; done.
  - destruct e as [f|a|i]; csimpl; cbn in He;
      [| destruct (ready a); [|done] |]; rewrite IH;
      destruct (async_loop ready (tag <$> l2) _ _ _) as [[]|]; reflexivity.
Qed.

Lemma async_loop_all ready l :
  Forall (fun e => entry_ready ready e) l ->
  async_loop ready (tag <$> l) (omap as_sync l) (omap as_async l) (omap as_item l) =
  Ret (LoopDone (run_entry <$> l) [] [] []).
Proof.
  intros H. rewrite <-(app_nil_r l) at 1 2 3 4.
  rewrite async_loop_entries by done. cbn. by rewrite app_nil_r.
Qed.

(** ** The representation invariant *)

Lemma holds_new n : holds (new n : DestructorSet F A I) true [].
Proof. done. Qed.

Lemma holds_new_without_async n : holds (new_without_async n : DestructorSet F A I) false [].
Proof. done. Qed.

Lemma omap_snoc {X Y} (g : X -> option Y) (xs : list X) x :
  omap g (xs ++ [x]) = omap g xs ++ match g x with Some y => [y] | None => [] end.
Proof. by rewrite omap_app. Qed.

Lemma holds_add_sync d allow l f :
  holds d allow l ->
  (add_sync_destructor f d).2 = Ok tt /\
  holds (add_sync_destructor f d).1 allow (l ++ [ESync f]).
Proof.
  intros (Hr & Ha & Ho & Hs & Has & Hi). unfold add_sync_destructor. rewrite Hr.
  split; [done|]. unfold holds; cbn.
  unfold DropCollection_defer, DropCollection_push.
  rewrite fmap_app, !omap_snoc, Ho, Hs, Has, Hi. cbn. by rewrite !app_nil_r.
Qed.

Lemma holds_add_async d l a :
  holds d true l ->
  (add_async_destructor a d).2 = Ok tt /\
  holds (add_async_destructor a d).1 true (l ++ [EAsync a]).
Proof.
  intros (Hr & Ha & Ho & Hs & Has & Hi). unfold add_async_destructor. rewrite Hr, Ha.
  split; [done|]. unfold holds; cbn. unfold AsyncDropFutures_push.
  rewrite fmap_app, !omap_snoc, Ho, Hs, Has, Hi. cbn. by rewrite !app_nil_r.
Qed.

Lemma holds_add_async_refused d l a :
  holds d false l -> add_async_destructor a d = (d, Err (async_disabled (name d))).
Proof. intros (Hr & Ha & _). unfold add_async_destructor. by rewrite Hr, Ha. Qed.

Lemma holds_add_item d allow l i :
  holds d allow l ->
  (add_items_to_drop i d).2 = Ok tt /\
  holds (add_items_to_drop i d).1 allow (l ++ [EItem i]).
Proof.
  intros (Hr & Ha & Ho & Hs & Has & Hi). unfold add_items_to_drop. rewrite Hr.
  split; [done|]. unfold holds; cbn. unfold DropCollection_push.
  rewrite fmap_app, !omap_snoc, Ho, Hs, Has, Hi. cbn. by rewrite !app_nil_r.
Qed.

Lemma built_holds d : built d -> exists l, holds d (allow_async d) l.
Proof.
  induction 1 as [n|n|f d _ [l H]|a d _ [l H]|i d _ [l H]].
  - by exists [].
  - by exists [].
  - pose proof H as (_ & Hf). destruct (holds_add_sync _ _ _ f H) as [_ H'].
    pose proof H' as (_ & Heq & _). eexists. by rewrite Heq.
  - destruct (allow_async d) eqn:Ha.
    + destruct (holds_add_async _ _ a H) as [_ H']. pose proof H' as (_ & Heq & _).
      eexists. by rewrite Heq.
    + exists l. rewrite (holds_add_async_refused _ _ a H). cbn. by rewrite Ha.
  - destruct (holds_add_item _ _ _ i H) as [_ H'].
    pose proof H' as (_ & Heq & _). eexists. by rewrite Heq.
Qed.

Lemma holds_register l : forall d l0, holds d true l0 -> holds (register l d) true (l0 ++ l).
Proof.
  induction l as [|e l IH]; intros d l0 H; cbn; [by rewrite app_nil_r|].
  rewrite cons_middle, app_assoc. apply IH. destruct e; cbn.
  - by apply holds_add_sync.
  - by apply holds_add_async.
  - by apply holds_add_item.
Qed.

(** ** Tear-down *)

Lemma drop_set_holds d allow l :
  holds d allow l ->
  drop_set d = Ret ((if allow then [WarnedNotAsyncDropped (name d)] else []) ++
                    (drop_entry <$> reverse l)).
Proof.
  intros (Hr & Ha & Ho & Hs & Has & Hi). unfold drop_set, Drop_drop.
  rewrite Hr, Ha, Ho, Hs, Has, Hi, <-!omap_reverse, <-fmap_reverse, drop_loop_entries.
  cbn. by rewrite !app_nil_r.
Qed.

Lemma async_drop_holds ready d l :
  holds d true l -> Forall (fun e => entry_ready ready e) l ->
  async_drop ready d = Ret (Finished (run_entry <$> reverse l) (Ok tt)).
Proof.
  intros (Hr & Ha & Ho & Hs & Has & Hi) Hready. unfold async_drop. rewrite Hr, Ha.
  rewrite Ho, Hs, Has, Hi, <-!omap_reverse, <-fmap_reverse. cbn [negb].
  rewrite async_loop_all by (by apply Forall_reverse).
  unfold finish; cbn -[drop_set]. rewrite drop_set_drained. cbn. by rewrite !app_nil_r.
Qed.

(** The state in which [async_drop] waits for [a], [l1] being the entries
    registered before [a]. *)
Definition waiting d l1 a : suspended F A I :=
  mkSuspended (drained d false) a (tag <$> reverse l1) (omap as_sync (reverse l1))
    (omap as_async (reverse l1)) (omap as_item (reverse l1)).

Lemma async_drop_waits ready d l1 a l2 :
  holds d true (l1 ++ EAsync a :: l2) ->
  Forall (fun e => entry_ready ready e) l2 -> ready a = false ->
  async_drop ready d = Ret (Pending (run_entry <$> reverse l2) (waiting d l1 a)).
Proof.
  intros (Hr & Ha & Ho & Hs & Has & Hi) Hready Hnot. unfold async_drop. rewrite Hr, Ha.
  rewrite Ho, Hs, Has, Hi, <-!omap_reverse, <-fmap_reverse. cbn [negb].
  rewrite reverse_app, reverse_cons, <-!app_assoc.
  rewrite async_loop_entries by (by apply Forall_reverse).
  cbn. rewrite Hnot. cbn. rewrite app_nil_r, Hr. reflexivity.
Qed.

Lemma resume_waiting ready d l1 a :
  Forall (fun e => entry_ready ready e) l1 -> allow_async d = true ->
  resume ready (waiting d l1 a) =
  Ret (Finished (AwaitedAsync a :: (run_entry <$> reverse l1)) (Ok tt)).
Proof.
  intros H Ha. unfold resume, waiting. cbn -[async_loop].
  rewrite async_loop_all by (by apply Forall_reverse).
  unfold finish; cbn -[drop_set]. rewrite drop_set_drained. cbn. by rewrite !app_nil_r.
Qed.

Lemma cancel_waiting d l1 a :
  allow_async d = true ->
  cancel (waiting d l1 a) =
  Ret (DroppedAsync a :: drop_rest (reverse l1) ++ [WarnedNotAsyncDropped (name d)]).
Proof.
  intros Ha. unfold cancel, waiting. cbn -[drop_drains drop_set].
  rewrite drop_drains_entries. cbn -[drop_set].
  rewrite drop_set_drained. rewrite Ha. reflexivity.
Qed.
End facts.

(** ** Properties *)

Section properties.
Context {F A I : Type}.
Implicit Types (d : DestructorSet F A I) (l : list (entry F A I)).
Implicit Types (ready : A -> bool).

(** The suspensions an [async_drop] of [d] goes through. *)
Inductive suspends d : suspended F A I -> Prop :=
| suspends_first ready es s :
    async_drop ready d = Ret (Pending es s) -> suspends d s
| suspends_again ready s es s' :
    suspends d s -> resume ready s = Ret (Pending es s') -> suspends d s'.

(** Either everything is ready, or there is a last entry that is not. *)
Lemma split_ready ready l :
  Forall (fun e => entry_ready ready e) l \/
  exists l1 a l2, l = l1 ++ EAsync a :: l2 /\ ready a = false /\
    Forall (fun e => entry_ready ready e) l2.
Proof.
  induction l as [|e l IH]; [by left|]. destruct IH as [IH|(l1 & a & l2 & -> & Ha & IH)].
  - destruct (entry_ready ready e) eqn:He.
    + left. constructor; [|done]. by rewrite He.
    + destruct e as [?|a|?]; cbn in He; try discriminate.
      right. by exists [], a, l.
  - right. by exists (e :: l1), a, l2.
Qed.

Lemma suspends_waiting d l s :
  holds d true l -> suspends d s -> exists l1 a l2, l = l1 ++ EAsync a :: l2 /\ s = waiting d l1 a.
Proof.
  intros Hd. induction 1 as [ready es s Hs|ready s es s' _ (l1 & a & l2 & Hl & ->) Hs'].
  - destruct (split_ready ready l) as [H|(l1 & a & l2 & -> & Ha & H)].
    + rewrite (async_drop_holds ready d l Hd H) in Hs. discriminate.
    + rewrite (async_drop_waits ready d l1 a l2 Hd H Ha) in Hs. injection Hs as _ <-.
      by exists l1, a, l2.
  - pose proof Hd as (_ & Hallow & _).
    destruct (split_ready ready l1) as [H|(l3 & a' & l4 & -> & Ha & H)].
    + rewrite (resume_waiting ready d l1 a H Hallow) in Hs'. discriminate.
    + unfold resume, waiting in Hs'. cbn -[async_loop] in Hs'.
      rewrite reverse_app, reverse_cons, <-app_assoc in Hs'.
      rewrite async_loop_entries in Hs' by (by apply Forall_reverse).
      cbn in Hs'. rewrite Ha in Hs'. cbn in Hs'. injection Hs' as _ <-.
      exists l3, a', (l4 ++ EAsync a :: l2). by rewrite Hl, <-app_assoc.
Qed.

(** C1: tear-down is LIFO.  Whatever is registered in a fresh set, in whatever
    order, [async_drop] runs every closure and awaits every future exactly
    once and drops every item, in the reverse of the registration order, and
    returns [Ok] (all futures completing). *)
Theorem async_drop_lifo ready n l :
  Forall (fun e => entry_ready ready e) l ->
  async_drop ready (register l (new n)) = Ret (Finished (run_entry <$> reverse l) (Ok tt)).
Proof.
  intros H. apply async_drop_holds; [|done].
  apply (holds_register l _ []), holds_new.
Qed.

(** Dropping the set without [async_drop] warns, then goes through the
    same entries in the same reverse order, but its futures are dropped and
    never awaited. *)
Lemma drop_without_async_drop n l :
  drop_set (register l (new n)) =
  Ret (WarnedNotAsyncDropped n :: (drop_entry <$> reverse l)).
Proof.
  assert (H : holds (register l (new n)) true l) by apply (holds_register l _ []), holds_new.
  rewrite (drop_set_holds _ true l H). do 2 f_equal. f_equal.
  assert (Hn : forall d, name (register l d) = name d).
  { clear. induction l as [|e l IH]; intros d; [done|].
    change (name (register l (register1 e d)) = name d). rewrite IH. destruct e; cbn; unfold add_sync_destructor, add_async_destructor, add_items_to_drop;
      repeat case_match; done. }
  by rewrite Hn.
Qed.

(** C3: no [expect] of the destructor set ever fails: for any set built through
    its API, dropping it, [async_drop], resuming it after any suspension and
    cancelling it at any suspension all return without panicking. *)
Theorem destructor_set_never_panics d :
  built d ->
  (exists es, drop_set d = Ret es) /\
  (forall ready, exists st, async_drop ready d = Ret st) /\
  (forall s, suspends d s ->
     (forall ready, exists st, resume ready s = Ret st) /\ exists es, cancel s = Ret es).
Proof.
  intros [l Hd]%built_holds. destruct (allow_async d) eqn:Ha.
  - split; [rewrite (drop_set_holds _ _ _ Hd); eauto|]. split.
    + intros ready. destruct (split_ready ready l) as [H|(l1 & a & l2 & -> & Hf & H)].
      * rewrite (async_drop_holds ready d l Hd H). eauto.
      * rewrite (async_drop_waits ready d l1 a l2 Hd H Hf). eauto.
    + intros s Hs. destruct (suspends_waiting d l s Hd Hs) as (l1 & a & l2 & -> & ->).
      split; [|rewrite cancel_waiting by done; eauto]. intros ready.
      destruct (split_ready ready l1) as [H|(l3 & a' & l4 & -> & Hf & H)].
      * rewrite (resume_waiting ready d l1 a H Ha). eauto.
      * unfold resume, waiting. cbn -[async_loop].
        rewrite reverse_app, reverse_cons, <-app_assoc.
        rewrite async_loop_entries by (by apply Forall_reverse).
        cbn. rewrite Hf. cbn. eauto.
  - assert (Hrun : forall ready, exists es e, async_drop ready d = Ret (Finished es (Err e))).
    { intros ready. pose proof Hd as (Hr & _). unfold async_drop. rewrite Hr, Ha.
      cbn [negb]. rewrite (drop_set_holds _ _ _ Hd). cbn. eauto. }
    split; [rewrite (drop_set_holds _ _ _ Hd); eauto|]. split.
    + intros ready. destruct (Hrun ready) as (es & e & ->). eauto.
    + intros s Hs. exfalso. induction Hs as [ready es s Hs|]; [|done].
      destruct (Hrun ready) as (es' & e & Heq). congruence.
Qed.

(** Calling [async_drop] on a set that only allows sync destructors reports
    an error and yet tears the set down: the closures run and the items are
    dropped, in reverse order, because the call consumes the set. *)
Lemma async_drop_sync_only ready d l :
  holds d false l ->
  async_drop ready d = Ret (Finished (drop_entry <$> reverse l) (Err (only_sync (name d)))) /\
  forall a, add_async_destructor a d = (d, Err (async_disabled (name d))).
Proof.
  intros Hd. split; [|intros a; by apply (holds_add_async_refused d l)].
  pose proof Hd as (Hr & Ha & _). unfold async_drop. rewrite Hr, Ha. cbn [negb].
  by rewrite (drop_set_holds _ _ _ Hd).
Qed.

(** A suspension changes nothing: if the future [a] is not ready,
    [async_drop] has run exactly the entries registered after [a]; once it
    completes, the rest runs, and the events are those of an uninterrupted run. *)
Lemma async_drop_resumes ready ready' d l1 a l2 :
  holds d true (l1 ++ EAsync a :: l2) ->
  Forall (fun e => entry_ready ready e) l2 -> ready a = false ->
  Forall (fun e => entry_ready ready' e) l1 ->
  exists es s es',
    async_drop ready d = Ret (Pending es s) /\
    resume ready' s = Ret (Finished es' (Ok tt)) /\
    es = run_entry <$> reverse l2 /\
    es ++ es' = run_entry <$> reverse (l1 ++ EAsync a :: l2).
Proof.
  intros Hd H2 Hf H1. pose proof Hd as (_ & Ha & _).
  eexists _, _, _. split; [by apply async_drop_waits|].
  split; [by apply resume_waiting|]. split; [done|].
  rewrite reverse_app, reverse_cons, !fmap_app, <-app_assoc. done.
Qed.

(** C19: cancelling [async_drop] while it waits loses nothing and runs nothing
    twice, but the entries registered before the awaited future are torn down
    out of order: first the items, then the futures (dropped), then the
    closures, each group in registration order. *)
Theorem async_drop_cancelled ready d l1 a l2 :
  holds d true (l1 ++ EAsync a :: l2) ->
  Forall (fun e => entry_ready ready e) l2 -> ready a = false ->
  exists es s es',
    async_drop ready d = Ret (Pending es s) /\ cancel s = Ret es' /\
    es' = DroppedAsync a :: (run_entry <$> filter (fun e => is_EItem e) l1) ++
            (drop_entry <$> filter (fun e => is_EAsync e) l1) ++
            (run_entry <$> filter (fun e => is_ESync e) l1) ++ [WarnedNotAsyncDropped (name d)] /\
    (es ++ es') ≡ₚ WarnedNotAsyncDropped (name d) ::
      (drop_entry <$> l1) ++ DroppedAsync a :: (run_entry <$> l2).
Proof.
  intros Hd H2 Hf. pose proof Hd as (_ & Ha & _).
  eexists _, _, _. split; [by apply async_drop_waits|].
  split; [by apply cancel_waiting|]. unfold drop_rest. rewrite !reverse_involutive.
  split; [by rewrite <-!app_assoc|].
  assert (Hl1 : (run_entry <$> filter (fun e => is_EItem e) l1) ++
            (drop_entry <$> filter (fun e => is_EAsync e) l1) ++
            (run_entry <$> filter (fun e => is_ESync e) l1) ≡ₚ drop_entry <$> l1).
  { clear. induction l1 as [|[f|a|i] l IH]; [done|..]; rewrite !filter_cons; csimpl; rewrite <-IH.
    - by rewrite !app_assoc, <-Permutation_middle.
    - by rewrite <-Permutation_middle.
    - done. }
  rewrite reverse_Permutation. rewrite <-Hl1.
  rewrite (Permutation_app_comm _ [WarnedNotAsyncDropped (name d)]). cbn.
  rewrite <-!Permutation_middle. rewrite (Permutation_app_comm (run_entry <$> l2)).
  rewrite <-!app_assoc. apply perm_swap.
Qed.
End properties.

(** ** Witnesses *)

Definition demo : list (entry nat nat nat) := [EAsync 1; ESync 2; EItem 3; EAsync 4; ESync 5].
Definition demo_set : DestructorSet nat nat nat := register demo (new "demo").

Lemma async_drop_lifo_witness :
  async_drop (fun _ => true) demo_set =
  Ret (Finished [RanSync 5; AwaitedAsync 4; DroppedItem 3; RanSync 2; AwaitedAsync 1] (Ok tt)).
Proof. apply (async_drop_lifo (fun _ => true) "demo" demo). repeat constructor. Defined.

Lemma destructor_set_never_panics_witness :
  exists es, drop_set demo_set = Ret es.
Proof.
  apply (destructor_set_never_panics demo_set).
  repeat first [apply built_sync | apply built_async | apply built_item]. apply built_new.
Defined.

Definition demo_sync_set : DestructorSet nat nat nat :=
  (add_sync_destructor 8 (add_items_to_drop 7 (new_without_async "s")).1).1.

Lemma async_drop_sync_only_witness :
  async_drop (fun _ => true) demo_sync_set =
  Ret (Finished [RanSync 8; DroppedItem 7] (Err (only_sync "s"))).
Proof.
  apply (async_drop_sync_only (fun _ => true) demo_sync_set [EItem 7; ESync 8]).
  vm_compute. repeat split.
Defined.

Lemma async_drop_resumes_witness :
  exists es s es',
    async_drop (fun a => negb (a =? 4)) demo_set = Ret (Pending es s) /\
    resume (fun _ => true) s = Ret (Finished es' (Ok tt)) /\
    es = [RanSync 5] /\
    es ++ es' = [RanSync 5; AwaitedAsync 4; DroppedItem 3; RanSync 2; AwaitedAsync 1].
Proof.
  apply (async_drop_resumes (fun a => negb (a =? 4)) (fun _ => true) demo_set
           [EAsync 1; ESync 2; EItem 3] 4 [ESync 5]).
  - vm_compute. repeat split.
  - repeat constructor.
  - reflexivity.
  - repeat constructor.
Defined.

Lemma async_drop_cancelled_witness :
  exists es s es',
    async_drop (fun a => negb (a =? 4)) demo_set = Ret (Pending es s) /\
    cancel s = Ret es' /\
    es' = [DroppedAsync 4; DroppedItem 3; DroppedAsync 1; RanSync 2; WarnedNotAsyncDropped "demo"] /\
    (es ++ es') ≡ₚ [WarnedNotAsyncDropped "demo"; DroppedAsync 1; RanSync 2; DroppedItem 3;
                    DroppedAsync 4; RanSync 5].
Proof.
  apply (async_drop_cancelled (fun a => negb (a =? 4)) demo_set
           [EAsync 1; ESync 2; EItem 3] 4 [ESync 5]).
  - vm_compute. repeat split.
  - repeat constructor.
  - reflexivity.
Defined.
