(* ===== verification/Teardown.v ===== *)
(** The interface of a destructor set, as its clients (the farmer, the node,
    the DSN and the domain) rely on it: the operations as a class, their laws
    as a second class over an abstract stack of entries, and the proof that
    [Destructors.DestructorSet] implements them. *)
From S2P Require Import Prelude Destructors.

Class TeardownApi (D F A I : Type) := {
  td_new : string -> D;
  td_new_without_async : string -> D;
  td_add_sync : F -> D -> D * result string unit;
  td_add_async : A -> D -> D * result string unit;
  td_add_item : I -> D -> D * result string unit;
  (** [None]: the call is still waiting for a future. *)
  td_async_drop : (A -> bool) -> D -> outcome (option (list (event F A I) * result string unit));
  td_drop : D -> outcome (list (event F A I));
  (** [td_holds d allow l]: [d] is live, allows futures iff [allow], and [l]
      was registered in it. *)
  td_holds : D -> bool -> list (entry F A I) -> Prop;
}.

Class TeardownLaws (D F A I : Type) `{TeardownApi D F A I} : Prop := {
  td_holds_new n : td_holds (td_new n) true [];
  td_holds_new_without_async n : td_holds (td_new_without_async n) false [];
  td_holds_sync d allow l f : td_holds d allow l ->
    (td_add_sync f d).2 = Ok tt /\ td_holds (td_add_sync f d).1 allow (l ++ [ESync f]);
  td_holds_async d l a : td_holds d true l ->
    (td_add_async a d).2 = Ok tt /\ td_holds (td_add_async a d).1 true (l ++ [EAsync a]);
  td_holds_item d allow l i : td_holds d allow l ->
    (td_add_item i d).2 = Ok tt /\ td_holds (td_add_item i d).1 allow (l ++ [EItem i]);
  td_async_drop_runs ready d l : td_holds d true l ->
    Forall (fun e => entry_ready ready e) l ->
    td_async_drop ready d = Ret (Some (run_entry <$> reverse l, Ok tt));
  (** Only a warning may precede the entries. *)
  td_drop_runs d allow l : td_holds d allow l ->
    exists w, td_drop d = Ret (w ++ (drop_entry <$> reverse l)) /\
      Forall (fun e => exists n, e = WarnedNotAsyncDropped n) w;
}.

#[export] Instance DestructorSet_api {F A I} : TeardownApi (DestructorSet F A I) F A I := {|
  td_new := new;
  td_new_without_async := new_without_async;
  td_add_sync := add_sync_destructor;
  td_add_async := add_async_destructor;
  td_add_item := add_items_to_drop;
  td_async_drop ready d :=
    st ← async_drop ready d;
    Ret (match st with Finished es r => Some (es, r) | Pending _ _ => None end);
  td_drop := drop_set;
  td_holds := holds;
|}.

#[export] Instance DestructorSet_laws {F A I} : TeardownLaws (DestructorSet F A I) F A I.
Proof.
  constructor; cbn.
  - apply holds_new.
  - apply holds_new_without_async.
  - apply holds_add_sync.
  - apply holds_add_async.
  - apply holds_add_item.
  - intros ready d l Hd Hl. by rewrite (async_drop_holds _ _ _ Hd Hl).
  - intros d allow l Hd. rewrite (drop_set_holds _ _ _ Hd). eexists. split; [done|].
    destruct allow; repeat constructor. eauto.
Qed.

Section clients.
Context {D F A I : Type} `{TeardownLaws D F A I}.

(** Registering with [?] after each call, as the builders do. *)
Definition td_register1 (e : entry F A I) (d : D) : D * result string unit :=
  match e with
  | ESync f => td_add_sync f d
  | EAsync a => td_add_async a d
  | EItem i => td_add_item i d
  end.

Fixpoint td_register (l : list (entry F A I)) (d : D) : D * result string unit :=
  match l with
  | [] => (d, Ok tt)
  | e :: l' =>
      match td_register1 e d with
      | (d', Ok _) => td_register l' d'
      | (d', Err err) => (d', Err err)
      end
  end.

Lemma td_register_holds l : forall d l0, td_holds d true l0 ->
  (td_register l d).2 = Ok tt /\ td_holds (td_register l d).1 true (l0 ++ l).
Proof.
  induction l as [|e l IH]; intros d l0 Hd; cbn; [by rewrite app_nil_r|].
  assert (H1 : (td_register1 e d).2 = Ok tt /\ td_holds (td_register1 e d).1 true (l0 ++ [e])).
  { destruct e; cbn; auto using td_holds_sync, td_holds_async, td_holds_item. }
  destruct (td_register1 e d) as [d' [[]|err]]; cbn in H1; destruct H1 as [H1 H2]; [|done].
  rewrite (cons_middle e), app_assoc. by apply IH.
Qed.

(** Building with only registrations of allowed kinds never fails. *)
Lemma td_register_holds_sync l : forall d l0,
  Forall (fun e => is_EAsync e = false) l -> td_holds d false l0 ->
  (td_register l d).2 = Ok tt /\ td_holds (td_register l d).1 false (l0 ++ l).
Proof.
  induction l as [|e l IH]; intros d l0 Hl Hd; cbn; [by rewrite app_nil_r|].
  inversion Hl as [|? ? He Hl']; subst.
  assert (H1 : (td_register1 e d).2 = Ok tt /\ td_holds (td_register1 e d).1 false (l0 ++ [e])).
  { destruct e; cbn in *; [|done|]; auto using td_holds_sync, td_holds_item. }
  destruct (td_register1 e d) as [d' [[]|err]]; cbn in H1; destruct H1 as [H1 H2]; [|done].
  rewrite (cons_middle e), app_assoc. by apply IH.
Qed.
End clients.
