(* ===== verification/Ss58.v ===== *)
(** The SS58 reward-address parser (utils/src/lib.rs, [mod parse_ss58]).

    Base58, Blake2b-512 and the SS58 registry are crates: they are the
    parameters [from_base58], [blake2b_512] and [is_reserved].  Slices are
    checked, so that a panic would be visible. *)
From S2P Require Import Prelude.

#[local] Open Scope Z_scope.

Inductive Ss58ParsingError :=
| BadBase58
| BadLength
| InvalidPrefix
| FormatNotAllowed
| InvalidChecksum.

(** [b"SS58PRE"]. *)
Definition PREFIX : list Z := [83; 83; 53; 56; 80; 82; 69].
Definition CHECKSUM_LEN : nat := 2.
Definition PUBLIC_KEY_LENGTH : nat := 32.

(** [u8 << 2] in an 8-bit register, and the two-byte identifier. *)
Definition two_byte_ident (d0 d1 : Z) : Z :=
  let lower := Z.lor (cast 8 (Z.shiftl d0 2)) (Z.shiftr d1 6) in
  let upper := Z.land d1 63 in
  Z.lor lower (Z.shiftl upper 8).

Section parser.
Variable from_base58 : string -> option (list Z).
Variable blake2b_512 : list Z -> list Z.
Variable is_reserved : Z -> bool.

Definition ss58hash (data : list Z) : list Z := blake2b_512 (PREFIX ++ data).

(** [match data[0]]: the length of the prefix and the address format. *)
Definition parse_prefix (data : list Z) : outcome (result Ss58ParsingError (nat * Z)) :=
  d0 ← index data 0;
  if decide (0 <= d0 <= 63) then Ret (Ok (1%nat, d0))
  else if decide (64 <= d0 <= 127) then
    d1 ← index data 1; Ret (Ok (2%nat, two_byte_ident d0 d1))
  else Ret (Err InvalidPrefix).

Definition parse_ss58_reward_address (s : string)
    : outcome (result Ss58ParsingError (list Z)) :=
  match from_base58 s with
  | None => Ret (Err BadBase58)
  | Some data =>
      if decide (length data < 2)%nat then Ret (Err BadLength)
      else
        p ← parse_prefix data;
        match p with
        | Err e => Ret (Err e)
        | Ok (prefix_len, ident) =>
            if decide (length data <> prefix_len + PUBLIC_KEY_LENGTH + CHECKSUM_LEN)%nat
            then Ret (Err BadLength)
            else if is_reserved ident then Ret (Err FormatNotAllowed)
            else
              body ← slice data 0 (PUBLIC_KEY_LENGTH + prefix_len);
              checksum ← slice (ss58hash body) 0 CHECKSUM_LEN;
              given ← slice data (PUBLIC_KEY_LENGTH + prefix_len)
                        (PUBLIC_KEY_LENGTH + prefix_len + CHECKSUM_LEN);
              if decide (given <> checksum) then Ret (Err InvalidChecksum)
              else
                rest ← slice data prefix_len (length data);
                bytes ← slice rest 0 PUBLIC_KEY_LENGTH;
                (* try_into::<[u8; PUBLIC_KEY_LENGTH]> *)
                if decide (length bytes = PUBLIC_KEY_LENGTH) then Ret (Ok bytes)
                else Ret (Err BadLength)
        end
  end.

(** [<PublicKey as FromStr>::from_str]. *)
Definition PublicKey_from_str (s : string) : outcome (result Ss58ParsingError (list Z)) :=
  parse_ss58_reward_address s.

(** ** Specification: the SS58 address format *)

(** The prefix bytes of an address format: one byte below 64, two bytes up to
    2^14, little endian with the six high bits of the low byte first. *)
Definition encode_prefix (ident : Z) : list Z :=
  if decide (ident < 64) then [ident]
  else [Z.lor 64 (Z.shiftr (Z.land ident 252) 2);
        Z.lor (Z.shiftr ident 8) (Z.shiftl (Z.land ident 3) 6)].

Definition with_checksum (payload : list Z) : list Z :=
  payload ++ take CHECKSUM_LEN (ss58hash payload).

Definition ss58_encode (ident : Z) (key : list Z) : list Z :=
  with_checksum (encode_prefix ident ++ key).

(** A prefix as the parser reads it: the bytes and the format they denote. *)
Inductive prefix_denotes : list Z -> Z -> Prop :=
| one_byte d0 : 0 <= d0 <= 63 -> prefix_denotes [d0] d0
| two_bytes d0 d1 : 64 <= d0 <= 127 -> prefix_denotes [d0; d1] (two_byte_ident d0 d1).
End parser.

(** ** Lemmas on the prefix *)

(** Bits that do not overlap are added. *)
Lemma lor_shiftl_add a b k : 0 <= k -> 0 <= a < 2 ^ k -> Z.lor a (Z.shiftl b k) = a + b * 2 ^ k.
Proof.
  intros Hk Ha. rewrite <-Z.shiftl_mul_pow2 by done. rewrite <-Z.add_lor_land.
  enough (Z.land a (Z.shiftl b k) = 0) as -> by lia.
  apply Z.bits_inj'. intros n Hn. rewrite Z.land_spec, Z.bits_0, Z.shiftl_spec by done.
  destruct (decide (n < k)); [by rewrite (Z.testbit_neg_r b), andb_false_r by lia|].
  by rewrite <-(Z.mod_small a (2 ^ k)), Z.mod_pow2_bits_high by lia.
Qed.

(** The layout the source comment announces: [01aaaaaa bbcccccc] denotes
    [00cccccc aaaaaabb]. *)
Lemma two_byte_ident_spec d0 d1 :
  in_u 8 d0 -> in_u 8 d1 ->
  two_byte_ident d0 d1 = d1 mod 64 * 256 + d0 mod 64 * 4 + d1 / 64.
Proof.
  unfold in_u. intros H0 H1. unfold two_byte_ident, cast.
  change 63 with (Z.ones 6). rewrite Z.land_ones by lia.
  assert (Hl : Z.shiftl d0 2 mod 2 ^ 8 = Z.shiftl (d0 mod 64) 2).
  { rewrite !Z.shiftl_mul_pow2 by lia. change (2 ^ 8) with (64 * 2 ^ 2). by rewrite Z.mul_mod_distr_r by lia. }
  rewrite Hl, Z.shiftr_div_pow2, (Z.lor_comm (Z.shiftl _ 2)) by lia.
  pose proof (Z.mod_pos_bound d0 64 ltac:(lia)) as Hm0.
  pose proof (Z.mod_pos_bound d1 64 ltac:(lia)) as Hm1.
  assert (Hd : 0 <= d1 / 64 < 4) by (split; [by apply Z.div_pos; lia|by apply Z.div_lt_upper_bound; lia]).
  change (2 ^ 6) with 64. rewrite (lor_shiftl_add (d1 / 64) (d0 mod 64) 2) by lia.
  rewrite lor_shiftl_add by lia. lia.
Qed.

(** The bytes of a two-byte prefix. *)
Lemma encode_prefix_bytes ident : 64 <= ident < 16384 ->
  encode_prefix ident = [64 + (ident / 4) mod 64; ident / 256 + ident mod 4 * 64].
Proof.
  intros Hi. unfold encode_prefix. rewrite decide_False by lia.
  pose proof (Z.mod_pos_bound (ident / 4) 64 ltac:(lia)) as Hm.
  assert (Hd : 0 <= ident / 256 < 64) by (split; [by apply Z.div_pos; lia|by apply Z.div_lt_upper_bound; lia]).
  f_equal; [|f_equal].
  - rewrite Z.shiftr_land. change (Z.shiftr 252 2) with (Z.ones 6). rewrite Z.land_ones, Z.shiftr_div_pow2 by lia.
    change (2 ^ 2) with 4. change (2 ^ 6) with 64. rewrite Z.lor_comm. change 64 with (Z.shiftl 1 6) at 2.
    rewrite lor_shiftl_add by (cbn; lia). change (2 ^ 6) with 64. lia.
  - change 3 with (Z.ones 2). rewrite Z.land_ones, Z.shiftr_div_pow2 by lia.
    by rewrite lor_shiftl_add by (change (2 ^ 8) with 256; change (2 ^ 6) with 64; lia).
Qed.

Lemma encode_prefix_denotes ident :
  0 <= ident < 16384 -> prefix_denotes (encode_prefix ident) ident.
Proof.
  intros H. destruct (decide (ident < 64)) as [Hlt|Hge].
  { unfold encode_prefix. rewrite decide_True by done. constructor. lia. }
  rewrite encode_prefix_bytes by lia.
  set (d0 := 64 + (ident / 4) mod 64). set (d1 := ident / 256 + ident mod 4 * 64).
  assert (Hd : 64 <= d0 <= 127 /\ 0 <= d1 < 256 /\ d0 mod 64 = (ident / 4) mod 64 /\
    d1 mod 64 = ident / 256 /\ d1 / 64 = ident mod 4 /\
    ident / 256 * 256 + (ident / 4) mod 64 * 4 + ident mod 4 = ident).
  { subst d0 d1. Z.to_euclidean_division_equations. lia. }
  destruct Hd as (H0 & H1 & Hm0 & Hm1 & Hd1 & Hsum).
  assert (Heq : two_byte_ident d0 d1 = ident).
  { rewrite two_byte_ident_spec by (unfold in_u; cbn; lia). by rewrite Hm0, Hm1, Hd1. }
  rewrite <-Heq. by constructor.
Qed.

(** The non-canonical two-byte spelling of a small format. *)
Definition long_prefix (ident : Z) : list Z := [64 + ident / 4; ident mod 4 * 64].

Lemma long_prefix_denotes ident :
  0 <= ident < 64 -> prefix_denotes (long_prefix ident) ident.
Proof.
  intros H. pose proof (Z.div_pos ident 4). pose proof (Z.div_lt_upper_bound ident 4 16).
  pose proof (Z.mod_pos_bound ident 4).
  assert (Heq : two_byte_ident (64 + ident / 4) (ident mod 4 * 64) = ident).
  { rewrite two_byte_ident_spec by solve_in_u. rewrite Z.div_mul, Z.mod_mul by lia.
    rewrite <-Z.add_mod_idemp_l by lia. change (64 mod 64) with 0.
    rewrite Z.add_0_l, (Z.mod_small (ident / 4)) by lia.
    pose proof (Z.div_mod ident 4). lia. }
  rewrite <-Heq at 2. constructor. lia.
Qed.

Lemma prefix_denotes_length p ident :
  prefix_denotes p ident -> (1 <= length p <= 2)%nat.
Proof. destruct 1; cbn; lia. Qed.

Lemma parse_prefix_app p ident rest :
  prefix_denotes p ident -> (1 <= length rest)%nat ->
  parse_prefix (p ++ rest) = Ret (Ok (length p, ident)).
Proof.
  intros Hp Hrest. destruct Hp as [d0 H|d0 d1 H]; unfold parse_prefix; cbn.
  - by rewrite decide_True.
  - rewrite decide_False by lia. by rewrite decide_True.
Qed.

(** Reading a prefix back: the data starts with it. *)
Lemma parse_prefix_inv data k ident :
  parse_prefix data = Ret (Ok (k, ident)) ->
  exists p rest, data = p ++ rest /\ prefix_denotes p ident /\ k = length p.
Proof.
  unfold parse_prefix, index. destruct data as [|d0 [|d1 rest]]; cbn; [done|..].
  - repeat case_decide; cbn; [|done..]. intros [= <- <-].
    exists [d0], []. split; [done|]. split; [by constructor|done].
  - repeat case_decide; cbn; [| |done]; intros [= <- <-].
    + exists [d0], (d1 :: rest). split; [done|]. split; [by constructor|done].
    + exists [d0; d1], rest. split; [done|]. split; [by constructor|done].
Qed.

Lemma parse_prefix_err data d0 d1 rest e :
  data = d0 :: d1 :: rest -> in_u 8 d0 ->
  parse_prefix data = Ret (Err e) <-> e = InvalidPrefix /\ 128 <= d0.
Proof.
  intros -> H0. unfold parse_prefix, index; cbn.
  repeat case_decide; cbn; unfold in_u in H0; cbn in H0.
  - split; [done|lia].
  - split; [done|lia].
  - split; [intros [= <-]; split; [done|lia] | by intros [-> _]].
Qed.

Lemma parse_prefix_total d0 d1 rest : exists r, parse_prefix (d0 :: d1 :: rest) = Ret r.
Proof. unfold parse_prefix, index; cbn. repeat case_decide; cbn; eauto. Qed.

(** The slices of [p ++ key ++ sum]. *)
Lemma slice_prefix {A} (l1 l2 : list A) n : n = length l1 -> slice (l1 ++ l2) 0 n = Ret l1.
Proof.
  intros ->. rewrite slice_Ret; [|lia|rewrite length_app; lia].
  rewrite Nat.sub_0_r, drop_0. f_equal. apply take_app_length.
Qed.

Lemma slice_middle {A} (l1 l2 l3 : list A) a b :
  a = length l1 -> b = (length l1 + length l2)%nat ->
  slice (l1 ++ l2 ++ l3) a b = Ret l2.
Proof.
  intros -> ->. rewrite slice_Ret; [|lia|rewrite !length_app; lia].
  rewrite drop_app_length, (Nat.add_comm (length l1)), Nat.add_sub. f_equal.
  apply take_app_length.
Qed.

Section parser_facts.
Variable from_base58 : string -> option (list Z).
Variable blake2b_512 : list Z -> list Z.
Variable is_reserved : Z -> bool.
(** [Blake2b<U64>] returns 64 bytes. *)
Hypothesis blake2b_512_length : forall m, length (blake2b_512 m) = 64%nat.

Abbreviation parse := (parse_ss58_reward_address from_base58 blake2b_512 is_reserved).
Abbreviation hash := (ss58hash blake2b_512).

Lemma slice_hash m : slice (hash m) 0 CHECKSUM_LEN = Ret (take 2 (hash m)).
Proof. rewrite slice_Ret; [done|lia|]. unfold ss58hash. rewrite blake2b_512_length. unfold CHECKSUM_LEN. lia. Qed.

Lemma length_hash2 m : length (take 2 (hash m)) = 2%nat.
Proof. unfold ss58hash. rewrite length_take, blake2b_512_length. lia. Qed.

(** The whole parser on data cut at its three boundaries. *)
Lemma parse_cut s p ident key sum :
  from_base58 s = Some (p ++ key ++ sum) -> prefix_denotes p ident ->
  length key = PUBLIC_KEY_LENGTH -> length sum = CHECKSUM_LEN ->
  parse s = Ret (if is_reserved ident then Err FormatNotAllowed
                 else if decide (sum = take 2 (hash (p ++ key))) then Ok key
                 else Err InvalidChecksum).
Proof.
  intros Hs Hp Hk Hsum. pose proof (prefix_denotes_length _ _ Hp) as Hlp.
  unfold PUBLIC_KEY_LENGTH, CHECKSUM_LEN in Hk, Hsum.
  unfold parse_ss58_reward_address, PUBLIC_KEY_LENGTH. rewrite Hs.
  rewrite decide_False by (rewrite !length_app; lia).
  rewrite (parse_prefix_app p ident) by (done || rewrite length_app; lia). cbn -[slice].
  rewrite decide_False by (rewrite !length_app; unfold CHECKSUM_LEN; lia).
  destruct (is_reserved ident); [done|].
  rewrite (app_assoc p key sum).
  rewrite (slice_prefix (p ++ key)) by (rewrite length_app; lia). cbn -[slice].
  rewrite slice_hash. cbn -[slice].
  rewrite <-(app_nil_r sum) at 1.
  rewrite (slice_middle (p ++ key) sum []) by (rewrite !length_app; unfold CHECKSUM_LEN; lia).
  cbn -[slice].
  destruct (decide (sum = take 2 (hash (p ++ key)))) as [E|E].
  - rewrite decide_False by tauto. rewrite <-app_assoc.
    rewrite <-(app_nil_r (key ++ sum)) at 1.
    rewrite (slice_middle p (key ++ sum) []) by (rewrite ?app_nil_r, ?length_app; lia).
    cbn -[slice]. rewrite (slice_prefix key) by lia. cbn. by rewrite decide_True.
  - by rewrite decide_True.
Qed.

(** Every decodable data is too short, has a bad prefix, a bad length, or cuts. *)
Lemma data_cases (data : list Z) :
  Forall (in_u 8) data ->
  (length data < 2)%nat \/
  (exists d0 d1 rest, data = d0 :: d1 :: rest /\ 128 <= d0) \/
  (exists p ident, prefix_denotes p ident /\
     (exists rest, data = p ++ rest /\ (2 <= length data)%nat /\
        (length rest <> PUBLIC_KEY_LENGTH + CHECKSUM_LEN)%nat)) \/
  (exists p ident key sum, prefix_denotes p ident /\ data = p ++ key ++ sum /\
     length key = PUBLIC_KEY_LENGTH /\ length sum = CHECKSUM_LEN).
Proof.
  intros Hb. destruct data as [|d0 [|d1 rest]]; [left; cbn; lia..|].
  inversion Hb as [|? ? H0 Hb']; subst. inversion Hb' as [|? ? H1 _]; subst.
  unfold in_u in H0, H1. cbn in H0, H1. right.
  destruct (decide (128 <= d0)) as [Hd|Hd]; [left; eauto|right].
  assert (Hp : exists p ident r, prefix_denotes p ident /\ d0 :: d1 :: rest = p ++ r).
  { destruct (decide (d0 <= 63)).
    - exists [d0], d0, (d1 :: rest). split; [constructor; lia|done].
    - exists [d0; d1], (two_byte_ident d0 d1), rest. split; [constructor; lia|done]. }
  assert (Hl : (2 <= length (d0 :: d1 :: rest))%nat) by (cbn; lia).
  destruct Hp as (p & ident & r & Hp & Heq). rewrite Heq in Hl |- *.
  destruct (decide (length r = PUBLIC_KEY_LENGTH + CHECKSUM_LEN)%nat) as [Hr|Hr].
  - right. exists p, ident, (take PUBLIC_KEY_LENGTH r), (drop PUBLIC_KEY_LENGTH r).
    rewrite take_drop, length_take, length_drop. unfold PUBLIC_KEY_LENGTH, CHECKSUM_LEN in *.
    repeat split; [done|lia|lia].
  - left. exists p, ident. split; [done|]. exists r. split; [done|]. split; [|done].
    done.
Qed.

Lemma parse_short s data :
  from_base58 s = Some data -> (length data < 2)%nat -> parse s = Ret (Err BadLength).
Proof. intros Hs Hl. unfold parse_ss58_reward_address. by rewrite Hs, decide_True. Qed.

Lemma parse_bad_prefix s d0 d1 rest :
  from_base58 s = Some (d0 :: d1 :: rest) -> 128 <= d0 -> parse s = Ret (Err InvalidPrefix).
Proof.
  intros Hs Hd. unfold parse_ss58_reward_address. rewrite Hs.
  rewrite decide_False by (cbn; lia). unfold parse_prefix; cbn.
  by rewrite !decide_False by lia.
Qed.

Lemma parse_bad_length s p ident rest :
  from_base58 s = Some (p ++ rest) -> prefix_denotes p ident ->
  (2 <= length (p ++ rest))%nat -> (length rest <> PUBLIC_KEY_LENGTH + CHECKSUM_LEN)%nat ->
  parse s = Ret (Err BadLength).
Proof.
  intros Hs Hp Hl Hr. unfold parse_ss58_reward_address. rewrite Hs.
  rewrite decide_False by lia.
  destruct (decide (1 <= length rest)%nat) as [H1|H1].
  - rewrite (parse_prefix_app p ident) by done. cbn -[PUBLIC_KEY_LENGTH CHECKSUM_LEN].
    by rewrite decide_True by (rewrite length_app; lia).
  - destruct rest; [|cbn in H1; lia]. rewrite app_nil_r in *.
    destruct Hp as [|d0 d1 H]; [cbn in Hl; lia|]. unfold parse_prefix; cbn.
    rewrite decide_False by lia. by rewrite decide_True.
Qed.
End parser_facts.

(** ** Properties *)

Section parser_properties.
Variable from_base58 : string -> option (list Z).
Variable blake2b_512 : list Z -> list Z.
Variable is_reserved : Z -> bool.
(** [from_base58] returns a [Vec<u8>], [Blake2b<U64>] a [[u8; 64]]. *)
Hypothesis from_base58_bytes : forall s data, from_base58 s = Some data -> Forall (in_u 8) data.
Hypothesis blake2b_512_length : forall m, length (blake2b_512 m) = 64%nat.

Abbreviation parse := (parse_ss58_reward_address from_base58 blake2b_512 is_reserved).
Abbreviation hash := (ss58hash blake2b_512).

(** C6: the parser accepts exactly the well-formed addresses: a string yields
    [key] iff its Base58 data is a prefix denoting a non-reserved format,
    the 32 bytes of [key], and the first two bytes of the hash of the two. *)
Theorem parse_ss58_accepts s key :
  parse_ss58_reward_address from_base58 blake2b_512 is_reserved s = Ret (Ok key) <->
  exists p ident, prefix_denotes p ident /\ is_reserved ident = false /\
    length key = PUBLIC_KEY_LENGTH /\
    from_base58 s = Some (with_checksum blake2b_512 (p ++ key)).
Proof.
  split.
  - intros Hparse. destruct (from_base58 s) as [data|] eqn:Hs;
      [|unfold parse_ss58_reward_address in Hparse; rewrite Hs in Hparse; discriminate].
    destruct (data_cases data (from_base58_bytes _ _ Hs))
      as [H|[(d0 & d1 & rest & -> & H)|[(p & ident & Hp & rest & -> & H1 & H2)|
          (p & ident & k & sum & Hp & -> & Hk & Hsum)]]].
    + rewrite (parse_short _ _ _ _ _ Hs H) in Hparse. discriminate.
    + rewrite (parse_bad_prefix _ _ _ _ _ _ _ Hs H) in Hparse. discriminate.
    + rewrite (parse_bad_length _ _ _ _ _ _ _ Hs Hp H1 H2) in Hparse. discriminate.
    + rewrite (parse_cut _ _ _ blake2b_512_length _ _ _ _ _ Hs Hp Hk Hsum) in Hparse.
      destruct (is_reserved ident) eqn:Hr; [discriminate|].
      case_decide as Hsum'; [|discriminate]. injection Hparse as <-.
      exists p, ident. rewrite Hsum'. unfold with_checksum, CHECKSUM_LEN.
      by rewrite <-app_assoc.
  - intros (p & ident & Hp & Hr & Hk & Hs). unfold with_checksum in Hs. rewrite <-app_assoc in Hs.
    rewrite (parse_cut _ _ _ blake2b_512_length _ _ _ _ _ Hs Hp Hk).
    + by rewrite Hr, decide_True.
    + by apply length_hash2.
Qed.

(** C22: the error of a rejected string tells why it was rejected: not Base58;
    a first byte above 127; a length that does not fit the prefix; a
    well-shaped address of a reserved format; a wrong checksum. *)
Theorem parse_ss58_rejects s e :
  parse_ss58_reward_address from_base58 blake2b_512 is_reserved s = Ret (Err e) <->
  (match e with
  | BadBase58 => from_base58 s = None
  | InvalidPrefix => exists d0 d1 rest, from_base58 s = Some (d0 :: d1 :: rest) /\ 128 <= d0
  | BadLength => exists data, from_base58 s = Some data /\
      ((length data < 2)%nat \/ exists p ident rest, data = p ++ rest /\ prefix_denotes p ident /\
         (2 <= length data)%nat /\ (length rest <> PUBLIC_KEY_LENGTH + CHECKSUM_LEN)%nat)
  | FormatNotAllowed => exists p ident rest, from_base58 s = Some (p ++ rest) /\
      prefix_denotes p ident /\ (length rest = PUBLIC_KEY_LENGTH + CHECKSUM_LEN)%nat /\
      is_reserved ident = true
  | InvalidChecksum => exists p ident key sum, from_base58 s = Some (p ++ key ++ sum) /\
      prefix_denotes p ident /\ length key = PUBLIC_KEY_LENGTH /\ length sum = CHECKSUM_LEN /\
      is_reserved ident = false /\ sum <> take CHECKSUM_LEN (hash (p ++ key))
  end).
Proof.
  split.
  - intros Hparse. destruct (from_base58 s) as [data|] eqn:Hs.
    2:{ unfold parse_ss58_reward_address in Hparse; rewrite Hs in Hparse. by injection Hparse as <-. }
    destruct (data_cases data (from_base58_bytes _ _ Hs))
      as [H|[(d0 & d1 & rest & -> & H)|[(p & ident & Hp & rest & -> & H1 & H2)|
          (p & ident & k & sum & Hp & -> & Hk & Hsum)]]].
    + rewrite (parse_short _ _ _ _ _ Hs H) in Hparse. injection Hparse as <-. eauto.
    + rewrite (parse_bad_prefix _ _ _ _ _ _ _ Hs H) in Hparse. injection Hparse as <-. eauto.
    + rewrite (parse_bad_length _ _ _ _ _ _ _ Hs Hp H1 H2) in Hparse. injection Hparse as <-.
      eexists. split; [done|]. right. eauto 10.
    + rewrite (parse_cut _ _ _ blake2b_512_length _ _ _ _ _ Hs Hp Hk Hsum) in Hparse.
      destruct (is_reserved ident) eqn:Hr.
      { injection Hparse as <-. exists p, ident, (k ++ sum). rewrite length_app, Hk, Hsum. done. }
      case_decide as Hsum'; [discriminate|]. injection Hparse as <-. eauto 10.
  - destruct e.
    + intros H. unfold parse_ss58_reward_address. by rewrite H.
    + intros (data & Hs & [H|(p & ident & rest & -> & Hp & H1 & H2)]).
      * by apply (parse_short _ _ _ _ _ Hs).
      * by apply (parse_bad_length _ _ _ _ _ _ _ Hs Hp).
    + intros (d0 & d1 & rest & Hs & H). by apply (parse_bad_prefix _ _ _ _ _ _ _ Hs).
    + intros (p & ident & rest & Hs & Hp & Hl & Hr).
      rewrite <-(take_drop PUBLIC_KEY_LENGTH rest) in Hs.
      rewrite (parse_cut _ _ _ blake2b_512_length _ _ _ _ _ Hs Hp); [by rewrite Hr|..].
      * rewrite length_take. lia.
      * rewrite length_drop. lia.
    + intros (p & ident & key & sum & Hs & Hp & Hk & Hsum & Hr & Hne).
      rewrite (parse_cut _ _ _ blake2b_512_length _ _ _ _ _ Hs Hp Hk Hsum), Hr.
      by rewrite decide_False.
Qed.

(** No string makes the parser panic: every slice and index is in range. *)
Lemma parse_ss58_never_panics s : exists r, parse_ss58_reward_address from_base58 blake2b_512 is_reserved s = Ret r.
Proof.
  destruct (from_base58 s) as [data|] eqn:Hs.
  2:{ exists (Err BadBase58). unfold parse_ss58_reward_address. by rewrite Hs. }
  destruct (data_cases data (from_base58_bytes _ _ Hs))
    as [H|[(d0 & d1 & rest & -> & H)|[(p & ident & Hp & rest & -> & H1 & H2)|
        (p & ident & k & sum & Hp & -> & Hk & Hsum)]]].
  - eexists. by apply (parse_short _ _ _ _ _ Hs).
  - eexists. by apply (parse_bad_prefix _ _ _ _ _ _ _ Hs).
  - eexists. by apply (parse_bad_length _ _ _ _ _ _ _ Hs Hp).
  - eexists. by apply (parse_cut _ _ _ blake2b_512_length _ _ _ _ _ Hs Hp).
Qed.

(** C8: round trip: the SS58 encoding of a 32-byte key in any of the 2^14
    formats that is not reserved parses back to the key. *)
Theorem ss58_encode_parse s ident key :
  0 <= ident < 16384 -> is_reserved ident = false -> length key = PUBLIC_KEY_LENGTH ->
  from_base58 s = Some (ss58_encode blake2b_512 ident key) ->
  parse_ss58_reward_address from_base58 blake2b_512 is_reserved s = Ret (Ok key).
Proof.
  intros Hi Hr Hk Hs. unfold ss58_encode, with_checksum in Hs. rewrite <-app_assoc in Hs.
  rewrite (parse_cut _ _ _ blake2b_512_length _ _ _ _ _ Hs (encode_prefix_denotes _ Hi) Hk).
  - by rewrite Hr, decide_True.
  - by apply length_hash2.
Qed.

(** Addresses are not canonical: a format below 64 also has a two-byte
    spelling, which differs from the encoding and is accepted for the same
    key. *)
Lemma ss58_long_prefix_accepted s ident key :
  0 <= ident < 64 -> is_reserved ident = false -> length key = PUBLIC_KEY_LENGTH ->
  from_base58 s = Some (with_checksum blake2b_512 (long_prefix ident ++ key)) ->
  parse_ss58_reward_address from_base58 blake2b_512 is_reserved s = Ret (Ok key) /\
  with_checksum blake2b_512 (long_prefix ident ++ key) <> ss58_encode blake2b_512 ident key.
Proof.
  intros Hi Hr Hk Hs. split.
  - unfold with_checksum in Hs. rewrite <-app_assoc in Hs.
    rewrite (parse_cut _ _ _ blake2b_512_length _ _ _ _ _ Hs (long_prefix_denotes _ Hi) Hk).
    + by rewrite Hr, decide_True.
    + by apply length_hash2.
  - unfold ss58_encode, with_checksum, encode_prefix, long_prefix.
    rewrite decide_True by lia. intros Heq. apply (f_equal length) in Heq.
    revert Heq. unfold ss58hash, CHECKSUM_LEN.
    rewrite !length_app, !length_take, !blake2b_512_length. cbn. lia.
Qed.
End parser_properties.

(** ** Witnesses

    A table of three strings stands for Base58, a constant for the hash. *)

Definition demo_key : list Z := seqZ 100 32.
Definition demo_hash (_ : list Z) : list Z := seqZ 7 64.
Definition demo_base58 (s : string) : option (list Z) :=
  if decide (s = "short"%string) then Some (with_checksum demo_hash ([42] ++ demo_key))
  else if decide (s = "long"%string) then Some (with_checksum demo_hash (long_prefix 42 ++ demo_key))
  else if decide (s = "damaged"%string) then Some ([42] ++ demo_key ++ [0; 0])
  else None.
Definition demo_reserved (ident : Z) : bool := bool_decide (ident = 46 \/ ident = 47).

Lemma demo_base58_bytes s data : demo_base58 s = Some data -> Forall (in_u 8) data.
Proof.
  unfold demo_base58. repeat case_decide; intros [= <-]; apply (bool_decide_unpack _); vm_compute;
    exact I.
Qed.

Lemma parse_ss58_accepts_witness :
  parse_ss58_reward_address demo_base58 demo_hash demo_reserved "short" = Ret (Ok demo_key).
Proof.
  apply (parse_ss58_accepts demo_base58 demo_hash demo_reserved demo_base58_bytes
           (fun _ => eq_refl)).
  exists [42], 42. split; [constructor; lia|]. repeat split; vm_compute; reflexivity.
Defined.

Lemma parse_ss58_rejects_witness :
  parse_ss58_reward_address demo_base58 demo_hash demo_reserved "damaged" =
  Ret (Err InvalidChecksum).
Proof.
  apply (parse_ss58_rejects demo_base58 demo_hash demo_reserved demo_base58_bytes
           (fun _ => eq_refl) "damaged" InvalidChecksum).
  exists [42], 42, demo_key, [0; 0].
  split; [reflexivity|]. split; [constructor; lia|]. repeat split; vm_compute; discriminate.
Defined.

Lemma parse_ss58_never_panics_witness :
  exists r, parse_ss58_reward_address demo_base58 demo_hash demo_reserved "damaged" = Ret r.
Proof.
  apply (parse_ss58_never_panics demo_base58 demo_hash demo_reserved demo_base58_bytes
           (fun _ => eq_refl)).
Defined.

Lemma ss58_encode_parse_witness :
  parse_ss58_reward_address demo_base58 demo_hash demo_reserved "short" = Ret (Ok demo_key).
Proof.
  apply (ss58_encode_parse demo_base58 demo_hash demo_reserved (fun _ => eq_refl) "short" 42);
    [lia | reflexivity | reflexivity | reflexivity].
Defined.

Lemma ss58_long_prefix_accepted_witness :
  parse_ss58_reward_address demo_base58 demo_hash demo_reserved "long" = Ret (Ok demo_key) /\
  with_checksum demo_hash (long_prefix 42 ++ demo_key) <> ss58_encode demo_hash 42 demo_key.
Proof.
  apply (ss58_long_prefix_accepted demo_base58 demo_hash demo_reserved (fun _ => eq_refl) "long" 42);
    [lia | reflexivity | reflexivity | reflexivity].
Defined.
