(* ===== verification/Plotting.v ===== *)
(** Sector accounting and initial-plotting progress of a farm
    (farmer/src/lib.rs: the end of [Farm::new], [InitialPlottingProgress],
    [InitialPlottingProgressStreamInner], [subscribe_initial_plotting_progress],
    [subscribe_new_solutions]).

    The progress counter is one shared cell ([Arc<Mutex<_>>]) that every
    subscriber's stream updates, so the model keeps one shared value and a list
    of streams.  Each poll of a stream comes with what the tokio watch stream
    answers, which is either left open or, in [watched_step], follows from the
    sectors plotted so far by the contract of such streams ([WatchStream]). *)
From S2P Require Import Prelude.

#[local] Open Scope Z_scope.

(** ** How many sectors fit *)

Section sectors.
(** [Identity::file_size()], [KnownPeersManager::file_size(..)],
    [sector_size(pieces)] and [SectorMetadataChecksummed::encoded_size()]. *)
Variables (identity_file_size known_peers_file_size : Z).
Variables (sector_size : Z -> Z) (metadata_size : Z).

Definition fixed_space_usage (p : profile) : outcome Z :=
  a ← add_u p 64 (2 * 1024 * 1024) identity_file_size;
  add_u p 64 a known_peers_file_size.

(** [allocated_space.saturating_sub(fixed) / 100 * (100 - cache_percentage)]. *)
Definition potentially_plottable_space (p : profile) (allocated cache_percentage fixed : Z)
    : outcome Z :=
  rest ← sub_u p 64 100 cache_percentage;
  mul_u p 64 (saturating_sub allocated fixed / 100) rest.

Definition target_sector_count (p : profile) (allocated cache_percentage max_pieces_in_sector : Z)
    : outcome Z :=
  fixed ← fixed_space_usage p;
  space ← potentially_plottable_space p allocated cache_percentage fixed;
  per_sector ← add_u p 64 (sector_size max_pieces_in_sector) metadata_size;
  div_u space per_sector.
End sectors.

(** ** Progress streams *)

Record InitialPlottingProgress := mkProgress {
  starting_sector : Z;
  current_sector : Z;
  total_sectors : Z;
}.

(** The progress a new farm starts with. *)
Definition initial_progress (plotted_sectors target : Z) : InitialPlottingProgress :=
  mkProgress plotted_sectors plotted_sectors target.

(** [guard.current_sector += 1]. *)
Definition bump (p : profile) (sh : InitialPlottingProgress) : outcome InitialPlottingProgress :=
  c ← add_u p 64 (current_sector sh) 1;
  Ret (mkProgress (starting_sector sh) c (total_sectors sh)).

(** A boxed stream: empty, or the pinned inner stream with its last item and
    whether its [take_while] is done. *)
Inductive ProgressStream :=
| EmptyStream
| InnerStream (last_initial_plotting_progress : InitialPlottingProgress) (done_taking : bool).

Inductive watch_poll := WatchYields | WatchPending | WatchClosed.

Inductive poll (A : Type) := ReadySome (a : A) | ReadyNone | NotReady.
Arguments ReadySome {A} a.
Arguments ReadyNone {A}.
Arguments NotReady {A}.

(** [poll_next]: the [filter_map] closure reads the shared counter, increments
    it and returns what it read; [take_while] ends the stream at the first
    item that has reached the total. *)
Definition poll_next (p : profile) (w : watch_poll) (sh : InitialPlottingProgress)
    (st : ProgressStream)
    : outcome (InitialPlottingProgress * ProgressStream * poll InitialPlottingProgress) :=
  match st, w with
  | EmptyStream, _ => Ret (sh, st, ReadyNone)
  | InnerStream _ true, _ => Ret (sh, st, ReadyNone)
  | InnerStream _ false, WatchPending => Ret (sh, st, NotReady)
  | InnerStream _ false, WatchClosed => Ret (sh, st, ReadyNone)
  | InnerStream last false, WatchYields =>
      sh' ← bump p sh;
      if decide (current_sector sh < total_sectors sh)
      then Ret (sh', InnerStream sh false, ReadySome sh)
      else Ret (sh', InnerStream last true, ReadyNone)
  end.

(** [size_hint]. *)
Definition size_hint (p : profile) (st : ProgressStream) : outcome (Z * option Z) :=
  match st with
  | EmptyStream => Ret (0, Some 0)
  | InnerStream last _ =>
      left ← sub_u p 64 (total_sectors last) (current_sector last);
      Ret (cast 64 left, Some (cast 64 left))
  end.

(** [subscribe_initial_plotting_progress] locks the counter twice: [sh1] is
    what the first lock reads, [sh2] what the second does. *)
Definition subscribe_initial_plotting_progress (sh1 sh2 : InitialPlottingProgress)
    : ProgressStream :=
  if decide (current_sector sh1 = total_sectors sh1) then EmptyStream
  else InnerStream sh2 false.

(** Polling one stream over and over; the items it produced. *)
Fixpoint poll_many (p : profile) (ws : list watch_poll) (sh : InitialPlottingProgress)
    (st : ProgressStream)
    : outcome (InitialPlottingProgress * ProgressStream * list InitialPlottingProgress) :=
  match ws with
  | [] => Ret (sh, st, [])
  | w :: ws' =>
      r ← poll_next p w sh st;
      let '(sh1, st1, res) := r in
      r' ← poll_many p ws' sh1 st1;
      let '(sh2, st2, items) := r' in
      Ret (sh2, st2, match res with ReadySome i => i :: items | _ => items end)
  end.

(** Several subscribers of one farm: a step subscribes, or polls a stream. *)
Inductive farm_event := Subscribe | PollStream (i : nat) (w : watch_poll).

Definition farm_step (p : profile) (e : farm_event)
    (s : InitialPlottingProgress * list ProgressStream)
    : outcome (InitialPlottingProgress * list ProgressStream) :=
  let '(sh, streams) := s in
  match e with
  | Subscribe => Ret (sh, streams ++ [subscribe_initial_plotting_progress sh sh])
  | PollStream i w =>
      match streams !! i with
      | None => Ret s
      | Some st =>
          r ← poll_next p w sh st;
          Ret (r.1.1, <[i := r.1.2]> streams)
      end
  end.

Fixpoint farm_run (p : profile) (es : list farm_event)
    (s : InitialPlottingProgress * list ProgressStream)
    : outcome (InitialPlottingProgress * list ProgressStream) :=
  match es with
  | [] => Ret s
  | e :: es' => s' ← farm_step p e s; farm_run p es' s'
  end.

(** What the poll of a step hands to its subscriber. *)
Definition farm_item (p : profile) (e : farm_event)
    (s : InitialPlottingProgress * list ProgressStream) : list InitialPlottingProgress :=
  match e with
  | Subscribe => []
  | PollStream i w =>
      match poll_next p w s.1 <$> s.2 !! i with
      | Some (Ret (_, _, ReadySome item)) => [item]
      | _ => []
      end
  end.

(** The items of all subscribers of a run, in the order they were received. *)
Fixpoint farm_items (p : profile) (es : list farm_event)
    (s : InitialPlottingProgress * list ProgressStream) : outcome (list InitialPlottingProgress) :=
  match es with
  | [] => Ret []
  | e :: es' =>
      s' ← farm_step p e s;
      items ← farm_items p es' s';
      Ret (farm_item p e s ++ items)
  end.

(** *** The watch channel of a farm

    The channel between the farm and its subscribers: [w_version] counts the
    plotted sectors that were sent on it.  A [WatchStream] of tokio-stream
    remembers the version it has seen, [None] before its first poll, which yields
    whatever the channel holds; a later poll yields if there was a change since.
    So changes that no poll came between are seen as one. *)
Class WatchStream (answer : nat -> option nat -> watch_poll) : Prop := {
  watch_first version : answer version None = WatchYields;
  watch_changed version seen : (seen < version)%nat -> answer version (Some seen) = WatchYields;
  watch_unchanged version : answer version (Some version) = WatchPending;
}.

Record watched_farm := mkWatched {
  w_version : nat;
  w_shared : InitialPlottingProgress;
  w_subscribers : list (option nat * ProgressStream);
}.

Inductive watched_event := PlotSector | SubscribeProgress | PollProgress (i : nat).

Section watched.
Variable answer : nat -> option nat -> watch_poll.

(** Only a stream that has not ended polls its watch stream. *)
Definition watched_step (p : profile) (e : watched_event) (s : watched_farm) : outcome watched_farm :=
  match e with
  | PlotSector => Ret (mkWatched (S (w_version s)) (w_shared s) (w_subscribers s))
  | SubscribeProgress =>
      Ret (mkWatched (w_version s) (w_shared s) (w_subscribers s ++
        [(None, subscribe_initial_plotting_progress (w_shared s) (w_shared s))]))
  | PollProgress i =>
      match w_subscribers s !! i with
      | None => Ret s
      | Some (seen, st) =>
          r ← poll_next p (answer (w_version s) seen) (w_shared s) st;
          let seen' := match st with InnerStream _ false => Some (w_version s) | _ => seen end in
          Ret (mkWatched (w_version s) r.1.1 (<[i := (seen', r.1.2)]> (w_subscribers s)))
      end
  end.

Fixpoint watched_run (p : profile) (es : list watched_event) (s : watched_farm) : outcome watched_farm :=
  match es with
  | [] => Ret s
  | e :: es' => s' ← watched_step p e s; watched_run p es' s'
  end.
End watched.

(** An implementation of the channel's contract. *)
Definition watch_versions (version : nat) (seen : option nat) : watch_poll :=
  match seen with
  | None => WatchYields
  | Some v => if decide (v < version)%nat then WatchYields else WatchPending
  end.

#[export] Instance watch_versions_ok : WatchStream watch_versions.
Proof.
  split; intros version; cbn; [done|intros seen Hs; by rewrite decide_True|by rewrite decide_False by lia].
Qed.

(** [subscribe_new_solutions]: the watch values that hold a solution. *)
Definition subscribe_new_solutions {S} (values : list (option S)) : list S := omap id values.

(** Whether a stream has ended. *)
Definition ended (st : ProgressStream) : bool :=
  match st with EmptyStream => true | InnerStream _ d => d end.

(** Progress at [c] sectors out of [t]. *)
Abbreviation at_sector st c t := (mkProgress st c t).

(** ** Lemmas on sectors *)

Section sector_facts.
Variables (identity_file_size known_peers_file_size : Z).
Variables (sector_size : Z -> Z) (metadata_size : Z).

Abbreviation count := (target_sector_count identity_file_size known_peers_file_size
                         sector_size metadata_size).
Abbreviation fixed := (2 * 1024 * 1024 + identity_file_size + known_peers_file_size).

Lemma fixed_space_usage_exact p :
  0 <= identity_file_size -> 0 <= known_peers_file_size -> fixed < 2 ^ 64 ->
  fixed_space_usage identity_file_size known_peers_file_size p = Ret fixed.
Proof.
  intros Hi Hk Hf. unfold fixed_space_usage, add_u.
  rewrite arith_exact by solve_in_u. cbn. rewrite arith_exact by solve_in_u. f_equal; lia.
Qed.

Lemma plottable_exact p allocated pct f :
  0 <= allocated < 2 ^ 64 -> 0 <= f -> 1 <= pct <= 100 ->
  potentially_plottable_space p allocated pct f =
  Ret (saturating_sub allocated f / 100 * (100 - pct)).
Proof.
  intros Ha Hf Hp. unfold potentially_plottable_space, sub_u, mul_u.
  rewrite arith_exact by solve_in_u. cbn -[Z.mul Z.div].
  apply arith_exact. unfold saturating_sub.
  pose proof (Z.mul_div_le (Z.max 0 (allocated - f)) 100).
  pose proof (Z.div_pos (Z.max 0 (allocated - f)) 100).
  unfold in_u. nia.
Qed.

(** With at most 100 percent of cache nothing overflows. *)
Lemma target_sector_count_Ret p allocated pct m :
  0 <= identity_file_size -> 0 <= known_peers_file_size -> fixed < 2 ^ 64 ->
  0 <= allocated < 2 ^ 64 -> 1 <= pct <= 100 -> 0 < sector_size m + metadata_size < 2 ^ 64 ->
  count p allocated pct m =
  Ret (saturating_sub allocated fixed / 100 * (100 - pct) / (sector_size m + metadata_size)).
Proof.
  intros Hi Hk Hf Ha Hp Hper. unfold target_sector_count.
  rewrite fixed_space_usage_exact by done. cbn -[potentially_plottable_space].
  rewrite plottable_exact by lia. cbn. unfold add_u. rewrite arith_exact by solve_in_u. cbn.
  by rewrite div_u_pos by lia.
Qed.
End sector_facts.

(** ** Lemmas on the streams *)

Lemma bump_exact p s c t :
  0 <= c < 2 ^ 64 - 1 -> bump p (mkProgress s c t) = Ret (mkProgress s (c + 1) t).
Proof. intros H. unfold bump, add_u. cbn. by rewrite arith_exact by solve_in_u. Qed.

Lemma poll_yield p s c t last :
  0 <= c < 2 ^ 64 - 1 ->
  poll_next p WatchYields (mkProgress s c t) (InnerStream last false) =
  Ret (mkProgress s (c + 1) t,
       if decide (c < t) then InnerStream (mkProgress s c t) false else InnerStream last true,
       if decide (c < t) then ReadySome (mkProgress s c t) else ReadyNone).
Proof.
  intros H. cbn -[bump]. rewrite bump_exact by done. cbn. by case_decide.
Qed.

Lemma poll_many_done p n sh last :
  poll_many p (replicate n WatchYields) sh (InnerStream last true) =
  Ret (sh, InnerStream last true, []).
Proof. induction n as [|n IH]; [done|]. cbn. by rewrite IH. Qed.

(** [n] yields before the total is reached. *)
Lemma poll_many_before p s t n : forall c last,
  0 <= c -> c + Z.of_nat n <= t -> t < 2 ^ 64 - 1 ->
  poll_many p (replicate n WatchYields) (mkProgress s c t) (InnerStream last false) =
  Ret (mkProgress s (c + Z.of_nat n) t,
       InnerStream (if decide (n = 0%nat) then last
                    else mkProgress s (c + Z.of_nat n - 1) t) false,
       (fun x => mkProgress s x t) <$> seqZ c (Z.of_nat n)).
Proof.
  induction n as [|n IH]; intros c last Hc Hn Ht.
  - cbn. by rewrite Z.add_0_r.
  - cbn [replicate poll_many]. rewrite poll_yield by lia.
    destruct (decide (c < t)) as [_|]; [|lia]. cbn -[poll_many seqZ Z.of_nat].
    rewrite IH by lia. cbn -[seqZ Z.of_nat].
    rewrite (seqZ_cons c) by lia. rewrite fmap_cons.
    replace (Z.pred (Z.of_nat (S n))) with (Z.of_nat n) by lia.
    replace (Z.succ c) with (c + 1) by lia.
    replace (c + 1 + Z.of_nat n) with (c + Z.of_nat (S n)) by lia.
    rewrite (decide_False (P := S n = 0%nat)) by lia.
    destruct (decide (n = 0%nat)) as [->|]; [|done].
    by replace (c + Z.of_nat 1 - 1) with c by lia.
Qed.

Lemma poll_many_app p ws1 ws2 sh st :
  poll_many p (ws1 ++ ws2) sh st =
  (r ← poll_many p ws1 sh st;
   let '(sh1, st1, i1) := r in
   r' ← poll_many p ws2 sh1 st1;
   let '(sh2, st2, i2) := r' in Ret (sh2, st2, i1 ++ i2)).
Proof.
  revert sh st. induction ws1 as [|w ws1 IH]; intros sh st; cbn.
  - destruct (poll_many p ws2 sh st) as [[[]]|]; done.
  - destruct (poll_next p w sh st) as [[[sh1 st1] res]|]; cbn; [|done].
    rewrite IH. destruct (poll_many p ws1 sh1 st1) as [[[sh2 st2] i1]|]; cbn; [|done].
    destruct (poll_many p ws2 sh2 st2) as [[[]]|]; cbn; [|done].
    by destruct res.
Qed.

(** More yields than sectors are left. *)
Lemma poll_many_past p s c t n last :
  0 <= c -> c <= t -> t < c + Z.of_nat n -> t < 2 ^ 64 - 1 ->
  exists last',
  poll_many p (replicate n WatchYields) (mkProgress s c t) (InnerStream last false) =
  Ret (mkProgress s (t + 1) t, InnerStream last' true,
       (fun x => mkProgress s x t) <$> seqZ c (t - c)).
Proof.
  intros Hc Hct Hn Ht.
  replace n with (Z.to_nat (t - c) + S (n - S (Z.to_nat (t - c))))%nat by lia.
  rewrite replicate_add, poll_many_app, poll_many_before by lia.
  cbn -[poll_many seqZ]. cbn [replicate poll_many].
  rewrite poll_yield by lia.
  destruct (decide (c + Z.of_nat (Z.to_nat (t - c)) < t)) as [|_]; [lia|]. cbn -[poll_many seqZ].
  rewrite poll_many_done. cbn -[seqZ]. eexists. rewrite app_nil_r.
  by replace (c + Z.of_nat (Z.to_nat (t - c))) with t by lia;
    replace (Z.of_nat (Z.to_nat (t - c))) with (t - c) by lia.
Qed.

(** Polls that find nothing change nothing. *)
Lemma poll_many_pending p n sh last :
  poll_many p (replicate n WatchPending) sh (InnerStream last false) =
  Ret (sh, InnerStream last false, []).
Proof. induction n as [|n IH]; [done|]. cbn. by rewrite IH. Qed.

(** Subscribing [k] times to an unfinished farm. *)
Lemma farm_run_app p es1 es2 s :
  farm_run p (es1 ++ es2) s = (s' ← farm_run p es1 s; farm_run p es2 s').
Proof.
  revert s. induction es1 as [|e es1 IH]; intros s; [done|]. cbn.
  destruct (farm_step p e s); cbn; [apply IH|done].
Qed.

Lemma farm_run_subscribe p k sh streams :
  current_sector sh <> total_sectors sh ->
  farm_run p (replicate k Subscribe) (sh, streams) =
  Ret (sh, streams ++ replicate k (InnerStream sh false)).
Proof.
  intros H. revert streams. induction k as [|k IH]; intros streams; cbn.
  - by rewrite app_nil_r.
  - unfold subscribe_initial_plotting_progress. rewrite decide_False by done.
    rewrite IH, <-app_assoc. done.
Qed.

(** Polling the subscribers in turn, each getting the value the watch channel
    held when it was opened. *)
Lemma farm_run_first_polls p s t last : forall done fresh c,
  0 <= c -> c + Z.of_nat (length fresh) <= t + 1 -> t < 2 ^ 64 - 2 ->
  Forall (fun st => st = InnerStream last false) fresh ->
  exists streams,
  farm_run p ((fun i => PollStream i WatchYields) <$> seq (length done) (length fresh))
    (mkProgress s c t, done ++ fresh) =
  Ret (mkProgress s (c + Z.of_nat (length fresh)) t, done ++ streams) /\
  length streams = length fresh /\
  forall i st, streams !! i = Some st -> ended st = bool_decide (t <= c + Z.of_nat i).
Proof.
  intros done fresh. revert done. induction fresh as [|st fresh IH]; intros done c Hc Hle Ht Hf.
  - exists []. cbn. rewrite Z.add_0_r. split; [done|]. split; [done|]. intros i st. by rewrite lookup_nil.
  - inversion Hf as [|? ? -> Hf']; subst. cbn [length seq fmap list_fmap farm_run].
    unfold farm_step. rewrite (list_lookup_middle done fresh) by done.
    cbn [length] in Hle. rewrite poll_yield by lia. cbn -[farm_run Z.of_nat].
    set (st1 := if decide (c < t) then InnerStream _ _ else _).
    assert (Hst1 : ended st1 = bool_decide (t <= c)).
    { unfold st1. case_decide; cbn; [rewrite bool_decide_false by lia|rewrite bool_decide_true by lia];
        done. }
    rewrite insert_app_r_alt, Nat.sub_diag by lia. cbn -[farm_run Z.of_nat].
    destruct (IH (done ++ [st1]) (c + 1)) as (streams & Hrun & Hlen & Hend); [lia|lia|lia|done|].
    rewrite length_app, Nat.add_comm in Hrun. cbn [length Nat.add] in Hrun.
    rewrite <-!app_assoc in Hrun. cbn [app] in Hrun.
    exists (st1 :: streams). change (list_fmap _ _ ?f ?l) with (f <$> l).
    replace (c + Z.of_nat (S (length fresh))) with (c + 1 + Z.of_nat (length fresh)) by lia.
    split; [exact Hrun|]. split; [cbn; lia|].
    intros [|i] st; cbn -[Z.of_nat].
    + intros [= <-]. rewrite Hst1. by rewrite Z.add_0_r.
    + intros Hi. rewrite (Hend i st Hi). apply bool_decide_ext. lia.
Qed.

(** Only the polls in which the watch stream yields matter. *)
Fixpoint yields (ws : list watch_poll) : nat :=
  match ws with
  | [] => 0
  | WatchYields :: ws' => S (yields ws')
  | _ :: ws' => yields ws'
  end.

Lemma poll_many_yields p ws : forall sh st,
  Forall (fun w => w <> WatchClosed) ws ->
  poll_many p ws sh st = poll_many p (replicate (yields ws) WatchYields) sh st.
Proof.
  induction ws as [|w ws IH]; intros sh st Hws; [done|].
  inversion Hws as [|? ? Hw Hws']; subst. destruct w; [| |done]; cbn [yields].
  - cbn [replicate poll_many].
    destruct (poll_next p WatchYields sh st) as [[[sh1 st1] res]|]; cbn; [|done].
    by rewrite IH.
  - destruct st as [|last []]; cbn; rewrite IH by done;
      destruct (poll_many p (replicate (yields ws) WatchYields) sh _) as [[[]]|]; done.
Qed.

(** *** One subscriber on the watch channel *)

(** Sectors plotted in a run. *)
Fixpoint plots (es : list watched_event) : nat :=
  match es with
  | [] => 0
  | PlotSector :: es' => S (plots es')
  | _ :: es' => plots es'
  end.

(** The subscriber polls before every plotted sector and after the last one;
    [up_to_date]: it has polled since the last change. *)
Fixpoint follows (up_to_date : bool) (es : list watched_event) : bool :=
  match es with
  | [] => up_to_date
  | PlotSector :: es' => up_to_date && follows false es'
  | _ :: es' => follows true es'
  end.

(** What its polls find on the channel. *)
Fixpoint found (up_to_date : bool) (es : list watched_event) : list watch_poll :=
  match es with
  | [] => []
  | PlotSector :: es' => found false es'
  | _ :: es' => (if up_to_date then WatchPending else WatchYields) :: found true es'
  end.

Definition plot_or_poll (e : watched_event) : Prop := e = PlotSector \/ e = PollProgress 0.

Lemma found_open b es : Forall (fun w => w <> WatchClosed) (found b es).
Proof. revert b. induction es as [|[] es IH]; intros []; cbn; auto. Qed.

(** A change is found at most once; all are found exactly by a subscriber that follows. *)
Lemma yields_found es : forall b,
  (yields (found b es) <= plots es + (if b then 0 else 1))%nat /\
  (yields (found b es) = plots es + (if b then 0 else 1) <-> follows b es = true)%nat.
Proof.
  induction es as [|[] es IH]; intros []; cbn; try (destruct (IH true)); try (destruct (IH false));
    split; try lia; try naive_solver lia.
Qed.

Lemma poll_ended p w sh st sh' st' r :
  poll_next p w sh st = Ret (sh', st', r) -> ended st = true -> sh' = sh /\ st' = st /\ r = ReadyNone.
Proof. by destruct st as [|last []]; cbn; [intros [= <- <- <-]..|]. Qed.

Section watch_facts.
Context (answer : nat -> option nat -> watch_poll) `{!WatchStream answer}.

(** The run of a farm with one subscriber is the polling of its stream. *)
Lemma watched_poll_many p es : forall ver sh seen st b sh' st' items,
  Forall plot_or_poll es ->
  answer ver seen = (if (b : bool) then WatchPending else WatchYields) \/ ended st = true ->
  (forall v, seen = Some v -> v <= ver)%nat ->
  poll_many p (found b es) sh st = Ret (sh', st', items) ->
  exists seen', watched_run answer p es (mkWatched ver sh [(seen, st)]) =
    Ret (mkWatched (ver + plots es) sh' [(seen', st')]).
Proof.
  induction es as [|e es IH]; intros ver sh seen st b sh' st' items Hes Hb Hseen Hrun.
  { injection Hrun as <- <- _. exists seen. by rewrite Nat.add_0_r. }
  inversion Hes as [|? ? [-> | ->] Hes']; subst; cbn [found plots watched_run] in *.
  - cbn. destruct (IH (S ver) sh seen st false sh' st' items Hes') as [seen' ->].
    + left. destruct seen as [v|]; [|apply watch_first]. specialize (Hseen v eq_refl).
      apply watch_changed. lia.
    + intros v Hv. specialize (Hseen v Hv). lia.
    + done.
    + exists seen'. by rewrite Nat.add_succ_r.
  - cbn [poll_many] in Hrun. apply bind_Ret in Hrun as ([[sh1 st1] r] & Hpoll & Hrun).
    apply bind_Ret in Hrun as ([[sh2 st2] rest] & Hrun & Heq). injection Heq as -> -> _.
    unfold watched_step. cbn [w_subscribers lookup list_lookup w_version w_shared].
    destruct (ended st) eqn:Hend.
    + destruct (poll_ended _ _ _ _ _ _ _ Hpoll Hend) as (-> & -> & _).
      assert (Hp : exists r, poll_next p (answer ver seen) sh st = Ret (sh, st, r)).
      { destruct st as [|last []]; [by eexists..|done]. }
      destruct Hp as [r' Hp]. rewrite Hp. cbn.
      refine (IH ver sh _ st true _ _ _ Hes' (or_intror Hend) _ Hrun).
      destruct st as [|last []]; [done..|by intros v [= <-]].
    + destruct Hb as [Hb|?]; [|done]. rewrite Hb, Hpoll.
      destruct st as [|last []]; [done..|]. cbn.
      refine (IH ver sh1 (Some ver) st1 true _ _ _ Hes' _ _ Hrun); [|by intros v [= <-]].
      left. apply watch_unchanged.
Qed.

Lemma watched_run_app p es1 es2 s :
  watched_run answer p (es1 ++ es2) s = (s' ← watched_run answer p es1 s; watched_run answer p es2 s').
Proof.
  revert s. induction es1 as [|e es1 IH]; intros s; [done|]. cbn.
  destruct (watched_step answer p e s); cbn; [apply IH|done].
Qed.

Lemma watched_plots p n ver sh subs :
  watched_run answer p (replicate n PlotSector) (mkWatched ver sh subs) = Ret (mkWatched (ver + n) sh subs).
Proof.
  revert ver. induction n as [|n IH]; intros ver; [by rewrite Nat.add_0_r|].
  cbn. rewrite IH. by rewrite Nat.add_succ_r.
Qed.

End watch_facts.

(** Polling an unfinished stream: it has ended iff more was found than sectors were left. *)
Lemma poll_many_ended p s c t ws : 0 <= c < t -> t < 2 ^ 64 - 1 -> Forall (fun w => w <> WatchClosed) ws ->
  exists sh' st' items, poll_many p ws (mkProgress s c t) (InnerStream (mkProgress s c t) false) =
    Ret (sh', st', items) /\ ended st' = bool_decide (t - c < Z.of_nat (yields ws)).
Proof.
  intros Hc Ht Hws. rewrite poll_many_yields by done.
  destruct (decide (Z.of_nat (yields ws) <= t - c)) as [Hn|Hn].
  - rewrite poll_many_before by lia. eexists _, _, _. split; [done|]. cbn.
    by rewrite bool_decide_false by lia.
  - destruct (poll_many_past p s c t (yields ws) (mkProgress s c t)) as (last' & Hrun); [lia..|].
    eexists _, _, _. split; [exact Hrun|]. by rewrite bool_decide_true by lia.
Qed.

(** *** Typing of a farm's progress *)

(** The progress of a farm that had plotted [s] of [t] sectors at the start. *)
Definition progress_ok (s t : Z) (x : InitialPlottingProgress) : Prop :=
  starting_sector x = s /\ total_sectors x = t /\ s <= current_sector x /\ in_u 64 (current_sector x).

Definition stream_ok (s t : Z) (st : ProgressStream) : Prop :=
  match st with EmptyStream => True | InnerStream last _ => progress_ok s t last end.

Definition farm_state_ok (s t : Z) (st : InitialPlottingProgress * list ProgressStream) : Prop :=
  progress_ok s t st.1 /\ Forall (stream_ok s t) st.2.

(** A step below the end of u64 keeps the types; it hands out the current
    sector, and counts it, or nothing. *)
Lemma farm_step_ok p e s t st : farm_state_ok s t st -> current_sector st.1 + 1 < 2 ^ 64 ->
  exists st', farm_step p e st = Ret st' /\ farm_state_ok s t st' /\
  (farm_item p e st = [] /\
     (current_sector st'.1 = current_sector st.1 \/
      current_sector st'.1 = current_sector st.1 + 1 /\ t <= current_sector st.1) \/
   farm_item p e st = [at_sector s (current_sector st.1) t] /\ current_sector st.1 < t /\
     current_sector st'.1 = current_sector st.1 + 1).
Proof.
  destruct st as [sh streams]. intros [Hsh Hst] Hc. cbn in *. destruct sh as [s' c t'].
  pose proof Hsh as (H1 & H2 & H3 & H4). cbn in H1, H2, H3, H4, Hc. subst s' t'.
  destruct e as [|i w]; cbn -[poll_next].
  { eexists. split; [done|]. split; [split; [done|]|by left; auto]. cbn. apply Forall_app. split; [done|].
    constructor; [|done]. unfold subscribe_initial_plotting_progress. by case_decide. }
  destruct (streams !! i) as [st|] eqn:Hi; [|eexists; split; [done|]; split; [done|by left; auto]].
  pose proof (Forall_lookup_1 _ _ _ _ Hst Hi) as Hok.
  assert (Hsame : forall st', stream_ok s t st' -> farm_state_ok s t (mkProgress s c t, <[i:=st']> streams)).
  { intros st' Hst'. split; [done|]. by apply Forall_insert. }
  destruct st as [|last d]; [|destruct d; [|destruct w]];
    try (eexists; split; [done|]; cbn; split; [by apply Hsame|by left; auto]).
  cbn [fmap option_fmap option_map]. rewrite poll_yield by (unfold in_u in H4; lia). cbn.
  assert (Hc' : progress_ok s t (mkProgress s (c + 1) t)).
  { unfold progress_ok, in_u in *. cbn. lia. }
  eexists. split; [done|]. case_decide; cbn; (split; [split; [done|by apply Forall_insert]|]).
  - right. split; [done|]. lia.
  - left. split; [done|]. right. lia.
Qed.

Lemma farm_run_ok p s t es : forall st,
  farm_state_ok s t st -> current_sector st.1 + Z.of_nat (length es) < 2 ^ 64 ->
  exists st' n, farm_run p es st = Ret st' /\ farm_state_ok s t st' /\
  farm_items p es st = Ret ((fun x => at_sector s x t) <$> seqZ (current_sector st.1) (Z.of_nat n)) /\
  (n = 0%nat \/ current_sector st.1 + Z.of_nat n <= t).
Proof.
  induction es as [|e es IH]; intros st Hok Hb.
  { exists st, 0%nat. split; [done|]. split; [done|]. split; [done|]. by left. }
  cbn [length] in Hb.
  destruct (farm_step_ok p e s t st Hok ltac:(lia)) as (st1 & Hstep & Hok1 & Hcase).
  destruct (IH st1 Hok1 ltac:(destruct Hcase as [[_ [?|[? _]]]|(_ & _ & ?)]; lia))
    as (st' & n & Hrun & Hok' & Hitems & Hn).
  cbn [farm_run farm_items]. rewrite Hstep. cbn -[farm_item]. rewrite Hrun, Hitems. cbn -[farm_item].
  destruct Hcase as [[-> [Hc|[Hc Ht]]]|(-> & Ht & Hc)]; rewrite Hc in Hn; try rewrite Hc.
  - by exists st', n.
  - destruct Hn as [->|Hn]; [|lia]. by exists st', 0%nat; auto.
  - exists st', (S n). split; [done|]. split; [done|]. split; [|right; lia].
    rewrite (seqZ_cons (current_sector st.1)) by lia. cbn. do 2 f_equal.
    rewrite <-Z.add_1_r. by replace (Z.pred (Z.of_nat (S n))) with (Z.of_nat n) by lia.
Qed.

(** ** Properties *)

Section sector_properties.
Variables (identity_file_size known_peers_file_size : Z).
Variables (sector_size : Z -> Z) (metadata_size : Z).

Abbreviation count := (target_sector_count identity_file_size known_peers_file_size
                         sector_size metadata_size).
Abbreviation fixed := (2 * 1024 * 1024 + identity_file_size + known_peers_file_size).
Abbreviation per_sector m := (sector_size m + metadata_size).

(** C10: with at most 100 percent of cache, the number of sectors of a farm is
    computed without overflow in every build profile; the sectors and the
    fixed files fit in the pledged space, and one more sector would not fit in
    the share left for plotting. *)
Theorem target_sectors_fit p allocated pct m :
  0 <= identity_file_size -> 0 <= known_peers_file_size -> fixed < 2 ^ 64 ->
  0 <= allocated < 2 ^ 64 -> 1 <= pct <= 100 ->
  0 <= sector_size m -> 0 <= metadata_size -> 0 < per_sector m < 2 ^ 64 ->
  exists n, target_sector_count identity_file_size known_peers_file_size sector_size metadata_size
    p allocated pct m = Ret n /\ 0 <= n /\
    (0 < n -> n * per_sector m + fixed <= allocated) /\
    n * per_sector m <= saturating_sub allocated fixed / 100 * (100 - pct) < (n + 1) * per_sector m.
Proof.
  intros Hi Hk Hf Ha Hp Hs Hm Hper. rewrite target_sector_count_Ret by done.
  set (u := saturating_sub allocated fixed / 100 * (100 - pct)).
  assert (Hu : 0 <= u <= Z.max 0 (allocated - fixed)).
  { unfold u, saturating_sub. pose proof (Z.mul_div_le (Z.max 0 (allocated - fixed)) 100).
    pose proof (Z.div_pos (Z.max 0 (allocated - fixed)) 100). nia. }
  pose proof (Z.mul_div_le u (per_sector m)). pose proof (Z.mul_succ_div_gt u (per_sector m)).
  pose proof (Z.div_pos u (per_sector m)).
  exists (u / per_sector m). split; [done|]. split; [lia|]. split; [|lia].
  intros Hpos. assert (Hu0 : 0 < u) by nia. nia.
Qed.

(** C25: the cache percentage is never checked against 100.  Above it, for a
    pledge of at least 100 bytes more than the fixed files and at most 2^56 bytes
    and sectors of at most 2^62 bytes, a build with overflow checks panics, and a
    build without them announces a number of sectors that together take more
    space than the whole pledge. *)
Theorem cache_percentage_over_100 allocated pct m :
  0 <= identity_file_size -> 0 <= known_peers_file_size -> fixed < 2 ^ 64 ->
  fixed + 100 <= allocated <= 2 ^ 56 -> 100 < pct < 256 ->
  0 <= sector_size m -> 0 <= metadata_size -> 0 < per_sector m <= 2 ^ 62 ->
  (exists why, target_sector_count identity_file_size known_peers_file_size sector_size metadata_size
    Debug allocated pct m = Panic why) /\
  exists n, target_sector_count identity_file_size known_peers_file_size sector_size metadata_size
    Release allocated pct m = Ret n /\ allocated < n * per_sector m.
Proof.
  intros Hi Hk Hf Ha Hp Hs Hm Hper. unfold target_sector_count.
  rewrite !fixed_space_usage_exact by done. cbn -[potentially_plottable_space].
  unfold potentially_plottable_space, sub_u, mul_u. split.
  - eexists. unfold arith. rewrite decide_False by (unfold in_u; lia). done.
  - unfold add_u. rewrite (arith_exact Release 64 (per_sector m)) by (unfold in_u; lia).
    rewrite arith_release by done. cbn -[Z.mul Z.div cast].
    rewrite arith_release by done. cbn -[Z.mul Z.div cast]. rewrite div_u_pos by lia.
    set (q := saturating_sub allocated fixed / 100).
    assert (Hq : 1 <= q /\ q * 100 <= 2 ^ 56).
    { unfold q, saturating_sub. rewrite Z.max_r by lia.
      pose proof (Z.mul_div_le (allocated - fixed) 100).
      pose proof (Z.div_le_lower_bound (allocated - fixed) 100 1). lia. }
    assert (Hc : cast 64 (q * cast 64 (100 - pct)) = 2 ^ 64 - q * (pct - 100)).
    { unfold cast. rewrite Z.mul_mod_idemp_r by done.
      replace (q * (100 - pct)) with (2 ^ 64 - q * (pct - 100) + -1 * 2 ^ 64) by lia.
      rewrite Z.mod_add by done. apply Z.mod_small. nia. }
    rewrite Hc. eexists. split; [done|].
    pose proof (Z.mul_succ_div_gt (2 ^ 64 - q * (pct - 100)) (per_sector m)). nia.
Qed.
End sector_properties.

(** C12: one subscriber that misses no change sees the progress exactly: with [n]
    values seen on the watch channel, the stream has produced the successive
    progresses from the starting sector on, at most up to the last sector, and
    it has ended iff more values were seen than sectors were left. *)
Theorem progress_single_subscriber p s c t ws :
  0 <= c < t -> t < 2 ^ 64 - 1 -> Forall (fun w => w <> WatchClosed) ws ->
  let sh := mkProgress s c t in
  let n := Z.of_nat (yields ws) in
  exists st',
    poll_many p ws sh (subscribe_initial_plotting_progress sh sh) =
    Ret (mkProgress s (c + Z.min n (t - c + 1)) t, st',
         (fun x => mkProgress s x t) <$> seqZ c (Z.min n (t - c))) /\
    ended st' = bool_decide (t - c < n).
Proof.
  intros Hc Ht Hws sh n. unfold subscribe_initial_plotting_progress.
  rewrite decide_False by (cbn; lia). rewrite poll_many_yields by done. fold n.
  destruct (decide (n <= t - c)) as [Hn|Hn].
  - eexists. split; [unfold sh; rewrite poll_many_before by lia|].
    + fold n. by rewrite !Z.min_l by lia.
    + cbn. by rewrite bool_decide_false by lia.
  - destruct (poll_many_past p s c t (yields ws) sh) as (last' & Hrun); [lia..|].
    exists (InnerStream last' true). unfold sh at 1. rewrite Hrun, !Z.min_r by lia.
    rewrite (bool_decide_true (t - c < n)) by lia.
    by replace (c + (t - c + 1)) with (t + 1) by lia.
Qed.

(** C27: when a farm that has [t - c] sectors left has plotted them all, the
    stream of its only subscriber has ended exactly when the subscriber was there
    from the start and missed nothing: it subscribed and polled before the first
    of these sectors was plotted, polled between any two of them, and after the
    last.  If a sector was plotted before it subscribed, or before its first
    poll, or two without a poll in between, the stream is still open, however
    often it is polled afterwards. *)
Theorem progress_late_subscriber (answer : nat -> option nat -> watch_poll) `{!WatchStream answer} p s c t before es :
  0 <= c < t -> t < 2 ^ 64 - 1 -> Forall plot_or_poll es ->
  Z.of_nat before + Z.of_nat (plots es) = t - c ->
  exists sh' seen st',
    watched_run answer p (replicate before PlotSector ++ SubscribeProgress :: es)
      (mkWatched 0 (mkProgress s c t) []) =
    Ret (mkWatched (Z.to_nat (t - c)) sh' [(seen, st')]) /\
    ended st' = bool_decide (before = 0%nat) && follows false es.
Proof.
  intros Hc Ht Hes Hall. rewrite watched_run_app, watched_plots. cbn -[watched_run].
  cbn [watched_run watched_step w_version w_shared w_subscribers app mbind outcome_bind].
  unfold subscribe_initial_plotting_progress. rewrite decide_False by (cbn; lia).
  destruct (poll_many_ended p s c t (found false es) Hc Ht (found_open _ _))
    as (sh' & st' & items & Hrun & Hend).
  destruct (watched_poll_many answer p es before _ None _ false _ _ _ Hes (or_introl (watch_first before))
    ltac:(done) Hrun) as [seen ->].
  exists sh', seen, st'. split; [by replace (before + plots es)%nat with (Z.to_nat (t - c)) by lia|].
  rewrite Hend. destruct (yields_found es false) as [Hle Hiff]. apply eq_true_iff_eq.
  rewrite bool_decide_eq_true, andb_true_iff, bool_decide_eq_true, <-Hiff. lia.
Qed.

(** C29: the counter counts polls, not sectors: [t - c + 1] subscribers that
    only read the value the watch channel already held, with no sector plotted
    in between, push it past the total and end the last subscriber's stream. *)
Theorem progress_counts_subscribers p s c k :
  0 <= c -> (1 <= k)%nat -> c + Z.of_nat k < 2 ^ 64 - 2 ->
  let t := c + Z.of_nat k in
  exists streams,
    farm_run p (replicate (S k) Subscribe ++
                ((fun i => PollStream i WatchYields) <$> seq 0 (S k))) (mkProgress s c t, []) =
    Ret (mkProgress s (t + 1) t, streams) /\
    length streams = S k /\
    forall i st, streams !! i = Some st -> ended st = bool_decide (i = k).
Proof.
  intros Hc Hk Ht t. rewrite farm_run_app, farm_run_subscribe by (cbn; lia).
  cbn [app outcome_bind mbind].
  destruct (farm_run_first_polls p s t (mkProgress s c t) []
              (replicate (S k) (InnerStream (mkProgress s c t) false)) c)
    as (streams & Hrun & Hlen & Hend).
  - done.
  - rewrite length_replicate. lia.
  - done.
  - by apply Forall_replicate.
  - rewrite length_replicate in Hrun, Hlen. cbn [app length] in Hrun.
    exists streams. rewrite Hrun. split; [f_equal; f_equal; f_equal; lia|]. split; [done|].
    intros i st Hi. rewrite (Hend i st Hi). apply bool_decide_ext.
    apply lookup_lt_Some in Hi. lia.
Qed.

(** C24: however the subscribers of a farm subscribe and poll, as long as the
    counter stays within 64 bits: no poll overflows, the shared progress and the
    last item of every stream stay progress of this farm, and the items of all
    subscribers together are one run of consecutive sectors from the starting
    one, below the total.  So each sector is reported to one subscriber only,
    and no item ever reaches the total. *)
Theorem farm_items_typed p s t es :
  in_u 64 s -> s + Z.of_nat (length es) < 2 ^ 64 ->
  exists sh streams n, farm_run p es (initial_progress s t, []) = Ret (sh, streams) /\
  progress_ok s t sh /\ Forall (stream_ok s t) streams /\
  farm_items p es (initial_progress s t, []) = Ret ((fun x => at_sector s x t) <$> seqZ s (Z.of_nat n)) /\
  (n = 0%nat \/ s + Z.of_nat n <= t).
Proof.
  intros Hs Hb. destruct (farm_run_ok p s t es (initial_progress s t, [])) as (st & n & Hrun & [Hsh Hst] & H); [|done|].
  - split; [|done]. split; [done|]. split; [done|]. split; [cbn; lia|done].
  - exists st.1, st.2, n. destruct st. done.
Qed.

(** Once plotting was followed to its end, subscribing again yields a stream
    whose size hint subtracts a larger number from a smaller one: it panics in
    a build with overflow checks and announces 2^64 - 1 items in one without. *)
Lemma size_hint_after_resubscribe p s c t ws :
  0 <= c < t -> t < 2 ^ 64 - 1 -> Forall (fun w => w <> WatchClosed) ws ->
  t - c < Z.of_nat (yields ws) ->
  let sh := mkProgress s c t in
  exists sh' st' items,
    poll_many p ws sh (subscribe_initial_plotting_progress sh sh) = Ret (sh', st', items) /\
    let again := subscribe_initial_plotting_progress sh' sh' in
    (exists why, size_hint Debug again = Panic why) /\
    size_hint Release again = Ret (2 ^ 64 - 1, Some (2 ^ 64 - 1)).
Proof.
  intros Hc Ht Hws Hn sh. unfold subscribe_initial_plotting_progress.
  rewrite (decide_False (P := current_sector sh = _)) by (cbn; lia).
  rewrite poll_many_yields by done. unfold sh.
  destruct (poll_many_past p s c t (yields ws) (mkProgress s c t)) as (last' & Hrun); [lia..|].
  rewrite Hrun. eexists _, _, _. split; [done|]. cbn -[sub_u cast].
  rewrite decide_False by lia. unfold size_hint, sub_u. cbn -[arith cast].
  replace (t - (t + 1)) with (-1) by lia. split; [by eexists|]. done.
Qed.

(** While plotting is followed, the size hint announces one item more than
    the stream can still produce, although it is given as a lower bound. *)
Lemma size_hint_overstates p s c t n ws :
  0 <= c < t -> t < 2 ^ 64 - 1 -> 1 <= Z.of_nat n <= t - c ->
  Forall (fun w => w <> WatchClosed) ws ->
  let sh := mkProgress s c t in
  exists sh1 st1 items sh2 st2 rest,
    poll_many p (replicate n WatchYields) sh (subscribe_initial_plotting_progress sh sh) =
      Ret (sh1, st1, items) /\
    poll_many p ws sh1 st1 = Ret (sh2, st2, rest) /\
    size_hint p st1 = Ret (t - c - Z.of_nat n + 1, Some (t - c - Z.of_nat n + 1)) /\
    Z.of_nat (length rest) <= t - c - Z.of_nat n.
Proof.
  intros Hc Ht Hn Hws sh. unfold subscribe_initial_plotting_progress.
  rewrite decide_False by (cbn; lia). unfold sh.
  rewrite poll_many_before, decide_False by lia.
  set (c1 := c + Z.of_nat n). set (last := mkProgress s (c1 - 1) t).
  assert (Hrest : exists sh2 st2 rest,
    poll_many p (replicate (yields ws) WatchYields) (mkProgress s c1 t) (InnerStream last false) =
    Ret (sh2, st2, rest) /\ Z.of_nat (length rest) <= t - c1).
  { destruct (decide (c1 + Z.of_nat (yields ws) <= t)).
    - rewrite poll_many_before by lia. eexists _, _, _. split; [done|].
      rewrite length_fmap, length_seqZ. lia.
    - destruct (poll_many_past p s c1 t (yields ws) last) as (l' & Hrun); [lia..|].
      rewrite Hrun. eexists _, _, _. split; [done|]. rewrite length_fmap, length_seqZ. lia. }
  destruct Hrest as (sh2 & st2 & rest & Hrun & Hlen).
  eexists _, _, _, _, _, _. split; [done|].
  split; [rewrite poll_many_yields by done; exact Hrun|]. split; [|lia].
  unfold size_hint, sub_u, last. cbn -[arith cast].
  rewrite arith_exact by (unfold in_u; lia). cbn -[cast].
  rewrite cast_small by (unfold in_u; lia).
  by replace (t - (c1 - 1)) with (t - c - Z.of_nat n + 1) by lia.
Qed.

(** ** Witnesses *)

(** One farm of 10 GiB, one percent of cache, sectors of 1 GB. *)
Lemma target_sectors_fit_witness :
  exists n, target_sector_count 48 1000000 (fun _ => 1000000000) 80 Release (10 * 2 ^ 30) 1 1000 = Ret n /\
    0 <= n /\
    (0 < n -> n * (1000000000 + 80) + (2 * 1024 * 1024 + 48 + 1000000) <= 10 * 2 ^ 30) /\
    n * (1000000000 + 80) <=
      saturating_sub (10 * 2 ^ 30) (2 * 1024 * 1024 + 48 + 1000000) / 100 * (100 - 1)
      < (n + 1) * (1000000000 + 80).
Proof.
  apply (target_sectors_fit 48 1000000 (fun _ => 1000000000) 80 Release (10 * 2 ^ 30) 1 1000); lia.
Defined.

Lemma cache_percentage_over_100_witness :
  (exists why, target_sector_count 48 1000000 (fun _ => 1000000000) 80 Debug (10 * 2 ^ 30) 101 1000 = Panic why) /\
  exists n, target_sector_count 48 1000000 (fun _ => 1000000000) 80 Release (10 * 2 ^ 30) 101 1000 = Ret n /\
    10 * 2 ^ 30 < n * (1000000000 + 80).
Proof.
  apply (cache_percentage_over_100 48 1000000 (fun _ => 1000000000) 80 (10 * 2 ^ 30) 101 1000); lia.
Defined.

Lemma progress_single_subscriber_witness :
  exists st',
    poll_many Debug [WatchYields; WatchPending; WatchYields; WatchYields]
      (mkProgress 3 3 5)
      (subscribe_initial_plotting_progress (mkProgress 3 3 5) (mkProgress 3 3 5)) =
    Ret (mkProgress 3 6 5, st', [mkProgress 3 3 5; mkProgress 3 4 5]) /\ ended st' = true.
Proof.
  apply (progress_single_subscriber Debug 3 3 5 [WatchYields; WatchPending; WatchYields; WatchYields]);
    [lia | lia | repeat constructor; discriminate].
Defined.

(** Two sectors are left.  A subscriber that came after the first was plotted
    waits for ever; one that followed from the start sees the end. *)
Lemma progress_late_subscriber_witness :
  (exists sh seen st,
    watched_run watch_versions Debug [PlotSector; SubscribeProgress; PollProgress 0; PlotSector; PollProgress 0; PollProgress 0]
      (mkWatched 0 (mkProgress 0 1 3) []) = Ret (mkWatched 2 sh [(seen, st)]) /\ ended st = false) /\
  exists sh seen st,
    watched_run watch_versions Debug [SubscribeProgress; PollProgress 0; PlotSector; PollProgress 0; PlotSector; PollProgress 0]
      (mkWatched 0 (mkProgress 0 1 3) []) = Ret (mkWatched 2 sh [(seen, st)]) /\ ended st = true.
Proof.
  split.
  - apply (progress_late_subscriber watch_versions Debug 0 1 3 1 [PollProgress 0; PlotSector; PollProgress 0; PollProgress 0]);
      [lia | lia | repeat constructor; (left; reflexivity) || (right; reflexivity) | reflexivity].
  - apply (progress_late_subscriber watch_versions Debug 0 1 3 0
      [PollProgress 0; PlotSector; PollProgress 0; PlotSector; PollProgress 0]);
      [lia | lia | repeat constructor; (left; reflexivity) || (right; reflexivity) | reflexivity].
Defined.

Lemma progress_counts_subscribers_witness :
  exists streams,
    farm_run Debug [Subscribe; Subscribe; PollStream 0 WatchYields; PollStream 1 WatchYields]
      (mkProgress 9 9 10, []) = Ret (mkProgress 9 11 10, streams) /\
    length streams = 2%nat /\
    forall i st, streams !! i = Some st -> ended st = bool_decide (i = 1%nat).
Proof. apply (progress_counts_subscribers Debug 9 9 1); lia. Defined.

(** Two subscribers share the three sectors of a farm. *)
Lemma farm_items_typed_witness :
  let es := [Subscribe; Subscribe; PollStream 0 WatchYields; PollStream 1 WatchYields;
             PollStream 1 WatchYields; PollStream 0 WatchYields] in
  farm_items Debug es (initial_progress 2 5, []) = Ret [at_sector 2 2 5; at_sector 2 3 5; at_sector 2 4 5] /\
  exists sh streams n, farm_run Debug es (initial_progress 2 5, []) = Ret (sh, streams) /\
  progress_ok 2 5 sh /\ Forall (stream_ok 2 5) streams /\
  farm_items Debug es (initial_progress 2 5, []) = Ret ((fun x => at_sector 2 x 5) <$> seqZ 2 (Z.of_nat n)) /\
  (n = 0%nat \/ 2 + Z.of_nat n <= 5).
Proof.
  intros es. split; [reflexivity|]. apply farm_items_typed; [split; [lia|reflexivity]|reflexivity].
Defined.

Lemma size_hint_after_resubscribe_witness :
  exists sh' st' items,
    poll_many Debug [WatchYields; WatchYields] (mkProgress 0 0 1)
      (subscribe_initial_plotting_progress (mkProgress 0 0 1) (mkProgress 0 0 1)) =
    Ret (sh', st', items) /\
    let again := subscribe_initial_plotting_progress sh' sh' in
    (exists why, size_hint Debug again = Panic why) /\
    size_hint Release again = Ret (2 ^ 64 - 1, Some (2 ^ 64 - 1)).
Proof.
  apply (size_hint_after_resubscribe Debug 0 0 1 [WatchYields; WatchYields]);
    [lia | lia | repeat constructor; discriminate | cbn; lia].
Defined.

Lemma size_hint_overstates_witness :
  exists sh1 st1 items sh2 st2 rest,
    poll_many Debug [WatchYields] (mkProgress 0 0 2)
      (subscribe_initial_plotting_progress (mkProgress 0 0 2) (mkProgress 0 0 2)) =
      Ret (sh1, st1, items) /\
    poll_many Debug [WatchYields; WatchYields] sh1 st1 = Ret (sh2, st2, rest) /\
    size_hint Debug st1 = Ret (2, Some 2) /\ Z.of_nat (length rest) <= 1.
Proof.
  apply (size_hint_overstates Debug 0 0 2 1 [WatchYields; WatchYields]);
    [lia | lia | lia | repeat constructor; discriminate].
Defined.
