(* ===== verification/Traits.v ===== *)
(** The interfaces between farmer and node (traits/src/lib.rs): the node's
    request handler is written against [FarmerTrait], the farmer is built on any
    [NodeTrait].  The farmer's instance is in [Pieces], the node's in [Node]. *)
From S2P Require Import Prelude.

(** [sdk_traits::Farmer]: fetch a piece from the cache or from the farms; the
    weak pointer is what upgrading it finds, the contents of a slot. *)
Class FarmerTrait (Cache RP PieceIndex Piece : Type) := {
  trait_get_piece_by_index : PieceIndex -> Cache -> option (option RP) -> option Piece;
}.

(** [sdk_traits::Node]. *)
Class NodeTrait (N Dsn Rpc : Type) := {
  trait_name : N -> string;
  trait_dsn : N -> Dsn;
  trait_rpc : N -> Rpc;
}.
