(* ===== verification/Newtypes.v ===== *)
(** The newtypes and small helpers of utils/src/lib.rs: sizes, addresses,
    public keys, task spawning and the code [generate_builder!] expands to.

    Foreign types are abstract.  Addresses of the two libp2p versions are
    converted through their textual form, an interface ([TextForm]); that one
    version can read what the other prints is a hypothesis, as the messages of
    the conversions say. *)
From S2P Require Import Prelude.

#[local] Open Scope Z_scope.

(** ** [ByteSize] *)

(** [bytesize::ByteSize]. *)
Class ByteSizeApi (B : Type) := {
  bs_b : Z -> B; bs_kb : Z -> B; bs_kib : Z -> B; bs_mb : Z -> B; bs_mib : Z -> B; bs_gb : Z -> B; bs_gib : Z -> B;
  as_u64 : B -> Z;
}.

Section bytesize.
Context {B : Type} `{ByteSizeApi B}.

Record ByteSize := mkByteSize { bytesize : B }.

Definition ByteSize_b (n : Z) : ByteSize := mkByteSize (bs_b n).
Definition ByteSize_kb (n : Z) : ByteSize := mkByteSize (bs_kb n).
Definition ByteSize_kib (n : Z) : ByteSize := mkByteSize (bs_kib n).
Definition ByteSize_mb (n : Z) : ByteSize := mkByteSize (bs_mb n).
Definition ByteSize_mib (n : Z) : ByteSize := mkByteSize (bs_mib n).
Definition ByteSize_gb (n : Z) : ByteSize := mkByteSize (bs_gb n).
Definition ByteSize_gib (n : Z) : ByteSize := mkByteSize (bs_gib n).
Definition to_u64 (s : ByteSize) : Z := as_u64 (bytesize s).
End bytesize.

(** ** Addresses *)

(** [Display] and [FromStr]. *)
Class TextForm (A : Type) := { to_string : A -> string; parse : string -> option A }.

Definition same_address : string := "Conversion between 2 libp2p versions is always right".

(** Through the text of one type into another. *)
Definition through_text {A B} `{TextForm A, TextForm B} (a : A) : outcome B :=
  expect same_address (parse (to_string a)).

Section addresses.
(** [libp2p_core::Multiaddr], [sc_network::Multiaddr], [sc_network::PeerId],
    [sc_service::config::MultiaddrWithPeerId]. *)
Context {Core Net Peer NetWithPeer : Type}.
Context `{TextForm Core, TextForm Net, TextForm NetWithPeer}.
Variable with_peer : Net -> Peer -> NetWithPeer.

Record Multiaddr := mkMultiaddr { multiaddr : Core }.
Record MultiaddrWithPeerId := mkMultiaddrWithPeerId { multiaddr_with_peer_id : NetWithPeer }.

(** The derived [Display] and [FromStr] are those of the content. *)
#[export] Instance Multiaddr_text : TextForm Multiaddr :=
  {| to_string m := to_string (multiaddr m); parse s := mkMultiaddr <$> parse s |}.
#[export] Instance MultiaddrWithPeerId_text : TextForm MultiaddrWithPeerId :=
  {| to_string m := to_string (multiaddr_with_peer_id m); parse s := mkMultiaddrWithPeerId <$> parse s |}.

Definition Multiaddr_into_network (value : Multiaddr) : outcome Net := through_text (multiaddr value).
Definition Multiaddr_from_network (value : Net) : outcome Multiaddr := through_text value.

(** [MultiaddrWithPeerId::new], from any value that converts into [Multiaddr]. *)
Definition MultiaddrWithPeerId_new {A} (into : A -> outcome Multiaddr) (a : A) (peer_id : Peer)
    : outcome MultiaddrWithPeerId :=
  m ← into a; n ← Multiaddr_into_network m; Ret (mkMultiaddrWithPeerId (with_peer n peer_id)).

Definition with_peer_into_core (value : MultiaddrWithPeerId) : outcome Core :=
  through_text (multiaddr_with_peer_id value).
Definition with_peer_into_network (value : MultiaddrWithPeerId) : outcome Net := through_text value.
Definition with_peer_into_multiaddr (value : MultiaddrWithPeerId) : outcome Multiaddr := through_text value.

(** *** Properties *)

(** A version reads back what it prints; [reads A B]: version [B] reads what
    version [A] prints, and prints it the same. *)
Definition reads A B `{TextForm A, TextForm B} : Prop :=
  forall a : A, exists b : B, parse (to_string a) = Some b /\ to_string b = to_string a.

Lemma through_text_reads {A B} `{TextForm A, TextForm B} (a : A) : reads A B ->
  exists b : B, through_text a = Ret b /\ to_string b = to_string a.
Proof. intros Hr. destruct (Hr a) as (b & Hb & Ht). exists b. unfold through_text. by rewrite Hb. Qed.

(** When the two libp2p versions read each other's addresses, and each reads
    back its own, no conversion panics, every conversion keeps the text, and
    going to the other version and back gives the address one started with.  An
    address built with a peer id prints as the network's address with that peer,
    and becomes a plain address with the same text. *)
Lemma address_conversions (m : Multiaddr) (net : Net) (peer : Peer) :
  reads Core Net -> reads Net Core -> reads NetWithPeer Core -> reads NetWithPeer Net ->
  (forall c : Core, parse (to_string c) = Some c) -> (forall n : Net, parse (to_string n) = Some n) ->
  (exists n, Multiaddr_into_network m = Ret n /\ to_string n = to_string m /\ Multiaddr_from_network n = Ret m) /\
  (exists m', Multiaddr_from_network net = Ret m' /\ to_string m' = to_string net /\
     Multiaddr_into_network m' = Ret net) /\
  (exists p, MultiaddrWithPeerId_new Multiaddr_from_network net peer = Ret p /\
     to_string p = to_string (with_peer net peer) /\
     exists m', with_peer_into_multiaddr p = Ret m' /\ to_string m' = to_string p /\
     exists c n, with_peer_into_core p = Ret c /\ to_string c = to_string p /\
       with_peer_into_network p = Ret n /\ to_string n = to_string p).
Proof.
  intros Hcn Hnc Hpc Hpn Hc Hn.
  assert (Hback : forall c : Core, exists n : Net, through_text c = Ret n /\ to_string n = to_string c /\
    Multiaddr_from_network n = Ret (mkMultiaddr c)).
  { intros c. destruct (through_text_reads c Hcn) as (n & E1 & E2). exists n. split; [done|]. split; [done|].
    unfold Multiaddr_from_network, through_text. cbn. by rewrite E2, Hc. }
  assert (Hforth : exists m', Multiaddr_from_network net = Ret m' /\ to_string m' = to_string net /\
    Multiaddr_into_network m' = Ret net).
  { destruct (Hnc net) as (c & E1 & E2). exists (mkMultiaddr c).
    unfold Multiaddr_from_network, Multiaddr_into_network, through_text. cbn. by rewrite E1, E2, Hn. }
  split; [by destruct m; apply Hback|]. split; [done|].
  destruct Hforth as (m' & Hm' & _ & Hnet). exists (mkMultiaddrWithPeerId (with_peer net peer)).
  unfold MultiaddrWithPeerId_new. rewrite Hm'. cbn. rewrite Hnet. split; [done|]. split; [done|].
  destruct (Hpc (with_peer net peer)) as (c & E1 & E2). destruct (Hpn (with_peer net peer)) as (n & E3 & E4).
  exists (mkMultiaddr c). unfold with_peer_into_multiaddr, with_peer_into_core, with_peer_into_network, through_text.
  cbn. rewrite E1, E3. split; [done|]. split; [done|]. by exists c, n.
Qed.
End addresses.
Arguments Multiaddr Core : clear implicits.
Arguments MultiaddrWithPeerId NetWithPeer : clear implicits.

(** ** [PublicKey] *)

(** [subspace_core_primitives::PublicKey] and [AccountId32]: 32 bytes. *)
Record CoreKey := mkCoreKey { core_key : list Z }.
Record AccountId32 := mkAccountId32 { account_bytes : list Z }.
Record PublicKey := mkPublicKey { public_key : CoreKey }.

Definition PublicKey_new (raw : list Z) : PublicKey := mkPublicKey (mkCoreKey raw).
Definition PublicKey_from_account (account_id : AccountId32) : PublicKey := PublicKey_new (account_bytes account_id).
Definition PublicKey_into_account (key : PublicKey) : AccountId32 := mkAccountId32 (core_key (public_key key)).

#[export] Instance PublicKey_eq : EqDecision PublicKey.
Proof. assert (EqDecision CoreKey) by solve_decision. solve_decision. Defined.
#[export] Instance AccountId32_eq : EqDecision AccountId32.
Proof. solve_decision. Defined.

(** Comparing accounts is comparing keys. *)
#[export] Instance PublicKey_into_account_inj : Inj (=) (=) PublicKey_into_account.
Proof. intros [[k]] [[k']] [= ->]. done. Qed.
Lemma PublicKey_account_roundtrip k a :
  PublicKey_from_account (PublicKey_into_account k) = k /\ PublicKey_into_account (PublicKey_from_account a) = a.
Proof. by destruct k as [[]], a. Qed.

(** ** Tasks and builders *)

Section spawn.
Context {Fut Handle : Type}.
Variables (spawn : Fut -> Handle) (builder_spawn : string -> Fut -> option Handle).

(** [task_spawn] and [task_spawn_blocking]: the name is given to tokio under
    [tokio_unstable] only. *)
Definition task_spawn (tokio_unstable : bool) (name : string) (future : Fut) : outcome Handle :=
  if tokio_unstable then expect "Spawning task never fails" (builder_spawn name future)
  else Ret (spawn future).
End spawn.

(** [generate_builder!]: [new], [build] and the conversion into the target. *)
Section generate_builder.
Context {Builder T : Type}.
Variables (builder_default : Builder) (_build : Builder -> result string T).

Definition generated_new : Builder := builder_default.
Definition generated_build (b : Builder) : outcome T := expect_ok "Infallible" (_build b).
Definition generated_from (b : Builder) : outcome T := generated_build b.
End generate_builder.

(** ** Witness *)

Section newtypes_demo.
#[local] Instance demo_text : TextForm string := {| to_string := id; parse := Some |}.

Lemma address_conversions_witness :
  exists p, MultiaddrWithPeerId_new (Core := string) (fun n peer => n +:+ "/p2p/" +:+ peer)%string
    Multiaddr_from_network "/ip4/1.2.3.4"%string "12D3"%string = Ret p /\
  to_string p = "/ip4/1.2.3.4/p2p/12D3"%string.
Proof.
  assert (Hr : reads string string) by (intros a; exists a; split; reflexivity).
  destruct (address_conversions (fun n peer => n +:+ "/p2p/" +:+ peer)%string (mkMultiaddr "/ip4/1.2.3.4"%string)
    "/ip4/1.2.3.4"%string "12D3"%string Hr Hr Hr Hr (fun _ => eq_refl) (fun _ => eq_refl))
    as (_ & _ & p & Hp & Ht & _).
  exists p. split; [exact Hp|]. rewrite Ht. reflexivity.
Defined.
End newtypes_demo.
