(* ===== verification/Pieces.v ===== *)
(** Serving pieces and segment headers: the readers-and-pieces table the farmer
    keeps for the node (farmer/src/lib.rs: [create_readers_and_pieces],
    [handler_on_sector_plotted], [get_piece_by_index]), the node's request
    handlers (node/src/lib.rs: [get_piece_by_index],
    [get_segment_header_by_segment_indexes]) and the local record provider of
    the DSN (dsn/src/local_provider_record_utils.rs).

    [ReadersAndPieces] is a type of the subspace-farmer crate: the class
    [ReadersAndPiecesApi] holds the operations the SDK calls. *)
From S2P Require Import Prelude Traits.

#[local] Open Scope Z_scope.

(** ** Errors of the farmer *)

Inductive SingleDiskFarmCreationError (SDE : Type) :=
| InsufficientSpaceForFarm (min_space allocated_space : Z)
| OtherCreationError (e : SDE).
Arguments InsufficientSpaceForFarm {SDE}.
Arguments OtherCreationError {SDE}.

Inductive BuildError (SDE : Type) :=
| SingleDiskFarmCreate (e : SingleDiskFarmCreationError SDE)
| NoFarmsSupplied
| RPCError (e : string)
| ThreadPoolError (e : string)
| OtherBuildError (e : string).
Arguments SingleDiskFarmCreate {SDE}.
Arguments NoFarmsSupplied {SDE}.
Arguments RPCError {SDE}.
Arguments ThreadPoolError {SDE}.
Arguments OtherBuildError {SDE}.

(** ** The readers-and-pieces table *)

Class ReadersAndPiecesApi (RP Reader Sector PieceIndex Piece : Type) := {
  rp_new : list Reader -> RP;
  rp_add_sector : Z -> Sector -> RP -> RP;
  rp_delete_sector : Z -> Sector -> RP -> RP;
  (** [None]: no reader knows the piece; otherwise what reading it gives. *)
  rp_read_piece : PieceIndex -> RP -> option (option Piece);
}.

(** The laws of the table: which sectors it knows, and what it can read of
    them; [sector_piece] is the content of a plotted sector. *)
Class ReadersAndPiecesLaws (RP Reader Sector PieceIndex Piece : Type)
    `{ReadersAndPiecesApi RP Reader Sector PieceIndex Piece} `{Countable Sector}
    (sector_piece : Sector -> PieceIndex -> option Piece) := {
  rp_sectors : RP -> gset (Z * Sector);
  rp_sectors_new rs : rp_sectors (rp_new rs) = ∅;
  rp_sectors_add k s rp : rp_sectors (rp_add_sector k s rp) = {[(k, s)]} ∪ rp_sectors rp;
  rp_sectors_delete k s rp : rp_sectors (rp_delete_sector k s rp) = rp_sectors rp ∖ {[(k, s)]};
  (** Nothing is looked up for a piece no sector holds; reading one that is held may fail. *)
  rp_read_unknown i rp :
    rp_read_piece i rp = None <-> forall k s, (k, s) ∈ rp_sectors rp -> sector_piece s i = None;
  rp_read_held i rp p : rp_read_piece i rp = Some (Some p) ->
    exists k s, (k, s) ∈ rp_sectors rp /\ sector_piece s i = Some p;
}.

(** A table that is the set of its sectors. *)
Section set_table.
Context {Sector PieceIndex Piece : Type} `{Countable Sector}.
Variable sector_piece : Sector -> PieceIndex -> option Piece.

Definition set_table_read (i : PieceIndex) (rp : gset (Z * Sector)) : option (option Piece) :=
  match omap (fun ks => sector_piece ks.2 i) (elements rp) with
  | [] => None
  | p :: _ => Some (Some p)
  end.

Definition set_table : ReadersAndPiecesApi (gset (Z * Sector)) unit Sector PieceIndex Piece := {|
  rp_new _ := ∅;
  rp_add_sector k s rp := {[(k, s)]} ∪ rp;
  rp_delete_sector k s rp := rp ∖ {[(k, s)]};
  rp_read_piece := set_table_read;
|}.

Lemma set_table_read_elem (i : PieceIndex) (rp : gset (Z * Sector)) (p : Piece) :
  p ∈ omap (fun ks => sector_piece ks.2 i) (elements rp) <->
  exists k s, (k, s) ∈ rp /\ sector_piece s i = Some p.
Proof.
  rewrite list_elem_of_omap. setoid_rewrite elem_of_elements. split.
  - intros ([k s] & Hin & Hp). eauto.
  - intros (k & s & Hin & Hp). by exists (k, s).
Qed.

Definition set_table_laws :
  @ReadersAndPiecesLaws (gset (Z * Sector)) unit Sector PieceIndex Piece set_table _ _ sector_piece.
Proof.
  refine {| rp_sectors := id : gset (Z * Sector) -> gset (Z * Sector) |}; [done..| |].
  - intros i rp. cbn. unfold set_table_read.
    destruct (omap _ (elements rp)) as [|p l] eqn:Hl; split; try done.
    + intros _ k s Hin. destruct (sector_piece s i) as [p|] eqn:Hp; [|done].
      exfalso. apply (not_elem_of_nil p). rewrite <-Hl. apply set_table_read_elem. eauto.
    + intros Hno. exfalso.
      assert (Hp : p ∈ omap (fun ks => sector_piece ks.2 i) (elements rp)) by (rewrite Hl; left).
      apply set_table_read_elem in Hp as (k & s & Hin & Hp). by rewrite (Hno k s Hin) in Hp.
  - intros i rp p. cbn. unfold set_table_read.
    destruct (omap _ (elements rp)) as [|p' l] eqn:Hl; [done|]. intros [= ->].
    apply set_table_read_elem. rewrite Hl. left.
Defined.
End set_table.

Section pieces.
Context {RP Reader Sector PieceIndex Piece : Type}.
Context `{ReadersAndPiecesApi RP Reader Sector PieceIndex Piece}.
Context {SDE : Type}.

Definition too_many_farms : string :=
  "More than 256 farms are not supported, consider running multiple farmer instances".

(** [(0 as SectorIndex..).zip(iter).for_each(..)] over a [w]-bit sector index:
    the range computes its next value on every call, also on the one that finds
    [iter] exhausted. *)
Fixpoint for_each_plotted_sector {E} (p : profile) (w : Z) (disk_farm_index sector_index : Z)
    (plotted_sectors_iter : list (result E Sector)) (rp : RP) : outcome RP :=
  next ← add_u p w sector_index 1;
  match plotted_sectors_iter with
  | [] => Ret rp
  | Ok plotted_sector :: iter' =>
      for_each_plotted_sector p w disk_farm_index next iter'
        (rp_add_sector disk_farm_index plotted_sector rp)
  | Err _ :: iter' => for_each_plotted_sector p w disk_farm_index next iter' rp
  end.

(** [iters.enumerate().try_for_each(..)]. *)
Fixpoint collect_plotted {E} (p : profile) (w : Z) (disk_farm_index : Z)
    (plotted_sectors_iters : list (list (result E Sector))) (rp : RP)
    : outcome (result (BuildError SDE) RP) :=
  match plotted_sectors_iters with
  | [] => Ret (Ok rp)
  | iter :: iters' =>
      match try_into_u 8 disk_farm_index with
      | None => Ret (Err (OtherBuildError too_many_farms))
      | Some index =>
          rp' ← for_each_plotted_sector p w index 0 iter rp;
          collect_plotted p w (disk_farm_index + 1) iters' rp'
      end
  end.

(** [create_readers_and_pieces]: a farm is its reader and its plotted sectors. *)
Definition create_readers_and_pieces {E} (p : profile) (w : Z)
    (single_disk_farms : list (Reader * list (result E Sector)))
    : outcome (result (BuildError SDE) RP) :=
  let readers := fst <$> single_disk_farms in
  let readers_and_pieces := rp_new readers in
  collect_plotted p w 0 (snd <$> single_disk_farms) readers_and_pieces.

(** [handler_on_sector_plotted], on the contents of the shared slot. *)
Definition handler_on_sector_plotted (plotted_sector : Sector)
    (maybe_old_plotted_sector : option Sector) (disk_farm_index : Z)
    (readers_and_pieces : option RP) : outcome (option RP) :=
  index ← expect "More than 256 farms are not supported, this is checked above already; qed"
            (try_into_u 8 disk_farm_index);
  rp ← expect "Initial value was populated before; qed" readers_and_pieces;
  let rp1 := match maybe_old_plotted_sector with
             | Some old_plotted_sector => rp_delete_sector index old_plotted_sector rp
             | None => rp
             end in
  Ret (Some (rp_add_sector index plotted_sector rp1)).

(** [<Farmer as sdk_traits::Farmer>::get_piece_by_index]: the cache first, then
    the farms; [weak] is what upgrading the weak pointer finds. *)
Definition farmer_get_piece_by_index (piece_index : PieceIndex)
    (piece_cache : PieceIndex -> option Piece) (weak : option (option RP)) : option Piece :=
  match piece_cache piece_index with
  | Some piece => Some piece
  | None =>
      match weak with
      | None => None
      | Some slot =>
          match slot with
          | None => None
          | Some readers_and_pieces =>
              match rp_read_piece piece_index readers_and_pieces with
              | Some fut => fut
              | None => None
              end
          end
      end
  end.

#[export] Instance Farmer_trait : FarmerTrait (PieceIndex -> option Piece) RP PieceIndex Piece := {|
  trait_get_piece_by_index := farmer_get_piece_by_index |}.

(** The sectors that are added for one farm, and for all of them. *)
Definition readable {E} (l : list (result E Sector)) : list Sector := omap ok l.

Definition plotted_of {E} (farms : list (list (result E Sector))) : list (Z * Sector) :=
  concat (zip_with (fun i iter => (fun s => (i, s)) <$> readable iter)
            (seqZ 0 (Z.of_nat (length farms))) farms).

Definition add_all (l : list (Z * Sector)) (rp : RP) : RP :=
  foldl (fun rp x => rp_add_sector x.1 x.2 rp) rp l.
End pieces.

(** The node's handler, for the node of any farmer: it answers only once a
    farmer has registered its cache. *)
Record PieceByIndexResponse (Piece : Type) := mkPieceResponse { response_piece : option Piece }.
Arguments mkPieceResponse {Piece}.
Arguments response_piece {Piece}.

Definition node_get_piece_by_index {Cache RP PieceIndex Piece} `{FarmerTrait Cache RP PieceIndex Piece}
    (piece_index : PieceIndex) (weak : option (option RP)) (farmer_piece_cache : option Cache)
    : option (PieceByIndexResponse Piece) :=
  match farmer_piece_cache with
  | Some cache => Some (mkPieceResponse (trait_get_piece_by_index piece_index cache weak))
  | None => None
  end.

(** [MaybeLocalRecordProvider::record]. *)
Definition MaybeLocalRecordProvider_record {S K R} (record : S -> K -> option R)
    (inner : option S) (key : K) : option R :=
  match (fun v => record v key) <$> inner with
  | Some r => r
  | None => None
  end.

(** ** Segment headers *)

Section headers.
Context {Header : Type}.
(** [MAX_SEGMENT_HEADERS_PER_REQUEST] and the segment headers store. *)
Variable SEGMENT_HEADERS_NUMBER_LIMIT : Z.
Variable max_segment_index : option Z.
Variable get_segment_header : Z -> option Header.

Inductive SegmentHeaderRequest :=
| SegmentIndexes (segment_indexes : list Z)
| LastSegmentHeaders (segment_header_number : Z).

Record SegmentHeaderResponse := mkHeaders { segment_headers : list Header }.

(** The indexes a request asks for. *)
Definition requested_segment_indexes (req : SegmentHeaderRequest) : list Z :=
  match req with
  | SegmentIndexes segment_indexes => segment_indexes
  | LastSegmentHeaders segment_header_number =>
      let segment_headers_limit :=
        if decide (segment_header_number > SEGMENT_HEADERS_NUMBER_LIMIT)
        then SEGMENT_HEADERS_NUMBER_LIMIT else segment_header_number in
      let max := default 0 max_segment_index in
      take (Z.to_nat (cast 64 segment_headers_limit)) (reverse (seqZ 0 (max + 1)))
  end.

Definition get_segment_header_by_segment_indexes (req : SegmentHeaderRequest)
    : option SegmentHeaderResponse :=
  match collect_option (get_segment_header <$> requested_segment_indexes req) with
  | Some headers => Some (mkHeaders headers)
  | None => None
  end.
End headers.
Arguments SegmentHeaderResponse : clear implicits.

(** ** Lemmas *)

Lemma take_reverse_seqZ m n i :
  0 <= m -> (i < n)%nat -> Z.of_nat i <= m ->
  take n (reverse (seqZ 0 (m + 1))) !! i = Some (m - Z.of_nat i).
Proof.
  intros Hm Hi Him. rewrite lookup_take_lt by done.
  rewrite reverse_lookup by (rewrite length_seqZ; lia). rewrite length_seqZ.
  rewrite lookup_seqZ_lt by lia. f_equal. lia.
Qed.

Section piece_facts.
Context {RP Reader Sector PieceIndex Piece : Type}.
Context `{ReadersAndPiecesApi RP Reader Sector PieceIndex Piece}.
Context {SDE E : Type}.
Implicit Types (rp : RP) (iter : list (result E Sector)) (farms : list (list (result E Sector))).

Lemma for_each_plotted_sector_exact p w i iter : forall si rp,
  0 <= si -> si + Z.of_nat (length iter) + 1 < 2 ^ w ->
  for_each_plotted_sector p w i si iter rp =
  Ret (add_all ((fun s => (i, s)) <$> readable iter) rp).
Proof.
  induction iter as [|[s|e] iter IH]; intros si rp Hsi Hlen; cbn in Hlen;
    cbn [for_each_plotted_sector]; unfold add_u;
    rewrite arith_exact by (unfold in_u; lia); cbn -[for_each_plotted_sector];
    [done| |]; rewrite IH by lia; done.
Qed.

Lemma collect_plotted_exact p w farms : forall i rp,
  0 <= i -> i + Z.of_nat (length farms) <= 256 ->
  Forall (fun iter => Z.of_nat (length iter) + 1 < 2 ^ w) farms ->
  collect_plotted (SDE := SDE) p w i farms rp =
  Ret (Ok (add_all (concat (zip_with (fun i iter => (fun s => (i, s)) <$> readable iter)
                              (seqZ i (Z.of_nat (length farms))) farms)) rp)).
Proof.
  induction farms as [|iter farms IH]; intros i rp Hi Hlen Hf; [done|].
  inversion Hf as [|? ? Hiter Hf']; subst. cbn [length] in Hlen.
  cbn [collect_plotted length]. unfold try_into_u. rewrite decide_True by solve_in_u.
  rewrite for_each_plotted_sector_exact by lia. cbn -[collect_plotted Z.of_nat].
  rewrite IH by (done || lia). rewrite (seqZ_cons i) by lia. cbn -[Z.of_nat].
  replace (Z.pred (Z.of_nat (S (length farms)))) with (Z.of_nat (length farms)) by lia.
  replace (Z.succ i) with (i + 1) by lia. unfold add_all. by rewrite foldl_app.
Qed.

(** Without assumptions on the farms: a run that returns has added everything. *)
Lemma for_each_plotted_sector_Ret p w i iter : forall si rp rp',
  for_each_plotted_sector p w i si iter rp = Ret rp' ->
  rp' = add_all ((fun s => (i, s)) <$> readable iter) rp.
Proof.
  induction iter as [|[s|e] iter IH]; intros si rp rp'; cbn [for_each_plotted_sector];
    intros (next & _ & Hrun)%bind_Ret; [by injection Hrun as <-|..]; by eapply IH.
Qed.

Lemma collect_plotted_Ok p w farms : forall i rp rp',
  0 <= i -> collect_plotted (SDE := SDE) p w i farms rp = Ret (Ok rp') ->
  rp' = add_all (concat (zip_with (fun i iter => (fun s => (i, s)) <$> readable iter)
                           (seqZ i (Z.of_nat (length farms))) farms)) rp /\
  (farms <> [] -> i + Z.of_nat (length farms) <= 256).
Proof.
  induction farms as [|iter farms IH]; intros i rp rp' Hi; cbn [collect_plotted length].
  { by intros [= <-]. }
  unfold try_into_u. case_decide as Hin; [|done]. unfold in_u in Hin. cbn in Hin.
  intros (rp1 & ->%for_each_plotted_sector_Ret & Hrun)%bind_Ret.
  destruct (IH (i + 1) _ _ ltac:(lia) Hrun) as [-> Hlen]. rewrite (seqZ_cons i) by lia. cbn -[Z.of_nat].
  replace (Z.pred (Z.of_nat (S (length farms)))) with (Z.of_nat (length farms)) by lia.
  replace (Z.succ i) with (i + 1) by lia. split; [unfold add_all; by rewrite foldl_app|].
  intros _. destruct farms as [|iter' farms]; [cbn; lia|]. specialize (Hlen ltac:(done)). lia.
Qed.

Lemma collect_plotted_too_many p w farms : forall i rp,
  0 <= i <= 256 -> 256 < i + Z.of_nat (length farms) ->
  Forall (fun iter => Z.of_nat (length iter) + 1 < 2 ^ w) farms ->
  collect_plotted p w i farms rp = Ret (Err (OtherBuildError (SDE := SDE) too_many_farms)).
Proof.
  induction farms as [|iter farms IH]; intros i rp Hi Hlen Hf; [cbn in Hlen; lia|].
  inversion Hf as [|? ? Hiter Hf']; subst. cbn [length] in Hlen.
  cbn [collect_plotted]. unfold try_into_u. case_decide as Hin.
  - rewrite for_each_plotted_sector_exact by lia. cbn -[collect_plotted].
    unfold in_u in Hin. cbn in Hin. apply IH; [lia|lia|done].
  - done.
Qed.

Lemma collect_plotted_Err p w farms : forall i rp e,
  0 <= i -> collect_plotted (SDE := SDE) p w i farms rp = Ret (Err e) ->
  e = OtherBuildError too_many_farms /\ 256 < i + Z.of_nat (length farms).
Proof.
  induction farms as [|iter farms IH]; intros i rp e Hi; cbn [collect_plotted length]; [done|].
  unfold try_into_u. case_decide as Hin.
  - intros (rp' & _ & Hc)%bind_Ret. destruct (IH (i + 1) rp' e) as [He Hl]; [lia|done|].
    split; [done|lia].
  - intros [= <-]. split; [done|]. unfold in_u in Hin. cbn in Hin. lia.
Qed.

Implicit Types (sources : list (Reader * list (result E Sector))).

Lemma create_readers_and_pieces_exact p w sources :
  Forall (fun farm => Z.of_nat (length farm.2) + 1 < 2 ^ w) sources ->
  create_readers_and_pieces (SDE := SDE) p w sources =
  Ret (if decide (length sources <= 256)%nat
       then Ok (add_all (plotted_of (snd <$> sources)) (rp_new (fst <$> sources)))
       else Err (OtherBuildError too_many_farms)).
Proof.
  intros Hf. unfold create_readers_and_pieces.
  assert (Hf' : Forall (fun iter => Z.of_nat (length iter) + 1 < 2 ^ w) (snd <$> sources)).
  { by apply Forall_fmap. }
  case_decide as Hlen.
  - apply collect_plotted_exact; [lia|rewrite length_fmap; lia|done].
  - apply collect_plotted_too_many; [lia|rewrite length_fmap; lia|done].
Qed.

Lemma create_readers_and_pieces_Ok p w sources rp :
  create_readers_and_pieces (SDE := SDE) p w sources = Ret (Ok rp) ->
  rp = add_all (plotted_of (snd <$> sources)) (rp_new (fst <$> sources)) /\ (length sources <= 256)%nat.
Proof.
  intros [-> Hlen]%collect_plotted_Ok; [|lia]. split; [done|].
  destruct sources; [cbn; lia|]. rewrite length_fmap in Hlen. specialize (Hlen ltac:(done)). lia.
Qed.

Lemma create_readers_and_pieces_Err p w sources e :
  create_readers_and_pieces (SDE := SDE) p w sources = Ret (Err e) ->
  e = OtherBuildError too_many_farms /\ (256 < length sources)%nat.
Proof.
  intros [He Hl]%collect_plotted_Err; [|lia]. rewrite length_fmap in Hl. split; [done|lia].
Qed.
End piece_facts.

Section sectors_of_table.
Context `{HL : ReadersAndPiecesLaws RP Reader Sector PieceIndex Piece sector_piece}.

Lemma rp_sectors_add_all (l : list (Z * Sector)) rp :
  rp_sectors (add_all l rp) = list_to_set l ∪ rp_sectors rp.
Proof.
  revert rp. induction l as [|[k s] l IH]; intros rp; cbn; [by rewrite left_id_L by apply _|].
  unfold add_all in IH. rewrite IH, rp_sectors_add. cbn. set_solver.
Qed.
End sectors_of_table.

Lemma plotted_of_bound {Sector E} (farms : list (list (result E Sector))) k s :
  (k, s) ∈ plotted_of farms -> 0 <= k < Z.of_nat (length farms).
Proof.
  unfold plotted_of. rewrite list_elem_of_In, in_concat. intros (l & Hl & Hin).
  apply list_elem_of_In, elem_of_lookup_zip_with in Hl as (i & k' & iter & -> & Hk' & _).
  apply list_elem_of_In, list_elem_of_fmap in Hin as (s' & [= -> ->] & _).
  apply lookup_seqZ in Hk'. lia.
Qed.

Section sector_counter.
Context {RP Reader Sector PieceIndex Piece : Type}.
Context `{ReadersAndPiecesApi RP Reader Sector PieceIndex Piece}.
Context {E : Type}.

Lemma for_each_plotted_sector_release w i (iter : list (result E Sector)) : forall si rp,
  0 <= w ->
  for_each_plotted_sector Release w i si iter rp =
  Ret (add_all ((fun s => (i, s)) <$> readable iter) rp).
Proof.
  induction iter as [|[s|e] iter IH]; intros si rp Hw;
    cbn [for_each_plotted_sector]; unfold add_u;
    rewrite arith_release by done; cbn -[for_each_plotted_sector cast];
    [done| |]; rewrite IH by done; done.
Qed.

Lemma for_each_plotted_sector_debug w i (iter : list (result E Sector)) : forall si rp,
  0 <= si -> 2 ^ w <= si + Z.of_nat (length iter) + 1 ->
  exists why, for_each_plotted_sector Debug w i si iter rp = Panic why.
Proof.
  induction iter as [|[s|e] iter IH]; intros si rp Hsi Hlen; cbn in Hlen;
    cbn [for_each_plotted_sector]; unfold add_u, arith; case_decide as Hin;
    try (eexists; reflexivity); cbn -[for_each_plotted_sector];
    unfold in_u in Hin; [lia|apply IH; lia..].
Qed.

(** The counter of a farm stays in range, also past its last sector. *)
Definition counter_fits (w : Z) (iter : list (result E Sector)) : Prop :=
  Z.of_nat (length iter) + 1 < 2 ^ w.

Lemma for_each_plotted_sector_fits p w i iter rp : 0 <= w -> p = Release \/ counter_fits w iter ->
  for_each_plotted_sector p w i 0 iter rp = Ret (add_all ((fun s => (i, s)) <$> readable iter) rp).
Proof.
  intros Hw [-> | Hfits]; [by apply for_each_plotted_sector_release|].
  apply for_each_plotted_sector_exact; [lia|]. unfold counter_fits in Hfits. lia.
Qed.

(** Only the farms before the 257th are looked at. *)
Lemma collect_plotted_fits {SDE} p w farms : forall i rp, 0 <= w -> 0 <= i <= 256 ->
  p = Release \/ Forall (counter_fits w) (take (Z.to_nat (256 - i)) farms) ->
  collect_plotted (SDE := SDE) p w i farms rp =
  Ret (if decide (i + Z.of_nat (length farms) <= 256)
       then Ok (add_all (concat (zip_with (fun i iter => (fun s => (i, s)) <$> readable iter)
                                   (seqZ i (Z.of_nat (length farms))) farms)) rp)
       else Err (OtherBuildError too_many_farms)).
Proof.
  induction farms as [|iter farms IH]; intros i rp Hw Hi Hf.
  { cbn. by rewrite decide_True by lia. }
  cbn [collect_plotted length]. unfold try_into_u. destruct (decide (in_u 8 i)) as [Hin|Hin]; cycle 1.
  { rewrite decide_False by (unfold in_u in Hin; lia). done. }
  unfold in_u in Hin. cbn in Hin.
  replace (Z.to_nat (256 - i)) with (S (Z.to_nat (256 - (i + 1)))) in Hf by lia. cbn [take] in Hf.
  rewrite for_each_plotted_sector_fits; [|done|by destruct Hf as [?|Hf]; [left|right; inversion Hf]].
  cbn -[collect_plotted Z.of_nat]. rewrite IH; [|done|lia|by destruct Hf as [?|Hf]; [left|right; inversion Hf]].
  rewrite (decide_ext _ (i + Z.of_nat (S (length farms)) <= 256)) by lia.
  rewrite (seqZ_cons i) by lia. cbn -[Z.of_nat].
  replace (Z.pred (Z.of_nat (S (length farms)))) with (Z.of_nat (length farms)) by lia.
  replace (Z.succ i) with (i + 1) by lia. unfold add_all. by rewrite foldl_app.
Qed.

Lemma collect_plotted_overflows {SDE} w farms : forall i rp, 0 <= w -> 0 <= i <= 256 ->
  Exists (fun iter => ~ counter_fits w iter) (take (Z.to_nat (256 - i)) farms) ->
  exists why, collect_plotted (SDE := SDE) Debug w i farms rp = Panic why.
Proof.
  induction farms as [|iter farms IH]; intros i rp Hw Hi Hf; [rewrite take_nil in Hf; by inversion Hf|].
  destruct (decide (i = 256)) as [->|]; [by inversion Hf|].
  replace (Z.to_nat (256 - i)) with (S (Z.to_nat (256 - (i + 1)))) in Hf by lia. cbn [take] in Hf.
  cbn [collect_plotted]. unfold try_into_u. rewrite decide_True by (unfold in_u; lia).
  destruct (decide (Z.of_nat (length iter) + 1 < 2 ^ w)) as [Hfit|Hfit].
  - rewrite for_each_plotted_sector_fits by auto. cbn -[collect_plotted]. apply IH; [done|lia|].
    by inversion Hf.
  - destruct (for_each_plotted_sector_debug w i iter 0 rp) as [why ->]; [lia|lia|]. by eexists.
Qed.
End sector_counter.

(** ** Properties *)

Section piece_properties.
Context {RP Reader Sector PieceIndex Piece : Type}.
Context `{ReadersAndPiecesApi RP Reader Sector PieceIndex Piece}.
Context {SDE E : Type}.
Implicit Types (farms : list (Reader * list (result E Sector))).

(** C30: for at most 256 farms the table is created with every readable sector
    of every farm, each under the number of its farm, in order; unreadable
    sectors are skipped.  With more farms the creation fails.  The exception is
    the [w]-bit counter of a farm's sectors, which only a log message uses: under
    overflow checks, and only there, the creation panics exactly when one of the
    first 256 farms has [2^w - 1] sectors or more. *)
Theorem create_readers_and_pieces_spec p w farms : 0 <= w ->
  let overflows (farm : Reader * list (result E Sector)) := 2 ^ w <= Z.of_nat (length farm.2) + 1 in
  (p = Debug /\ Exists overflows (take 256 farms) ->
   exists why, create_readers_and_pieces (SDE := SDE) p w farms = Panic why) /\
  (~ (p = Debug /\ Exists overflows (take 256 farms)) ->
   create_readers_and_pieces (SDE := SDE) p w farms =
   Ret (if decide (length farms <= 256)%nat
        then Ok (add_all (plotted_of (snd <$> farms)) (rp_new (fst <$> farms)))
        else Err (OtherBuildError too_many_farms))).
Proof.
  intros Hw overflows. unfold create_readers_and_pieces. split.
  - intros [-> Hex]. apply collect_plotted_overflows; [done|lia|].
    rewrite <-fmap_take. apply Exists_fmap. eapply Exists_impl; [exact Hex|].
    intros farm Hfarm. unfold counter_fits, overflows in *. cbn. lia.
  - intros Hno. rewrite (collect_plotted_fits p w); [|done|lia|].
    + rewrite length_fmap. unfold plotted_of. rewrite length_fmap.
      by rewrite (decide_ext _ (length farms <= 256)%nat) by lia.
    + destruct p; [right|by left]. rewrite <-fmap_take. apply Forall_fmap.
      apply Forall_forall. intros farm Hin. unfold counter_fits. cbn.
      destruct (decide (overflows farm)) as [Hov|Hov]; [|unfold overflows in Hov; lia].
      exfalso. apply Hno. split; [done|]. apply Exists_exists. eauto.
Qed.

(** Once the table was created, the [expect]s of the plotting handler hold
    for each of the farms as long as the slot is filled: the handler forgets
    the replaced sector and then adds the new one. *)
Lemma handler_after_create p w farms rp0 i plotted old rp :
  Forall (fun farm => Z.of_nat (length farm.2) + 1 < 2 ^ w) farms ->
  create_readers_and_pieces (SDE := SDE) p w farms = Ret (Ok rp0) ->
  (i < length farms)%nat ->
  handler_on_sector_plotted plotted old (Z.of_nat i) (Some rp) =
  Ret (Some (rp_add_sector (Z.of_nat i) plotted
               (match old with Some o => rp_delete_sector (Z.of_nat i) o rp | None => rp end))).
Proof.
  intros Hf Hc Hi.
  destruct (decide (length farms <= 256)%nat) as [Hl|Hl].
  - unfold handler_on_sector_plotted, try_into_u. by rewrite decide_True by solve_in_u.
  - exfalso. unfold create_readers_and_pieces in Hc.
    rewrite collect_plotted_too_many in Hc; [done|lia|rewrite length_fmap; lia|].
    by apply Forall_fmap.
Qed.

(** The counter of skipped sectors is a [w]-bit index that only a log
    message uses, but it is advanced for every sector: under overflow checks a
    farm with [2^w - 1] sectors or more panics at start-up, without them the
    table is created all the same. *)
Lemma sector_counter_overflow w i (iter : list (result E Sector)) (rp : RP) :
  0 <= w -> 2 ^ w <= Z.of_nat (length iter) + 1 ->
  (exists why, for_each_plotted_sector Debug w i 0 iter rp = Panic why) /\
  for_each_plotted_sector Release w i 0 iter rp =
  Ret (add_all ((fun s => (i, s)) <$> readable iter) rp).
Proof.
  intros Hw Hlen. split.
  - apply for_each_plotted_sector_debug; lia.
  - by apply for_each_plotted_sector_release.
Qed.

(** A piece request is answered with a piece exactly when a farmer has
    registered its cache and the piece is in it or, failing that, can be read
    from the farms while the farmer's table is alive and filled. *)
Lemma piece_request_served (piece_index : PieceIndex) weak cache (piece : Piece) :
  node_get_piece_by_index piece_index weak cache = Some (mkPieceResponse (Some piece)) <->
  exists c, cache = Some c /\
    (c piece_index = Some piece \/
     c piece_index = None /\ exists rp, weak = Some (Some rp) /\
       rp_read_piece piece_index rp = Some (Some piece)).
Proof.
  unfold node_get_piece_by_index. cbn. unfold farmer_get_piece_by_index.
  destruct cache as [c|]; [|naive_solver].
  destruct (c piece_index) as [q|] eqn:Hc; [naive_solver|].
  destruct weak as [[rp|]|]; [|naive_solver..].
  destruct (rp_read_piece piece_index rp) as [fut|] eqn:Hr; naive_solver.
Qed.
End piece_properties.

Section header_properties.
Context {Header : Type}.
Variables (limit : Z) (max_segment_index : option Z) (get_segment_header : Z -> option Header).
Abbreviation respond := (get_segment_header_by_segment_indexes limit max_segment_index
                           get_segment_header).

Lemma requested_last_length n :
  0 <= n < 2 ^ 64 -> 0 <= limit < 2 ^ 64 -> 0 <= default 0 max_segment_index ->
  Z.of_nat (length (requested_segment_indexes limit max_segment_index (LastSegmentHeaders n))) =
  Z.min (Z.min n limit) (default 0 max_segment_index + 1).
Proof.
  intros Hn Hl Hm. cbn -[cast seqZ]. rewrite length_take, length_reverse, length_seqZ.
  case_decide; rewrite cast_small by (unfold in_u; lia); lia.
Qed.

(** C14: the newest headers: where the store holds every header up to its
    maximum, asking for the last [n] of them returns [n] headers, or as many as
    the request limit and the history allow, from the newest down. *)
Theorem last_segment_headers n :
  0 <= n < 2 ^ 64 -> 0 <= limit < 2 ^ 64 -> 0 <= default 0 max_segment_index ->
  (forall i, 0 <= i <= default 0 max_segment_index -> is_Some (get_segment_header i)) ->
  exists headers,
    get_segment_header_by_segment_indexes limit max_segment_index get_segment_header (LastSegmentHeaders n) = Some (mkHeaders headers) /\
    Z.of_nat (length headers) = Z.min (Z.min n limit) (default 0 max_segment_index + 1) /\
    forall i h, headers !! i = Some h ->
      get_segment_header (default 0 max_segment_index - Z.of_nat i) = Some h.
Proof.
  intros Hn Hl Hm Hall.
  pose proof (requested_last_length n Hn Hl Hm) as Hlen.
  unfold get_segment_header_by_segment_indexes.
  set (idx := requested_segment_indexes limit max_segment_index (LastSegmentHeaders n)) in *.
  assert (Hidx : forall i x, idx !! i = Some x -> x = default 0 max_segment_index - Z.of_nat i).
  { intros i x Hx. pose proof (lookup_lt_Some _ _ _ Hx) as Hi. revert Hx.
    unfold idx in *. cbn -[cast seqZ] in *. rewrite length_take, length_reverse, length_seqZ in Hi.
    rewrite take_reverse_seqZ by lia. by intros [= <-]. }
  destruct (collect_option (get_segment_header <$> idx)) as [headers|] eqn:Hc.
  - exists headers. split; [done|]. apply collect_option_Some in Hc.
    split; [rewrite <-Hlen; apply (f_equal length) in Hc; rewrite !length_fmap in Hc; lia|].
    intros i h Hh. apply (f_equal (fun l => l !! i)) in Hc.
    rewrite !list_lookup_fmap, Hh in Hc.
    destruct (idx !! i) as [x|] eqn:Hx; simplify_eq/=. by rewrite <-(Hidx i x Hx).
  - exfalso. apply collect_option_None, list_elem_of_fmap in Hc as (x & Hx & Hin).
    apply list_elem_of_lookup in Hin as [i Hi]. pose proof (lookup_lt_Some _ _ _ Hi) as Hlt.
    rewrite (Hidx i x Hi) in Hx.
    destruct (Hall (default 0 max_segment_index - Z.of_nat i)) as [h Hh]; [lia|congruence].
Qed.

(** A response is all or nothing: there is one iff every requested header
    exists, and it then holds them in the requested order.  An explicit list of
    indexes is not subject to the limit that [LastSegmentHeaders] is. *)
Lemma segment_headers_all_or_nothing req :
  (get_segment_header_by_segment_indexes limit max_segment_index get_segment_header req = None <->
     exists i, i ∈ requested_segment_indexes limit max_segment_index req /\
       get_segment_header i = None) /\
  (forall headers, get_segment_header_by_segment_indexes limit max_segment_index get_segment_header req = Some (mkHeaders headers) <->
     get_segment_header <$> requested_segment_indexes limit max_segment_index req =
     Some <$> headers) /\
  (forall indexes headers, req = SegmentIndexes indexes ->
     get_segment_header_by_segment_indexes limit max_segment_index get_segment_header req = Some (mkHeaders headers) -> length headers = length indexes).
Proof.
  unfold get_segment_header_by_segment_indexes.
  pose proof (collect_option_None
    (get_segment_header <$> requested_segment_indexes limit max_segment_index req)) as Hnone.
  pose proof (collect_option_Some
    (get_segment_header <$> requested_segment_indexes limit max_segment_index req)) as Hsome.
  split; [|split].
  - destruct (collect_option _) eqn:Hc.
    + split; [done|]. intros (i & Hi & Hg). exfalso.
      assert (Hx : None ∈ get_segment_header <$>
                     requested_segment_indexes limit max_segment_index req)
        by (apply list_elem_of_fmap; eauto).
      by apply Hnone in Hx.
    + split; [intros _|done].
      pose proof (proj1 Hnone eq_refl) as Hx. apply list_elem_of_fmap in Hx as (i & Hi & Hin). eauto.
  - intros headers. rewrite <-Hsome. destruct (collect_option _); naive_solver.
  - intros indexes headers -> Hr. destruct (collect_option _) as [hs|] eqn:Hc; [|done].
    injection Hr as <-. pose proof (proj1 (Hsome hs) eq_refl) as Hl. apply (f_equal length) in Hl.
    rewrite !length_fmap in Hl. by cbn in Hl.
Qed.
End header_properties.

(** ** Witnesses *)

(** A table that is the list of what was added to it, with pieces numbered by
    sector. *)
#[export] Instance demo_table : ReadersAndPiecesApi (list (Z * Z)) unit Z Z Z := {|
  rp_new _ := [];
  rp_add_sector i s rp := rp ++ [(i, s)];
  rp_delete_sector i s rp := filter (fun x => x <> (i, s)) rp;
  rp_read_piece pi rp := if decide (pi ∈ rp.*2) then Some (Some pi) else None;
|}.

Definition demo_farms : list (unit * list (result string Z)) :=
  [(tt, [Ok 10; Err "io"%string; Ok 12]); (tt, [Ok 20])].

Lemma create_readers_and_pieces_spec_witness :
  create_readers_and_pieces (SDE := string) Debug 16 demo_farms = Ret (Ok [(0, 10); (0, 12); (1, 20)]) /\
  exists why, create_readers_and_pieces (SDE := string) Debug 2 demo_farms = Panic why.
Proof.
  split.
  - etransitivity; [apply (proj2 (create_readers_and_pieces_spec (SDE := string) Debug 16 demo_farms ltac:(lia)))|].
    + intros [_ Hex]. cbn in Hex. repeat (inversion Hex as [? ? Hov|? ? Hex']; subst; [cbn in Hov; lia|];
        clear Hex; rename Hex' into Hex). inversion Hex.
    + vm_compute. reflexivity.
  - apply (proj1 (create_readers_and_pieces_spec (SDE := string) Debug 2 demo_farms ltac:(lia))).
    split; [reflexivity|]. apply Exists_cons_hd. cbn. lia.
Defined.

Lemma handler_after_create_witness :
  handler_on_sector_plotted 11 (Some 10) 0 (Some [(0, 10); (0, 12); (1, 20)]) =
  Ret (Some [(0, 12); (1, 20); (0, 11)]).
Proof.
  etransitivity;
    [apply (handler_after_create (SDE := string) Debug 16 demo_farms [(0, 10); (0, 12); (1, 20)] 0
              11 (Some 10) [(0, 10); (0, 12); (1, 20)])|].
  - repeat constructor; cbn; lia.
  - reflexivity.
  - cbn. lia.
  - vm_compute. reflexivity.
Defined.

Lemma sector_counter_overflow_witness :
  (exists why, for_each_plotted_sector Debug 2 0 0 [Ok 1; Err "io"%string; Ok 3] [] = Panic why) /\
  for_each_plotted_sector Release 2 0 0 [Ok 1; Err "io"%string; Ok 3] [] = Ret [(0, 1); (0, 3)].
Proof.
  pose proof (sector_counter_overflow (H := demo_table) 2 0 [Ok 1; Err "io"%string; Ok 3] []) as Hs.
  apply Hs; cbn; lia.
Defined.

Lemma piece_request_served_witness :
  node_get_piece_by_index 20 (Some (Some [(0, 10); (1, 20)])) (Some (fun _ : Z => None : option Z)) =
  Some (mkPieceResponse (Some 20)).
Proof.
  apply (piece_request_served (H := demo_table) 20 (Some (Some [(0, 10); (1, 20)])) (Some (fun _ => None)) 20).
  exists (fun _ => None). split; [reflexivity|]. right. split; [reflexivity|].
  exists [(0, 10); (1, 20)]. split; reflexivity.
Defined.

Lemma last_segment_headers_witness :
  exists headers,
    get_segment_header_by_segment_indexes 3 (Some 5) (fun i => Some (100 + i)) (LastSegmentHeaders 10) =
    Some (mkHeaders headers) /\
    Z.of_nat (length headers) = 3 /\
    forall i h, headers !! i = Some h -> Some (100 + (5 - Z.of_nat i)) = Some h.
Proof.
  apply (last_segment_headers 3 (Some 5) (fun i => Some (100 + i)) 10); cbn; try lia.
  intros i _. eexists. reflexivity.
Defined.
