(* ===== verification/Tasks.v ===== *)
(** What the tasks of the SDK exchange: [TaskOutput] (utils/src/lib.rs) and the
    interfaces of the runtime they run on.  Channels and the backoff crate are
    not part of the repository: each is a class of operations with a class of
    the laws its documentation states, and a concrete instance that shows the
    laws can hold. *)
From S2P Require Import Prelude.

Inductive TaskOutput (T E : Type) :=
| Value (v : T)
| Cancelled (reason : E).
Arguments Value {T E} v.
Arguments Cancelled {T E} reason.

(** ** Bounded multi-producer channels ([tokio::sync::mpsc]) *)

Class Mpsc (Ch : Type -> Type) := {
  ch_new : forall {A}, nat -> Ch A;
  (** [None]: the value was refused. *)
  ch_try_send : forall {A}, A -> Ch A -> option (Ch A);
  ch_close : forall {A}, Ch A -> Ch A;
  (** [recv] on a channel nobody sends to any more. *)
  ch_recv : forall {A}, Ch A -> option (A * Ch A);
  ch_items : forall {A}, Ch A -> list A;
  ch_capacity : forall {A}, Ch A -> nat;
  ch_closed : forall {A}, Ch A -> bool;
}.

Class MpscLaws (Ch : Type -> Type) `{Mpsc Ch} : Prop := {
  ch_new_items {A} n : ch_items (ch_new n : Ch A) = [];
  ch_new_capacity {A} n : ch_capacity (ch_new n : Ch A) = n;
  ch_new_open {A} n : ch_closed (ch_new n : Ch A) = false;
  (** A value is refused exactly when the channel is closed or full. *)
  ch_try_send_refused {A} (x : A) c :
    ch_try_send x c = None <-> ch_closed c = true \/ ch_capacity c <= length (ch_items c);
  ch_try_send_sent {A} (x : A) c c' : ch_try_send x c = Some c' ->
    ch_items c' = ch_items c ++ [x] /\ ch_capacity c' = ch_capacity c /\
    ch_closed c' = ch_closed c;
  ch_close_items {A} (c : Ch A) : ch_items (ch_close c) = ch_items c;
  ch_close_closed {A} (c : Ch A) : ch_closed (ch_close c) = true;
  ch_recv_items {A} (c : Ch A) :
    match ch_recv c with
    | None => ch_items c = []
    | Some (x, c') => ch_items c = x :: ch_items c'
    end;
}.

(** A queue with a capacity and a flag. *)
Record Queue (A : Type) := mkQueue { q_items : list A; q_capacity : nat; q_closed : bool }.
Arguments mkQueue {A}.
Arguments q_items {A}.
Arguments q_capacity {A}.
Arguments q_closed {A}.

#[export] Instance queue_mpsc : Mpsc Queue := {|
  ch_new _ n := mkQueue [] n false;
  ch_try_send _ x c :=
    if q_closed c then None
    else if decide (q_capacity c <= length (q_items c)) then None
    else Some (mkQueue (q_items c ++ [x]) (q_capacity c) (q_closed c));
  ch_close _ c := mkQueue (q_items c) (q_capacity c) true;
  ch_recv _ c :=
    match q_items c with
    | [] => None
    | x :: l => Some (x, mkQueue l (q_capacity c) (q_closed c))
    end;
  ch_items _ c := q_items c;
  ch_capacity _ c := q_capacity c;
  ch_closed _ c := q_closed c;
|}.

#[export] Instance queue_mpsc_laws : MpscLaws Queue.
Proof.
  constructor; try done.
  - intros A x [l n []]; cbn; [by intuition|]. case_decide; naive_solver lia.
  - intros A x [l n []] c'; cbn; [done|]. case_decide; [done|]. by intros [= <-].
  - intros A [[|x l] n b]; done.
Qed.

(** ** One-shot channels ([tokio::sync::oneshot]) *)

Class Oneshot (Os : Type -> Type) := {
  os_new : forall {A}, Os A;
  os_send : forall {A}, A -> Os A -> Os A;
  (** the sender is dropped without having sent *)
  os_drop_sender : forall {A}, Os A -> Os A;
  (** polling the receiver: [None] while it is pending *)
  os_poll : forall {A}, Os A -> option (result unit A);
}.

Class OneshotLaws (Os : Type -> Type) `{Oneshot Os} : Prop := {
  os_poll_new {A} : os_poll (os_new : Os A) = None;
  os_poll_send {A} (x : A) o : os_poll o = None -> os_poll (os_send x o) = Some (Ok x);
  os_poll_drop_sender {A} (o : Os A) : os_poll o = None -> os_poll (os_drop_sender o) = Some (Err tt);
}.

Definition Cell (A : Type) : Type := option (result unit A).

#[export] Instance cell_oneshot : Oneshot Cell := {|
  os_new _ := None;
  os_send _ x _ := Some (Ok x);
  os_drop_sender _ _ := Some (Err tt);
  os_poll _ o := o;
|}.

#[export] Instance cell_oneshot_laws : OneshotLaws Cell.
Proof. by constructor. Qed.

(** ** Retrying ([backoff::future::retry]) *)

(** One attempt: success, or an error after which to try again. *)
Inductive attempt (A E : Type) := Done (a : A) | Transient (e : E).
Arguments Done {A E} a.
Arguments Transient {A E} e.

(** [retry op] calls [op] (numbered by attempt) until it succeeds or the policy
    gives up, and then returns the last error. *)
Class Retry (R : forall A E, (nat -> attempt A E) -> result E A) : Prop :=
  retry_spec : forall A E (op : nat -> attempt A E),
    exists n, (forall i, i < n -> exists e, op i = Transient e) /\
      match op n with Done a => R A E op = Ok a | Transient e => R A E op = Err e end.

(** At most [k] retries. *)
Fixpoint retry_upto (k : nat) {A E} (op : nat -> attempt A E) : result E A :=
  match k, op 0 with
  | _, Done a => Ok a
  | 0, Transient e => Err e
  | S k', Transient _ => retry_upto k' (fun i => op (S i))
  end.

#[export] Instance retry_upto_spec k : Retry (fun A E op => @retry_upto k A E op).
Proof.
  intros A E. induction k as [|k IH]; intros op; cbn.
  - exists 0. split; [lia|]. by destruct (op 0).
  - destruct (op 0) as [a|e] eqn:H0; [exists 0; split; [lia|]; by rewrite H0|].
    destruct (IH (fun i => op (S i))) as (n & Hn & Hr). exists (S n). split; [|done].
    intros [|i] Hi; [eauto|]. apply Hn. lia.
Qed.
