(* ===== verification/FarmDriver.v ===== *)
(** The farm driver and the shutdown of a farmer (farmer/src/lib.rs: the loop of
    the farms-driver task in [Config::build], and [Farmer::close]).

    The driver polls [future::select] over the running farms and the drop
    signal.  [select] prefers its left side, and the stream of an empty
    [FuturesUnordered] is always ready with [None]. *)
From S2P Require Import Prelude Tasks.

(** The items of a [ResultReceiver]. *)
Abbreviation farm_message Id E := (result E (TaskOutput (option Id) string)).

Section driver.
Context {Ch : Type -> Type} `{Mpsc Ch}.
(** [SingleDiskFarmId] and the error of a farm. *)
Context {Id E : Type}.

(** [mpsc::channel(u8::MAX as usize + 1)]. *)
Definition result_channel : Ch (farm_message Id E) := ch_new (255 + 1).

Definition received_drop_signal : string := "Received drop signal for farm driver".

(** What [select] resolves to. *)
Inductive selected :=
| Left (maybe_result : option (result E Id))
| Right.

(** One iteration; [true] means the loop goes on. *)
Definition driver_iteration (result : selected) (sender : Ch (farm_message Id E))
    : Ch (farm_message Id E) * bool :=
  match result with
  | Left maybe_result =>
      let send_result :=
        match maybe_result with
        | None => ch_try_send (Ok (Value None)) sender
        | Some (Ok single_disk_farm_id) =>
            ch_try_send (Ok (Value (Some single_disk_farm_id))) sender
        | Some (Err e) => ch_try_send (Err e) sender
        end in
      match send_result with
      | Some sender' => (sender', true)
      | None => (sender, false)
      end
  | Right =>
      match ch_try_send (Ok (Cancelled received_drop_signal)) sender with
      | Some sender' => (sender', false)
      | None => (sender, false)
      end
  end.

(** What is selected when [farms] are still running, listed in the order in
    which they will finish: [drop_at = Some k] is a drop signal seen after [k]
    more of them have finished. *)
Definition select_next (farms : list (result E Id)) (drop_at : option nat) : selected :=
  match farms, drop_at with
  | [], _ => Left None
  | _ :: _, Some 0 => Right
  | r :: _, _ => Left (Some r)
  end.

(** The loop, [None] when [fuel] iterations were not enough. *)
Fixpoint farm_driver (fuel : nat) (farms : list (result E Id)) (drop_at : option nat)
    (sender : Ch (farm_message Id E)) : option (Ch (farm_message Id E)) :=
  match fuel with
  | 0 => None
  | S fuel' =>
      match driver_iteration (select_next farms drop_at) sender with
      | (sender', false) => Some sender'
      | (sender', true) => farm_driver fuel' (tail farms) (pred <$> drop_at) sender'
      end
  end.

(** The [while let Some(task_result) = result_receiver.recv().await] loop of
    [close]; a channel holds at most [length (ch_items c)] values. *)
Fixpoint drain_results (fuel : nat) (receiver : Ch (farm_message Id E)) : result E unit :=
  match fuel with
  | 0 => Ok tt
  | S fuel' =>
      match ch_recv receiver with
      | None => Ok tt
      | Some (Err e, _) => Err e
      | Some (Ok (Value _), receiver') => drain_results fuel' receiver'
      | Some (Ok (Cancelled _), receiver') => drain_results fuel' receiver'
      end
  end.

(** [Farmer::close]: the destructors, then the results of the farms. *)
Definition Farmer_close (async_drop : result E unit) (receiver : Ch (farm_message Id E))
    : result E unit :=
  match async_drop with
  | Err e => Err e
  | Ok _ =>
      let receiver' := ch_close receiver in
      drain_results (S (length (ch_items receiver'))) receiver'
  end.

(** The message a finished farm leaves, and the first error of a list. *)
Definition message_of (r : result E Id) : farm_message Id E :=
  match r with Ok id => Ok (Value (Some id)) | Err e => Err e end.

Fixpoint first_error (l : list (result E Id)) : result E unit :=
  match l with
  | [] => Ok tt
  | Ok _ :: l' => first_error l'
  | Err e :: _ => Err e
  end.
End driver.
Arguments selected : clear implicits.

(** ** Lemmas *)

Section driver_facts.
Context {Ch : Type -> Type} `{MpscLaws Ch} {Id E : Type}.
Implicit Types (c : Ch (farm_message Id E)) (farms : list (result E Id)).

(** A send into an open channel with room. *)
Lemma try_send_room (x : farm_message Id E) c :
  ch_closed c = false -> length (ch_items c) < ch_capacity c ->
  exists c', ch_try_send x c = Some c' /\ ch_items c' = ch_items c ++ [x] /\
    ch_capacity c' = ch_capacity c /\ ch_closed c' = false.
Proof.
  intros Hc Hl. destruct (ch_try_send x c) as [c'|] eqn:Hs.
  - destruct (ch_try_send_sent _ _ _ Hs) as (Hi & Hcap & Hcl). exists c'. by rewrite Hcl.
  - apply ch_try_send_refused in Hs as [Hs|Hs]; [congruence|lia].
Qed.

Lemma driver_iteration_left (m : option (result E Id)) c :
  driver_iteration (Left m) c =
  match ch_try_send (match m with None => Ok (Value None) | Some r => message_of r end) c with
  | Some c' => (c', true)
  | None => (c, false)
  end.
Proof. by destruct m as [[id|e]|]. Qed.

(** With no farm left, the driver fills the channel and stops. *)
Lemma driver_idle drop_at : forall k c fuel,
  ch_closed c = false -> length (ch_items c) + k = ch_capacity c -> k < fuel ->
  exists c', farm_driver fuel [] drop_at c = Some c' /\
    ch_items c' = ch_items c ++ replicate k (Ok (Value None)).
Proof.
  revert drop_at. intros drop_at k. revert drop_at.
  induction k as [|k IH]; intros drop_at c fuel Hc Hk Hf;
    (destruct fuel as [|fuel]; [lia|]); cbn [farm_driver select_next];
    rewrite driver_iteration_left.
  - replace (ch_try_send _ c) with (@None (Ch (farm_message Id E))).
    + exists c. split; [done|]. by rewrite app_nil_r.
    + symmetry. apply ch_try_send_refused. right. lia.
  - destruct (try_send_room (Ok (Value None)) c) as (c' & -> & Hi & Hcap & Hcl); [done|lia|].
    destruct (IH (pred <$> drop_at) c' fuel) as (c'' & Hrun & Hi'); [done| |lia|].
    { rewrite Hi, Hcap, length_app. cbn. lia. }
    exists c''. split; [done|]. rewrite Hi', Hi, <-app_assoc. done.
Qed.

(** The farms that finish before the drop signal, if any. *)
Lemma driver_farms l : forall rest drop_at c fuel,
  ch_closed c = false -> length (ch_items c) + length l <= ch_capacity c ->
  match drop_at with Some k => length l <= k | None => True end ->
  exists c',
    farm_driver (length l + fuel) (l ++ rest) drop_at c =
    farm_driver fuel rest ((fun k => k - length l) <$> drop_at) c' /\
    ch_items c' = ch_items c ++ (message_of <$> l) /\
    ch_capacity c' = ch_capacity c /\ ch_closed c' = false.
Proof.
  induction l as [|r l IH]; intros rest drop_at c fuel Hc Hl Hd.
  - exists c. cbn. rewrite app_nil_r. split; [|done]. f_equal.
    destruct drop_at; cbn; [f_equal; lia|done].
  - cbn [length Nat.add app farm_driver] in *.
    replace (select_next (r :: l ++ rest) drop_at) with (Left (Some r)).
    2:{ destruct drop_at as [[|k]|]; [lia|done..]. }
    rewrite driver_iteration_left.
    destruct (try_send_room (message_of r) c) as (c' & -> & Hi & Hcap & Hcl); [done|lia|].
    destruct (IH rest (pred <$> drop_at) c' fuel) as (c'' & Hrun & Hi' & Hcap' & Hcl').
    + done.
    + rewrite Hi, Hcap, length_app. cbn. lia.
    + destruct drop_at; cbn; [lia|done].
    + exists c''. cbn [tail]. rewrite Hrun. split; [|split; [|by rewrite Hcap'; split]].
      * f_equal. destruct drop_at; cbn; [f_equal; lia|done].
      * rewrite Hi', Hi, <-app_assoc. done.
Qed.

Lemma drain_results_first : forall fuel c,
  length (ch_items c) < fuel ->
  drain_results fuel c =
  (fix first (l : list (farm_message Id E)) := match l with
    | [] => Ok tt | Ok _ :: l' => first l' | Err e :: _ => Err e end) (ch_items c).
Proof.
  induction fuel as [|fuel IH]; intros c Hl; [lia|]. cbn [drain_results].
  pose proof (ch_recv_items c) as Hr. destruct (ch_recv c) as [[m c']|].
  - rewrite Hr in Hl |- *. cbn in Hl. destruct m as [[v|r]|e]; [..|done]; apply IH; lia.
  - by rewrite Hr.
Qed.
End driver_facts.

(** ** Properties *)

Section driver_properties.
Context {Ch : Type -> Type} `{MpscLaws Ch} {Id E : Type}.
Implicit Types (c : Ch (farm_message Id E)) (farms : list (result E Id)).

(** The driver with its channel of 256, over at most 256 farms, none of which
    the drop signal interrupts. *)
Lemma driver_uninterrupted farms drop_at :
  length farms <= 256 -> match drop_at with Some k => length farms <= k | None => True end ->
  exists c, farm_driver 257 farms drop_at (result_channel (Ch := Ch)) = Some c /\
    ch_items c = (message_of <$> farms) ++ replicate (256 - length farms) (Ok (Value None)).
Proof.
  intros Hl Hd.
  destruct (driver_farms farms [] drop_at (result_channel (Ch := Ch)) (257 - length farms))
    as (c & Hrun & Hi & Hcap & Hcl).
  - apply ch_new_open.
  - unfold result_channel. rewrite ch_new_items, ch_new_capacity. done.
  - done.
  - rewrite app_nil_r in Hrun. replace (length farms + (257 - length farms)) with 257 in Hrun by lia.
    unfold result_channel in Hi, Hcap. rewrite ch_new_items in Hi. rewrite ch_new_capacity in Hcap.
    destruct (driver_idle ((fun k => k - length farms) <$> drop_at) (256 - length farms) c
                (257 - length farms)) as (c' & Hrun' & Hi'); [done| |lia|].
    + rewrite Hi, Hcap. cbn [app]. rewrite length_fmap. lia.
    + exists c'. rewrite Hrun, Hrun', Hi', Hi. done.
Qed.

Lemma driver_interrupted farms k :
  k < length farms <= 256 ->
  exists c, farm_driver 257 farms (Some k) (result_channel (Ch := Ch)) = Some c /\
    ch_items c = (message_of <$> take k farms) ++ [Ok (Cancelled received_drop_signal)].
Proof.
  intros Hk. assert (Hlen : length (take k farms) = k) by (rewrite length_take; lia).
  destruct (driver_farms (take k farms) (drop k farms) (Some k) (result_channel (Ch := Ch))
              (257 - k)) as (c & Hrun & Hi & Hcap & Hcl).
  - apply ch_new_open.
  - unfold result_channel. rewrite ch_new_items, ch_new_capacity. cbn. lia.
  - lia.
  - rewrite take_drop, Hlen in Hrun. replace (k + (257 - k)) with 257 in Hrun by lia.
    unfold result_channel in Hi, Hcap. rewrite ch_new_items in Hi. rewrite ch_new_capacity in Hcap.
    rewrite Hrun. cbn [fmap option_fmap option_map]. rewrite Nat.sub_diag.
    replace (257 - k) with (S (256 - k)) by lia. cbn [farm_driver].
    destruct (drop k farms) as [|r rest] eqn:Hdrop.
    { apply (f_equal length) in Hdrop. rewrite length_drop in Hdrop. cbn in Hdrop. lia. }
    cbn [select_next driver_iteration].
    destruct (try_send_room (Ok (Cancelled received_drop_signal)) c) as (c' & -> & Hi' & _);
      [done| |].
    + rewrite Hi, Hcap. cbn [app]. rewrite length_fmap. lia.
    + exists c'. by rewrite Hi', Hi.
Qed.

Lemma first_error_messages farms (rest : list (farm_message Id E)) :
  Forall (fun m => is_ok m = true) rest ->
  (fix first (l : list (farm_message Id E)) := match l with
    | [] => Ok tt | Ok _ :: l' => first l' | Err e :: _ => Err e end)
    ((message_of <$> farms) ++ rest) = first_error farms.
Proof.
  intros Hrest. induction farms as [|[id|e] farms IH]; cbn; [|exact IH|done].
  induction Hrest as [|[m|e] rest Hm _ IHr]; [done|exact IHr|done].
Qed.

(** C15: no farm's result is lost.  With at most 256 farms and no drop signal the
    driver reports every farm in the order they finish, then refills the
    channel with empty reports until it is full, and stops. *)
Theorem farm_driver_reports_all farms :
  length farms <= 256 ->
  exists c, farm_driver 257 farms None (result_channel (Ch := Ch)) = Some c /\
    ch_items c = (message_of <$> farms) ++ replicate (256 - length farms) (Ok (Value None)).
Proof. intros Hl. by apply driver_uninterrupted. Qed.

(** C32: the driver always stops, whatever the channel, the farms and the drop
    signal: every iteration that goes on has used up one place of the channel,
    so there are at most as many as it has free places, and one more. *)
Theorem farm_driver_terminates farms drop_at c :
  exists c', farm_driver (S (ch_capacity c - length (ch_items c))) farms drop_at c = Some c'.
Proof.
  remember (ch_capacity c - length (ch_items c)) as n eqn:Hn.
  revert farms drop_at c Hn. induction n as [|n IH]; intros farms drop_at c Hn; cbn [farm_driver].
  - destruct (select_next farms drop_at) as [m|].
    + rewrite driver_iteration_left.
      replace (ch_try_send _ c) with (@None (Ch (farm_message Id E))); [eauto|].
      symmetry. apply ch_try_send_refused. right. lia.
    + cbn. destruct (ch_try_send _ c); eauto.
  - destruct (select_next farms drop_at) as [m|].
    + rewrite driver_iteration_left. destruct (ch_try_send _ c) as [c'|] eqn:Hs; [|eauto].
      apply ch_try_send_sent in Hs as (Hi & Hcap & _). apply IH.
      rewrite Hi, Hcap, length_app. cbn. lia.
    + cbn. destruct (ch_try_send _ c); eauto.
Qed.

(** C17: closing a farmer tells whether a farm failed: of the farms that finished
    before the drop signal, [close] returns the first error, and [Ok] when there
    is none; a cancelled driver is not an error. *)
Theorem farmer_close_first_error farms drop_at :
  length farms <= 256 ->
  exists c, farm_driver 257 farms drop_at (result_channel (Ch := Ch)) = Some c /\
    Farmer_close (Ok tt) c =
    first_error (match drop_at with Some k => take k farms | None => farms end).
Proof.
  intros Hl.
  assert (Hclose : forall c, Farmer_close (Ok tt) c =
    (fix first (l : list (farm_message Id E)) := match l with
      | [] => Ok tt | Ok _ :: l' => first l' | Err e :: _ => Err e end) (ch_items c)).
  { intros c. unfold Farmer_close. rewrite drain_results_first by lia. by rewrite ch_close_items. }
  assert (Hall : match drop_at with Some k => length farms <= k | None => True end \/
                 exists k, drop_at = Some k /\ k < length farms).
  { destruct drop_at as [k|]; [|by left]. destruct (decide (length farms <= k)); [by left|].
    right. exists k. split; [done|lia]. }
  destruct Hall as [Hall|(k & -> & Hk)].
  - destruct (driver_uninterrupted farms drop_at Hl Hall) as (c & Hrun & Hi).
    exists c. split; [done|]. rewrite Hclose, Hi, first_error_messages by (by apply Forall_replicate).
    destruct drop_at; [by rewrite take_ge|done].
  - destruct (driver_interrupted farms k) as (c & Hrun & Hi); [lia|].
    exists c. split; [done|]. rewrite Hclose, Hi, first_error_messages; [done|].
    repeat constructor.
Qed.
End driver_properties.

(** ** Witnesses *)

Definition demo_finished : list (result string nat) := [Ok 1; Err "disk"%string; Ok 3].

Lemma farm_driver_reports_all_witness :
  exists c : Queue _, farm_driver 257 demo_finished None result_channel = Some c /\
    ch_items c = [Ok (Value (Some 1)); Err "disk"%string; Ok (Value (Some 3))] ++
                 replicate 253 (Ok (Value None)).
Proof. apply (farm_driver_reports_all demo_finished). cbn. lia. Defined.

Lemma farmer_close_first_error_witness :
  exists c : Queue _, farm_driver 257 demo_finished (Some 1) result_channel = Some c /\
    Farmer_close (Ok tt) c = Ok tt.
Proof. apply (farmer_close_first_error demo_finished (Some 1)). cbn. lia. Defined.

Lemma farm_driver_terminates_witness :
  exists c', farm_driver 3 demo_finished None (ch_new 2 : Queue (farm_message nat string)) = Some c'.
Proof.
  pose proof (farm_driver_terminates (H0 := queue_mpsc_laws) demo_finished None (ch_new 2)) as Ht.
  exact Ht.
Defined.
