(* ===== verification/Farmer.v ===== *)
(** The farmer (farmer/src/lib.rs): its configuration and builder, the thread
    pools, [Farm::new], [Config::build], [Farmer::close] and [get_info].

    [Config::build] is a program over a [world]: the two slots the farmer
    shares with the node's DSN, the event handlers it has registered on its
    farms and the tasks it has started.  What the locals of the Rust function
    own (the destructor set, the farms built so far) is state too, because
    leaving with [?] drops it.  The subspace-farmer crate is not part of the
    repository: opening a farm, its caches and its thread pools are parameters. *)
From S2P Require Import Prelude Destructors Teardown Tasks Plotting Pieces FarmDriver.

#[local] Open Scope Z_scope.

(** ** Configuration *)

Definition MaxConcurrentFarms_default : Z := 10.
Definition ProvidedKeysLimit_default : Z := 655360.
(** [ByteSize::mib(10)]. *)
Definition PieceCacheSize_default : Z := 10 * 1048576.

Record FarmDescription := mkFarmDescription {
  directory : string;
  space_pledged : Z;
}.

Record Config := mkConfig {
  max_concurrent_farms : Z;
  provided_keys_limit : Z;
  max_pieces_in_sector : option Z;
  farming_thread_pool_size : option Z;
  plotting_thread_pool_size : option Z;
  sector_downloading_concurrency : option Z;
  sector_encoding_concurrency : option Z;
  replotting_thread_pool_size : option Z;
}.

(** The builder holds what its setters were given. *)
Record Builder := mkBuilder {
  b_max_concurrent_farms : option Z;
  b_provided_keys_limit : option Z;
  b_max_pieces_in_sector : option (option Z);
  b_farming_thread_pool_size : option (option Z);
  b_plotting_thread_pool_size : option (option Z);
  b_sector_downloading_concurrency : option (option Z);
  b_sector_encoding_concurrency : option (option Z);
  b_replotting_thread_pool_size : option (option Z);
}.

Definition Builder_default : Builder := mkBuilder None None None None None None None None.

Definition configuration (b : Builder) : Config :=
  mkConfig
    (default MaxConcurrentFarms_default (b_max_concurrent_farms b))
    (default ProvidedKeysLimit_default (b_provided_keys_limit b))
    (default None (b_max_pieces_in_sector b))
    (default None (b_farming_thread_pool_size b))
    (default None (b_plotting_thread_pool_size b))
    (default None (b_sector_downloading_concurrency b))
    (default None (b_sector_encoding_concurrency b))
    (default None (b_replotting_thread_pool_size b)).

(** ** Thread pools *)

Section pools.
Context {CoreSet : Type}.
Variables (thread_pool_core_indices : option Z -> option Z -> list CoreSet).
Variables (cpu_cores : CoreSet -> list Z) (truncate : nat -> CoreSet -> CoreSet).

Definition replotting_thread_pool_core_indices (cfg : Config) : list CoreSet :=
  let indices := thread_pool_core_indices (replotting_thread_pool_size cfg)
                   (sector_encoding_concurrency cfg) in
  match replotting_thread_pool_size cfg with
  | None => (fun set => truncate (length (cpu_cores set) / 2) set) <$> indices
  | Some _ => indices
  end.

Definition downloading_permits (cfg : Config) (plotting : list CoreSet) : Z :=
  default (Z.of_nat (length plotting) + 1) (sector_downloading_concurrency cfg).

Definition farming_pool_size (cfg : Config) (all_cpu_cores : list CoreSet) : outcome Z :=
  match farming_thread_pool_size cfg with
  | Some n => Ret n
  | None =>
      set ← expect "Not empty according to function description; qed" (head all_cpu_cores);
      Ret (Z.of_nat (length (cpu_cores set)))
  end.
End pools.

(** ** Opening a farm *)

Inductive SingleDiskFarmError :=
| InsufficientAllocatedSpace (min_space allocated_space : Z)
| OtherSingleDiskFarmError (what : string).

Abbreviation FarmerBuildError := (BuildError SingleDiskFarmError).

(** The options of [SingleDiskFarm::new] that are data; the others are handles. *)
Record SingleDiskFarmOptions := mkSingleDiskFarmOptions {
  o_allocated_space : Z;
  o_directory : string;
  o_max_pieces_in_sector : Z;
  o_cache_percentage : Z;
  o_downloading_permits : Z;
  o_farming_thread_pool_size : Z;
}.

Definition farm_creation_error (e : SingleDiskFarmError) : FarmerBuildError :=
  SingleDiskFarmCreate
    match e with
    | InsufficientAllocatedSpace min_space allocated_space =>
        InsufficientSpaceForFarm min_space allocated_space
    | _ => OtherCreationError e
    end.

(** ** What a farmer owns *)

(** Event handlers on a farm, by the number of the farm; what the destructor
    sets are made of. *)
Inductive handler := OnSectorPlotted (i : nat) | OnProgress (i : nat) | OnSolution (i : nat).
Inductive slot := FarmerPieceCacheSlot | ReadersAndPiecesSlot.
Inductive task := PiecesCacheWorker | PlottingDelayTask | FarmsDriver.

#[export] Instance handler_eq_dec : EqDecision handler.
Proof. solve_decision. Defined.
#[export] Instance task_eq_dec : EqDecision task.
Proof. solve_decision. Defined.

Abbreviation farmer_entry := (entry slot task handler).
Abbreviation farmer_event := (event slot task handler).

Record world (Cache RP : Type) := mkWorld {
  farmer_piece_cache : option Cache;
  farmer_readers_and_pieces : option RP;
  (** handlers registered on farms, tasks not told to stop *)
  handlers : list handler;
  running : list task;
}.
Arguments mkWorld {Cache RP}.
Arguments farmer_piece_cache {Cache RP}.
Arguments farmer_readers_and_pieces {Cache RP}.
Arguments handlers {Cache RP}.
Arguments running {Cache RP}.

Section world.
Context {Cache RP : Type}.
Implicit Types w : world Cache RP.

Definition set_cache (c : option Cache) w : world Cache RP :=
  mkWorld c (farmer_readers_and_pieces w) (handlers w) (running w).
Definition set_readers (r : option RP) w : world Cache RP :=
  mkWorld (farmer_piece_cache w) r (handlers w) (running w).
Definition listen (h : handler) w : world Cache RP :=
  mkWorld (farmer_piece_cache w) (farmer_readers_and_pieces w) (handlers w ++ [h]) (running w).
Definition spawn (t : task) w : world Cache RP :=
  mkWorld (farmer_piece_cache w) (farmer_readers_and_pieces w) (handlers w) (running w ++ [t]).

(** What a destructor does.  A future that is awaited sends the drop signal;
    one that is dropped drops its sender, which ends the task as well. *)
Definition destruct_event (e : farmer_event) w : world Cache RP :=
  match e with
  | RanSync FarmerPieceCacheSlot => set_cache None w
  | RanSync ReadersAndPiecesSlot => set_readers None w
  | AwaitedAsync t | DroppedAsync t =>
      mkWorld (farmer_piece_cache w) (farmer_readers_and_pieces w) (handlers w)
        (filter (fun t' => t' <> t) (running w))
  | DroppedItem h =>
      mkWorld (farmer_piece_cache w) (farmer_readers_and_pieces w)
        (filter (fun h' => h' <> h) (handlers w)) (running w)
  | WarnedNotAsyncDropped _ => w
  end.

Definition destruct_events (es : list farmer_event) w : world Cache RP :=
  foldl (fun w e => destruct_event e w) w es.
End world.

(** ** Building a farmer *)

Section build.
Context {Cache RP Reader Sector PieceIndex Piece CoreSet FarmId D : Type} {Ch : Type -> Type}.
Context `{ReadersAndPiecesApi RP Reader Sector PieceIndex Piece}.
Context `{TeardownApi D slot task handler} `{Mpsc Ch}.

(** A running single-disk farm of the subspace-farmer crate. *)
Record SingleDiskFarm := mkSingleDiskFarm {
  sdf_id : FarmId;
  sdf_reader : Reader;
  sdf_plotted_sectors : list (result string Sector);
  sdf_plotted_sectors_count : Z;
}.

Record Farm := mkFarm {
  Farm_directory : string;
  Farm_allocated_space : Z;
  Farm_initial_plotting_progress : InitialPlottingProgress;
  Farm_destructors : D;
}.

Record Farmer := mkFarmer {
  Farmer_reward_address : string;
  Farmer_farm_info : gmap string Farm;
  Farmer_result_receiver : Ch (farm_message FarmId string);
  Farmer_node_name : string;
  Farmer_app_max_pieces_in_sector : Z;
  Farmer_destructors : D;
}.

(** What the code calls outside the repository.  [farmer_app_info] is numbered
    by call; it answers the maximal number of pieces in a sector. *)
Record externals := mkExternals {
  x_profile : profile;
  x_sector_index_width : Z;
  NUM_S_BUCKETS : Z;
  ErasureCoding_new : Z -> result string unit;
  farmer_app_info : nat -> result string Z;
  thread_pool_core_indices : option Z -> option Z -> list CoreSet;
  cpu_cores : CoreSet -> list Z;
  truncate : nat -> CoreSet -> CoreSet;
  all_cpu_cores : list CoreSet;
  create_plotting_thread_pool_manager : list (CoreSet * CoreSet) -> result string unit;
  FarmerPieceCache_new : Cache;
  SingleDiskFarm_new : SingleDiskFarmOptions -> nat -> result SingleDiskFarmError SingleDiskFarm;
  identity_file_size : Z;
  known_peers_file_size : Z;
  sector_size : Z -> Z;
  sector_metadata_size : Z;
}.
Context (x : externals).

(** The locals of [build] that own something. *)
Record build_state := mkBuildState {
  bs_world : world Cache RP;
  bs_destructors : D;
  bs_farm_info : gmap string Farm;
  sector_plotting_handler_ids : list handler;
}.

Abbreviation builder := (prog build_state FarmerBuildError).

Definition act (f : world Cache RP -> world Cache RP) : builder unit :=
  prog_modify (fun s => mkBuildState (f (bs_world s)) (bs_destructors s) (bs_farm_info s)
                          (sector_plotting_handler_ids s)).

(** [destructors.add_..(..)?] *)
Definition add_destructor (f : D -> D * result string unit) : builder unit := fun s =>
  let (d, r) := f (bs_destructors s) in
  Ret (mkBuildState (bs_world s) d (bs_farm_info s) (sector_plotting_handler_ids s),
       map_err OtherBuildError r).

Definition drop_set_in (d : D) (w : world Cache RP) : outcome (world Cache RP) :=
  es ← td_drop d; Ret (destruct_events es w).

Definition drop_farm (farm : Farm) (w : world Cache RP) : outcome (world Cache RP) :=
  drop_set_in (Farm_destructors farm) w.

Fixpoint drop_farms (farms : list Farm) (w : world Cache RP) : outcome (world Cache RP) :=
  match farms with
  | [] => Ret w
  | farm :: farms' => w' ← drop_farm farm w; drop_farms farms' w'
  end.

(** Register a handler on a farm and keep its id in a set local to [Farm::new]. *)
Definition listen_in (d : D) (h : handler) : builder D := fun s =>
  let w := listen h (bs_world s) in
  let back w := mkBuildState w (bs_destructors s) (bs_farm_info s) (sector_plotting_handler_ids s) in
  match td_add_item h d with
  | (d', Ok _) => Ret (back w, Ok d')
  | (d', Err e) =>
      w' ← drop_set_in d' (destruct_event (DroppedItem h) w);
      Ret (back w', Err (OtherBuildError e))
  end.

Definition Farm_new (disk_farm_idx : nat) (cache_percentage max_pieces permits pool_size : Z)
    (description : FarmDescription) : builder (Farm * SingleDiskFarm) :=
  let dir := directory description in
  let allocated_space := space_pledged description in
  _ ← lift_outcome (expect_ok "Node is always reachable" (farmer_app_info x (S disk_farm_idx)));
  single_disk_farm ← lift_result (map_err farm_creation_error
    (SingleDiskFarm_new x
       (mkSingleDiskFarmOptions allocated_space dir max_pieces cache_percentage permits pool_size)
       disk_farm_idx));
  d1 ← listen_in (td_new_without_async "farm-destructors") (OnProgress disk_farm_idx);
  d2 ← listen_in d1 (OnSolution disk_farm_idx);
  target ← lift_outcome (target_sector_count (identity_file_size x) (known_peers_file_size x)
             (sector_size x) (sector_metadata_size x)
             (x_profile x) allocated_space cache_percentage max_pieces);
  plotted ← lift_outcome (expect "Sector count is less than u64::MAX"
              (try_into_u 64 (sdf_plotted_sectors_count single_disk_farm)));
  mret (mkFarm dir allocated_space (initial_progress plotted target) d2, single_disk_farm).

(** [farm_info.insert(..)]; the farm it replaces is dropped. *)
Definition insert_farm (farm : Farm) : builder unit := fun s =>
  let farms := <[Farm_directory farm := farm]> (bs_farm_info s) in
  let back w := mkBuildState w (bs_destructors s) farms (sector_plotting_handler_ids s) in
  match bs_farm_info s !! Farm_directory farm with
  | None => Ret (back (bs_world s), Ok tt)
  | Some old => w ← drop_farm old (bs_world s); Ret (back w, Ok tt)
  end.

Fixpoint open_farms (idx : nat) (cache_percentage max_pieces permits pool_size : Z)
    (farms : list FarmDescription) : builder (list SingleDiskFarm) :=
  match farms with
  | [] => mret []
  | description :: farms' =>
      opened ← Farm_new idx cache_percentage max_pieces permits pool_size description;
      _ ← insert_farm opened.1;
      single_disk_farms ← open_farms (S idx) cache_percentage max_pieces permits pool_size farms';
      mret (opened.2 :: single_disk_farms)
  end.

(** [sector_plotting_handler_ids.push(single_disk_farm.on_sector_plotted(..))]. *)
Definition listen_to (idx : nat) : builder unit :=
  prog_modify (fun s => mkBuildState (listen (OnSectorPlotted idx) (bs_world s)) (bs_destructors s)
    (bs_farm_info s) (sector_plotting_handler_ids s ++ [OnSectorPlotted idx])).

Fixpoint listen_to_all (idx : nat) (single_disk_farms : list SingleDiskFarm) : builder unit :=
  match single_disk_farms with
  | [] => mret tt
  | _ :: sdfs' => _ ← listen_to idx; listen_to_all (S idx) sdfs'
  end.

(** [for handler_id in ids.drain(..) { destructors.add_items_to_drop(handler_id)?; }]:
    an id that is refused is dropped. *)
Fixpoint keep_handler_ids (ids : list handler) : builder unit :=
  match ids with
  | [] => prog_modify (fun s => mkBuildState (bs_world s) (bs_destructors s) (bs_farm_info s) [])
  | id :: ids' => _ ← add_destructor (td_add_item id); keep_handler_ids ids'
  end.

Definition erasure_coding_scale : outcome Z :=
  expect "Number of buckets >= 1, therefore next power of 2 >= 2, therefore ilog2 >= 1"
    (if decide (0 < Z.log2_up (NUM_S_BUCKETS x)) then Some (Z.log2_up (NUM_S_BUCKETS x)) else None).

Definition erasure_coding_error (error : string) : FarmerBuildError :=
  OtherBuildError (String.append "Failed to create erasure coding for farm: " error).

(** The body of [build] after its first check. *)
Definition build_body (cfg : Config) (cache_percentage : Z) (farms : list FarmDescription)
    : builder Z :=
  scale ← lift_outcome erasure_coding_scale;
  _ ← lift_result (map_err erasure_coding_error (ErasureCoding_new x scale));
  _ ← act (spawn PiecesCacheWorker);
  _ ← add_destructor (td_add_async PiecesCacheWorker);
  app_max ← lift_outcome (expect_ok "Node is always reachable" (farmer_app_info x 0));
  let max_pieces := default app_max (max_pieces_in_sector cfg) in
  let plotting := thread_pool_core_indices x (plotting_thread_pool_size cfg)
                    (sector_encoding_concurrency cfg) in
  let replotting := replotting_thread_pool_core_indices (thread_pool_core_indices x)
                      (cpu_cores x) (truncate x) cfg in
  let permits := downloading_permits cfg plotting in
  _ ← lift_result (map_err ThreadPoolError
        (create_plotting_thread_pool_manager x (zip plotting replotting)));
  pool_size ← lift_outcome (farming_pool_size (cpu_cores x) cfg (all_cpu_cores x));
  single_disk_farms ← open_farms 0 cache_percentage max_pieces permits pool_size farms;
  _ ← act (set_cache (Some (FarmerPieceCache_new x)));
  _ ← add_destructor (td_add_sync FarmerPieceCacheSlot);
  _ ← act (spawn PlottingDelayTask);
  _ ← add_destructor (td_add_async PlottingDelayTask);
  readers_and_pieces_instance ← lift (create_readers_and_pieces (x_profile x)
    (x_sector_index_width x)
    ((fun f => (sdf_reader f, sdf_plotted_sectors f)) <$> single_disk_farms));
  _ ← act (set_readers (Some readers_and_pieces_instance));
  _ ← add_destructor (td_add_sync ReadersAndPiecesSlot);
  _ ← listen_to_all 0 single_disk_farms;
  _ ← act (spawn FarmsDriver);
  _ ← add_destructor (td_add_async FarmsDriver);
  ids ← prog_get sector_plotting_handler_ids;
  _ ← keep_handler_ids ids;
  lift_outcome (expect_ok "Node is always reachable" (farmer_app_info x (S (length farms)))).

(** [Config::build].  Leaving early drops the handler ids that are not yet in a
    set, the farms and the destructor set. *)
Definition build (cfg : Config) (reward_address node_name : string) (cache_percentage : Z)
    (farms : list FarmDescription) (w : world Cache RP)
    : outcome (world Cache RP * result FarmerBuildError Farmer) :=
  match farms with
  | [] => Ret (w, Err NoFarmsSupplied)
  | _ =>
      '(s, r) ← build_body cfg cache_percentage farms
                  (mkBuildState w (td_new "farmer-destructors") ∅ []);
      match r with
      | Ok app_max =>
          Ret (bs_world s, Ok (mkFarmer reward_address (bs_farm_info s) result_channel node_name
                                 app_max (bs_destructors s)))
      | Err e =>
          let w1 := destruct_events (DroppedItem <$> sector_plotting_handler_ids s) (bs_world s) in
          w2 ← drop_farms (map_to_list (bs_farm_info s)).*2 w1;
          w3 ← drop_set_in (bs_destructors s) w2;
          Ret (w3, Err e)
      end
  end.

(** [Farmer::close]; [results] is the channel as the driver left it and
    [joined] tells which tasks have ended once they are told to.  [self] is
    dropped at the end, with its farms.  [None]: still waiting for a task. *)
Definition close (joined : task -> bool) (self : Farmer) (results : Ch (farm_message FarmId string))
    (w : world Cache RP) : outcome (option (world Cache RP * result string unit)) :=
  r ← td_async_drop joined (Farmer_destructors self);
  match r with
  | None => Ret None
  | Some (es, async_drop) =>
      let closed := Farmer_close async_drop results in
      w' ← drop_farms (map_to_list (Farmer_farm_info self)).*2 (destruct_events es w);
      Ret (Some (w', closed))
  end.
End build.
Arguments SingleDiskFarm : clear implicits.
Arguments Farm : clear implicits.
Arguments Farmer : clear implicits.
Arguments externals : clear implicits.
Arguments build_state : clear implicits.

(** ** Farm and farmer information *)

Record FarmInfo (Id : Type) := mkFarmInfo {
  fi_id : Id;
  fi_genesis_hash : list Z;
  fi_public_key : list Z;
  fi_allocated_space : Z;
  fi_pieces_in_sector : Z;
}.
Arguments mkFarmInfo {Id}.

(** [SingleDiskFarmInfo::V0] and [SingleDiskFarmSummary] of subspace-farmer. *)
Inductive SingleDiskFarmInfo (Id : Type) :=
| InfoV0 (id : Id) (genesis_hash public_key : list Z) (allocated_space pieces_in_sector : Z).
Arguments InfoV0 {Id}.

Inductive SingleDiskFarmSummary (Id : Type) :=
| Found (info : SingleDiskFarmInfo Id) (dir : string)
| NotFound (dir : string)
| SummaryError (dir : string) (error : string).
Arguments Found {Id}.
Arguments NotFound {Id}.
Arguments SummaryError {Id}.

Definition FarmInfo_from {Id} (info : SingleDiskFarmInfo Id) : FarmInfo Id :=
  match info with
  | InfoV0 id genesis_hash public_key allocated_space pieces_in_sector =>
      mkFarmInfo id genesis_hash public_key allocated_space pieces_in_sector
  end.

Inductive InfoError := FarmNotFound (dir : string) | FarmSummaryFailed (dir error : string).

Record Info (Id : Type) := mkInfo {
  version : string;
  info_reward_address : string;
  farms_info : gmap string (FarmInfo Id);
  info_sector_size : Z;
}.
Arguments mkInfo {Id}.

Definition summary_entry {Id} (s : SingleDiskFarmSummary Id) : result InfoError (string * FarmInfo Id) :=
  match s with
  | Found info dir => Ok (dir, FarmInfo_from info)
  | NotFound dir => Err (FarmNotFound dir)
  | SummaryError dir error => Err (FarmSummaryFailed dir error)
  end.

(** [get_info]: [summaries] is what [collect_summary] gives for each directory
    of the farmer, in the iteration order of the map.  Collecting into a
    [HashMap] keeps the last entry of a directory. *)
Definition get_info {Id} (pkg_version git_hash reward_address : string) (sector_size : Z)
    (summaries : list (SingleDiskFarmSummary Id)) : result InfoError (Info Id) :=
  entries ← collect_result (summary_entry <$> summaries);
  Ok (mkInfo (String.append pkg_version (String.append "-" git_hash)) reward_address
        (list_to_map (reverse entries)) sector_size).

(** ** Lemmas: what destructors do to the world *)

Section destruct_facts.
Context {Cache RP : Type}.
Implicit Types (w : world Cache RP) (es : list farmer_event).

Lemma destruct_events_app es es' w :
  destruct_events (es ++ es') w = destruct_events es' (destruct_events es w).
Proof. apply foldl_app. Qed.

Lemma handlers_after es : forall w h,
  h ∈ handlers (destruct_events es w) <-> h ∈ handlers w /\ DroppedItem h ∉ es.
Proof.
  induction es as [|e es IH]; intros w h; [cbn; set_unfold; naive_solver|].
  change (destruct_events (e :: es) w) with (destruct_events es (destruct_event e w)).
  rewrite IH, not_elem_of_cons. destruct e as [[]|t|t|h'|n]; cbn; [naive_solver..| |naive_solver].
  rewrite list_elem_of_filter. naive_solver.
Qed.

Lemma running_after es : forall w t,
  t ∈ running (destruct_events es w) <->
  t ∈ running w /\ (AwaitedAsync t ∉ es) /\ (DroppedAsync t ∉ es).
Proof.
  induction es as [|e es IH]; intros w t; [set_solver|].
  change (destruct_events (e :: es) w) with (destruct_events es (destruct_event e w)).
  rewrite IH, !not_elem_of_cons.
  destruct e as [[]|t'|t'|h'|n]; cbn; try rewrite list_elem_of_filter; naive_solver.
Qed.

Lemma cache_kept es w : RanSync FarmerPieceCacheSlot ∉ es ->
  farmer_piece_cache (destruct_events es w) = farmer_piece_cache w.
Proof.
  revert w. induction es as [|e es IH]; intros w; [done|].
  rewrite not_elem_of_cons. intros [He Hes]. cbn. fold (destruct_events es (destruct_event e w)).
  rewrite IH by done. by destruct e as [[]|t|t|h|n].
Qed.

Lemma readers_kept es w : RanSync ReadersAndPiecesSlot ∉ es ->
  farmer_readers_and_pieces (destruct_events es w) = farmer_readers_and_pieces w.
Proof.
  revert w. induction es as [|e es IH]; intros w; [done|].
  rewrite not_elem_of_cons. intros [He Hes]. cbn. fold (destruct_events es (destruct_event e w)).
  rewrite IH by done. by destruct e as [[]|t|t|h|n].
Qed.

Lemma cache_none_stays es w : farmer_piece_cache w = None ->
  farmer_piece_cache (destruct_events es w) = None.
Proof.
  revert w. induction es as [|e es IH]; intros w Hw; [done|]. apply IH.
  by destruct e as [[]|t|t|h|n].
Qed.

Lemma readers_none_stays es w : farmer_readers_and_pieces w = None ->
  farmer_readers_and_pieces (destruct_events es w) = None.
Proof.
  revert w. induction es as [|e es IH]; intros w Hw; [done|]. apply IH.
  by destruct e as [[]|t|t|h|n].
Qed.

Lemma cache_cleared es w : RanSync FarmerPieceCacheSlot ∈ es ->
  farmer_piece_cache (destruct_events es w) = None.
Proof.
  intros (es1 & es2 & ->)%list_elem_of_split. rewrite destruct_events_app.
  exact (cache_none_stays es2 (set_cache None (destruct_events es1 w)) eq_refl).
Qed.

Lemma readers_cleared es w : RanSync ReadersAndPiecesSlot ∈ es ->
  farmer_readers_and_pieces (destruct_events es w) = None.
Proof.
  intros (es1 & es2 & ->)%list_elem_of_split. rewrite destruct_events_app.
  exact (readers_none_stays es2 (set_readers None (destruct_events es1 w)) eq_refl).
Qed.
End destruct_facts.

(** ** Lemmas: ownership during [build] *)

Section build_facts.
Context {Cache RP Reader Sector PieceIndex Piece CoreSet FarmId D : Type} {Ch : Type -> Type}.
Context `{ReadersAndPiecesApi RP Reader Sector PieceIndex Piece}.
Context `{TeardownLaws D slot task handler} `{Mpsc Ch}.
Variable x : externals Cache Reader Sector CoreSet FarmId.
Implicit Types (s : build_state Cache RP D) (w : world Cache RP).

(** The set of a farm holds nothing but the two handlers of the farm itself. *)
Definition farm_entry (e : farmer_entry) : Prop :=
  exists h, e = EItem h /\ forall i, h <> OnSectorPlotted i.
Definition farm_ok (f : Farm D) : Prop :=
  exists l, td_holds (Farm_destructors f) false l /\ Forall farm_entry l.

Definition owns_farm (f : Farm D) (h : handler) : Prop :=
  exists es, td_drop (Farm_destructors f) = Ret es /\ DroppedItem h ∈ es.

(** Every handler and task has an owner that will end it; [extra] are the
    handlers owned by a set that is local to [Farm::new]. *)
Record inv (extra : list handler) (l : list farmer_entry) s : Prop := {
  inv_set : td_holds (bs_destructors s) true l;
  inv_farms dir f : bs_farm_info s !! dir = Some f -> farm_ok f;
  inv_handlers h : h ∈ handlers (bs_world s) ->
    h ∈ extra \/ h ∈ sector_plotting_handler_ids s \/ EItem h ∈ l \/
    exists dir f, bs_farm_info s !! dir = Some f /\ owns_farm f h;
  inv_running t : t ∈ running (bs_world s) -> EAsync t ∈ l;
}.

(** What opening farms leaves alone. *)
Definition same_slots w w' : Prop :=
  farmer_piece_cache w' = farmer_piece_cache w /\
  farmer_readers_and_pieces w' = farmer_readers_and_pieces w.
Definition frame s s' : Prop :=
  same_slots (bs_world s) (bs_world s') /\
  sector_plotting_handler_ids s' = sector_plotting_handler_ids s.

#[export] Instance frame_trans : Transitive frame.
Proof. intros s1 s2 s3 [[] ?] [[] ?]. split; [split|]; congruence. Qed.

Lemma items_drop (d : D) l : td_holds d false l -> Forall farm_entry l ->
  exists es, td_drop d = Ret es /\ (forall h, DroppedItem h ∈ es <-> EItem h ∈ l) /\
    (forall sl, RanSync sl ∉ es) /\ (forall t, AwaitedAsync t ∉ es) /\ (forall t, DroppedAsync t ∉ es).
Proof.
  intros Hd Hl. destruct (td_drop_runs _ _ _ Hd) as (ws & Hdrop & Hws).
  exists (ws ++ (drop_entry <$> reverse l)). split; [done|].
  rewrite Forall_forall in Hws. rewrite Forall_forall in Hl.
  assert (Hin : forall e, e ∈ ws ++ (drop_entry <$> reverse l) <->
    e ∈ ws \/ exists h, e = DroppedItem h /\ EItem h ∈ l).
  { intros e. rewrite elem_of_app, list_elem_of_fmap. setoid_rewrite elem_of_reverse. split.
    - intros [He|([f|a|h] & -> & He)]; [by left|by apply Hl in He as (? & ? & _)..|]. right. eauto.
    - intros [He|(h & -> & He)]; [by left|]. right. by exists (EItem h). }
  repeat setoid_rewrite Hin.
  split; [|split; [|split]]; intros h.
  - split; [|by eauto]. intros [He|(h' & [= <-] & He)]; [|done]. by apply Hws in He as [? ?].
  - intros [He|(h' & ? & He)]; [|done]. by apply Hws in He as [? ?].
  - intros [He|(h' & ? & He)]; [|done]. by apply Hws in He as [? ?].
  - intros [He|(h' & ? & He)]; [|done]. by apply Hws in He as [? ?].
Qed.

Lemma owns_farm_other (f : Farm D) h i : farm_ok f -> owns_farm f h -> h <> OnSectorPlotted i.
Proof.
  intros (l & Hd & Hl) (es & Hes & Hin). destruct (items_drop _ _ Hd Hl) as (es' & Hes' & Hiff & _).
  rewrite Hes in Hes'. injection Hes' as <-. apply Hiff in Hin. rewrite Forall_forall in Hl.
  destruct (Hl _ Hin) as (h' & [= <-] & Hne). apply Hne.
Qed.

(** Dropping a farm ends its handlers and nothing else. *)
Lemma drop_farm_spec (f : Farm D) w : farm_ok f ->
  exists w', drop_farm f w = Ret w' /\ same_slots w w' /\
    (forall t, t ∈ running w' <-> t ∈ running w) /\
    (forall h, h ∈ handlers w' <-> h ∈ handlers w /\ ~ owns_farm f h).
Proof.
  intros (l & Hd & Hl). destruct (items_drop _ _ Hd Hl) as (es & Hdrop & Hh & Hs & Ha & Hda).
  exists (destruct_events es w). unfold drop_farm, drop_set_in. rewrite Hdrop.
  split; [done|]. split; [|split].
  - split; [by apply cache_kept|by apply readers_kept].
  - intros t. rewrite running_after. specialize (Ha t). specialize (Hda t). tauto.
  - intros h. rewrite handlers_after. unfold owns_farm. rewrite Hdrop. naive_solver.
Qed.

Lemma drop_farms_spec (farms : list (Farm D)) : forall w, Forall farm_ok farms ->
  exists w', drop_farms farms w = Ret w' /\ same_slots w w' /\
    (forall t, t ∈ running w' <-> t ∈ running w) /\
    (forall h, h ∈ handlers w' <-> h ∈ handlers w /\ forall f, f ∈ farms -> ~ owns_farm f h).
Proof.
  induction farms as [|f farms IH]; intros w Hf; cbn.
  { exists w. split; [done|]. split; [done|]. split; [done|].
    intros h. split; [|by intros []]. intros Hh. split; [done|]. by intros f ?%elem_of_nil. }
  inversion Hf as [|? ? Hf1 Hf2]; subst.
  destruct (drop_farm_spec f w Hf1) as (w1 & -> & [Hc1 Hr1] & Ht1 & Hh1). cbn.
  destruct (IH w1 Hf2) as (w2 & -> & [Hc2 Hr2] & Ht2 & Hh2).
  exists w2. split; [done|]. split; [split; congruence|]. split.
  - intros t. by rewrite Ht2, Ht1.
  - intros h. rewrite Hh2, Hh1. setoid_rewrite elem_of_cons. naive_solver.
Qed.

(** Registering the destructor of something just started keeps the invariant. *)
Lemma wp_add_async {A} (t : task) (f : world Cache RP -> world Cache RP) l s
    (k : prog (build_state Cache RP D) FarmerBuildError A) Q P :
  inv [] l s -> f = spawn t ->
  (forall s', inv [] (l ++ [EAsync t]) s' -> frame s s' -> bs_farm_info s' = bs_farm_info s ->
     wp k Q P s') ->
  wp (_ ← act f; _ ← add_destructor (td_add_async t); k) Q P s.
Proof.
  intros [Hset Hfarms Hh Hr] -> Hk. destruct (td_holds_async _ _ t Hset) as [Hok Hset'].
  unfold wp, mbind, prog_bind, act, prog_modify, add_destructor. cbn.
  destruct (td_add_async t (bs_destructors s)) as [d [[]|e]]; cbn in *; [|done].
  apply Hk; [|done|done]. split; [done|done| |].
  - intros h Hin. destruct (Hh h Hin) as [?|[?|[?|?]]]; set_solver.
  - cbn. intros t'. rewrite !elem_of_app. intros [Hin|Hin]; [left; auto|set_solver].
Qed.

Lemma wp_add_sync {A} (sl : slot) (f : world Cache RP -> world Cache RP) l s
    (k : prog (build_state Cache RP D) FarmerBuildError A) Q P :
  inv [] l s -> (forall w, handlers (f w) = handlers w /\ running (f w) = running w) ->
  (forall s', inv [] (l ++ [ESync sl]) s' -> bs_world s' = f (bs_world s) ->
     bs_farm_info s' = bs_farm_info s ->
     sector_plotting_handler_ids s' = sector_plotting_handler_ids s -> wp k Q P s') ->
  wp (_ ← act f; _ ← add_destructor (td_add_sync sl); k) Q P s.
Proof.
  intros [Hset Hfarms Hh Hr] Hf Hk. destruct (td_holds_sync _ _ _ sl Hset) as [Hok Hset'].
  unfold wp, mbind, prog_bind, act, prog_modify, add_destructor. cbn.
  destruct (td_add_sync sl (bs_destructors s)) as [d [[]|e]]; cbn in *; [|done].
  destruct (Hf (bs_world s)) as [Hfh Hfr].
  apply Hk; [|done..]. split; cbn; [done|done| |].
  - intros h. rewrite Hfh. intros Hin. destruct (Hh h Hin) as [?|[?|[?|?]]]; set_solver.
  - intros t'. rewrite Hfr, elem_of_app. auto.
Qed.

(** A handler kept in the set of a farm being opened. *)
Lemma wp_listen_in (d : D) (h : handler) hs l s
    (Q : result FarmerBuildError D -> build_state Cache RP D -> Prop) P :
  inv hs l s -> td_holds d false (EItem <$> hs) ->
  (forall d' s', inv (hs ++ [h]) l s' -> td_holds d' false (EItem <$> hs ++ [h]) ->
     frame s s' -> bs_farm_info s' = bs_farm_info s -> Q (Ok d') s') ->
  wp (listen_in d h) Q P s.
Proof.
  intros [Hset Hfarms Hh Hr] Hd HQ. destruct (td_holds_item _ _ _ h Hd) as [Hok Hd'].
  unfold wp, listen_in. destruct (td_add_item h d) as [d' [[]|e]]; cbn in *; [|done].
  apply HQ; [|by rewrite fmap_app|done|done]. split; cbn; [done|done| |done].
  intros h'. rewrite elem_of_app, list_elem_of_singleton. intros [Hin| ->]; [|set_solver].
  destruct (Hh h' Hin) as [?|[?|[?|?]]]; set_solver.
Qed.

(** What opening farm [i] does: [opened] is the answer of the subspace-farmer crate. *)
Definition options_of (cache_percentage max_pieces permits pool_size : Z) (d : FarmDescription)
    : SingleDiskFarmOptions :=
  mkSingleDiskFarmOptions (space_pledged d) (directory d) max_pieces cache_percentage permits pool_size.

(** Opening a farm does not panic. *)
Definition farm_safe (cache_percentage max_pieces permits pool_size : Z) (i : nat)
    (d : FarmDescription) : Prop :=
  is_ok (farmer_app_info x (S i)) = true /\
  (exists n, target_sector_count (identity_file_size x) (known_peers_file_size x)
     (sector_size x) (sector_metadata_size x) (x_profile x) (space_pledged d) cache_percentage
     max_pieces = Ret n) /\
  forall f, SingleDiskFarm_new x (options_of cache_percentage max_pieces permits pool_size d) i = Ok f ->
    in_u 64 (sdf_plotted_sectors_count f).

Lemma wp_Farm_new i cp mp permits pool d l s
    (Q : result FarmerBuildError (Farm D * SingleDiskFarm Reader Sector FarmId) ->
         build_state Cache RP D -> Prop) :
  inv [] l s ->
  (forall e, SingleDiskFarm_new x (options_of cp mp permits pool d) i = Err e ->
     Q (Err (farm_creation_error e)) s) ->
  (forall f sdf s', SingleDiskFarm_new x (options_of cp mp permits pool d) i = Ok sdf ->
     inv [OnProgress i; OnSolution i] l s' -> frame s s' -> bs_farm_info s' = bs_farm_info s ->
     Farm_directory f = directory d ->
     td_holds (Farm_destructors f) false (EItem <$> [OnProgress i; OnSolution i]) -> Q (Ok (f, sdf)) s') ->
  wp (Farm_new x i cp mp permits pool d) Q (~ farm_safe cp mp permits pool i d) s.
Proof.
  intros Hinv HErr HOk. unfold Farm_new. apply wp_bind, wp_lift_outcome.
  2: { intros w Hw [Hsafe _]. by destruct (farmer_app_info x (S i)). }
  intros _ _. apply wp_bind, wp_lift_result. fold (options_of cp mp permits pool d).
  destruct (SingleDiskFarm_new x _ i) as [sdf|e] eqn:Hopen; cbn; [|by apply HErr].
  apply wp_bind, (wp_listen_in _ _ [] l); [done|apply td_holds_new_without_async|].
  intros d1 s1 Hinv1 Hd1 Hfr1 Hfi1. apply wp_bind, (wp_listen_in _ _ [OnProgress i] l); [done..|].
  intros d2 s2 Hinv2 Hd2 Hfr2 Hfi2. apply wp_bind, wp_lift_outcome.
  2: { intros w Hw (_ & (n & Hn) & _). by rewrite Hw in Hn. }
  intros target Htarget. apply wp_bind, wp_lift_outcome.
  2: { intros w Hw (_ & _ & Hn). specialize (Hn _ Hopen).
       unfold try_into_u in Hw. by rewrite decide_True in Hw. }
  intros plotted _. apply wp_ret, HOk; [done|done|by etransitivity|congruence|done|done].
Qed.

(** Handing a new farm over to [farm_info]. *)
Lemma wp_insert_farm (f : Farm D) hs l s
    (Q : result FarmerBuildError unit -> build_state Cache RP D -> Prop) P :
  inv hs l s -> td_holds (Farm_destructors f) false (EItem <$> hs) ->
  Forall (fun h => forall i, h <> OnSectorPlotted i) hs ->
  (forall s', inv [] l s' -> frame s s' ->
     bs_farm_info s' = <[Farm_directory f := f]> (bs_farm_info s) -> Q (Ok tt) s') ->
  wp (insert_farm f) Q P s.
Proof.
  intros [Hset Hfarms Hh Hr] Hd Hne HQ.
  assert (Hitems : Forall farm_entry (EItem <$> hs)).
  { apply Forall_fmap. eapply Forall_impl; [exact Hne|]. intros h Hh'. by exists h. }
  assert (Hfok : farm_ok f) by by exists (EItem <$> hs).
  assert (Hown : forall h, h ∈ hs -> owns_farm f h).
  { intros h Hin. destruct (items_drop _ _ Hd Hitems) as (es & Hes & Hiff & _).
    exists es. split; [done|]. apply Hiff, list_elem_of_fmap. eauto. }
  assert (Hfarms' : forall dir f', <[Farm_directory f := f]> (bs_farm_info s) !! dir = Some f' -> farm_ok f').
  { intros dir f'. rewrite lookup_insert_Some. intros [[_ <-]|[_ Hl]]; eauto. }
  unfold wp, insert_farm. destruct (bs_farm_info s !! Farm_directory f) as [old|] eqn:Hold.
  - destruct (drop_farm_spec old (bs_world s) (Hfarms _ _ Hold)) as (w' & -> & Hslots & Ht & Hhs).
    cbn. apply HQ; [|done|done]. split; cbn; [done|done| |].
    + intros h Hin. apply Hhs in Hin as [Hin Hno].
      destruct (Hh h Hin) as [Hin'|[?|[?|(dir & f' & Hl & Ho)]]]; [|auto|auto|].
      * right. right. right. exists (Farm_directory f), f. rewrite lookup_insert_eq. auto.
      * right. right. right. exists dir, f'. split; [|done].
        rewrite lookup_insert_ne; [done|]. intros <-. by simplify_eq.
    + intros t Hin. apply Ht in Hin. auto.
  - cbn. apply HQ; [|done|done]. split; cbn; [done|done| |done].
    intros h Hin. destruct (Hh h Hin) as [Hin'|[?|[?|(dir & f' & Hl & Ho)]]]; [|auto|auto|].
    + right. right. right. exists (Farm_directory f), f. rewrite lookup_insert_eq. auto.
    + right. right. right. exists dir, f'. split; [|done].
      rewrite lookup_insert_ne; [done|]. intros <-. by simplify_eq.
Qed.

(** What the crate answers for the farms numbered from [idx] on. *)
Definition opened (cp mp permits pool : Z) (idx : nat) (farms : list FarmDescription)
    : result FarmerBuildError (list (SingleDiskFarm Reader Sector FarmId)) :=
  collect_result (imap (fun i d => map_err farm_creation_error
    (SingleDiskFarm_new x (options_of cp mp permits pool d) (idx + i)%nat)) farms).

Lemma opened_cons cp mp permits pool idx d farms :
  opened cp mp permits pool idx (d :: farms) =
  match SingleDiskFarm_new x (options_of cp mp permits pool d) idx with
  | Err e => Err (farm_creation_error e)
  | Ok sdf => (fun sdfs => sdf :: sdfs) <$> opened cp mp permits pool (S idx) farms
  end.
Proof.
  unfold opened. cbn [imap]. rewrite Nat.add_0_r.
  rewrite (imap_ext _ (fun i d => map_err farm_creation_error
    (SingleDiskFarm_new x (options_of cp mp permits pool d) (S idx + i)%nat)))
    by (intros; cbn; by rewrite Nat.add_succ_r).
  destruct (SingleDiskFarm_new x _ idx); cbn; [|done]. by destruct (collect_result _).
Qed.

Lemma opened_length cp mp permits pool farms : forall idx sdfs,
  opened cp mp permits pool idx farms = Ok sdfs -> length sdfs = length farms.
Proof.
  induction farms as [|d farms IH]; intros idx sdfs; [by intros [= <-]|].
  rewrite opened_cons. destruct (SingleDiskFarm_new x _ idx); [|done].
  destruct (opened _ _ _ _ (S idx) farms) eqn:Ho; cbn; [|done]. intros [= <-]. cbn. eauto.
Qed.

Lemma wp_open_farms cp mp permits pool farms l : forall idx s
    (Q : result FarmerBuildError (list (SingleDiskFarm Reader Sector FarmId)) ->
         build_state Cache RP D -> Prop),
  inv [] l s ->
  (forall s', inv [] l s' -> frame s s' ->
     (is_ok (opened cp mp permits pool idx farms) = true ->
      forall dir, is_Some (bs_farm_info s' !! dir) <->
        is_Some (bs_farm_info s !! dir) \/ dir ∈ directory <$> farms) ->
     Q (opened cp mp permits pool idx farms) s') ->
  wp (open_farms x idx cp mp permits pool farms) Q
    (exists i d, farms !! i = Some d /\ ~ farm_safe cp mp permits pool (idx + i) d) s.
Proof.
  induction farms as [|d farms IH]; intros idx s Q Hinv HQ.
  { apply wp_ret, HQ; [done|done|]. intros _ dir. cbn. set_solver. }
  cbn [open_farms]. apply wp_bind.
  eapply wp_panics; [apply (wp_Farm_new idx cp mp permits pool d l s _ Hinv)|].
  - intros e He. rewrite opened_cons, He in HQ. by apply HQ.
  - intros f sdf s1 Hsdf Hinv1 Hfr1 Hfi1 Hdir Hhold. rewrite opened_cons, Hsdf in HQ.
    apply wp_bind, (wp_insert_farm _ _ _ _ _ _ Hinv1 Hhold); [by repeat constructor|]. intros s2 Hinv2 Hfr2 Hfi2.
    apply wp_bind. eapply wp_panics; [apply (IH (S idx) s2 _ Hinv2)|].
    + intros s3 Hinv3 Hfr3 Hdom.
      assert (Hfr : frame s s3) by (do 2 (etransitivity; [done|]); done).
      destruct (opened cp mp permits pool (S idx) farms) as [sdfs|e] eqn:Ho; cbn in *.
      * refine (HQ s3 Hinv3 Hfr _). intros _ dir. rewrite Hdom by done.
        rewrite Hfi2, Hfi1, Hdir, lookup_insert_is_Some, elem_of_cons. cbn.
        destruct (decide (directory d = dir)) as [->|]; [tauto|]. naive_solver.
      * by apply HQ.
    + intros (i & d' & Hl & Hs). exists (S i), d'. by rewrite Nat.add_succ_r.
  - intros Hs. exists 0%nat, d. by rewrite Nat.add_0_r.
Qed.

(** The destructors of a farmer with [n] farms, in the order of registration. *)
Definition farmer_entries (n : nat) : list farmer_entry :=
  [EAsync PiecesCacheWorker; ESync FarmerPieceCacheSlot; EAsync PlottingDelayTask;
   ESync ReadersAndPiecesSlot; EAsync FarmsDriver] ++ ((fun i => EItem (OnSectorPlotted i)) <$> seq 0 n).

Lemma wp_listen_to_all l (sdfs : list (SingleDiskFarm Reader Sector FarmId)) : forall idx s
    (Q : result FarmerBuildError unit -> build_state Cache RP D -> Prop) P,
  inv [] l s ->
  (forall s', inv [] l s' -> same_slots (bs_world s) (bs_world s') ->
     bs_farm_info s' = bs_farm_info s ->
     sector_plotting_handler_ids s' =
       sector_plotting_handler_ids s ++ (OnSectorPlotted <$> seq idx (length sdfs)) -> Q (Ok tt) s') ->
  wp (listen_to_all idx sdfs) Q P s.
Proof.
  induction sdfs as [|f sdfs IH]; intros idx s Q P Hinv HQ.
  { apply wp_ret, HQ; [done|done|done|]. by rewrite app_nil_r. }
  cbn [listen_to_all]. apply wp_bind, wp_modify. apply IH.
  - destruct Hinv as [Hset Hfarms Hh Hr]. split; cbn; [done|done| |done].
    intros h. rewrite !elem_of_app, list_elem_of_singleton. intros [Hin| ->]; [|set_solver].
    destruct (Hh h Hin) as [?|[?|[?|?]]]; auto.
  - intros s' Hinv' Hsl Hfi Hids. apply HQ; [done|done|done|].
    rewrite Hids. cbn. by rewrite <-app_assoc.
Qed.

Lemma wp_keep_handler_ids (ids : list handler) : forall l s
    (Q : result FarmerBuildError unit -> build_state Cache RP D -> Prop) P,
  inv [] l s -> (forall h, h ∈ sector_plotting_handler_ids s -> EItem h ∈ l \/ h ∈ ids) ->
  (forall s', inv [] (l ++ (EItem <$> ids)) s' -> same_slots (bs_world s) (bs_world s') ->
     bs_farm_info s' = bs_farm_info s -> sector_plotting_handler_ids s' = [] -> Q (Ok tt) s') ->
  wp (keep_handler_ids ids) Q P s.
Proof.
  induction ids as [|h ids IH]; intros l s Q P [Hset Hfarms Hh Hr] Hids HQ; cbn [keep_handler_ids].
  - apply wp_modify, HQ; [|done..]. rewrite app_nil_r. split; cbn; [done|done| |done].
    intros h Hin. destruct (Hh h Hin) as [?|[Hin'|[?|?]]]; [auto| |auto|auto].
    destruct (Hids h Hin'); set_solver.
  - apply wp_bind. destruct (td_holds_item _ _ _ h Hset) as [Hok Hset'].
    unfold wp at 1, add_destructor. destruct (td_add_item h (bs_destructors s)) as [d [[]|e]];
      cbn in *; [|done].
    apply (IH (l ++ [EItem h])); cbn.
    + split; cbn; [done|done| |].
      * intros h' Hin. destruct (Hh h' Hin) as [?|[?|[?|?]]]; set_solver.
      * intros t Hin. apply elem_of_app. auto.
    + intros h' Hin. destruct (Hids h' Hin); set_solver.
    + intros s'. rewrite <-app_assoc. apply HQ.
Qed.

(** Nothing outside the repository fails or panics. *)
Record externals_ok (cfg : Config) (cp : Z) (farms : list FarmDescription)
    (app_max pool : Z) : Prop := {
  ok_buckets : 1 < NUM_S_BUCKETS x;
  ok_erasure n : ErasureCoding_new x n = Ok tt;
  ok_app_info : farmer_app_info x 0 = Ok app_max;
  ok_app_info_last : is_ok (farmer_app_info x (S (length farms))) = true;
  ok_manager l : create_plotting_thread_pool_manager x l = Ok tt;
  ok_pool : farming_pool_size (cpu_cores x) cfg (all_cpu_cores x) = Ret pool;
  ok_farms i d : farms !! i = Some d ->
    farm_safe cp (default app_max (max_pieces_in_sector cfg))
      (downloading_permits cfg (thread_pool_core_indices x (plotting_thread_pool_size cfg)
                                  (sector_encoding_concurrency cfg))) pool i d;
  ok_sectors o i f : SingleDiskFarm_new x o i = Ok f ->
    Z.of_nat (length (sdf_plotted_sectors f)) + 1 < 2 ^ x_sector_index_width x;
}.

Definition opened_farms (cfg : Config) (cp app_max pool : Z) (farms : list FarmDescription) :=
  opened cp (default app_max (max_pieces_in_sector cfg))
    (downloading_permits cfg (thread_pool_core_indices x (plotting_thread_pool_size cfg)
                                (sector_encoding_concurrency cfg))) pool 0 farms.

Definition sources_of (sdfs : list (SingleDiskFarm Reader Sector FarmId)) :=
  (fun f => (sdf_reader f, sdf_plotted_sectors f)) <$> sdfs.

(** The table of a farmer: every readable sector of every farm. *)
Definition table_of (sdfs : list (SingleDiskFarm Reader Sector FarmId)) : RP :=
  add_all (plotted_of (snd <$> sources_of sdfs)) (rp_new (fst <$> sources_of sdfs)).

(** What an early return leaves behind in the locals, and what success does. *)
Definition body_post (farms : list FarmDescription) w (r : result FarmerBuildError Z) s : Prop :=
  exists l, inv [] l s /\
  match r with
  | Err e =>
      farmer_readers_and_pieces (bs_world s) = farmer_readers_and_pieces w /\
      (ESync ReadersAndPiecesSlot ∉ l) /\
      ((farmer_piece_cache (bs_world s) = farmer_piece_cache w /\ (ESync FarmerPieceCacheSlot ∉ l)) \/
       (ESync FarmerPieceCacheSlot ∈ l /\ (256 < length farms)%nat))
  | Ok _ =>
      l = farmer_entries (length farms) /\ sector_plotting_handler_ids s = [] /\
      farmer_piece_cache (bs_world s) = Some (FarmerPieceCache_new x) /\ (length farms <= 256)%nat /\
      exists sdfs, length sdfs = length farms /\ farmer_readers_and_pieces (bs_world s) = Some (table_of sdfs)
  end.

(** The result when nothing outside fails: the first farm that cannot be opened,
    then the limit of 256 farms. *)
Definition body_verdict (cfg : Config) (cp : Z) (farms : list FarmDescription)
    (r : result FarmerBuildError Z) s : Prop :=
  forall app_max pool, externals_ok cfg cp farms app_max pool ->
  match opened_farms cfg cp app_max pool farms with
  | Err e => r = Err e
  | Ok sdfs =>
      if decide (length farms <= 256)%nat then
        is_ok r = true /\
        farmer_piece_cache (bs_world s) = Some (FarmerPieceCache_new x) /\
        farmer_readers_and_pieces (bs_world s) = Some (table_of sdfs) /\
        forall dir, is_Some (bs_farm_info s !! dir) <-> dir ∈ directory <$> farms
      else r = Err (OtherBuildError too_many_farms)
  end.

Lemma opened_from cp mp permits pool farms : forall idx sdfs,
  opened cp mp permits pool idx farms = Ok sdfs ->
  Forall (fun f => exists o i, SingleDiskFarm_new x o i = Ok f) sdfs.
Proof.
  induction farms as [|d farms IH]; intros idx sdfs; [by intros [= <-]|].
  rewrite opened_cons. destruct (SingleDiskFarm_new x _ idx) eqn:Hd; [|done].
  destruct (opened _ _ _ _ (S idx) farms) eqn:Ho; cbn; [|done]. intros [= <-].
  constructor; [eauto|eauto].
Qed.

Lemma table_exact cfg cp farms app_max pool sdfs : externals_ok cfg cp farms app_max pool ->
  opened_farms cfg cp app_max pool farms = Ok sdfs ->
  create_readers_and_pieces (SDE := SingleDiskFarmError) (x_profile x) (x_sector_index_width x)
    (sources_of sdfs) =
  Ret (if decide (length farms <= 256)%nat then Ok (table_of sdfs)
       else Err (OtherBuildError too_many_farms)).
Proof.
  intros Hok Ho. rewrite create_readers_and_pieces_exact.
  - assert (Hlen : length (sources_of sdfs) = length farms).
    { unfold sources_of. rewrite length_fmap. apply (opened_length _ _ _ _ _ _ _ Ho). }
    by rewrite Hlen.
  - apply Forall_fmap. eapply Forall_impl; [apply (opened_from _ _ _ _ _ _ _ Ho)|].
    intros f (o & i & Hf). apply (ok_sectors _ _ _ _ _ Hok _ _ _ Hf).
Qed.

(** The part of the body that follows the opening of the farms. *)
Lemma wp_after_farms cfg cp farms app_max pool w s
    (sdfs : list (SingleDiskFarm Reader Sector FarmId)) :
  inv [] [EAsync PiecesCacheWorker] s -> same_slots w (bs_world s) ->
  sector_plotting_handler_ids s = [] ->
  (forall dir, is_Some (bs_farm_info s !! dir) <-> dir ∈ directory <$> farms) ->
  opened_farms cfg cp app_max pool farms = Ok sdfs ->
  (forall app_max' pool', externals_ok cfg cp farms app_max' pool' -> app_max' = app_max /\ pool' = pool) ->
  wp (_ ← act (set_cache (Some (FarmerPieceCache_new x)));
      _ ← add_destructor (td_add_sync FarmerPieceCacheSlot);
      _ ← act (spawn PlottingDelayTask);
      _ ← add_destructor (td_add_async PlottingDelayTask);
      readers_and_pieces_instance ← lift (create_readers_and_pieces (x_profile x)
        (x_sector_index_width x) (sources_of sdfs));
      _ ← act (set_readers (Some readers_and_pieces_instance));
      _ ← add_destructor (td_add_sync ReadersAndPiecesSlot);
      _ ← listen_to_all 0 sdfs;
      _ ← act (spawn FarmsDriver);
      _ ← add_destructor (td_add_async FarmsDriver);
      ids ← prog_get sector_plotting_handler_ids;
      _ ← keep_handler_ids ids;
      lift_outcome (expect_ok "Node is always reachable" (farmer_app_info x (S (length farms)))))
    (fun r s' => body_post farms w r s' /\ body_verdict cfg cp farms r s')
    (~ exists app_max pool, externals_ok cfg cp farms app_max pool) s.
Proof.
  intros Hinv [Hc Hr] Hids Hdom Ho Huniq.
  apply (wp_add_sync _ _ [EAsync PiecesCacheWorker]); [done|done|]. intros s1 Hinv1 Hw1 Hfi1 Hids1.
  apply (wp_add_async _ _ [EAsync PiecesCacheWorker; ESync FarmerPieceCacheSlot]); [done|done|].
  intros s2 Hinv2 [[Hc2 Hr2] Hids2] Hfi2. rewrite Hw1 in Hc2, Hr2. cbn in Hc2, Hr2.
  pose proof (opened_length _ _ _ _ _ _ _ Ho) as Hlen.
  apply wp_bind, wp_lift.
  2: { intros why Hp (am & pl & Hok). destruct (Huniq _ _ Hok) as [-> ->].
       rewrite (table_exact _ _ _ _ _ _ Hok Ho) in Hp. done. }
  intros [rp|e] Htable; cycle 1.
  { destruct (create_readers_and_pieces_Err _ _ _ _ Htable) as [-> Hmany].
    unfold sources_of in Hmany. rewrite length_fmap in Hmany. split.
    - eexists. split; [exact Hinv2|]. cbn. split; [congruence|]. split; [set_solver|].
      right. split; [set_solver|lia].
    - intros am pl Hok. destruct (Huniq _ _ Hok) as [-> ->]. rewrite Ho.
      by rewrite decide_False by lia. }
  apply (wp_add_sync _ _ [EAsync PiecesCacheWorker; ESync FarmerPieceCacheSlot;
                          EAsync PlottingDelayTask]); [done|done|]. intros s3 Hinv3 Hw3 Hfi3 Hids3.
  apply wp_bind, (wp_listen_to_all _ _ _ _ _ _ Hinv3). intros s4 Hinv4 [Hc4 Hr4] Hfi4 Hids4.
  rewrite Hw3 in Hc4, Hr4. cbn in Hc4, Hr4.
  rewrite Hids3, Hids2, Hids1, Hids in Hids4. cbn [app] in Hids4.
  apply (wp_add_async _ _ _ _ _ _ _ Hinv4 eq_refl). intros s5 Hinv5 [[Hc5 Hr5] Hids5] Hfi5.
  apply wp_bind, wp_get. rewrite Hids5, Hids4.
  apply wp_bind, (wp_keep_handler_ids _ _ _ _ _ Hinv5).
  { intros h Hin. right. by rewrite Hids5, Hids4 in Hin. }
  intros s6 Hinv6 [Hc6 Hr6] Hfi6 Hids6. apply wp_lift_outcome.
  2: { intros why Hp (am & pl & Hok). pose proof (ok_app_info_last _ _ _ _ _ Hok).
       by destruct (farmer_app_info x (S (length farms))). }
  intros last _. rewrite Hlen, <-list_fmap_compose in Hinv6.
  destruct (create_readers_and_pieces_Ok _ _ _ _ Htable) as [Hrp Hmany].
  unfold sources_of in Hmany. rewrite length_fmap, Hlen in Hmany. split.
  - exists (farmer_entries (length farms)). split; [exact Hinv6|]. split; [done|]. split; [done|].
    rewrite Hc6, Hc5, Hc4, Hc2, Hr6, Hr5, Hr4. split; [done|]. split; [done|].
    exists sdfs. by rewrite Hrp.
  - intros am pl Hok. destruct (Huniq _ _ Hok) as [-> ->].
    rewrite (table_exact _ _ _ _ _ _ Hok Ho) in Htable. rewrite Ho.
    case_decide; [|done]. injection Htable as <-. split; [done|]. clear Hrp.
    rewrite Hc6, Hc5, Hc4, Hc2, Hr6, Hr5, Hr4, Hfi6, Hfi5, Hfi4, Hfi3, Hfi2, Hfi1. done.
Qed.

Lemma erasure_scale_Ret cfg cp farms app_max pool :
  externals_ok cfg cp farms app_max pool -> exists n, erasure_coding_scale x = Ret n.
Proof.
  intros Hok. unfold erasure_coding_scale. rewrite decide_True; [by eexists|].
  apply Z.log2_up_pos, (ok_buckets _ _ _ _ _ Hok).
Qed.

Lemma wp_build_body cfg cp farms w :
  handlers w = [] -> running w = [] ->
  wp (build_body x cfg cp farms)
    (fun r s' => body_post farms w r s' /\ body_verdict cfg cp farms r s')
    (~ exists app_max pool, externals_ok cfg cp farms app_max pool)
    (mkBuildState w (td_new "farmer-destructors") ∅ []).
Proof.
  intros Hw1 Hw2. set (s0 := mkBuildState w (td_new "farmer-destructors") ∅ []).
  assert (Hinv0 : inv [] [] s0).
  { split; cbn; [apply td_holds_new|by intros ? ?; rewrite lookup_empty|rewrite Hw1|rewrite Hw2];
      set_solver. }
  unfold build_body. apply wp_bind, wp_lift_outcome.
  2: { intros why Hp (am & pl & Hok). destruct (erasure_scale_Ret _ _ _ _ _ Hok). congruence. }
  intros scale _. apply wp_bind, wp_lift_result.
  destruct (ErasureCoding_new x scale) as [[]|e] eqn:Hec; cycle 1.
  { cbn. split; [by exists []; split; [|set_solver]|].
    intros am pl Hok. by rewrite (ok_erasure _ _ _ _ _ Hok) in Hec. }
  apply (wp_add_async _ _ [] _ _ _ _ Hinv0 eq_refl). cbn [app]. intros s1 Hinv1 [Hsl1 Hids1] Hfi1.
  apply wp_bind, wp_lift_outcome.
  2: { intros why Hp (am & pl & Hok). by rewrite (ok_app_info _ _ _ _ _ Hok) in Hp. }
  intros app_max Happ. apply wp_bind, wp_lift_result.
  assert (Hearly : forall e, body_post farms w (Err e) s1).
  { intros e. exists [EAsync PiecesCacheWorker]. split; [done|]. destruct Hsl1 as [Hc1 Hr1].
    rewrite Hc1, Hr1. set_solver. }
  match goal with |- context [create_plotting_thread_pool_manager x ?l] =>
    destruct (create_plotting_thread_pool_manager x l) as [[]|e] eqn:Hman end; cycle 1.
  { split; [apply Hearly|]. intros am pl Hok. by rewrite (ok_manager _ _ _ _ _ Hok) in Hman. }
  apply wp_bind, wp_lift_outcome.
  2: { intros why Hp (am & pl & Hok). by rewrite (ok_pool _ _ _ _ _ Hok) in Hp. }
  intros pool Hpool.
  assert (Huniq : forall am pl, externals_ok cfg cp farms am pl -> am = app_max /\ pl = pool).
  { intros am pl Hok. pose proof (ok_app_info _ _ _ _ _ Hok) as Ha.
    pose proof (ok_pool _ _ _ _ _ Hok) as Hp. destruct (farmer_app_info x 0); cbn in Happ; split; congruence. }
  apply wp_bind. eapply wp_panics; [apply (wp_open_farms _ _ _ _ _ _ 0 s1 _ Hinv1)|].
  - intros s2 Hinv2 [Hsl2 Hids2] Hdom. fold (opened_farms cfg cp app_max pool farms) in *.
    assert (Hsl : same_slots w (bs_world s2)).
    { destruct Hsl1, Hsl2. split; etransitivity; done. }
    destruct (opened_farms cfg cp app_max pool farms) as [sdfs|e] eqn:Ho.
    + apply (wp_after_farms cfg cp farms app_max pool w s2 sdfs); [done|done| | |done|done].
      * by rewrite Hids2, Hids1.
      * intros dir. rewrite Hdom by done. rewrite Hfi1. cbn. rewrite lookup_empty.
        split; [intros [[? ?]|?]; done|auto].
    + split.
      * exists [EAsync PiecesCacheWorker]. split; [done|]. destruct Hsl as [Hc Hr].
        rewrite Hc, Hr. set_solver.
      * intros am pl Hok. destruct (Huniq _ _ Hok) as [-> ->]. by rewrite Ho.
  - intros (i & d & Hl & Hs) (am & pl & Hok). destruct (Huniq _ _ Hok) as [-> ->].
    by apply Hs, (ok_farms _ _ _ _ _ Hok).
Qed.
End build_facts.

(** ** Properties *)

Section farmer_properties.
Context {Cache RP Reader Sector PieceIndex Piece CoreSet FarmId D : Type} {Ch : Type -> Type}.
Context `{ReadersAndPiecesApi RP Reader Sector PieceIndex Piece}.
Context `{TeardownLaws D slot task handler} `{Mpsc Ch}.
Variable x : externals Cache Reader Sector CoreSet FarmId.
Implicit Types (w : world Cache RP) (s : build_state Cache RP D).

(** Nothing of this farmer is running yet (or any more). *)
Definition idle w : Prop := handlers w = [] /\ running w = [].

(** The handlers and the driver of a farmer rely on the table being in its
    slot, the plotting-delay task on the cache being registered. *)
Definition attached w : Prop :=
  (forall i, OnSectorPlotted i ∈ handlers w -> is_Some (farmer_readers_and_pieces w)) /\
  (FarmsDriver ∈ running w -> is_Some (farmer_readers_and_pieces w)) /\
  (PlottingDelayTask ∈ running w -> is_Some (farmer_piece_cache w)).

Lemma farms_list_ok extra l s : inv extra l s -> Forall farm_ok (map_to_list (bs_farm_info s)).*2.
Proof.
  intros Hinv. apply Forall_forall. intros f ([dir f'] & -> & Hin)%list_elem_of_fmap.
  apply elem_of_map_to_list in Hin. apply (inv_farms _ _ _ Hinv _ _ Hin).
Qed.

Lemma elem_farms dir (f : Farm D) s :
  bs_farm_info s !! dir = Some f -> f ∈ (map_to_list (bs_farm_info s)).*2.
Proof. intros Hf. apply list_elem_of_fmap. exists (dir, f). by rewrite elem_of_map_to_list. Qed.

Lemma drop_entries_in (l : list farmer_entry) e (ws : list farmer_event) :
  e ∈ l -> drop_entry e ∈ ws ++ (drop_entry <$> reverse l).
Proof.
  intros He. apply elem_of_app. right. apply list_elem_of_fmap. exists e. by rewrite elem_of_reverse.
Qed.

Lemma no_sync_event (l : list farmer_entry) sl (ws : list farmer_event) :
  Forall (fun e => exists n, e = WarnedNotAsyncDropped n) ws -> (ESync sl ∉ l) ->
  RanSync sl ∉ ws ++ (drop_entry <$> reverse l).
Proof.
  intros Hws Hl Hin. apply elem_of_app in Hin as [Hin|Hin].
  - rewrite Forall_forall in Hws. by apply Hws in Hin as [? ?].
  - apply list_elem_of_fmap in Hin as ([f|a|i] & He & Hin); [|done..].
    injection He as ->. by rewrite elem_of_reverse in Hin.
Qed.

(** What outlives the handler ids and the farms is registered in the set. *)
Lemma locals_dropped l s : inv [] l s ->
  exists w2, drop_farms (map_to_list (bs_farm_info s)).*2
      (destruct_events (DroppedItem <$> sector_plotting_handler_ids s) (bs_world s)) = Ret w2 /\
    same_slots (bs_world s) w2 /\
    (forall h, h ∈ handlers w2 -> EItem h ∈ l) /\ (forall t, t ∈ running w2 -> EAsync t ∈ l).
Proof.
  intros Hinv. set (w1 := destruct_events (DroppedItem <$> sector_plotting_handler_ids s) (bs_world s)).
  destruct (drop_farms_spec _ w1 (farms_list_ok _ _ _ Hinv)) as (w2 & Hw2 & [Hc Hr] & Ht & Hh).
  exists w2. split; [done|]. split; [|split].
  - split; [rewrite Hc; apply cache_kept|rewrite Hr; apply readers_kept];
      intros (h & ? & ?)%list_elem_of_fmap; done.
  - intros h. rewrite Hh. unfold w1. rewrite handlers_after. intros [[Hin Hids] Hfarms].
    destruct (inv_handlers _ _ _ Hinv h Hin) as [?%elem_of_nil|[Hi|[Hi|(dir & f & Hf & Ho)]]]; [done| |done|].
    + exfalso. apply Hids, list_elem_of_fmap. eauto.
    + by destruct (Hfarms f (elem_farms _ _ _ Hf)).
  - intros t. rewrite Ht. unfold w1. rewrite running_after. intros [Hin _]. by apply (inv_running _ _ _ Hinv).
Qed.

(** Everything still running after an early return is ended by dropping the locals. *)
Lemma early_return l s : inv [] l s ->
  exists w2 es w3,
    drop_farms (map_to_list (bs_farm_info s)).*2
      (destruct_events (DroppedItem <$> sector_plotting_handler_ids s) (bs_world s)) = Ret w2 /\
    td_drop (bs_destructors s) = Ret es /\ w3 = destruct_events es w2 /\ idle w3 /\
    same_slots (bs_world s) w2 /\
    (forall e, e ∈ l -> drop_entry e ∈ es) /\ (forall sl, (ESync sl ∉ l) -> RanSync sl ∉ es).
Proof.
  intros Hinv. destruct (locals_dropped _ _ Hinv) as (w2 & Hw2 & Hslots & Hh & Ht).
  destruct (td_drop_runs _ _ _ (inv_set _ _ _ Hinv)) as (ws & Hdrop & Hws).
  exists w2, (ws ++ (drop_entry <$> reverse l)), (destruct_events (ws ++ (drop_entry <$> reverse l)) w2).
  split; [done|]. split; [done|]. split; [done|]. split; [|split; [|split]].
  - split; apply elem_of_nil_inv.
    + intros h. rewrite handlers_after. intros [Hin Hl].
      by apply Hl, (drop_entries_in l (EItem h)), Hh.
    + intros t. rewrite running_after. intros (Hin & _ & Hl).
      by apply Hl, (drop_entries_in l (EAsync t)), Ht.
  - done.
  - intros e. apply drop_entries_in.
  - intros sl. by apply no_sync_event.
Qed.

Lemma build_Err cfg reward_address node_name cp farms w w' e :
  idle w ->
  build (Ch := Ch) x cfg reward_address node_name cp farms w = Ret (w', Err e) ->
  idle w' /\ farmer_readers_and_pieces w' = farmer_readers_and_pieces w /\
  (farmer_piece_cache w' = farmer_piece_cache w \/
   farmer_piece_cache w' = None /\ (256 < length farms)%nat).
Proof.
  intros [Hw1 Hw2]. unfold build. destruct farms as [|d farms]; [intros [= <- <-]; split; [done|]; split; [done|]; by left|].
  pose proof (wp_build_body x cfg cp (d :: farms) w Hw1 Hw2) as Hwp. unfold wp in Hwp.
  destruct (build_body x cfg cp (d :: farms) _) as [[s [m|e']]|why]; cbn; [done| |done].
  destruct Hwp as [(l & Hinv & Hr & Hnr & Hc) _].
  destruct (early_return _ _ Hinv) as (w2 & es & w3 & Hf & Hd & Hw3 & Hidle & [Hc2 Hr2] & Hin & Hno).
  rewrite Hf. cbn. unfold drop_set_in. rewrite Hd. cbn. intros [= <- <-]. rewrite <-Hw3.
  split; [done|]. rewrite Hw3. split.
  - rewrite readers_kept by by apply Hno. congruence.
  - destruct Hc as [[Hc Hnc]|[Hc Hmany]].
    + left. rewrite cache_kept by by apply Hno. congruence.
    + right. split; [|done]. apply cache_cleared. by apply (Hin (ESync FarmerPieceCacheSlot)).
Qed.

(** C4: a farmer that cannot be built leaves nothing behind: whatever fails,
    every handler it registered is gone and every task it started is told to
    stop, the readers-and-pieces slot of the node is as it was, and so is the
    piece-cache slot, unless the failure is the limit of 256 farms, which is
    only noticed after the cache was registered and leaves that slot empty. *)
Theorem farmer_build_failure_cleans_up cfg reward_address node_name cp farms w w' e :
  idle w ->
  build (Ch := Ch) x cfg reward_address node_name cp farms w = Ret (w', Err e) ->
  idle w' /\ farmer_readers_and_pieces w' = farmer_readers_and_pieces w /\
  (farmer_piece_cache w' = farmer_piece_cache w \/
   farmer_piece_cache w' = None /\ (256 < length farms)%nat).
Proof. apply build_Err. Qed.

Lemma take_app_cons {A} k (l1 : list A) a l2 :
  (exists k', take k (l1 ++ a :: l2) = take k' l1) \/
  (exists l, take k (l1 ++ a :: l2) = l1 ++ a :: l).
Proof.
  rewrite take_app. destruct (decide (k <= length l1)%nat) as [Hk|Hk].
  - left. exists k. replace (k - length l1)%nat with 0%nat by lia. by rewrite app_nil_r.
  - right. destruct (k - length l1)%nat as [|j] eqn:Hj; [lia|]. cbn.
    exists (take j l2). by rewrite take_ge by lia.
Qed.

(** What [close] runs, in order. *)
Definition close_events (n : nat) : list farmer_event :=
  (DroppedItem <$> (OnSectorPlotted <$> reverse (seq 0 n))) ++
  [AwaitedAsync FarmsDriver; RanSync ReadersAndPiecesSlot; AwaitedAsync PlottingDelayTask;
   RanSync FarmerPieceCacheSlot; AwaitedAsync PiecesCacheWorker].

Lemma run_farmer_entries n : run_entry <$> reverse (farmer_entries n) = close_events n.
Proof.
  unfold farmer_entries, close_events. rewrite reverse_app, fmap_app, <-!fmap_reverse,
    <-!list_fmap_compose. f_equal.
Qed.

Lemma close_events_items n h : DroppedItem h ∈ close_events n <->
  exists i, h = OnSectorPlotted i /\ (i < n)%nat.
Proof.
  unfold close_events. rewrite elem_of_app, list_elem_of_fmap. setoid_rewrite list_elem_of_fmap.
  setoid_rewrite elem_of_reverse. setoid_rewrite elem_of_seq. split.
  - intros [(h' & [= ->] & i & -> & Hi)|Hin]; [exists i; split; [done|lia]|set_solver].
  - intros (i & -> & Hi). left. exists (OnSectorPlotted i). split; [done|]. exists i. split; [done|lia].
Qed.

Lemma not_in_take {A} (a : A) k l : (a ∉ l) -> a ∉ take k l.
Proof. intros Hl Hin. apply Hl. rewrite <-(take_drop k l). apply elem_of_app. by left. Qed.

(** At every moment of the shutdown, what still runs finds what it needs. *)
Lemma close_attached n w k :
  is_Some (farmer_piece_cache w) -> is_Some (farmer_readers_and_pieces w) ->
  (forall i, OnSectorPlotted i ∈ handlers w -> (i < n)%nat) ->
  attached (destruct_events (take k (close_events n)) w).
Proof.
  intros Hc Hr Hn. set (items := (DroppedItem <$> (OnSectorPlotted <$> reverse (seq 0 n)) : list farmer_event)).
  set (tl := [AwaitedAsync PlottingDelayTask; RanSync FarmerPieceCacheSlot;
              AwaitedAsync PiecesCacheWorker] : list farmer_event).
  assert (Hitems : forall sl, RanSync sl ∉ items).
  { intros sl (h & ? & _)%list_elem_of_fmap. done. }
  assert (Hreaders : forall a : farmer_event, a ∈ items ++ [AwaitedAsync FarmsDriver] ->
    a ∉ take k (close_events n) ->
    is_Some (farmer_readers_and_pieces (destruct_events (take k (close_events n)) w))).
  { intros a Ha Hnot.
    assert (Heq : close_events n =
      (items ++ [AwaitedAsync FarmsDriver]) ++ RanSync ReadersAndPiecesSlot :: tl).
    { unfold close_events. by rewrite <-app_assoc. }
    rewrite Heq in *. destruct (take_app_cons k (items ++ [AwaitedAsync FarmsDriver])
      (RanSync ReadersAndPiecesSlot) tl) as [[k' ->]|[l Htake]].
    - rewrite readers_kept; [done|]. apply not_in_take. specialize (Hitems ReadersAndPiecesSlot).
      set_solver.
    - rewrite Htake in Hnot. set_solver. }
  split; [|split].
  - intros i [Hin Hnot]%handlers_after. apply (Hreaders (DroppedItem (OnSectorPlotted i))); [|done].
    apply elem_of_app. left. apply list_elem_of_fmap. exists (OnSectorPlotted i). split; [done|].
    apply list_elem_of_fmap. exists i. split; [done|]. rewrite elem_of_reverse, elem_of_seq.
    specialize (Hn _ Hin). lia.
  - intros (Hin & Hnot & _)%running_after. apply (Hreaders (AwaitedAsync FarmsDriver)); [set_solver|done].
  - intros (Hin & Hnot & _)%running_after.
    assert (Heq : close_events n = (items ++ [AwaitedAsync FarmsDriver; RanSync ReadersAndPiecesSlot;
      AwaitedAsync PlottingDelayTask]) ++ [RanSync FarmerPieceCacheSlot; AwaitedAsync PiecesCacheWorker]).
    { unfold close_events. by rewrite <-app_assoc. }
    rewrite Heq in *.
    destruct (take_app_cons k (items ++ [AwaitedAsync FarmsDriver; RanSync ReadersAndPiecesSlot;
      AwaitedAsync PlottingDelayTask]) (RanSync FarmerPieceCacheSlot) [AwaitedAsync PiecesCacheWorker])
      as [[k' ->]|[l Htake]].
    + rewrite cache_kept; [done|]. apply not_in_take. specialize (Hitems FarmerPieceCacheSlot). set_solver.
    + rewrite Htake in Hnot. set_solver.
Qed.

(** A farmer that was built, as the node and the example programs find it. *)
Record built_farmer (n : nat) (f : Farmer FarmId D Ch) w : Prop := {
  bf_set : td_holds (Farmer_destructors f) true (farmer_entries n);
  bf_farms : Forall farm_ok (map_to_list (Farmer_farm_info f)).*2;
  bf_handlers h : h ∈ handlers w -> (exists i, h = OnSectorPlotted i /\ (i < n)%nat) \/
    exists farm, farm ∈ (map_to_list (Farmer_farm_info f)).*2 /\ owns_farm farm h;
  bf_running t : t ∈ running w -> EAsync t ∈ farmer_entries n;
}.

Lemma farmer_entries_item n h : EItem h ∈ farmer_entries n <->
  exists i, h = OnSectorPlotted i /\ (i < n)%nat.
Proof.
  rewrite <-close_events_items, <-run_farmer_entries, list_elem_of_fmap. split.
  - intros Hin. exists (EItem h). by rewrite elem_of_reverse.
  - intros ([f|a|i] & He & Hin); [done..|]. injection He as ->. by rewrite elem_of_reverse in Hin.
Qed.

Lemma inv_built n s f : inv [] (farmer_entries n) s -> sector_plotting_handler_ids s = [] ->
  Farmer_destructors f = bs_destructors s -> Farmer_farm_info f = bs_farm_info s ->
  built_farmer n f (bs_world s).
Proof.
  intros Hinv Hids Ed Ef. split; rewrite ?Ed, ?Ef.
  - apply (inv_set _ _ _ Hinv).
  - apply (farms_list_ok _ _ _ Hinv).
  - intros h Hin. destruct (inv_handlers _ _ _ Hinv _ Hin) as [?%elem_of_nil|[Hi'|[Hi'|(dir & f' & Hf & Ho)]]].
    + done.
    + rewrite Hids in Hi'. by apply elem_of_nil in Hi'.
    + left. by apply farmer_entries_item.
    + right. exists f'. split; [by eapply elem_farms|done].
  - apply (inv_running _ _ _ Hinv).
Qed.

Lemma build_Ok cfg reward_address node_name cp farms w w1 f :
  idle w -> build (Ch := Ch) x cfg reward_address node_name cp farms w = Ret (w1, Ok f) ->
  built_farmer (length farms) f w1 /\ (length farms <= 256)%nat /\
  farmer_piece_cache w1 = Some (FarmerPieceCache_new x) /\
  exists sdfs : list (SingleDiskFarm Reader Sector FarmId),
    length sdfs = length farms /\ farmer_readers_and_pieces w1 = Some (table_of sdfs).
Proof.
  intros [Hw1 Hw2]. unfold build. destruct farms as [|d farms]; [done|].
  pose proof (wp_build_body x cfg cp (d :: farms) w Hw1 Hw2) as Hwp. unfold wp in Hwp.
  destruct (build_body x cfg cp (d :: farms) _) as [[s [m|e']]|why]; cbn -[length]; [| |done]; cycle 1.
  { destruct (drop_farms _ _); cbn; [|done]. by destruct (drop_set_in _ _). }
  destruct Hwp as [(l & Hinv & -> & Hids & Hc & Hmany & Hr) _]. intros [= <- <-].
  split; [by apply inv_built|done].
Qed.

Lemma built_async_drop n f w joined : (forall t, joined t = true) -> built_farmer n f w ->
  td_async_drop joined (Farmer_destructors f) = Ret (Some (close_events n, Ok tt)).
Proof.
  intros Hjoined Hf. rewrite <-run_farmer_entries. apply td_async_drop_runs; [apply (bf_set _ _ _ Hf)|].
  apply Forall_forall. intros [] _; cbn; auto; apply Hjoined.
Qed.

(** A plotting handler of a built farmer is one of its [n]. *)
Lemma built_sector_handler n f w i : built_farmer n f w ->
  OnSectorPlotted i ∈ handlers w -> (i < n)%nat.
Proof.
  intros Hf Hin. destruct (bf_handlers _ _ _ Hf _ Hin) as [(i' & [= <-] & Hi)|(farm & Hfarm & Ho)]; [done|].
  pose proof (bf_farms _ _ _ Hf) as Hfarms. rewrite Forall_forall in Hfarms.
  by destruct (owns_farm_other _ _ i (Hfarms _ Hfarm) Ho).
Qed.

Lemma built_subset n f w w' : built_farmer n f w ->
  (forall h, h ∈ handlers w' -> h ∈ handlers w) -> (forall t, t ∈ running w' -> t ∈ running w) ->
  built_farmer n f w'.
Proof. intros [Hs Hf Hh Hr] Hhs Hrs. by split; auto. Qed.

(** After the destructors, dropping the farms leaves nothing of the farmer. *)
Lemma built_torn_down n f w : built_farmer n f w ->
  (forall h, h ∈ handlers w -> DroppedItem h ∉ close_events n) ->
  (forall t, t ∈ running w -> AwaitedAsync t ∉ close_events n) ->
  exists w2, drop_farms (map_to_list (Farmer_farm_info f)).*2 w = Ret w2 /\ idle w2 /\ same_slots w w2.
Proof.
  intros Hf Hh1 Hr1. destruct (drop_farms_spec _ w (bf_farms _ _ _ Hf)) as (w2 & -> & Hsl & Ht & Hh).
  exists w2. split; [done|]. split; [|done]. split; apply elem_of_nil_inv.
  - intros h. rewrite Hh. intros [Hin Hfarms].
    destruct (bf_handlers _ _ _ Hf _ Hin) as [(i & -> & Hi)|(farm & Hfarm & Ho)].
    + apply (Hh1 _ Hin), close_events_items. eauto.
    + by apply (Hfarms farm Hfarm).
  - intros t. rewrite Ht. intros Hin. apply (Hr1 _ Hin). rewrite <-run_farmer_entries.
    apply list_elem_of_fmap. exists (EAsync t). rewrite elem_of_reverse. split; [done|].
    by apply (bf_running _ _ _ Hf).
Qed.

(** C2: closing a farmer that was built ends everything it started and empties
    both slots, and the result is the one of the farms; at every moment of the
    shutdown the plotting handlers and the farm driver that are not ended yet
    find the readers-and-pieces table in its slot, and the plotting-delay task
    finds the cache in its own. *)
Theorem farmer_build_then_close cfg reward_address node_name cp farms w w1 f joined
    (results : Ch (farm_message FarmId string)) :
  idle w -> (forall t, joined t = true) ->
  build (Ch := Ch) x cfg reward_address node_name cp farms w = Ret (w1, Ok f) ->
  (exists es, td_async_drop joined (Farmer_destructors f) = Ret (Some (es, Ok tt)) /\
     forall k, attached (destruct_events (take k es) w1)) /\
  exists w2, close joined f results w1 = Ret (Some (w2, Farmer_close (Ok tt) results)) /\
    idle w2 /\ farmer_piece_cache w2 = None /\ farmer_readers_and_pieces w2 = None.
Proof.
  intros Hw Hjoined Hb. destruct (build_Ok _ _ _ _ _ _ _ _ Hw Hb) as (Hf & _ & Hc & sdfs & _ & Hr).
  set (n := length farms) in *. pose proof (built_async_drop _ _ _ _ Hjoined Hf) as Hasync. split.
  - exists (close_events n). split; [done|]. intros k.
    apply close_attached; [by rewrite Hc|by rewrite Hr|]. intros i. by apply (built_sector_handler _ _ _ _ Hf).
  - unfold close. rewrite Hasync. cbn [mbind outcome_bind].
    destruct (built_torn_down n f (destruct_events (close_events n) w1)) as (w2 & -> & Hidle & Hc2 & Hr2).
    + apply (built_subset _ _ _ _ Hf); [intros h; rewrite handlers_after|intros t; rewrite running_after]; tauto.
    + intros h. rewrite handlers_after. tauto.
    + intros t. rewrite running_after. tauto.
    + exists w2. split; [done|]. split; [done|]. rewrite Hc2, Hr2.
      split; [apply cache_cleared|apply readers_cleared]; unfold close_events; set_solver.
Qed.

(** What a build relies on: the code outside the repository answers without
    errors, all sizes fit in 64 bits, the cache percentage is at most 100 and no
    farm has so many sectors that their counter overflows. *)
Record outside_ok (cfg : Config) (cp : Z) (farms : list FarmDescription) (app_max : Z) (set : CoreSet)
    : Prop := {
  out_buckets : 1 < NUM_S_BUCKETS x;
  out_erasure n : ErasureCoding_new x n = Ok tt;
  out_app_info : farmer_app_info x 0 = Ok app_max;
  out_app_info_later i : (i <= S (length farms))%nat -> is_ok (farmer_app_info x i) = true;
  out_manager l : create_plotting_thread_pool_manager x l = Ok tt;
  out_cores : head (all_cpu_cores x) = Some set;
  out_percentage : 1 <= cp <= 100;
  out_pledged d : d ∈ farms -> in_u 64 (space_pledged d);
  out_files : 0 <= identity_file_size x /\ 0 <= known_peers_file_size x /\
    2 * 1024 * 1024 + identity_file_size x + known_peers_file_size x < 2 ^ 64;
  out_sector_size : let m := default app_max (max_pieces_in_sector cfg) in
    0 < sector_size x m + sector_metadata_size x < 2 ^ 64;
  out_plotted o i f : SingleDiskFarm_new x o i = Ok f ->
    in_u 64 (sdf_plotted_sectors_count f) /\
    Z.of_nat (length (sdf_plotted_sectors f)) + 1 < 2 ^ x_sector_index_width x;
}.

(** The size of the farming thread pool: the configured one, or the first set of cores. *)
Definition pool_of (cfg : Config) (set : CoreSet) : Z :=
  default (Z.of_nat (length (cpu_cores x set))) (farming_thread_pool_size cfg).

Lemma outside_externals cfg cp farms app_max set : outside_ok cfg cp farms app_max set ->
  externals_ok x cfg cp farms app_max (pool_of cfg set).
Proof.
  intros [Hb He Ha Hal Hm Hcores Hp Hpl (Hf1 & Hf2 & Hf3) Hs Hplot]. split; [done|done|done| |done| | |].
  - by apply Hal.
  - unfold farming_pool_size, pool_of. rewrite Hcores. by destruct (farming_thread_pool_size cfg).
  - intros i d Hd. pose proof (lookup_lt_Some _ _ _ Hd). split; [apply Hal; lia|]. split.
    + eexists. apply target_sector_count_Ret; [done|done|done| |done|done].
      by apply Hpl, (list_elem_of_lookup_2 _ i).
    + intros f Hf. by apply (Hplot _ _ _ Hf).
  - intros o i f Hf. by apply (Hplot _ _ _ Hf).
Qed.

(** C9: when the code outside the SDK does not fail ([outside_ok]: apart from
    opening the farms every call succeeds, all sizes fit in 64 bits, the cache
    percentage is between 1 and 100, and each farm has fewer sectors than the
    counter of sectors holds), building a farmer returns the error
    of the first farm that cannot be opened, or refuses more than 256 farms;
    otherwise it succeeds, with the node's slots holding the piece cache and
    the table of all readable sectors, and one farm per directory. *)
Theorem farmer_build_result cfg reward_address node_name cp farms w app_max set :
  idle w -> outside_ok cfg cp farms app_max set -> farms <> [] ->
  exists w' r, build (Ch := Ch) x cfg reward_address node_name cp farms w = Ret (w', r) /\
  match opened_farms x cfg cp app_max (pool_of cfg set) farms with
  | Err e => r = Err e
  | Ok sdfs =>
      if decide (length farms <= 256)%nat then
        exists f, r = Ok f /\
        farmer_piece_cache w' = Some (FarmerPieceCache_new x) /\
        farmer_readers_and_pieces w' = Some (table_of sdfs) /\
        forall dir, is_Some (Farmer_farm_info f !! dir) <-> dir ∈ directory <$> farms
      else r = Err (OtherBuildError too_many_farms)
  end.
Proof.
  intros [Hw1 Hw2] Hok%outside_externals Hne. unfold build. destruct farms as [|d farms]; [done|].
  pose proof (wp_build_body x cfg cp (d :: farms) w Hw1 Hw2) as Hwp. unfold wp in Hwp.
  destruct (build_body x cfg cp (d :: farms) _) as [[s r]|why]; cbn [mbind outcome_bind]; cycle 1.
  { exfalso. apply Hwp. eauto. }
  destruct Hwp as [(l & Hinv & _) Hv]. specialize (Hv app_max (pool_of cfg set) Hok).
  destruct r as [m|e].
  - eexists _, _. split; [done|]. revert Hv. destruct (opened_farms _ _ _ _ _ _); [|done].
    case_decide; [|done]. intros Hv. destruct Hv as (_ & Hc & Hr & Hd). eexists. split; [done|]. done.
  - destruct (early_return _ _ Hinv) as (w2 & es & w3 & Hf & Hd & _). rewrite Hf.
    cbn [mbind outcome_bind]. unfold drop_set_in. rewrite Hd. cbn [mbind outcome_bind].
    eexists _, _. split; [done|]. revert Hv.
    destruct (opened_farms _ _ _ _ _ _); [|by intros [= ->]].
    case_decide; [by intros [? _]|by intros [= ->]].
Qed.
End farmer_properties.

(** ** Witnesses *)

Section demo.

(** Farm number 1 does not open when less than 1000 bytes are pledged to it. *)
Definition demo_externals : externals string unit Z (list Z) nat :=
  mkExternals Release 16 65536 (fun _ => Ok tt) (fun _ => Ok 1000)
    (fun _ _ => [[0; 1; 2; 3]]) id (fun n l => take n l) [[0; 1; 2; 3]] (fun _ => Ok tt) "cache"
    (fun o i => if decide (i = 1%nat /\ o_allocated_space o < 1000)
                then Err (InsufficientAllocatedSpace 1000 (o_allocated_space o))
                else Ok (mkSingleDiskFarm i tt [Ok 7; Err "unreadable"; Ok 9] 3))
    100 100 (fun _ => 1000) 8.

Definition demo_config : Config := configuration Builder_default.
Definition demo_world : world string (list (Z * Z)) := mkWorld None None [] [].

Lemma farmer_build_failure_cleans_up_witness :
  exists w, build (D := DestructorSet slot task handler) (Ch := Queue) demo_externals demo_config
    "owner" "node" 10 [mkFarmDescription "a" 5000000; mkFarmDescription "b" 10] demo_world =
    Ret (w, Err (SingleDiskFarmCreate (InsufficientSpaceForFarm 1000 10))) /\
  idle w /\ farmer_readers_and_pieces w = None.
Proof.
  eexists. split; [vm_compute; reflexivity|].
  pose proof (farmer_build_failure_cleans_up (D := DestructorSet slot task handler) (Ch := Queue)
    demo_externals demo_config "owner" "node" 10
    [mkFarmDescription "a" 5000000; mkFarmDescription "b" 10] demo_world) as Hthm.
  refine (let 'conj H1 (conj H2 _) := Hthm _ _ (conj eq_refl eq_refl) _ in conj H1 H2).
  vm_compute. reflexivity.
Defined.

Lemma farmer_build_then_close_witness :
  exists w f w2, build (D := DestructorSet slot task handler) (Ch := Queue) demo_externals demo_config
    "owner" "node" 10 [mkFarmDescription "a" 5000000; mkFarmDescription "b" 5000000] demo_world =
    Ret (w, Ok f) /\
  farmer_readers_and_pieces w = Some [(0, 7); (0, 9); (1, 7); (1, 9)] /\
  close (fun _ => true) f (ch_new 256) w = Ret (Some (w2, Ok tt)) /\
  idle w2 /\ farmer_piece_cache w2 = None /\ farmer_readers_and_pieces w2 = None.
Proof.
  eexists _, _. refine (
    let Hthm := farmer_build_then_close (D := DestructorSet slot task handler) (Ch := Queue)
      demo_externals demo_config "owner" "node" 10
      [mkFarmDescription "a" 5000000; mkFarmDescription "b" 5000000] demo_world _ _ (fun _ => true)
      (ch_new 256) (conj eq_refl eq_refl) (fun _ => eq_refl) _ in _).
  Unshelve. all: try (vm_compute; reflexivity).
  destruct Hthm as [_ (w2 & Hw2 & Hrest)]. exists w2.
  split; [vm_compute; reflexivity|]. split; [vm_compute; reflexivity|]. split; [exact Hw2|exact Hrest].
Defined.

Lemma farmer_build_result_witness :
  exists w r, build (D := DestructorSet slot task handler) (Ch := Queue) demo_externals demo_config
    "owner" "node" 10 [mkFarmDescription "a" 5000000; mkFarmDescription "b" 10] demo_world = Ret (w, r) /\
  r = Err (SingleDiskFarmCreate (InsufficientSpaceForFarm 1000 10)).
Proof.
  refine (farmer_build_result (D := DestructorSet slot task handler) (Ch := Queue)
    demo_externals demo_config "owner" "node" 10
    [mkFarmDescription "a" 5000000; mkFarmDescription "b" 10] demo_world 1000 [0; 1; 2; 3]
    (conj eq_refl eq_refl) _ _); [|discriminate].
  split; try reflexivity.
  - lia.
  - intros d Hd. repeat (apply elem_of_cons in Hd as [->|Hd]; [split; [cbn; lia|reflexivity]|]).
    by apply elem_of_nil in Hd.
  - split; [discriminate|]. split; [discriminate|reflexivity].
  - split; reflexivity.
  - intros o i f. cbn [SingleDiskFarm_new demo_externals]. case_decide; intros [= <-].
    (split; [split; [discriminate|reflexivity]|reflexivity]).
Defined.
End demo.
