(* ===== verification/Building.v ===== *)
(** [Config::build] of the farmer, step by step (farmer/src/lib.rs 403-746).

    While a farmer is built the node serves requests and the cache worker runs,
    so what the slots hold changes between two steps of the build, and the build
    itself changes them in the middle: it registers the cache before it collects
    the readers and pieces.  [build_steps] cuts the body of [build] at these
    points; running its pieces without interruption is [build_body]
    ([build_steps_finish]).  What every interleaving guarantees is proved by
    rely and guarantee ([build_interleaved]). *)
From S2P Require Import Prelude Destructors Teardown Tasks Plotting Pieces FarmDriver Farmer.

#[local] Open Scope Z_scope.

Section building.
Context {Cache RP Reader Sector PieceIndex Piece CoreSet FarmId D : Type} {Ch : Type -> Type}.
Context `{ReadersAndPiecesApi RP Reader Sector PieceIndex Piece}.
Context `{TeardownApi D slot task handler} `{Mpsc Ch}.
Variable x : externals Cache Reader Sector CoreSet FarmId.

Abbreviation State := (build_state Cache RP D).
Abbreviation building A := (steps State FarmerBuildError A).
Abbreviation Opened := (SingleDiskFarm Reader Sector FarmId).

(** Opening one farm and handing it over to [farm_info]. *)
Definition open_farm (idx : nat) (cache_percentage max_pieces permits pool_size : Z)
    (description : FarmDescription) : prog State FarmerBuildError Opened :=
  opened ← Farm_new x idx cache_percentage max_pieces permits pool_size description;
  _ ← insert_farm opened.1;
  mret opened.2.

Fixpoint open_farms_steps {A} (idx : nat) (cache_percentage max_pieces permits pool_size : Z)
    (farms : list FarmDescription) (k : list Opened -> building A) : building A :=
  match farms with
  | [] => k []
  | description :: farms' =>
      pause (open_farm idx cache_percentage max_pieces permits pool_size description) (fun sdf =>
      open_farms_steps (S idx) cache_percentage max_pieces permits pool_size farms' (fun sdfs =>
      k (sdf :: sdfs)))
  end.

(** Starting something and registering what ends it. *)
Definition launch (t : task) : prog State FarmerBuildError unit :=
  _ ← act (spawn t); _ ← add_destructor (td_add_async t); mret tt.
Definition fill_slot (sl : slot) (f : world Cache RP -> world Cache RP) : prog State FarmerBuildError unit :=
  _ ← act f; _ ← add_destructor (td_add_sync sl); mret tt.

Fixpoint listen_steps {A} (idx : nat) (sdfs : list Opened) (k : building A) : building A :=
  match sdfs with
  | [] => k
  | _ :: sdfs' => pause (listen_to idx) (fun _ => listen_steps (S idx) sdfs' k)
  end.

Definition start_farming : prog State FarmerBuildError unit :=
  scale ← lift_outcome (erasure_coding_scale x);
  _ ← lift_result (map_err erasure_coding_error (ErasureCoding_new x scale));
  launch PiecesCacheWorker.

(** The numbers the farms are opened with. *)
Definition farm_parameters (cfg : Config) : prog State FarmerBuildError (Z * Z * Z) :=
  app_max ← lift_outcome (expect_ok "Node is always reachable" (farmer_app_info x 0));
  let max_pieces := default app_max (max_pieces_in_sector cfg) in
  let plotting := thread_pool_core_indices x (plotting_thread_pool_size cfg)
                    (sector_encoding_concurrency cfg) in
  let replotting := replotting_thread_pool_core_indices (thread_pool_core_indices x)
                      (cpu_cores x) (truncate x) cfg in
  let permits := downloading_permits cfg plotting in
  _ ← lift_result (map_err ThreadPoolError
        (create_plotting_thread_pool_manager x (zip plotting replotting)));
  pool_size ← lift_outcome (farming_pool_size (cpu_cores x) cfg (all_cpu_cores x));
  mret (max_pieces, permits, pool_size).

(** From the table on. *)
Definition table_steps (farms : list FarmDescription) (sdfs : list Opened) : building Z :=
  pause (lift (create_readers_and_pieces (x_profile x) (x_sector_index_width x)
    ((fun f => (sdf_reader f, sdf_plotted_sectors f)) <$> sdfs))) (fun readers_and_pieces_instance =>
  pause (fill_slot ReadersAndPiecesSlot (set_readers (Some readers_and_pieces_instance))) (fun _ =>
  listen_steps 0 sdfs (
  pause (launch FarmsDriver) (fun _ =>
  pause (ids ← prog_get sector_plotting_handler_ids; keep_handler_ids ids) (fun _ =>
  pause (lift_outcome (expect_ok "Node is always reachable" (farmer_app_info x (S (length farms)))))
    Completed))))).

(** From the farms on. *)
Definition farms_steps (cache_percentage : Z) (farms : list FarmDescription) (parameters : Z * Z * Z) : building Z :=
  let '(max_pieces, permits, pool_size) := parameters in
  open_farms_steps 0 cache_percentage max_pieces permits pool_size farms (fun sdfs =>
  pause (fill_slot FarmerPieceCacheSlot (set_cache (Some (FarmerPieceCache_new x)))) (fun _ =>
  pause (launch PlottingDelayTask) (fun _ =>
  table_steps farms sdfs))).

Definition build_steps (cfg : Config) (cache_percentage : Z) (farms : list FarmDescription) : building Z :=
  pause start_farming (fun _ => pause (farm_parameters cfg) (farms_steps cache_percentage farms)).

(** The locals at the beginning. *)
Definition begun (w : world Cache RP) : State := mkBuildState w (td_new "farmer-destructors") ∅ [].

(** Leaving [build] early, by an error, or because its future is dropped or
    unwinds: the handler ids and the farms are dropped at once; the destructor
    set is dropped last and runs the events that are returned. *)
Definition leave (s : State) : outcome (world Cache RP * list farmer_event) :=
  w ← drop_farms (map_to_list (bs_farm_info s)).*2
        (destruct_events (DroppedItem <$> sector_plotting_handler_ids s) (bs_world s));
  es ← td_drop (bs_destructors s);
  Ret (w, es).

(** What [build] returns. *)
Definition farmer_of (reward_address node_name : string) (app_max : Z) (s : State) : Farmer FarmId D Ch :=
  mkFarmer reward_address (bs_farm_info s) result_channel node_name app_max (bs_destructors s).

(** ** The steps, without interruption, are the build *)

Lemma finish_open_farms {A} cp mp permits pool farms (k : list Opened -> building A) : forall idx s,
  run_steps (open_farms_steps idx cp mp permits pool farms k) s =
  (sdfs ← open_farms x idx cp mp permits pool farms; run_steps (k sdfs)) s.
Proof.
  revert k. induction farms as [|d farms IH]; intros k idx s; [done|].
  cbn [open_farms_steps open_farms]. rewrite run_steps_pause. unfold open_farm. rewrite !prog_bind_assoc.
  apply prog_bind_ext; [done|]. intros opened s1. rewrite !prog_bind_assoc.
  apply prog_bind_ext; [done|]. intros _ s2. rewrite prog_bind_assoc. apply IH.
Qed.

Lemma finish_listen {A} sdfs (k : building A) : forall idx s,
  run_steps (listen_steps idx sdfs k) s = (_ ← listen_to_all idx sdfs; run_steps k) s.
Proof.
  induction sdfs as [|sdf sdfs IH]; intros idx s; [done|]. cbn [listen_steps listen_to_all].
  rewrite run_steps_pause, prog_bind_assoc. apply prog_bind_ext; [done|]. intros _ s1. apply IH.
Qed.

Lemma launch_bind {B} t (k : unit -> prog State FarmerBuildError B) s :
  (launch t ≫= k) s = (_ ← act (spawn t); _ ← add_destructor (td_add_async t); k tt) s.
Proof.
  unfold launch. rewrite prog_bind_assoc. apply prog_bind_ext; [done|]. intros _ s1.
  by rewrite prog_bind_assoc.
Qed.

Lemma finish_launch {A} t (k : unit -> building A) (k' : prog State FarmerBuildError A) s :
  (forall s, run_steps (k tt) s = k' s) ->
  run_steps (pause (launch t) k) s = (_ ← act (spawn t); _ ← add_destructor (td_add_async t); k') s.
Proof.
  intros Hk. rewrite run_steps_pause, launch_bind.
  apply prog_bind_ext; [done|]. intros _ s1. apply prog_bind_ext; [done|]. intros _ s2. apply Hk.
Qed.

Lemma finish_fill_slot {A} sl f (k : unit -> building A) (k' : prog State FarmerBuildError A) s :
  (forall s, run_steps (k tt) s = k' s) ->
  run_steps (pause (fill_slot sl f) k) s = (_ ← act f; _ ← add_destructor (td_add_sync sl); k') s.
Proof.
  intros Hk. rewrite run_steps_pause. unfold fill_slot. rewrite prog_bind_assoc.
  apply prog_bind_ext; [done|]. intros _ s1. rewrite prog_bind_assoc.
  apply prog_bind_ext; [done|]. intros _ s2. apply Hk.
Qed.

Lemma finish_table farms sdfs s :
  run_steps (table_steps farms sdfs) s =
  (readers_and_pieces_instance ← lift (create_readers_and_pieces (x_profile x) (x_sector_index_width x)
     ((fun f => (sdf_reader f, sdf_plotted_sectors f)) <$> sdfs));
   _ ← act (set_readers (Some readers_and_pieces_instance));
   _ ← add_destructor (td_add_sync ReadersAndPiecesSlot);
   _ ← listen_to_all 0 sdfs;
   _ ← act (spawn FarmsDriver);
   _ ← add_destructor (td_add_async FarmsDriver);
   ids ← prog_get sector_plotting_handler_ids;
   _ ← keep_handler_ids ids;
   lift_outcome (expect_ok "Node is always reachable" (farmer_app_info x (S (length farms))))) s.
Proof.
  unfold table_steps. rewrite run_steps_pause. apply prog_bind_ext; [done|]. clear s. intros rp s.
  apply finish_fill_slot. clear s. intros s. rewrite finish_listen.
  apply prog_bind_ext; [done|]. clear s. intros _ s. apply finish_launch. clear s. intros s.
  rewrite run_steps_pause, prog_bind_assoc. apply prog_bind_ext; [done|]. clear s. intros ids s.
  apply prog_bind_ext; [done|]. clear s. intros _ s. rewrite run_steps_pause.
  unfold mbind, prog_bind. by destruct (lift_outcome _ s) as [[s' [m|e]]|why].
Qed.

Lemma build_steps_finish cfg cp farms s :
  run_steps (build_steps cfg cp farms) s = build_body x cfg cp farms s.
Proof.
  unfold build_steps, build_body. rewrite run_steps_pause. unfold start_farming. rewrite prog_bind_assoc.
  apply prog_bind_ext; [done|]. clear s. intros scale s. rewrite prog_bind_assoc.
  apply prog_bind_ext; [done|]. clear s. intros _ s. rewrite launch_bind.
  apply prog_bind_ext; [done|]. clear s. intros _ s.
  apply prog_bind_ext; [done|]. clear s. intros _ s.
  cbv beta. rewrite run_steps_pause. unfold farm_parameters. rewrite prog_bind_assoc.
  apply prog_bind_ext; [done|]. clear s. intros app_max s. rewrite prog_bind_assoc.
  apply prog_bind_ext; [done|]. clear s. intros _ s. rewrite prog_bind_assoc.
  apply prog_bind_ext; [done|]. clear s. intros pool s.
  refine (eq_trans (finish_open_farms _ _ _ _ _ _ _ _) _).
  apply prog_bind_ext; [done|]. clear s. intros sdfs s. apply finish_fill_slot. clear s. intros s.
  apply finish_launch. clear s. intros s. apply finish_table.
Qed.
(** [build] is its steps without interruption. *)
Lemma build_as_steps cfg reward_address node_name cp farms w : farms <> [] ->
  build x cfg reward_address node_name cp farms w =
  ('(s, r) ← run_steps (build_steps cfg cp farms) (begun w);
   match r with
   | Ok app_max => Ret (bs_world s, Ok (farmer_of reward_address node_name app_max s))
   | Err e => '(w', es) ← leave s; Ret (destruct_events es w', Err e)
   end).
Proof.
  intros Hne. rewrite build_steps_finish. unfold build, begun. destruct farms as [|d farms]; [done|].
  destruct (build_body _ _ _ _ _) as [[s [m|e]]|why]; cbn; [done| |done].
  unfold leave, drop_set_in. destruct (drop_farms _ _) as [w1|why]; cbn; [|done].
  by destruct (td_drop (bs_destructors s)).
Qed.
End building.

(** ** What every interleaving guarantees *)

Section interleaving.
Context {Cache RP Reader Sector PieceIndex Piece CoreSet FarmId D : Type} {Ch : Type -> Type}.
Context `{HApi : ReadersAndPiecesApi RP Reader Sector PieceIndex Piece} `{Countable Sector}.
Context {sector_piece : Sector -> PieceIndex -> option Piece}.
Context `{HLaws : !ReadersAndPiecesLaws RP Reader Sector PieceIndex Piece sector_piece}.
Context `{TeardownLaws D slot task handler} `{Mpsc Ch}.
Variable x : externals Cache Reader Sector CoreSet FarmId.
(** The number of farms. *)
Variable n : nat.

Abbreviation State := (build_state Cache RP D).
Abbreviation building A := (steps State FarmerBuildError A).
Abbreviation Opened := (SingleDiskFarm Reader Sector FarmId).
Implicit Types (s : State).

(** Others replace the contents of filled slots. *)
Record rely s s' : Prop := {
  rely_destructors : bs_destructors s' = bs_destructors s;
  rely_farms : bs_farm_info s' = bs_farm_info s;
  rely_ids : sector_plotting_handler_ids s' = sector_plotting_handler_ids s;
  rely_handlers : handlers (bs_world s') = handlers (bs_world s);
  rely_running : running (bs_world s') = running (bs_world s);
  rely_cache : is_Some (farmer_piece_cache (bs_world s')) <-> is_Some (farmer_piece_cache (bs_world s));
  rely_readers :
    is_Some (farmer_readers_and_pieces (bs_world s')) <-> is_Some (farmer_readers_and_pieces (bs_world s));
}.

#[export] Instance rely_refl : Reflexive rely.
Proof. intros s. by split. Qed.
#[export] Instance rely_trans : Transitive rely.
Proof. intros s1 s2 s3 [] []. split; [congruence..|tauto|tauto]. Qed.

(** The farms of a table are numbered by one byte. *)
Definition table_bounded (rp : RP) : Prop := forall k sector, (k, sector) ∈ rp_sectors rp -> in_u 8 k.

(** What the build does to the slots: nothing, or it registers the cache, or,
    when the cache is registered, a table. *)
Inductive guar s s' : Prop :=
| guar_quiet : same_slots (bs_world s) (bs_world s') -> guar s s'
| guar_cache :
    farmer_piece_cache (bs_world s) = None -> farmer_readers_and_pieces (bs_world s) = None ->
    is_Some (farmer_piece_cache (bs_world s')) -> farmer_readers_and_pieces (bs_world s') = None -> guar s s'
| guar_table rp :
    is_Some (farmer_piece_cache (bs_world s)) ->
    farmer_piece_cache (bs_world s') = farmer_piece_cache (bs_world s) ->
    farmer_readers_and_pieces (bs_world s) = None -> farmer_readers_and_pieces (bs_world s') = Some rp ->
    table_bounded rp -> guar s s'.

(** How far the build has come: [l] is registered and [ids] are collected; a
    slot is filled iff its destructor is registered. *)
Record stage (l : list farmer_entry) (ids : list handler) s : Prop := {
  stage_inv : inv [] l s;
  stage_ids : sector_plotting_handler_ids s = ids;
  stage_cache : is_Some (farmer_piece_cache (bs_world s)) <-> ESync FarmerPieceCacheSlot ∈ l;
  stage_readers : is_Some (farmer_readers_and_pieces (bs_world s)) <-> ESync ReadersAndPiecesSlot ∈ l;
}.

Record admissible (l : list farmer_entry) (ids : list handler) : Prop := {
  adm_prefix : l `prefix_of` farmer_entries n;
  adm_ids h : h ∈ ids -> exists i, h = OnSectorPlotted i /\ (i < n)%nat;
  adm_table : ids <> [] -> ESync ReadersAndPiecesSlot ∈ l;
  adm_few : ESync ReadersAndPiecesSlot ∈ l -> (n <= 256)%nat;
}.

Definition safe s : Prop := exists l ids, stage l ids s /\ admissible l ids.

Abbreviation interleaved := (interleaved rely guar safe).

Lemma stage_rely l ids s s' : stage l ids s -> rely s s' -> stage l ids s'.
Proof.
  intros [[Hset Hf Hh Hr] Hids Hc Ht] [Ed Ef Ei Eh Er Ec Et].
  split; [split; rewrite ?Ed, ?Ef, ?Ei, ?Eh, ?Er; auto|congruence|by rewrite Ec|by rewrite Et].
Qed.

(** A piece that fails without having done anything, or leads on. *)
Lemma interleaved_piece {A B} (m : prog State FarmerBuildError B) (k : B -> building A) (Q : A -> State -> Prop) l ids s :
  stage l ids s -> admissible l ids ->
  (forall s', stage l ids s' ->
     wp m (fun r s2 => match r with Ok b => guar s' s2 /\ interleaved (k b) Q s2 | Err _ => s2 = s' end) True s') ->
  interleaved (pause m k) Q s.
Proof.
  intros Hst Hadm Hm. apply interleaved_pause. intros s' Hrely.
  pose proof (stage_rely _ _ _ _ Hst Hrely) as Hst'. split; [by exists l, ids|by apply Hm].
Qed.

(** Registered entries that leave the slots alone. *)
Lemma stage_quiet l l' ids s s' : stage l ids s -> inv [] (l ++ l') s' -> frame s s' ->
  (forall sl, ESync sl ∉ l') -> stage (l ++ l') ids s'.
Proof.
  intros [_ Hids Hc Ht] Hinv [[Ec Et] Ei] Hno.
  split; [done|congruence|rewrite Ec, Hc|rewrite Et, Ht];
    (split; [intros ?; apply elem_of_app; auto|intros [?|Hin]%elem_of_app; [done|by apply Hno in Hin]]).
Qed.

Lemma interleaved_launch {A} t (k : unit -> building A) Q l ids s :
  stage l ids s -> admissible l ids ->
  (forall s', stage (l ++ [EAsync t]) ids s' -> interleaved (k tt) Q s') ->
  interleaved (pause (launch t) k) Q s.
Proof.
  intros Hst Hadm Hk. apply (interleaved_piece _ _ _ _ _ _ Hst Hadm). intros s' Hst'.
  apply (wp_add_async _ _ _ _ _ _ _ (stage_inv _ _ _ Hst') eq_refl). intros s2 Hinv2 Hfr Hfi.
  apply wp_ret. split; [apply guar_quiet, Hfr|]. apply Hk.
  apply (stage_quiet _ _ _ _ _ Hst' Hinv2 Hfr). set_solver.
Qed.

(** A step that only computes. *)
Lemma interleaved_pure {A B} (m : prog State FarmerBuildError B) (k : B -> building A) Q l ids s :
  stage l ids s -> admissible l ids ->
  (forall s', wp m (fun r s2 => s2 = s' /\ match r with Ok b => forall s, stage l ids s -> interleaved (k b) Q s | Err _ => True end) True s') ->
  interleaved (pause m k) Q s.
Proof.
  intros Hst Hadm Hm. apply (interleaved_piece _ _ _ _ _ _ Hst Hadm). intros s' Hst'.
  eapply wp_mono; [apply Hm| |done]. intros [b|e] s2 [-> Hk]; [|done].
  split; [by apply guar_quiet|]. by apply Hk.
Qed.

Lemma interleaved_open_farms {A} cp mp permits pool farms : forall idx (k : list Opened -> building A) Q s,
  stage [EAsync PiecesCacheWorker] [] s -> admissible [EAsync PiecesCacheWorker] [] ->
  (forall sdfs s', length sdfs = length farms -> stage [EAsync PiecesCacheWorker] [] s' ->
     interleaved (k sdfs) Q s') ->
  interleaved (open_farms_steps x idx cp mp permits pool farms k) Q s.
Proof.
  induction farms as [|d farms IH]; intros idx k Q s Hst Hadm Hk; cbn [open_farms_steps]; [by apply Hk|].
  apply (interleaved_piece _ _ _ _ _ _ Hst Hadm). intros s' Hst'. unfold open_farm. apply wp_bind.
  eapply wp_panics; [apply (wp_Farm_new x idx cp mp permits pool d _ s' _ (stage_inv _ _ _ Hst'))|done].
  - intros e _. done.
  - intros f sdf s1 _ Hinv1 Hfr1 _ _ Hhold.
    apply wp_bind, (wp_insert_farm _ _ _ _ _ _ Hinv1 Hhold); [by repeat constructor|]. intros s2 Hinv2 Hfr2 _.
    assert (Hfr : frame s' s2) by by etransitivity.
    apply wp_ret. split; [apply guar_quiet, Hfr|]. apply IH; [|done|].
    + apply (stage_quiet _ [] _ _ _ Hst'); [by rewrite app_nil_r|done|]. set_solver.
    + intros sdfs s3 Hlen Hst3. apply Hk; [cbn; congruence|done].
Qed.

Lemma listening_admissible l m : l `prefix_of` farmer_entries n -> ESync ReadersAndPiecesSlot ∈ l ->
  (n <= 256)%nat -> (m <= n)%nat -> admissible l (OnSectorPlotted <$> seq 0 m).
Proof.
  intros Hl Ht Hn Hm. split; [done| |done|done].
  intros h (i & -> & Hi%elem_of_seq)%list_elem_of_fmap. exists i. split; [done|lia].
Qed.

Lemma interleaved_listen {A} l (sdfs : list Opened) : l `prefix_of` farmer_entries n ->
  ESync ReadersAndPiecesSlot ∈ l -> (n <= 256)%nat -> forall idx (k : building A) Q s,
  (idx + length sdfs = n)%nat -> stage l (OnSectorPlotted <$> seq 0 idx) s ->
  (forall s', stage l (OnSectorPlotted <$> seq 0 n) s' -> interleaved k Q s') ->
  interleaved (listen_steps idx sdfs k) Q s.
Proof.
  intros Hl Ht Hn. induction sdfs as [|sdf sdfs IH]; intros idx k Q s Hidx Hst Hk; cbn [listen_steps].
  { apply Hk. cbn in Hidx. by replace n with idx by lia. }
  cbn in Hidx. apply (interleaved_piece _ _ _ _ _ _ Hst); [by apply listening_admissible; [..|lia]|]. intros s' Hst'.
  apply wp_modify. split; [by apply guar_quiet|].
  apply IH; [lia| |done]. destruct Hst' as [[Hset Hf Hh Hr] Hids Hc Hr'].
  rewrite seq_S, fmap_app. split; cbn; [|by rewrite Hids|done|done]. split; cbn; [done|done| |done].
  intros h. rewrite !elem_of_app, list_elem_of_singleton. intros [Hin| ->]; [|auto].
  destruct (Hh h Hin) as [?|[?|[?|?]]]; auto.
Qed.

(** What is registered before the plotting handlers. *)
Abbreviation tasks_entries := [EAsync PiecesCacheWorker; ESync FarmerPieceCacheSlot; EAsync PlottingDelayTask].

Abbreviation started_entries := (tasks_entries ++ [ESync ReadersAndPiecesSlot]).

Lemma prefix_admissible (l : list farmer_entry) : l `prefix_of` farmer_entries n ->
  (ESync ReadersAndPiecesSlot ∈ l -> (n <= 256)%nat) -> admissible l [].
Proof. intros Hl Hn. split; [done| |done|done]. by intros h ?%elem_of_nil. Qed.

(** The end: everything is registered. *)
Definition complete (m : Z) s : Prop := stage (farmer_entries n) [] s /\ (n <= 256)%nat.

(** Driving the farms and keeping the ids of the handlers. *)
Lemma interleaved_drive (farms : list FarmDescription) s : (n <= 256)%nat -> stage started_entries (OnSectorPlotted <$> seq 0 n) s ->
  interleaved (pause (launch FarmsDriver) (fun _ =>
    pause (ids ← prog_get sector_plotting_handler_ids; keep_handler_ids ids) (fun _ =>
    pause (lift_outcome (expect_ok "Node is always reachable" (farmer_app_info x (S (length farms)))))
      Completed))) complete s.
Proof.
  intros Hn Hst. apply (interleaved_launch _ _ _ _ _ _ Hst).
  { apply listening_admissible; [by eexists|set_solver|done|done]. }
  clear s Hst. intros s Hst. apply (interleaved_piece _ _ _ _ _ _ Hst).
  { apply listening_admissible; [by eexists|set_solver|done|done]. }
  clear s Hst. intros s Hst. apply wp_bind, wp_get.
  apply (wp_keep_handler_ids _ _ _ _ _ (stage_inv _ _ _ Hst)); [by auto|].
  intros s2 Hinv2 Hsl _ Hids2. split; [by apply guar_quiet|].
  assert (Hst2 : stage (farmer_entries n) [] s2).
  { destruct Hst as [_ Hids Hc Hr]. destruct Hsl as [Ec Er].
    rewrite Hids, <-list_fmap_compose in Hinv2. split; [exact Hinv2|done|rewrite Ec, Hc|rewrite Er, Hr];
      unfold farmer_entries; set_solver. }
  assert (Hadm : admissible (farmer_entries n) []) by by apply prefix_admissible.
  apply (interleaved_pure _ _ _ _ _ _ Hst2 Hadm). intros s3. apply wp_lift_outcome; [|done].
  intros m _. split; [done|]. intros s4 Hst4. apply interleaved_completed. intros s5 Hrely.
  pose proof (stage_rely _ _ _ _ Hst4 Hrely). split; [by eexists _, _|done].
Qed.

Lemma interleaved_table farms (sdfs : list Opened) s :
  length sdfs = n -> stage tasks_entries [] s -> interleaved (table_steps x farms sdfs) complete s.
Proof.
  intros Hlen Hst. unfold table_steps.
  apply (interleaved_pure _ _ _ _ _ _ Hst).
  { apply prefix_admissible; [by eexists|set_solver]. }
  clear s Hst. intros s. apply wp_lift; [|done]. intros [rp|e] Hrp; [|done]. split; [done|]. clear s. intros s Hst.
  destruct (create_readers_and_pieces_Ok _ _ _ _ Hrp) as [Htable Hn]. rewrite length_fmap, Hlen in Hn.
  assert (Hbound : table_bounded rp).
  { rewrite Htable. intros k sector. rewrite rp_sectors_add_all, rp_sectors_new, union_empty_r_L,
      elem_of_list_to_set. intros Hk%plotted_of_bound. rewrite !length_fmap in Hk. unfold in_u. lia. }
  apply (interleaved_piece _ _ _ _ _ _ Hst).
  { apply prefix_admissible; [by eexists|done]. }
  clear s Hst. intros s Hst. apply (wp_add_sync _ _ _ _ _ _ _ (stage_inv _ _ _ Hst)); [done|].
  intros s2 Hinv2 Hw2 _ Hids2. destruct Hst as [_ Hids Hc Ht]. apply wp_ret. split.
  { apply (guar_table _ _ rp); rewrite ?Hw2; cbn; [apply Hc; set_solver|done| |done|done].
    apply eq_None_not_Some. rewrite Ht. set_solver. }
  assert (Hst2 : stage started_entries [] s2).
  { split; [exact Hinv2|congruence|rewrite Hw2; cbn; rewrite Hc; set_solver|].
    rewrite Hw2. cbn. split; [set_solver|by eexists]. }
  apply (interleaved_listen started_entries); [by eexists|set_solver|done|done|done|].
  clear s s2 Hinv2 Hw2 Hids2 Hids Hc Ht Hst2. intros s Hst. by apply interleaved_drive.
Qed.

Lemma build_interleaved cfg cp farms w : length farms = n ->
  idle w -> farmer_piece_cache w = None -> farmer_readers_and_pieces w = None ->
  interleaved (build_steps x cfg cp farms) complete (begun w).
Proof.
  intros Hlen [Hi1 Hi2] Hc Hr.
  assert (Hst : stage [] [] (begun w)).
  { split; cbn; [|done|rewrite Hc|rewrite Hr]; [|split; [by intros []|by intros ?%elem_of_nil]..].
    split; cbn; [apply td_holds_new|by intros ? ?; rewrite lookup_empty|rewrite Hi1|rewrite Hi2]; set_solver. }
  unfold build_steps. apply (interleaved_piece _ _ _ _ _ _ Hst).
  { apply prefix_admissible; [by eexists|set_solver]. }
  clear Hst. intros s Hst. unfold start_farming. apply wp_bind, wp_lift_outcome; [|done]. intros scale _.
  apply wp_bind, wp_lift_result. destruct (ErasureCoding_new x scale) as [[]|e]; [|done].
  apply (wp_add_async _ _ _ _ _ _ _ (stage_inv _ _ _ Hst) eq_refl). intros s2 Hinv2 Hfr _.
  apply wp_ret. split; [apply guar_quiet, Hfr|].
  assert (Hst2 : stage [EAsync PiecesCacheWorker] [] s2).
  { apply (stage_quiet [] _ _ _ _ Hst Hinv2 Hfr). set_solver. }
  assert (Hadm : admissible [EAsync PiecesCacheWorker] []).
  { apply prefix_admissible; [by eexists|set_solver]. }
  clear s Hst Hinv2 Hfr. apply (interleaved_pure _ _ _ _ _ _ Hst2 Hadm). clear s2 Hst2. intros s.
  unfold farm_parameters. apply wp_bind, wp_lift_outcome; [|done]. intros app_max _.
  apply wp_bind, wp_lift_result. destruct (map_err _ _) as [[]|e]; [|done].
  apply wp_bind, wp_lift_outcome; [|done]. intros pool _. apply wp_ret. split; [done|]. clear s.
  intros s Hst. apply interleaved_open_farms; [done|done|].
  clear s Hst. intros sdfs s Hsdfs Hst.
  apply (interleaved_piece _ _ _ _ _ _ Hst Hadm). clear s Hst. intros s Hst.
  apply (wp_add_sync _ _ _ _ _ _ _ (stage_inv _ _ _ Hst)); [done|]. intros s2 Hinv2 Hw2 _ Hids2.
  destruct Hst as [_ Hids Hc2 Hr2]. apply wp_ret. split.
  { apply guar_cache; rewrite ?Hw2; cbn; [apply eq_None_not_Some; rewrite Hc2; set_solver
      |apply eq_None_not_Some; rewrite Hr2; set_solver|by eexists|apply eq_None_not_Some; rewrite Hr2; set_solver]. }
  assert (Hst2 : stage [EAsync PiecesCacheWorker; ESync FarmerPieceCacheSlot] [] s2).
  { split; [exact Hinv2|congruence| |rewrite Hw2; cbn; rewrite Hr2; set_solver].
    rewrite Hw2. cbn. split; [set_solver|by eexists]. }
  apply (interleaved_launch _ _ _ _ _ _ Hst2).
  { apply prefix_admissible; [by eexists|set_solver]. }
  clear s s2 Hinv2 Hw2 Hids2 Hids Hc2 Hr2 Hst2. intros s Hst. apply interleaved_table; [congruence|exact Hst].
Qed.
End interleaving.
