(* ===== verification/Substrate.v ===== *)
(** The abstraction over Substrate (substrate/src/types.rs and lib.rs): the
    configuration types with their conversions and presets, the owned builders
    the macros generate, and [Base::configuration].

    Addresses are their textual form.  Converting an address between the two
    libp2p versions goes through that form, so it is a parser, which is a
    parameter; so are the name generator and the chain specification, an
    interface of Substrate ([ChainSpecApi]). *)
From S2P Require Import Prelude.

#[local] Open Scope Z_scope.

(** ** Enums and their conversions *)

Inductive BlocksPruning := KeepAll | KeepFinalized | KeepSome (n : Z).
Inductive ScBlocksPruning := ScKeepAll | ScKeepFinalized | ScKeepSome (n : Z).

Definition BlocksPruning_from (value : ScBlocksPruning) : BlocksPruning :=
  match value with
  | ScKeepAll => KeepAll
  | ScKeepFinalized => KeepFinalized
  | ScKeepSome n => KeepSome n
  end.
Definition BlocksPruning_into (value : BlocksPruning) : ScBlocksPruning :=
  match value with
  | KeepAll => ScKeepAll
  | KeepFinalized => ScKeepFinalized
  | KeepSome n => ScKeepSome n
  end.

Record Constraints := mkConstraints { max_blocks : option Z }.
Record ScConstraints := mkScConstraints { sc_max_blocks : option Z }.
Definition Constraints_into (c : Constraints) : ScConstraints := mkScConstraints (max_blocks c).
Definition Constraints_from (c : ScConstraints) : Constraints := mkConstraints (sc_max_blocks c).

Inductive PruningMode := ArchiveAll | ArchiveCanonical | Constrained (c : Constraints).
Inductive ScPruningMode := ScArchiveAll | ScArchiveCanonical | ScConstrained (c : ScConstraints).

Definition PruningMode_into (value : PruningMode) : ScPruningMode :=
  match value with
  | ArchiveAll => ScArchiveAll
  | ArchiveCanonical => ScArchiveCanonical
  | Constrained c => ScConstrained (Constraints_into c)
  end.
Definition PruningMode_from (value : ScPruningMode) : PruningMode :=
  match value with
  | ScArchiveAll => ArchiveAll
  | ScArchiveCanonical => ArchiveCanonical
  | ScConstrained c => Constrained (Constraints_from c)
  end.

Inductive Role := Full | Authority.
Inductive ScRole := ScFull | ScAuthority.
Definition Role_into (value : Role) : ScRole :=
  match value with Full => ScFull | Authority => ScAuthority end.

Inductive RpcMethods := Auto | Safe | Unsafe.
Inductive ScRpcMethods := ScAuto | ScSafe | ScUnsafe.
Definition RpcMethods_into (value : RpcMethods) : ScRpcMethods :=
  match value with Auto => ScAuto | Safe => ScSafe | Unsafe => ScUnsafe end.

(** ** Storage monitor *)

(** A [Duration] is whole seconds, a u64, and nanoseconds. *)
Record Duration := mkDuration { as_secs : Z; subsec_nanos : Z }.
Record StorageMonitor := mkStorageMonitor { threshold : Z; polling_period : Duration }.
Record StorageMonitorParams := mkStorageMonitorParams { sc_threshold : Z; sc_polling_period : Z }.

Definition MIB : Z := 1048576.

Definition StorageMonitor_into (m : StorageMonitor) : StorageMonitorParams :=
  mkStorageMonitorParams (Z.max (threshold m / MIB) 1)
    (cast 32 (Z.max (as_secs (polling_period m)) 1)).

Definition MaxSubsPerConn_default : Z := 1024.

(** ** Offchain worker, RPC, network *)

Record OffchainWorker := mkOffchainWorker { enabled : bool; indexing_enabled : bool }.
Record OffchainWorkerBuilder := mkOffchainWorkerBuilder {
  ob_enabled : option bool;
  ob_indexing_enabled : option bool;
}.
Definition OffchainWorkerBuilder_default : OffchainWorkerBuilder := mkOffchainWorkerBuilder None None.
Definition OffchainWorkerBuilder_build (b : OffchainWorkerBuilder) : OffchainWorker :=
  mkOffchainWorker (default false (ob_enabled b)) (default false (ob_indexing_enabled b)).
Definition ow_enabled (v : bool) (b : OffchainWorkerBuilder) : OffchainWorkerBuilder :=
  mkOffchainWorkerBuilder (Some v) (ob_indexing_enabled b).

Definition OffchainWorkerBuilder_dev := OffchainWorkerBuilder_default.
Definition OffchainWorkerBuilder_gemini_3g := ow_enabled true OffchainWorkerBuilder_default.
Definition OffchainWorkerBuilder_devnet := ow_enabled true OffchainWorkerBuilder_default.

Record Rpc := mkRpc {
  addr : option string;
  port : option Z;
  max_connections : option Z;
  cors : option (list string);
  methods : RpcMethods;
  max_request_size : option Z;
  max_response_size : option Z;
  max_subs_per_conn : option Z;
}.

(** The setters of the first fields strip one [option]; the default of the
    others is [None] as well, so a builder is its fields. *)
Definition RpcBuilder_default : Rpc := mkRpc None None None None Auto None None None.

Definition RpcBuilder_dev : Rpc := RpcBuilder_default.

(** [local_test]: [127.0.0.1:port]. *)
Definition RpcBuilder_local_test (show : Z -> string) (p : Z) : Rpc :=
  mkRpc (Some (String.append "127.0.0.1:" (show p))) (Some p) (Some 100) None Auto
    (Some (10 * 1024)) (Some (10 * 1024)) (Some 100).

Definition hosted_cors : list string :=
  ["http://localhost:*"; "http://127.0.0.1:*"; "https://localhost:*"; "https://127.0.0.1:*";
   "https://polkadot.js.org"]%string.

Definition RpcBuilder_gemini_3g : Rpc :=
  mkRpc (Some "127.0.0.1:9944"%string) None None (Some hosted_cors) Auto None None None.
Definition RpcBuilder_devnet : Rpc :=
  mkRpc (Some "127.0.0.1:9944"%string) None None (Some hosted_cors) Auto None None None.

Record Network := mkNetwork {
  enable_mdns : bool;
  allow_private_ip : bool;
  allow_non_globals_in_dht : bool;
  listen_addresses : list string;
  boot_nodes : list string;
  force_synced : bool;
  name : option string;
  client_id : option string;
}.

Definition NetworkBuilder_default : Network := mkNetwork false false false [] [] false None None.
Definition NetworkBuilder_dev : Network := mkNetwork false true false [] [] true None None.
Definition substrate_listen : list string := ["/ip6/::/tcp/30333"; "/ip4/0.0.0.0/tcp/30333"]%string.
Definition NetworkBuilder_gemini_3g : Network :=
  mkNetwork true false false substrate_listen [] false None None.
Definition NetworkBuilder_devnet : Network :=
  mkNetwork true false false substrate_listen [] false None None.

(** ** Base *)

Record Base := mkBase {
  force_authoring : bool;
  role : Role;
  blocks_pruning : BlocksPruning;
  state_pruning : PruningMode;
  impl_name : string;
  impl_version : string;
  rpc : Rpc;
  network : Network;
  offchain_worker : OffchainWorker;
  informant_enable_color : bool;
  telemetry : list (string * Z);
  dev_key_seed : option string;
}.

(** [BaseBuilder]: what the setters were given. *)
Record BaseBuilder := mkBaseBuilder {
  bb_force_authoring : option bool;
  bb_role : option Role;
  bb_blocks_pruning : option BlocksPruning;
  bb_state_pruning : option PruningMode;
  bb_impl_name : option string;
  bb_impl_version : option string;
  bb_rpc : option Rpc;
  bb_network : option Network;
  bb_offchain_worker : option OffchainWorker;
  bb_informant_enable_color : option bool;
  bb_telemetry : option (list (string * Z));
  bb_dev_key_seed : option string;
}.

Definition BaseBuilder_default : BaseBuilder :=
  mkBaseBuilder None None None None None None None None None None None None.

(** The crate's [CARGO_PKG_NAME] and its version with the git hash. *)
Section base.
Variables (pkg_name pkg_version git_hash : string).

Definition ImplName_default : string := pkg_name.
Definition ImplVersion_default : string := String.append pkg_version (String.append "-" git_hash).

Definition BaseBuilder_build (b : BaseBuilder) : Base :=
  mkBase (default false (bb_force_authoring b)) (default Full (bb_role b))
    (default KeepAll (bb_blocks_pruning b)) (default ArchiveAll (bb_state_pruning b))
    (default ImplName_default (bb_impl_name b)) (default ImplVersion_default (bb_impl_version b))
    (default RpcBuilder_default (bb_rpc b)) (default NetworkBuilder_default (bb_network b))
    (default (OffchainWorkerBuilder_build OffchainWorkerBuilder_default) (bb_offchain_worker b))
    (default false (bb_informant_enable_color b)) (default [] (bb_telemetry b)) (bb_dev_key_seed b).

Definition Base_default : Base := BaseBuilder_build BaseBuilder_default.
End base.

(** One setter of [derive_base!], named by its field. *)
Inductive base_setter :=
| set_force_authoring (v : bool)
| set_role (v : Role)
| set_blocks_pruning (v : BlocksPruning)
| set_state_pruning (v : PruningMode)
| set_impl_name (v : string)
| set_impl_version (v : string)
| set_rpc (v : Rpc)
| set_network (v : Network)
| set_offchain_worker (v : OffchainWorkerBuilder)
| set_informant_enable_color (v : bool)
| set_telemetry (v : list (string * Z))
| set_dev_key_seed (v : string).

Definition derive_base (f : base_setter) (b : BaseBuilder) : BaseBuilder :=
  let '(mkBaseBuilder fa ro bp sp im iv rp nw ow co te dk) := b in
  match f with
  | set_force_authoring v => mkBaseBuilder (Some v) ro bp sp im iv rp nw ow co te dk
  | set_role v => mkBaseBuilder fa (Some v) bp sp im iv rp nw ow co te dk
  | set_blocks_pruning v => mkBaseBuilder fa ro (Some v) sp im iv rp nw ow co te dk
  | set_state_pruning v => mkBaseBuilder fa ro bp (Some v) im iv rp nw ow co te dk
  | set_impl_name v => mkBaseBuilder fa ro bp sp (Some v) iv rp nw ow co te dk
  | set_impl_version v => mkBaseBuilder fa ro bp sp im (Some v) rp nw ow co te dk
  | set_rpc v => mkBaseBuilder fa ro bp sp im iv (Some v) nw ow co te dk
  | set_network v => mkBaseBuilder fa ro bp sp im iv rp (Some v) ow co te dk
  | set_offchain_worker v =>
      mkBaseBuilder fa ro bp sp im iv rp nw (Some (OffchainWorkerBuilder_build v)) co te dk
  | set_informant_enable_color v => mkBaseBuilder fa ro bp sp im iv rp nw ow (Some v) te dk
  | set_telemetry v => mkBaseBuilder fa ro bp sp im iv rp nw ow co (Some v) dk
  | set_dev_key_seed v => mkBaseBuilder fa ro bp sp im iv rp nw ow co te (Some v)
  end.

(** A chain of setters, the leftmost first. *)
Definition derive_base_all (fs : list base_setter) (b : BaseBuilder) : BaseBuilder :=
  foldl (fun b f => derive_base f b) b fs.

(** ** [Base::configuration] *)

(** What [configuration] asks of a chain specification. *)
Class ChainSpecApi (CS TE : Type) := {
  cs_id : CS -> string;
  cs_boot_nodes : CS -> list string;
  cs_telemetry_endpoints : CS -> option TE;
}.

(** Telemetry endpoints and their JSON form (serde_json, sc-telemetry). *)
Class TelemetryApi (TE Json : Type) := {
  te_to_json : TE -> list Json;
  te_from_json : list Json -> option TE;
  extra_to_json : string * Z -> Json;
  te_new : list (string * Z) -> option TE;
}.

Record NetworkConfiguration := mkNetworkConfiguration {
  n_listen_addresses : list string;
  n_boot_nodes : list string;
  n_force_synced : bool;
  n_enable_mdns : bool;
  n_allow_private_ip : bool;
  n_allow_non_globals_in_dht : bool;
  n_node_name : string;
  n_client_version : string;
  n_node_key_file : string;
  n_net_config_path : string;
  n_out_peers : Z;
  n_in_peers : Z;
}.

Record Configuration (CS TE : Type) := mkConfiguration {
  c_impl_name : string;
  c_impl_version : string;
  c_network : NetworkConfiguration;
  c_database : string;
  c_trie_cache_maximum_size : option Z;
  c_state_pruning : option ScPruningMode;
  c_blocks_pruning : ScBlocksPruning;
  c_rpc_addr : option string;
  c_rpc_port : Z;
  c_rpc_methods : ScRpcMethods;
  c_rpc_max_connections : Z;
  c_rpc_cors : option (list string);
  c_rpc_max_request_size : Z;
  c_rpc_max_response_size : Z;
  c_rpc_max_subs_per_conn : Z;
  c_prometheus_config : option unit;
  c_telemetry_endpoints : option TE;
  c_offchain_worker : OffchainWorker;
  c_force_authoring : bool;
  c_disable_grandpa : bool;
  c_dev_key_seed : option string;
  c_chain_spec : CS;
  c_max_runtime_instances : Z;
  c_announce_block : bool;
  c_role : ScRole;
  c_base_path : string;
  c_data_path : string;
  c_informant_enable_color : bool;
  c_runtime_cache_size : Z;
}.
Arguments mkConfiguration {CS TE}.
Arguments c_network {CS TE}.
Arguments c_chain_spec {CS TE}.
Arguments c_state_pruning {CS TE}.
Arguments c_blocks_pruning {CS TE}.
Arguments c_role {CS TE}.
Arguments c_force_authoring {CS TE}.
Arguments c_rpc_max_connections {CS TE}.
Arguments c_rpc_max_request_size {CS TE}.
Arguments c_rpc_max_response_size {CS TE}.
Arguments c_rpc_max_subs_per_conn {CS TE}.
Arguments c_telemetry_endpoints {CS TE}.
Arguments c_prometheus_config {CS TE}.
Arguments c_database {CS TE}.
Arguments c_rpc_port {CS TE}.

(** [Path::join] with a relative component. *)
Definition join (base component : string) : string :=
  String.append base (String.append "/" component).

Definition NODE_NAME_MAX_LENGTH : nat := 64.

(** [s.chars().count()]: the bytes of UTF-8 text that are not continuations. *)
Definition chars_count (s : string) : nat :=
  length (filter (fun c => ~ (128 <= Ascii.nat_of_ascii c < 192)%nat) (String.list_ascii_of_string s)).

Section configuration.
Context {CS TE Json : Type} `{ChainSpecApi CS TE} `{TelemetryApi TE Json}.
(** [s.parse::<sc_network::Multiaddr>()], [names::Generator::next],
    [BasePath::config_dir]. *)
Variable parse_multiaddr : string -> option string.
Variable generate_name : option string.
Variable config_dir : string -> string -> string.

(** The conversions between the libp2p versions. *)
Definition convert_multiaddr (s : string) : outcome string :=
  expect "Conversion between 2 libp2p versions is always right" (parse_multiaddr s).

Definition node_name (chosen : option string) : outcome string :=
  match chosen with
  | Some n => Ret n
  | None =>
      expect "RNG is available on all supported platforms; qed"
        (n ← generate_name;
         if decide (chars_count n < NODE_NAME_MAX_LENGTH)%nat then Some n else None)
  end.

Definition client_version (nw : Network) (impl_name impl_version : string) : string :=
  match client_id nw with
  | Some c => c
  | None => String.append impl_name (String.append "/v" impl_version)
  end.

Definition network_configuration (b : Base) (cs : CS) (dir : string) : outcome NetworkConfiguration :=
  let nw := network b in
  n ← node_name (name nw);
  let net_dir := join dir "network" in
  listen ← mapM convert_multiaddr (listen_addresses nw);
  Ret (mkNetworkConfiguration listen (cs_boot_nodes cs ++ boot_nodes nw)
         (force_synced nw) (enable_mdns nw) (allow_private_ip nw) (allow_non_globals_in_dht nw)
         n (client_version nw (impl_name b) (impl_version b)) (join net_dir "secret_ed25519") net_dir
         50 (25 + 100)).

Definition telemetry_endpoints (extra : list (string * Z)) (cs : CS) : outcome TE :=
  match cs_telemetry_endpoints cs with
  | Some endpoints =>
      expect "Serialization is always valid"
        (te_from_json (te_to_json endpoints ++ (extra_to_json <$> extra)))
  | None => expect "Never returns an error" (te_new extra)
  end.

(** [o.unwrap_or_default() as u32]. *)
Definition limit (o : option Z) : Z := cast 32 (default 0 o).

Definition Base_configuration (b : Base) (directory : string) (cs : CS)
    : outcome (Configuration CS TE) :=
  let dir := config_dir directory (cs_id cs) in
  nw ← network_configuration b cs dir;
  te ← telemetry_endpoints (telemetry b) cs;
  let r := rpc b in
  Ret (mkConfiguration (impl_name b) (impl_version b) nw (join (join dir "paritydb") "full")
         (Some 67108864) (Some (PruningMode_into (state_pruning b)))
         (BlocksPruning_into (blocks_pruning b)) (addr r) (default 0 (port r))
         (RpcMethods_into (methods r)) (limit (max_connections r)) (cors r)
         (limit (max_request_size r)) (limit (max_response_size r)) (limit (max_subs_per_conn r))
         None (Some te) (offchain_worker b) (force_authoring b) false (dev_key_seed b) cs
         8 true (Role_into (role b)) directory dir (informant_enable_color b) 2).
End configuration.

(** ** Lemmas *)

Lemma mapM_Ret {A B} (f : A -> outcome B) (g : A -> B) l :
  (forall a, a ∈ l -> f a = Ret (g a)) -> mapM f l = Ret (g <$> l).
Proof.
  induction l as [|a l IH]; intros Hf; [done|]. cbn. rewrite Hf by set_solver.
  unfold_monad. rewrite IH; [done|]. intros a' Ha. apply Hf. set_solver.
Qed.

Lemma mapM_converted (parse : string -> option string) l l' :
  Forall2 (fun a b => parse a = Some b) l l' -> mapM (convert_multiaddr parse) l = Ret l'.
Proof.
  induction 1 as [|a b l l' Hab _ IH]; [done|].
  cbn [mapM]. change (mapM _ (a :: l)) with
    (b ← convert_multiaddr parse a; k ← mapM (convert_multiaddr parse) l; mret (b :: k)).
  rewrite IH. unfold convert_multiaddr. by rewrite Hab.
Qed.

Lemma pruning_roundtrip m : PruningMode_from (PruningMode_into m) = m.
Proof. by destruct m as [| |[]]. Qed.
Lemma pruning_roundtrip' m : PruningMode_into (PruningMode_from m) = m.
Proof. by destruct m as [| |[]]. Qed.
Lemma blocks_roundtrip m : BlocksPruning_from (BlocksPruning_into m) = m.
Proof. by destruct m. Qed.
Lemma blocks_roundtrip' m : BlocksPruning_into (BlocksPruning_from m) = m.
Proof. by destruct m. Qed.

(** Setters of different fields commute, a later setter of the same field wins. *)
Definition base_field (f : base_setter) : nat :=
  match f with
  | set_force_authoring _ => 0 | set_role _ => 1 | set_blocks_pruning _ => 2
  | set_state_pruning _ => 3 | set_impl_name _ => 4 | set_impl_version _ => 5
  | set_rpc _ => 6 | set_network _ => 7 | set_offchain_worker _ => 8
  | set_informant_enable_color _ => 9 | set_telemetry _ => 10 | set_dev_key_seed _ => 11
  end%nat.

(** *** Chains of setters *)

(** The reference: what a setter gives to each field, read off its name. *)
Definition gives_force_authoring (f : base_setter) : option bool :=
  match f with set_force_authoring v => Some v | _ => None end.
Definition gives_role (f : base_setter) : option Role :=
  match f with set_role v => Some v | _ => None end.
Definition gives_blocks_pruning (f : base_setter) : option BlocksPruning :=
  match f with set_blocks_pruning v => Some v | _ => None end.
Definition gives_state_pruning (f : base_setter) : option PruningMode :=
  match f with set_state_pruning v => Some v | _ => None end.
Definition gives_impl_name (f : base_setter) : option string :=
  match f with set_impl_name v => Some v | _ => None end.
Definition gives_impl_version (f : base_setter) : option string :=
  match f with set_impl_version v => Some v | _ => None end.
Definition gives_rpc (f : base_setter) : option Rpc :=
  match f with set_rpc v => Some v | _ => None end.
Definition gives_network (f : base_setter) : option Network :=
  match f with set_network v => Some v | _ => None end.
Definition gives_offchain_worker (f : base_setter) : option OffchainWorker :=
  match f with set_offchain_worker v => Some (mkOffchainWorker (default false (ob_enabled v)) (default false (ob_indexing_enabled v))) | _ => None end.
Definition gives_informant_enable_color (f : base_setter) : option bool :=
  match f with set_informant_enable_color v => Some v | _ => None end.
Definition gives_telemetry (f : base_setter) : option (list (string * Z)) :=
  match f with set_telemetry v => Some v | _ => None end.
Definition gives_dev_key_seed (f : base_setter) : option string :=
  match f with set_dev_key_seed v => Some v | _ => None end.

(** The value a chain of setters gives to a field: the last one given. *)
Definition given {A} (gives : base_setter -> option A) (fs : list base_setter) : option A :=
  last (omap gives fs).

(** Every field holds what was given to it last, or else what it held before. *)
Definition last_writes (fs : list base_setter) (b : BaseBuilder) : BaseBuilder :=
  mkBaseBuilder
    (given gives_force_authoring fs ∪ bb_force_authoring b)
    (given gives_role fs ∪ bb_role b)
    (given gives_blocks_pruning fs ∪ bb_blocks_pruning b)
    (given gives_state_pruning fs ∪ bb_state_pruning b)
    (given gives_impl_name fs ∪ bb_impl_name b)
    (given gives_impl_version fs ∪ bb_impl_version b)
    (given gives_rpc fs ∪ bb_rpc b)
    (given gives_network fs ∪ bb_network b)
    (given gives_offchain_worker fs ∪ bb_offchain_worker b)
    (given gives_informant_enable_color fs ∪ bb_informant_enable_color b)
    (given gives_telemetry fs ∪ bb_telemetry b)
    (given gives_dev_key_seed fs ∪ bb_dev_key_seed b).

Lemma given_snoc {A} (gives : base_setter -> option A) fs f :
  given gives (fs ++ [f]) = gives f ∪ given gives fs.
Proof.
  unfold given. rewrite omap_app. cbn. destruct (gives f).
  - rewrite last_snoc. by destruct (last _).
  - rewrite app_nil_r. by destruct (last _).
Qed.

Lemma derive_base_all_last_writes fs b : derive_base_all fs b = last_writes fs b.
Proof.
  induction fs as [|f fs IH] using rev_ind; [by destruct b as [[][][][][][][][][][][][]]|].
  unfold derive_base_all in *. rewrite foldl_app. cbn [foldl]. rewrite IH.
  unfold last_writes. rewrite !given_snoc.
  destruct f; cbn; rewrite ?(left_id_L None (∪)); repeat case_match; try done.
  all: f_equal; by destruct (given _ fs), b as [[][][][][][][][][][][][]].
Qed.

(** The last setter of a field in a chain. *)
Definition last_setter (k : nat) (fs : list base_setter) : option base_setter :=
  last (filter (fun f => base_field f = k) fs).

Lemma last_setter_snoc k fs f :
  last_setter k (fs ++ [f]) = if decide (base_field f = k) then Some f else last_setter k fs.
Proof.
  unfold last_setter. rewrite filter_app, filter_cons, filter_nil. case_decide.
  - by rewrite last_snoc.
  - by rewrite app_nil_r.
Qed.

Lemma given_last_setter {A} (gives : base_setter -> option A) k fs :
  (forall f, is_Some (gives f) <-> base_field f = k) -> given gives fs = last_setter k fs ≫= gives.
Proof.
  intros Hk. induction fs as [|f fs IH] using rev_ind; [done|].
  rewrite given_snoc, last_setter_snoc, IH. destruct (decide (base_field f = k)) as [Hf|Hf].
  - apply Hk in Hf as [v Hv]. cbn. rewrite Hv. by destruct (last_setter k fs ≫= gives).
  - rewrite <-Hk, <-eq_None_not_Some in Hf. rewrite Hf. by destruct (last_setter k fs ≫= gives).
Qed.

Lemma last_setter_Permutation fs fs' k : fs ≡ₚ fs' -> NoDup (base_field <$> fs) ->
  last_setter k fs = last_setter k fs'.
Proof.
  intros Hp. unfold last_setter.
  assert (Hshort : forall fs, NoDup (base_field <$> fs) -> (length (filter (fun f => base_field f = k) fs) <= 1)%nat).
  { clear. induction fs as [|f fs IH]; [cbn; lia|]. rewrite fmap_cons, filter_cons.
    intros [Hf Hnd]%NoDup_cons. case_decide as Hk; [|by apply IH]. enough (filter (fun f => base_field f = k) fs = []) as -> by done.
    destruct (filter _ fs) as [|g l] eqn:Hl; [done|].
    assert (Hg : g ∈ filter (fun f => base_field f = k) fs) by (rewrite Hl; set_solver).
    apply list_elem_of_filter in Hg as [Hg Hin]. exfalso. apply Hf. rewrite Hk, <-Hg.
    by apply list_elem_of_fmap_2. }
  intros Hnd. pose proof (Hshort fs Hnd) as Hl.
  assert (Hpf : filter (fun f => base_field f = k) fs ≡ₚ filter (fun f => base_field f = k) fs')
    by by rewrite Hp.
  destruct (filter _ fs) as [|g [|h l]]; [by apply Permutation_nil in Hpf as ->| |cbn in Hl; lia].
  by apply Permutation_singleton_l in Hpf as ->.
Qed.

(** ** Properties *)

(** The field a selector reads is the one numbered [k]. *)
Ltac by_field Hgiven k :=
  apply (Hgiven _ _ k); intros f; split;
    [intros [v Hv]; destruct f; (discriminate Hv || reflexivity)
    |intros Hf; destruct f; (discriminate Hf || (eexists; reflexivity))].

(** C36: a chain of builder setters leaves in every field the value that was
    given to it last, and a field no setter names as it was; what is built from
    a fresh builder has those values and the documented defaults.  Chains with
    the same last setters build the same configuration, so setters of distinct
    fields can be called in any order. *)
Theorem setter_chains fs fs' b pkg_name pkg_version git_hash :
  derive_base_all fs b = last_writes fs b /\
  BaseBuilder_build pkg_name pkg_version git_hash (derive_base_all fs BaseBuilder_default) =
    mkBase (default false (given gives_force_authoring fs)) (default Full (given gives_role fs))
      (default KeepAll (given gives_blocks_pruning fs)) (default ArchiveAll (given gives_state_pruning fs))
      (default pkg_name (given gives_impl_name fs))
      (default (pkg_version +:+ "-" +:+ git_hash) (given gives_impl_version fs))
      (default (mkRpc None None None None Auto None None None) (given gives_rpc fs))
      (default (mkNetwork false false false [] [] false None None) (given gives_network fs))
      (default (mkOffchainWorker false false) (given gives_offchain_worker fs))
      (default false (given gives_informant_enable_color fs)) (default [] (given gives_telemetry fs))
      (given gives_dev_key_seed fs) /\
  ((forall k, last_setter k fs = last_setter k fs') -> derive_base_all fs b = derive_base_all fs' b) /\
  (fs ≡ₚ fs' -> NoDup (base_field <$> fs) -> derive_base_all fs b = derive_base_all fs' b).
Proof.
  assert (Hsame : (forall k, last_setter k fs = last_setter k fs') ->
    derive_base_all fs b = derive_base_all fs' b).
  { intros Hk. rewrite !derive_base_all_last_writes. unfold last_writes.
    assert (Hgiven : forall A (gives : base_setter -> option A) k,
      (forall f, is_Some (gives f) <-> base_field f = k) -> given gives fs = given gives fs').
    { intros A gives k Hg. by rewrite !(given_last_setter gives k) by done; rewrite Hk. }
    f_equal; f_equal;
      [by_field Hgiven 0%nat|by_field Hgiven 1%nat|by_field Hgiven 2%nat|by_field Hgiven 3%nat|by_field Hgiven 4%nat|by_field Hgiven 5%nat|by_field Hgiven 6%nat|by_field Hgiven 7%nat
      |by_field Hgiven 8%nat|by_field Hgiven 9%nat|by_field Hgiven 10%nat|by_field Hgiven 11%nat]. }
  split; [apply derive_base_all_last_writes|]. split; [|split; [done|]].
  - rewrite derive_base_all_last_writes. unfold last_writes, BaseBuilder_build. cbn.
    by rewrite !(right_id_L None (∪)).
  - intros Hp Hnd. apply Hsame. intros k. by apply last_setter_Permutation.
Qed.

Lemma setter_chains_witness :
  derive_base_all [set_role Full; set_force_authoring true; set_role Authority] BaseBuilder_default =
  derive_base_all [set_role Authority; set_force_authoring true] BaseBuilder_default /\
  derive_base_all [set_role Full; set_force_authoring true; set_role Authority] BaseBuilder_default =
  mkBaseBuilder (Some true) (Some Authority) None None None None None None None None None None.
Proof.
  pose proof (setter_chains [set_role Full; set_force_authoring true; set_role Authority]
    [set_role Authority; set_force_authoring true] BaseBuilder_default "" "" "") as (Hlast & _ & Hsame & _).
  split; [|rewrite Hlast; reflexivity]. apply Hsame.
  intros k. do 2 (destruct k as [|k]; [reflexivity|]). reflexivity.
Defined.

(** The storage monitor never gets a threshold of zero, and the threshold in
    mebibytes never exceeds the configured bytes unless it was rounded up to
    one; but the polling period is reduced modulo 2^32 after it was raised to
    at least one second, so a period of a multiple of 2^32 seconds becomes a
    zero period. *)
Lemma storage_monitor_params (m : StorageMonitor) :
  in_u 64 (threshold m) -> in_u 64 (as_secs (polling_period m)) ->
  1 <= sc_threshold (StorageMonitor_into m) /\
  (MIB <= threshold m -> sc_threshold (StorageMonitor_into m) * MIB <= threshold m
     < (sc_threshold (StorageMonitor_into m) + 1) * MIB) /\
  in_u 32 (sc_polling_period (StorageMonitor_into m)) /\
  (sc_polling_period (StorageMonitor_into m) = 0 <->
     exists k, 0 < k /\ as_secs (polling_period m) = k * 2 ^ 32).
Proof.
  destruct m as [t [s n]]. cbn [threshold polling_period as_secs StorageMonitor_into sc_threshold
    sc_polling_period]. unfold MIB. intros Ht Hs. split; [lia|]. split; [|split].
  - intros Hm. pose proof (Z.div_le_mono 1048576 t 1048576 ltac:(lia) Hm) as H1.
    rewrite Z.div_same in H1 by lia. rewrite Z.max_l by lia.
    pose proof (Z.mul_div_le t 1048576). pose proof (Z.mul_succ_div_gt t 1048576). lia.
  - apply cast_in_u. lia.
  - unfold cast. destruct Hs as [Hs1 Hs2]. split.
    + intros Hz. apply Z.mod_divide in Hz as [k Hk]; [|lia].
      assert (1 <= s) by (destruct (decide (1 <= s)); [done|]; rewrite Z.max_r in Hk; lia).
      rewrite Z.max_l in Hk by lia. exists k. lia.
    + intros (k & Hk & ->). rewrite Z.max_l by lia. apply Z.mod_mul. lia.
Qed.

Lemma storage_monitor_params_witness :
  sc_polling_period (StorageMonitor_into (mkStorageMonitor 0 (mkDuration (2 ^ 32) 0))) = 0.
Proof.
  refine (proj2 (proj2 (proj2 (proj2 (storage_monitor_params
    (mkStorageMonitor 0 (mkDuration (2 ^ 32) 0)) _ _)))) _).
  - split; reflexivity || discriminate.
  - split; reflexivity || discriminate.
  - exists 1. split; reflexivity.
Defined.

Section configuration_properties.
Context {CS TE Json : Type} `{ChainSpecApi CS TE} `{TelemetryApi TE Json}.
Variable parse_multiaddr : string -> option string.
Variable generate_name : option string.
Variable config_dir : string -> string -> string.

(** C37: with listen addresses that parse in the other libp2p version,
    telemetry endpoints that survive their JSON form and, when no name is
    configured, a generated name shorter than 64 characters, the configuration
    of a node is produced: it boots from the nodes of the chain specification
    followed by the configured ones, and each of its limits is the configured one modulo 2^32 (an
    unset limit is zero). *)
Theorem configuration_total (b : Base) directory (cs : CS) te listen :
  Forall2 (fun a a' => parse_multiaddr a = Some a') (listen_addresses (network b)) listen ->
  (match name (network b) with
   | Some _ => True
   | None => exists n, generate_name = Some n /\ (chars_count n < 64)%nat
   end) ->
  telemetry_endpoints (telemetry b) cs = Ret te ->
  exists c, Base_configuration parse_multiaddr generate_name config_dir b directory cs = Ret c /\
  n_boot_nodes (c_network c) = cs_boot_nodes cs ++ boot_nodes (network b) /\
  n_listen_addresses (c_network c) = listen /\
  c_telemetry_endpoints c = Some te /\
  (forall get set, (get, set) ∈ [(max_connections, c_rpc_max_connections);
     (max_request_size, c_rpc_max_request_size); (max_response_size, c_rpc_max_response_size);
     (max_subs_per_conn, c_rpc_max_subs_per_conn)] ->
     set c = (default 0 (get (rpc b))) mod 2 ^ 32 /\ in_u 32 (set c) /\
     (get (rpc b) = None -> set c = 0) /\
     (forall v, get (rpc b) = Some v -> in_u 32 v -> set c = v)).
Proof.
  intros Hl Hn Hte. unfold Base_configuration, network_configuration.
  assert (exists n, node_name generate_name (name (network b)) = Ret n) as [n ->].
  { unfold node_name. destruct (name (network b)) as [n|]; [by exists n|].
    destruct Hn as (n & -> & Hn). exists n. cbn. by rewrite decide_True by exact Hn. }
  rewrite (mapM_converted _ _ _ Hl). cbn. rewrite Hte. cbn. eexists. split; [done|]. cbn. split; [done|].
  split; [done|]. split; [done|].
  intros get set Hin. rewrite !elem_of_cons in Hin. unfold limit.
  destruct Hin as [Hin|[Hin|[Hin|[Hin|Hin]]]]; [injection Hin as -> ->..|by apply elem_of_nil in Hin];
    cbn -[Z.pow]; (split; [done|]; split; [by apply cast_in_u|]; split; [by intros ->|]; intros v -> Hv; by apply cast_small).
Qed.
End configuration_properties.

Section substrate_demo.
#[local] Instance demo_spec : ChainSpecApi (list string) (list (string * Z)) := {|
  cs_id _ := "demo"%string; cs_boot_nodes cs := cs; cs_telemetry_endpoints _ := None |}.
#[local] Instance demo_telemetry : TelemetryApi (list (string * Z)) (string * Z) := {|
  te_to_json := id; te_from_json := Some; extra_to_json := id; te_new := Some |}.

Lemma configuration_total_witness :
  exists c, Base_configuration Some (Some "demo-name"%string) join
    (BaseBuilder_build "sdk" "0" "0" (derive_base_all
       [set_network NetworkBuilder_gemini_3g; set_rpc RpcBuilder_gemini_3g] BaseBuilder_default))
    "/tmp" ["boot"%string] = Ret c /\ c_rpc_max_connections c = 0.
Proof.
  destruct (configuration_total Some (Some "demo-name"%string) join
    (BaseBuilder_build "sdk" "0" "0" (derive_base_all
       [set_network NetworkBuilder_gemini_3g; set_rpc RpcBuilder_gemini_3g] BaseBuilder_default))
    "/tmp" ["boot"%string] [] (listen_addresses NetworkBuilder_gemini_3g)) as (c & Hc & _ & _ & _ & Hlim).
  - repeat constructor.
  - exists "demo-name"%string. split; [reflexivity|]. apply Nat.ltb_lt. vm_compute. reflexivity.
  - reflexivity.
  - exists c. split; [exact Hc|]. refine (proj1 (Hlim max_connections c_rpc_max_connections _)).
    apply elem_of_cons. left. reflexivity.
Defined.
End substrate_demo.
