(* ===== verification/ChainSpec.v ===== *)
(** Chain specifications: the properties shared by all of them
    (utils/src/lib.rs, module [chain_spec]), the specifications of the consensus
    chain (node/src/chain_spec.rs) and of the EVM domain
    (node/src/domains/evm_chain_spec.rs).

    Accounts, address decoding, key derivation, the runtimes and the storage
    they build are parameters; a specification is the record of what is given to
    [ChainSpec::from_genesis], its genesis being computed on demand. *)
From S2P Require Import Prelude Substrate.

#[local] Open Scope Z_scope.

(** ** Properties *)

#[local] Set Warnings "-register-all".

Inductive json :=
| JNull
| JBool (b : bool)
| JNum (n : Z)
| JStr (s : string)
| JArr (l : list json)
| JObj (l : list (string * json)).

Abbreviation Properties := (gmap string json).

Inductive ChainType := Development | Local | Live | Custom (s : string).

Record ChainSpecOf (G : Type) := mkChainSpec {
  spec_name : string;
  spec_id : string;
  spec_chain_type : ChainType;
  spec_genesis : G;
  spec_boot_nodes : list string;
  spec_telemetry : option (list (string * Z));
  spec_protocol_id : option string;
  spec_properties : Properties;
}.
Arguments mkChainSpec {G}.
Arguments spec_name {G}.
Arguments spec_id {G}.
Arguments spec_chain_type {G}.
Arguments spec_genesis {G}.
Arguments spec_boot_nodes {G}.
Arguments spec_telemetry {G}.
Arguments spec_protocol_id {G}.
Arguments spec_properties {G}.

#[export] Instance ChainSpecOf_api {G} : ChainSpecApi (ChainSpecOf G) (list (string * Z)) := {|
  cs_id := spec_id;
  cs_boot_nodes := spec_boot_nodes;
  cs_telemetry_endpoints := spec_telemetry;
|}.

Section properties.
(** [SS58Prefix] and [DECIMAL_PLACES] of the runtime. *)
Variables (ss58_prefix decimal_places : Z).

Definition chain_spec_properties : Properties :=
  <["domainsBootstrapNodes"%string := JObj []]> (
  <["tokenSymbol"%string := JStr "tSSC"]> (
  <["tokenDecimals"%string := JNum decimal_places]> (
  <["ss58Format"%string := JNum ss58_prefix]> (
  <["dsnBootstrapNodes"%string := JArr []]> ∅)))).

(** The closure that adds the proof-of-time entropy, [None::<PotKey>]. *)
Definition consensus_properties : Properties :=
  <["potExternalEntropy"%string := JNull]> chain_spec_properties.
End properties.

(** ** The EVM domain *)

Inductive SpecId := SpecDev | SpecGemini | SpecDevNet | SpecLocal.

Record EvmGenesis := mkEvmGenesis {
  evm_code : list Z;
  evm_sudo_key : option Z;
  evm_balances : list (Z * Z);
  (** address and code of the pre-deployed accounts *)
  evm_accounts : list (Z * list Z);
}.

Section evm.
Variables (SSC : Z) (EVM_WASM_BINARY : option (list Z)) (used_addresses : list Z).
(** [AccountId::from_str] of a 20-byte account. *)
Variable account20_from_str : string -> option Z.
Variables (ss58_prefix decimal_places : Z).

Definition get_dev_accounts : list Z :=
  [0xf24FF3a9CF04c71Dbc94D0b566f7A27B94566cac;
   0x3Cd0A705a2DC65e5b1E1205896BaA2be8A07c6e0;
   0x798d4Ba9baf0064Ec19eB4F0a1a45785ae9D6DFc;
   0x773539d4Ac0e786233D90A233654ccEE26a613D9].

Definition revert_bytecode : list Z := [0x60; 0x00; 0x60; 0x00; 0xFD].

Definition testnet_genesis (p : profile) (endowed_accounts : list Z) (maybe_sudo_account : option Z)
    : outcome EvmGenesis :=
  code ← expect "WASM binary was not build, please build it!" EVM_WASM_BINARY;
  balances ← mapM (fun k => v ← mul_u p 128 1000000 SSC; Ret (k, v)) endowed_accounts;
  Ret (mkEvmGenesis code maybe_sudo_account balances
         ((fun a => (a, revert_bytecode)) <$> used_addresses)).

Definition sudo_genesis (p : profile) (account : string) : outcome EvmGenesis :=
  sudo_account ← expect "Invalid Sudo account" (account20_from_str account);
  testnet_genesis p [sudo_account] (Some sudo_account).

Definition dev_genesis (p : profile) : outcome EvmGenesis :=
  let accounts := get_dev_accounts in
  first ← index accounts 0;
  testnet_genesis p accounts (Some first).

Definition get_testnet_genesis_by_spec_id (p : profile) (spec_id : SpecId) : outcome EvmGenesis :=
  match spec_id with
  | SpecDev => dev_genesis p
  | SpecGemini => sudo_genesis p "f31e60022e290708c17d6997c34de6a30d09438f"
  | SpecDevNet => sudo_genesis p "b66a91845249464309fad766fd0ece8144547736"
  | SpecLocal => dev_genesis p
  end.

Abbreviation DomainSpec := (ChainSpecOf EvmGenesis).

Definition development_config (constructor : EvmGenesis) : DomainSpec :=
  mkChainSpec "Development" "evm_domain_dev" Development constructor [] None None
    (chain_spec_properties ss58_prefix decimal_places).

Definition local_testnet_config (constructor : EvmGenesis) : DomainSpec :=
  mkChainSpec "Local Testnet" "evm_domain_local_testnet" Local constructor [] None
    (Some "evm-local"%string) (chain_spec_properties ss58_prefix decimal_places).

Definition gemini_3g_config (constructor : EvmGenesis) : DomainSpec :=
  mkChainSpec "Subspace Gemini 3g EVM Domain" "subspace_gemini_3g_evm_domain" Live constructor []
    None (Some "subspace-gemini-3g-evm-domain"%string)
    (chain_spec_properties ss58_prefix decimal_places).

Definition domain_devnet_config (constructor : EvmGenesis) : DomainSpec :=
  mkChainSpec "Subspace Devnet EVM Domain" "subspace_devnet_evm_domain" (Custom "Testnet")
    constructor [] None (Some "subspace-devnet-evm-domain"%string)
    (chain_spec_properties ss58_prefix decimal_places).

(** [create_domain_spec]: the specification with the storage of the domain;
    a chain id that is none of the known ones is the path of a JSON file. *)
Definition create_domain_spec {Storage : Type} (default_genesis : EvmGenesis)
    (from_json_file : string -> result string DomainSpec)
    (chain_id : string) (raw_genesis : Storage) : result string (DomainSpec * Storage) :=
  spec ← (if decide (chain_id = "dev")%string then Ok (development_config default_genesis)
          else if decide (chain_id = "gemini-3g")%string then Ok (gemini_3g_config default_genesis)
          else if decide (chain_id = "devnet")%string then Ok (domain_devnet_config default_genesis)
          else if decide (chain_id = "" \/ chain_id = "local")%string
               then Ok (local_testnet_config default_genesis)
          else from_json_file chain_id);
  Ok (spec, raw_genesis).
End evm.

(** ** The consensus chain *)

Definition SUBSPACE_TELEMETRY_URL : string := "wss://telemetry.subspace.network/submit/".

(** Accounts that receive token grants, in SSC. *)
Definition TOKEN_GRANTS : list (string * Z) :=
  [("5Dns1SVEeDqnbSm2fVUqHJPCvQFXHVsgiw28uMBwmuaoKFYi", 3000000);
   ("5DxtHHQL9JGapWCQARYUAWj4yDcwuhg9Hsk5AjhEzuzonVyE", 1500000);
   ("5EHhw9xuQNdwieUkNoucq2YcateoMVJQdN8EZtmRy3roQkVK", 133333);
   ("5C5qYYCQBnanGNPGwgmv6jiR2MxNPrGnWYLPFEyV1Xdy2P3x", 178889);
   ("5GBWVfJ253YWVPHzWDTos1nzYZpa9TemP7FpQT9RnxaFN6Sz", 350000);
   ("5F9tEPid88uAuGbjpyegwkrGdkXXtaQ9sGSWEnYrfVCUCsen", 111111);
   ("5DkJFCv3cTBsH5y1eFT94DXMxQ3EmVzYojEA88o56mmTKnMp", 244444);
   ("5G23o1yxWgVNQJuL4Y9UaCftAFvLuMPCRe7BCARxCohjoHc9", 311111);
   ("5GhHwuJoK1b7uUg5oi8qUXxWHdfgzv6P5CQSdJ3ffrnPRgKM", 317378);
   ("5EqBwtqrCV427xCtTsxnb9X2Qay39pYmKNk9wD9Kd62jLS97", 300000);
   ("5D9pNnGCiZ9UqhBQn5n71WFVaRLvZ7znsMvcZ7PHno4zsiYa", 600000);
   ("5DXfPcXUcP4BG8LBSkJDrfFNApxjWySR6ARfgh3v27hdYr5S", 430000);
   ("5CXSdDJgzRTj54f9raHN2Z5BNPSMa2ETjqCTUmpaw3ECmwm4", 330000);
   ("5DqKxL7bQregQmUfFgzTMfRKY4DSvA1KgHuurZWYmxYSCmjY", 200000);
   ("5CfixiS93yTwHQbzzfn8P2tMxhKXdTx7Jam9htsD7XtiMFtn", 27800);
   ("5FZe9YzXeEXe7sK5xLR8yCmbU8bPJDTZpNpNbToKvSJBUiEo", 18067);
   ("5FZwEgsvZz1vpeH7UsskmNmTpbfXvAcojjgVfShgbRqgC1nx", 27800)]%string.

Inductive AllowAuthoringBy (K : Type) := Anyone | FirstFarmer | RootFarmer (key : K).
Arguments Anyone {K}.
Arguments FirstFarmer {K}.
Arguments RootFarmer {K}.

Inductive OperatorAllowList (Acc : Type) := AnyoneOperates | Operators (l : list Acc).
Arguments AnyoneOperates {Acc}.
Arguments Operators {Acc}.

Record GenesisParams := mkGenesisParams {
  enable_rewards : bool;
  enable_storage_access : bool;
  allow_authoring_by : AllowAuthoringBy string;
  pot_slot_iterations : Z;
  enable_domains : bool;
  enable_balance_transfers : bool;
  confirmation_depth_k : Z;
}.

Record GenesisDomainParams (Acc : Type) := mkGenesisDomainParams {
  domain_name : string;
  operator_allow_list : OperatorAllowList Acc;
  operator_signing_key : string;
}.
Arguments mkGenesisDomainParams {Acc}.
Arguments domain_name {Acc}.
Arguments operator_allow_list {Acc}.
Arguments operator_signing_key {Acc}.

(** who, start, period, period count, per period *)
Record VestingSchedule (Acc : Type) := mkVesting {
  v_who : Acc;
  v_start : Z;
  v_period : Z;
  v_period_count : Z;
  v_per_period : Z;
}.
Arguments mkVesting {Acc}.
Arguments v_who {Acc}.
Arguments v_start {Acc}.
Arguments v_period {Acc}.
Arguments v_period_count {Acc}.
Arguments v_per_period {Acc}.

Record GenesisDomain (Acc Raw : Type) := mkGenesisDomain {
  gd_runtime_name : string;
  gd_raw_genesis_storage : Raw;
  gd_owner_account_id : Acc;
  gd_domain_name : string;
  gd_bundle_slot_probability : Z * Z;
  gd_target_bundles_per_block : Z;
  gd_operator_allow_list : OperatorAllowList Acc;
  gd_signing_key : string;
  gd_nomination_tax_percent : Z;
  gd_minimum_nominator_stake : Z;
}.
Arguments mkGenesisDomain {Acc Raw}.
Arguments gd_owner_account_id {Acc Raw}.
Arguments gd_raw_genesis_storage {Acc Raw}.

Record RuntimeGenesisConfig (Acc Raw : Type) := mkGenesis {
  g_domain : option (GenesisDomain Acc Raw);
  g_code : list Z;
  g_balances : list (Acc * Z);
  g_sudo_key : option Acc;
  g_enable_rewards : bool;
  g_enable_storage_access : bool;
  g_allow_authoring_by : AllowAuthoringBy string;
  g_pot_slot_iterations : Z;
  g_vesting : list (VestingSchedule Acc);
  g_enable_domains : bool;
  g_enable_balance_transfers : bool;
  g_confirmation_depth_k : Z;
}.
Arguments mkGenesis {Acc Raw}.
Arguments g_domain {Acc Raw}.
Arguments g_balances {Acc Raw}.
Arguments g_sudo_key {Acc Raw}.
Arguments g_vesting {Acc Raw}.

Section consensus.
Context {Acc Raw : Type}.
Variables (p : profile) (SSC MILLISECS_PER_BLOCK : Z).
Variables (WASM_BINARY EVM_WASM_BINARY : option (list Z)) (used_addresses : list Z).
Variable account20_from_str : string -> option Z.
(** [AccountId::from_ss58check], [get_account_id_from_seed],
    [get_public_key_from_seed]. *)
Variable from_ss58check : string -> option Acc.
Variable get_account_id_from_seed : string -> Acc.
Variable get_public_key_from_seed : string -> string.
(** [build_storage] of the EVM runtime and the encoding of its raw genesis. *)
Variable build_raw_genesis : EvmGenesis -> option Raw.
Variables (ss58_prefix decimal_places : Z).

(** [u32::try_from(3600 * 24 * 30 * MILLISECS_PER_BLOCK / 1000)], on u64. *)
Definition one_month_in_blocks : outcome Z :=
  x ← mul_u p 64 (3600 * 24 * 30) MILLISECS_PER_BLOCK;
  expect "One month of blocks always fits in u32; qed" (try_into_u 32 (x / 1000)).

(** The balance and the two schedules of one grant. *)
Definition vesting_of_grant (grant : string * Z) : outcome ((Acc * Z) * list (VestingSchedule Acc)) :=
  account_id ← expect "Wrong vesting account address" (from_ss58check grant.1);
  amount ← mul_u p 128 grant.2 SSC;
  let start_block := 100000000 in
  month ← one_month_in_blocks;
  year ← mul_u p 32 month 12;
  cliff ← add_u p 32 start_block year;
  Ret ((account_id, amount),
       [mkVesting account_id start_block year 1 (amount / 4);
        mkVesting account_id cliff month 36 (amount / 48)]).

(** The balances are pushed while the schedules are collected. *)
Definition grants (balances : list (Acc * Z))
    : outcome (list (Acc * Z) * list (VestingSchedule Acc)) :=
  l ← mapM vesting_of_grant TOKEN_GRANTS;
  Ret (balances ++ l.*1, concat l.*2).

Definition subspace_genesis_config (evm_domain_spec_id : SpecId) (wasm_binary : list Z)
    (sudo_account : Acc) (balances : list (Acc * Z)) (vesting : list (VestingSchedule Acc))
    (genesis_params : GenesisParams) (genesis_domain_params : GenesisDomainParams Acc)
    : outcome (RuntimeGenesisConfig Acc Raw) :=
  domain_genesis_config ← get_testnet_genesis_by_spec_id SSC EVM_WASM_BINARY used_addresses
    account20_from_str p evm_domain_spec_id;
  raw_genesis_storage ← expect "Failed to build genesis storage from genesis runtime config"
    (build_raw_genesis domain_genesis_config);
  stake ← mul_u p 128 100 SSC;
  Ret (mkGenesis
    (Some (mkGenesisDomain "evm" raw_genesis_storage sudo_account
             (domain_name genesis_domain_params) (1, 1) 10
             (operator_allow_list genesis_domain_params)
             (operator_signing_key genesis_domain_params) 5 stake))
    wasm_binary balances (Some sudo_account)
    (enable_rewards genesis_params) (enable_storage_access genesis_params)
    (allow_authoring_by genesis_params) (pot_slot_iterations genesis_params) vesting
    (enable_domains genesis_params) (enable_balance_transfers genesis_params)
    (confirmation_depth_k genesis_params)).

(** The genesis of a compiled test network. *)
Definition testnet_config (sudo_address : string) (spec_id : SpecId)
    (params : GenesisParams) (domain_params : Acc -> GenesisDomainParams Acc)
    : outcome (RuntimeGenesisConfig Acc Raw) :=
  sudo_account ← expect "Wrong root account address" (from_ss58check sudo_address);
  pocket ← mul_u p 128 1000 SSC;
  '(balances, vesting_schedules) ← grants [(sudo_account, pocket)];
  wasm ← expect "Wasm binary must be built for Gemini" WASM_BINARY;
  subspace_genesis_config spec_id wasm sudo_account balances vesting_schedules params
    (domain_params sudo_account).

Definition gemini_signing_key : string :=
  "aa3b05b4d649666723e099cf3bafc2f2c04160ebe0e16ddc82f72d6ed97c4b6b".

Definition gemini_3g_genesis : outcome (RuntimeGenesisConfig Acc Raw) :=
  testnet_config "5DNwQTHfARgKoa2NdiUM51ZUow7ve5xG9S2yYdSbVQcnYxBA" SpecGemini
    (mkGenesisParams false false
       (RootFarmer "8aecbcf0b404590ddddc01ebacb205a562d12fdb5c2aa6a4035c1a20f23c9515"%string)
       200032000 true true 100)
    (fun sudo_account => mkGenesisDomainParams "nova" (Operators [sudo_account]) gemini_signing_key).

Definition devnet_genesis : outcome (RuntimeGenesisConfig Acc Raw) :=
  testnet_config "5CXTmJEusve5ixyJufqHThmy4qUrrm6FyLCR7QfE4bbyMTNC" SpecDevNet
    (mkGenesisParams false false FirstFarmer 150000000 true true 100)
    (fun _ => mkGenesisDomainParams "evm-domain" AnyoneOperates gemini_signing_key).

(** The genesis of a development network: the seeds listed are pre-funded. *)
Definition seeded_config (spec_id : SpecId) (wasm : list Z) (seeds : list string) (depth : Z)
    : outcome (RuntimeGenesisConfig Acc Raw) :=
  balances ← mapM (fun seed => v ← mul_u p 128 1000 SSC; Ret (get_account_id_from_seed seed, v)) seeds;
  subspace_genesis_config spec_id wasm (get_account_id_from_seed "Alice") balances []
    (mkGenesisParams false false Anyone 100000000 true true depth)
    (mkGenesisDomainParams "evm-domain" AnyoneOperates (get_public_key_from_seed "Alice")).

Definition dev_seeds : list string := ["Alice"; "Bob"; "Alice//stash"; "Bob//stash"]%string.
Definition local_seeds : list string :=
  ["Alice"; "Bob"; "Charlie"; "Dave"; "Eve"; "Ferdie"; "Alice//stash"; "Bob//stash";
   "Charlie//stash"; "Dave//stash"; "Eve//stash"; "Ferdie//stash"]%string.

Definition dev_chain_genesis (wasm : list Z) := seeded_config SpecDev wasm dev_seeds 100.
Definition local_chain_genesis (wasm : list Z) := seeded_config SpecLocal wasm local_seeds 1.

Abbreviation ConsensusSpec := (ChainSpecOf (outcome (RuntimeGenesisConfig Acc Raw))).

Definition gemini_3g_compiled : ConsensusSpec :=
  mkChainSpec "Subspace Gemini 3g" "subspace_gemini_3g" (Custom "Subspace Gemini 3g")
    gemini_3g_genesis [] (Some [(SUBSPACE_TELEMETRY_URL, 1)]) (Some "subspace-gemini-3g"%string)
    (consensus_properties ss58_prefix decimal_places).

Definition devnet_config_compiled : ConsensusSpec :=
  mkChainSpec "Subspace Dev network" "subspace_devnet" (Custom "Testnet")
    devnet_genesis [] (Some [(SUBSPACE_TELEMETRY_URL, 1)]) (Some "subspace-devnet"%string)
    (consensus_properties ss58_prefix decimal_places).

(** [gemini_3g] and [devnet_config] read a specification embedded in a
    dependency. *)
Definition embedded_spec (from_json_bytes : string -> option ConsensusSpec) (json_bytes : string)
    : outcome ConsensusSpec :=
  expect "Always valid" (from_json_bytes json_bytes).

Definition dev_config : outcome ConsensusSpec :=
  wasm ← expect "Development wasm not available" WASM_BINARY;
  Ret (mkChainSpec "Subspace development" "subspace_dev" Development
         (dev_chain_genesis wasm) [] None None (consensus_properties ss58_prefix decimal_places)).

Definition local_config : outcome ConsensusSpec :=
  wasm ← expect "Development wasm not available" WASM_BINARY;
  Ret (mkChainSpec "Subspace local" "subspace_local" Local
         (local_chain_genesis wasm) [] None None (consensus_properties ss58_prefix decimal_places)).
End consensus.

(** ** Lemmas *)

(** What an account has locked: every period of every schedule of it. *)
Definition locked {Acc} `{EqDecision Acc} (a : Acc) (l : list (VestingSchedule Acc)) : Z :=
  foldr (fun v s => (if decide (v_who v = a) then v_period_count v * v_per_period v else 0) + s) 0 l.

Lemma locked_app {Acc} `{EqDecision Acc} (a : Acc) l1 l2 : locked a (l1 ++ l2) = locked a l1 + locked a l2.
Proof. unfold locked. induction l1 as [|v l1 IH]; cbn; [done|]. rewrite IH. lia. Qed.

Lemma locked_pair {Acc} `{EqDecision Acc} (a : Acc) v1 v2 : v_who v1 = v_who v2 ->
  locked a [v1; v2] = if decide (v_who v1 = a)
    then v_period_count v1 * v_per_period v1 + v_period_count v2 * v_per_period v2 else 0.
Proof. intros Hw. unfold locked. cbn. rewrite <-Hw. case_decide; lia. Qed.
#[local] Arguments locked : simpl never.

Lemma token_grants_distinct : NoDup (TOKEN_GRANTS.*1).
Proof. apply (bool_decide_unpack _). vm_compute. exact I. Qed.

Lemma token_grants_small g : g ∈ TOKEN_GRANTS -> 0 < g.2 <= 3000000.
Proof.
  intros Hg. assert (Hall : Forall (fun g => 0 < g.2 <= 3000000) TOKEN_GRANTS).
  { unfold TOKEN_GRANTS. repeat constructor; cbn; lia. }
  rewrite Forall_forall in Hall. by apply Hall.
Qed.

Lemma mapM_outcome {A B} (f : A -> outcome B) l k :
  mapM f l = Ret k <-> Forall2 (fun a b => f a = Ret b) l k.
Proof.
  revert k. induction l as [|a l IH]; intros k; cbn; unfold_monad.
  - split; [intros [= <-]; constructor|by inversion 1].
  - split.
    + destruct (f a) as [b|] eqn:Ha; [|done]. destruct (mapM f l) as [k'|] eqn:Hl; [|done].
      intros [= <-]. constructor; [done|]. by apply IH.
    + inversion 1 as [|? b ? k' Hb Hk]; subst. rewrite Hb. apply IH in Hk. by rewrite Hk.
Qed.

Section grant_facts.
Context {Acc : Type} `{EqDecision Acc}.
Variables (p : profile) (SSC MILLISECS_PER_BLOCK : Z) (from_ss58check : string -> option Acc).

Abbreviation grant_entry := ((Acc * Z) * list (VestingSchedule Acc))%type.

(** One grant: its account is credited the whole amount, and two schedules lock
    all of it up to 36 units of dust, the second one starting when the first ends. *)
Definition grant_ok (grant : string * Z) (r : grant_entry) : Prop :=
  from_ss58check grant.1 = Some r.1.1 /\ r.1.2 = grant.2 * SSC /\
  exists cliff monthly, r.2 = [cliff; monthly] /\ v_who cliff = r.1.1 /\ v_who monthly = r.1.1 /\
    v_start monthly = v_start cliff + v_period cliff /\
    v_period cliff = 12 * v_period monthly /\ v_period_count cliff = 1 /\ v_period_count monthly = 36 /\
    0 <= r.1.2 - (v_period_count cliff * v_per_period cliff
                  + v_period_count monthly * v_per_period monthly) <= 36.

Lemma grant_dust amount : 0 <= amount -> 0 <= amount - (1 * (amount / 4) + 36 * (amount / 48)) <= 36.
Proof.
  intros. pose proof (Z.mul_div_le amount 4). pose proof (Z.mul_succ_div_gt amount 4).
  pose proof (Z.mul_div_le amount 48). pose proof (Z.mul_succ_div_gt amount 48). lia.
Qed.

(** Amounts and block numbers of the grants stay in range. *)
Definition vesting_in_range : Prop :=
  0 <= SSC /\ 3000000 * SSC < 2 ^ 128 /\ 0 <= MILLISECS_PER_BLOCK /\
  100000000 + 12 * (2592000 * MILLISECS_PER_BLOCK / 1000) < 2 ^ 32.

Lemma vesting_month : vesting_in_range ->
  one_month_in_blocks p MILLISECS_PER_BLOCK = Ret (2592000 * MILLISECS_PER_BLOCK / 1000).
Proof.
  intros (_ & _ & Hm & Hb). unfold one_month_in_blocks, mul_u.
  change (3600 * 24 * 30) with 2592000.
  pose proof (Z.mul_succ_div_gt (2592000 * MILLISECS_PER_BLOCK) 1000).
  pose proof (Z.div_pos (2592000 * MILLISECS_PER_BLOCK) 1000).
  rewrite arith_exact by (unfold in_u; lia). cbn -[Z.div Z.mul].
  unfold try_into_u. rewrite decide_True by (unfold in_u; lia). done.
Qed.

Lemma vesting_of_grant_ok grant acc : vesting_in_range -> 0 < grant.2 <= 3000000 ->
  from_ss58check grant.1 = Some acc ->
  exists r, vesting_of_grant p SSC MILLISECS_PER_BLOCK from_ss58check grant = Ret r /\ grant_ok grant r.
Proof.
  intros Hr Hg Hacc. pose proof Hr as (HS1 & HS2 & Hm & Hb).
  pose proof (Z.div_pos (2592000 * MILLISECS_PER_BLOCK) 1000).
  assert (Hamount : 0 <= grant.2 * SSC < 2 ^ 128) by nia.
  unfold vesting_of_grant. rewrite Hacc. cbn -[Z.mul Z.div one_month_in_blocks].
  unfold mul_u, add_u. rewrite (arith_exact p 128) by done. cbn -[Z.mul Z.div one_month_in_blocks].
  rewrite vesting_month by done. cbn -[Z.mul Z.div].
  rewrite (arith_exact p 32) by (unfold in_u; lia). cbn -[Z.mul Z.div].
  rewrite (arith_exact p 32) by (unfold in_u; lia). cbn -[Z.mul Z.div].
  eexists. split; [done|]. split; [done|]. split; [done|].
  eexists _, _. split; [done|]. cbn -[Z.mul Z.div]. pose proof (grant_dust (grant.2 * SSC)).
  repeat split; first [reflexivity | lia].
Qed.

Lemma grants_ok balances : vesting_in_range ->
  (forall g, g ∈ TOKEN_GRANTS.*1 -> is_Some (from_ss58check g)) ->
  exists l, grants p SSC MILLISECS_PER_BLOCK from_ss58check balances =
    Ret (balances ++ l.*1, concat l.*2) /\ Forall2 grant_ok TOKEN_GRANTS l.
Proof.
  intros Hr Hacc. unfold grants.
  assert (exists l, Forall2 (fun g r => vesting_of_grant p SSC MILLISECS_PER_BLOCK from_ss58check g = Ret r
            /\ grant_ok g r) TOKEN_GRANTS l) as [l Hl].
  { assert (Hall : Forall (fun g => exists r,
      vesting_of_grant p SSC MILLISECS_PER_BLOCK from_ss58check g = Ret r /\ grant_ok g r) TOKEN_GRANTS).
    { apply Forall_forall. intros g Hg. destruct (Hacc g.1) as [acc Hs].
      - apply list_elem_of_fmap. eauto.
      - apply (vesting_of_grant_ok g acc); [done|by apply token_grants_small|done]. }
    revert Hall. generalize TOKEN_GRANTS as gs. induction gs as [|g gs IH]; intros Hall.
    { exists []. constructor. }
    inversion Hall as [|? ? [r Hr'] Hall']; subst. destruct (IH Hall') as [l Hl]. exists (r :: l).
    by constructor. }
  exists l. split; [|by eapply Forall2_impl; [exact Hl|]; intros ? ? []].
  assert (Hm : mapM (vesting_of_grant p SSC MILLISECS_PER_BLOCK from_ss58check) TOKEN_GRANTS = Ret l).
  { apply mapM_outcome. by eapply Forall2_impl; [exact Hl|]; intros ? ? []. }
  by rewrite Hm.
Qed.

(** Schedules of other accounts do not count. *)
Lemma locked_other (a : Acc) (gs : list (string * Z)) l : Forall2 grant_ok gs l ->
  (a ∉ l.*1.*1) -> locked a (concat l.*2) = 0.
Proof.
  induction 1 as [|g r gs l (_ & _ & cliff & monthly & Hr & Hw1 & Hw2 & _) _ IH]; [done|].
  cbn. rewrite not_elem_of_cons. intros [Hne Hnot]. rewrite locked_app, (IH Hnot), Hr, locked_pair by congruence.
  by rewrite Hw1, decide_False.
Qed.

Lemma locked_within (gs : list (string * Z)) l : Forall2 grant_ok gs l -> NoDup (l.*1.*1) ->
  forall a amount, (a, amount) ∈ l.*1 -> amount - 36 <= locked a (concat l.*2) <= amount.
Proof.
  induction 1 as [|g r gs l Hg Hl IH]; cbn; [by intros _ ? ? ?%elem_of_nil|].
  intros Hnd a amount. apply NoDup_cons in Hnd as [Hnot Hnd]. rewrite elem_of_cons.
  rewrite locked_app. destruct Hg as (_ & _ & cliff & monthly & Hr & Hw1 & Hw2 & _ & _ & Hc1 & Hc2 & Hd).
  rewrite Hr, locked_pair by congruence. rewrite Hw1. intros [Heq|Hin].
  - rewrite (locked_other _ _ _ Hl); [|by rewrite <-Heq in Hnot]. rewrite <-Heq in *. cbn in *.
    rewrite decide_True by done. lia.
  - assert (Hne : r.1.1 <> a).
    { intros Heq. apply Hnot, list_elem_of_fmap. exists (a, amount). by rewrite Heq. }
    rewrite decide_False by done. specialize (IH Hnd a amount Hin). lia.
Qed.

Lemma grants_distinct gs l : Forall2 grant_ok gs l -> NoDup (gs.*1) ->
  (forall a b acc, a ∈ gs.*1 -> b ∈ gs.*1 -> from_ss58check a = Some acc ->
     from_ss58check b = Some acc -> a = b) ->
  NoDup (l.*1.*1) /\ forall acc, acc ∈ l.*1.*1 -> exists a, a ∈ gs.*1 /\ from_ss58check a = Some acc.
Proof.
  induction 1 as [|g r gs l Hg Hl IH]; cbn; intros Hnd Hinj.
  { split; [constructor|]. by intros acc ?%elem_of_nil. }
  apply NoDup_cons in Hnd as [Hnot Hnd].
  destruct IH as [Hnd' Hfrom]; [done|intros; eapply Hinj; set_solver|]. split.
  - apply NoDup_cons. split; [|done]. intros Hin. destruct (Hfrom _ Hin) as (a & Ha & Hs).
    destruct Hg as [Hg _]. rewrite (Hinj g.1 a r.1.1) in Hnot; [done|set_solver..|done|done].
  - intros acc [->|Hin]%elem_of_cons.
    + exists g.1. split; [set_solver|]. apply Hg.
    + destruct (Hfrom _ Hin) as (a & Ha & Hs). exists a. split; [set_solver|done].
Qed.

Lemma grants_length gs l : Forall2 grant_ok gs l -> length (concat l.*2) = (2 * length gs)%nat.
Proof.
  induction 1 as [|g r gs l (_ & _ & c & m & Hr & _) _ IH]; [done|].
  cbn. rewrite length_app, IH, Hr. cbn. lia.
Qed.
End grant_facts.

(** ** Properties *)

(** C38: a month of vesting counts [3600 * 24 * 30 * MILLISECS_PER_BLOCK / 1000]
    blocks; this is the number of blocks produced in 30 days only for blocks of
    exactly one second, since the block time multiplies where it should divide. *)
Theorem vesting_month_length p MILLISECS_PER_BLOCK n : 0 < MILLISECS_PER_BLOCK ->
  one_month_in_blocks p MILLISECS_PER_BLOCK = Ret n ->
  2592000 * MILLISECS_PER_BLOCK < 2 ^ 64 ->
  (n = 2592000 * 1000 / MILLISECS_PER_BLOCK <-> MILLISECS_PER_BLOCK = 1000).
Proof.
  intros Hm. unfold one_month_in_blocks, mul_u. change (3600 * 24 * 30) with 2592000.
  intros Hn Hb. rewrite arith_exact in Hn by (unfold in_u; lia).
  apply expect_Ret, try_into_u_Some in Hn as [-> _].
  replace (2592000 * MILLISECS_PER_BLOCK / 1000) with (2592 * MILLISECS_PER_BLOCK)
    by (apply Z.div_unique_exact; lia).
  set (m := MILLISECS_PER_BLOCK) in *. split; [|by intros ->].
  intros Heq. pose proof (Z.mul_div_le (2592000 * 1000) m Hm).
  pose proof (Z.mul_succ_div_gt (2592000 * 1000) m Hm). rewrite <-Heq in *.
  destruct (Z.lt_trichotomy m 1000) as [Hlt|[Heq'|Hgt]]; [|done|]; nia.
Qed.

Lemma vesting_month_length_witness :
  one_month_in_blocks Release 6000 = Ret 15552000 /\ 15552000 <> 2592000 * 1000 / 6000.
Proof.
  split; [reflexivity|]. intros Heq.
  assert (H : 6000 = 1000); [|discriminate].
  apply (proj1 (vesting_month_length Release 6000 15552000 ltac:(lia) eq_refl ltac:(lia))). exact Heq.
Defined.

Section genesis_properties.
Context {Acc Raw : Type} `{EqDecision Acc}.
Variables (p : profile) (SSC MILLISECS_PER_BLOCK : Z).
Variables (WASM_BINARY EVM_WASM_BINARY : option (list Z)) (used_addresses : list Z).
Variable account20_from_str : string -> option Z.
Variable from_ss58check : string -> option Acc.
Variable build_raw_genesis : EvmGenesis -> option Raw.

(** C35: the genesis of a compiled test network is consistent.  With block times
    and amounts in range and well-formed addresses that denote different
    accounts, it is built without overflow, the sudo account owns the chain and
    its domain and is funded, no account is credited twice, and every account
    with a vesting schedule has the locked amount on its balance: all of it but
    at most 36 units is locked. *)
Theorem testnet_genesis_consistent sudo_address spec_id params domain_params evm wasm sudo raw :
  vesting_in_range SSC MILLISECS_PER_BLOCK ->
  (forall g, g ∈ TOKEN_GRANTS.*1 -> is_Some (from_ss58check g)) ->
  from_ss58check sudo_address = Some sudo -> (sudo_address ∉ TOKEN_GRANTS.*1) ->
  (forall a b acc, a ∈ sudo_address :: TOKEN_GRANTS.*1 -> b ∈ sudo_address :: TOKEN_GRANTS.*1 ->
     from_ss58check a = Some acc -> from_ss58check b = Some acc -> a = b) ->
  WASM_BINARY = Some wasm ->
  get_testnet_genesis_by_spec_id SSC EVM_WASM_BINARY used_addresses account20_from_str p spec_id = Ret evm ->
  build_raw_genesis evm = Some raw ->
  exists g, testnet_config p SSC MILLISECS_PER_BLOCK WASM_BINARY EVM_WASM_BINARY used_addresses
    account20_from_str from_ss58check build_raw_genesis sudo_address spec_id params domain_params = Ret g /\
  g_sudo_key g = Some sudo /\
  (exists d, g_domain g = Some d /\ gd_owner_account_id d = sudo /\ gd_raw_genesis_storage d = raw) /\
  (sudo, 1000 * SSC) ∈ g_balances g /\
  NoDup (g_balances g).*1 /\
  length (g_vesting g) = (2 * length TOKEN_GRANTS)%nat /\
  (forall v, v ∈ g_vesting g -> v_who v ∈ (g_balances g).*1) /\
  forall a amount, (a, amount) ∈ g_balances g -> a <> sudo ->
    amount - 36 <= locked a (g_vesting g) <= amount.
Proof.
  intros Hr Hgrants Hsudo Hnot Hinj Hwasm Hevm Hraw. pose proof Hr as (HS1 & HS2 & _ & _).
  unfold testnet_config. rewrite Hsudo. cbn -[Z.mul grants subspace_genesis_config].
  unfold mul_u. rewrite (arith_exact p 128) by (unfold in_u; lia).
  cbn -[Z.mul grants subspace_genesis_config].
  destruct (grants_ok p SSC MILLISECS_PER_BLOCK from_ss58check [(sudo, 1000 * SSC)] Hr Hgrants)
    as (l & -> & Hl).
  cbn -[Z.mul subspace_genesis_config concat]. rewrite Hwasm. cbn -[Z.mul subspace_genesis_config concat].
  unfold subspace_genesis_config. rewrite Hevm. cbn -[Z.mul concat]. rewrite Hraw. cbn -[Z.mul concat].
  unfold mul_u. rewrite (arith_exact p 128) by (unfold in_u; lia). cbn -[Z.mul concat].
  destruct (grants_distinct SSC from_ss58check _ _ Hl token_grants_distinct) as [Hnd Hfrom].
  { intros a b acc Ha Hb. apply Hinj; apply elem_of_cons; by right. }
  assert (Hsudo_new : sudo ∉ l.*1.*1).
  { intros Hin. destruct (Hfrom _ Hin) as (a & Ha & Hs). apply Hnot.
    rewrite (Hinj sudo_address a sudo); [done|apply elem_of_cons; by left|
      apply elem_of_cons; by right|done|done]. }
  eexists. split; [done|]. cbn -[Z.mul Nat.mul concat TOKEN_GRANTS]. split; [done|]. split; [by eexists|].
  split; [apply elem_of_cons; by left|]. split; [by apply NoDup_cons|]. split; [|split].
  - exact (grants_length SSC from_ss58check _ _ Hl).
  - intros v Hv. apply elem_of_cons. right. apply list_elem_of_In, in_concat in Hv.
    destruct Hv as (vs & Hvs & Hv). rewrite <-!list_elem_of_In in *.
    apply list_elem_of_fmap in Hvs as (r & -> & Hr').
    assert (exists g, grant_ok SSC from_ss58check g r) as [g (_ & _ & c & m & Hr2 & Hw1 & Hw2 & _)].
    { clear -Hl Hr'. induction Hl as [|g r' gs l Hg _ IH]; [by apply elem_of_nil in Hr'|].
      apply elem_of_cons in Hr' as [->|?]; eauto. }
    rewrite Hr2 in Hv. apply list_elem_of_fmap. exists r.1. split.
    + rewrite !elem_of_cons in Hv. destruct Hv as [->|[->|Hv]]; [done..|by apply elem_of_nil in Hv].
    + apply list_elem_of_fmap. eauto.
  - intros a amount Hin Hne. apply elem_of_cons in Hin as [[= -> _]|Hin]; [done|].
    by apply (locked_within SSC from_ss58check _ _ Hl Hnd).
Qed.
End genesis_properties.

(** Addresses that denote themselves and EVM accounts that all decode. *)
Lemma testnet_genesis_consistent_witness :
  exists g, gemini_3g_genesis (Acc := string) (Raw := EvmGenesis) Debug (10 ^ 18) 6000 (Some [1]) (Some [2]) [7]
    (fun _ => Some 9) Some Some = Ret g /\
  g_sudo_key g = Some "5DNwQTHfARgKoa2NdiUM51ZUow7ve5xG9S2yYdSbVQcnYxBA"%string /\
  NoDup (g_balances g).*1.
Proof.
  destruct (testnet_genesis_consistent (Acc := string) (Raw := EvmGenesis) Debug (10 ^ 18) 6000
    (Some [1]) (Some [2]) [7] (fun _ => Some 9) Some Some
    "5DNwQTHfARgKoa2NdiUM51ZUow7ve5xG9S2yYdSbVQcnYxBA" SpecGemini
    (mkGenesisParams false false
       (RootFarmer "8aecbcf0b404590ddddc01ebacb205a562d12fdb5c2aa6a4035c1a20f23c9515"%string)
       200032000 true true 100)
    (fun sudo_account => mkGenesisDomainParams "nova" (Operators [sudo_account]) gemini_signing_key)
    (mkEvmGenesis [2] (Some 9) [(9, 1000000 * 10 ^ 18)] [(7, revert_bytecode)]) [1]
    "5DNwQTHfARgKoa2NdiUM51ZUow7ve5xG9S2yYdSbVQcnYxBA"
    (mkEvmGenesis [2] (Some 9) [(9, 1000000 * 10 ^ 18)] [(7, revert_bytecode)]))
    as (g & Hg & Hsudo & _ & _ & Hnd & _).
  - unfold vesting_in_range. repeat split; vm_compute; first [reflexivity | discriminate].
  - intros g _. eexists. reflexivity.
  - reflexivity.
  - apply (bool_decide_unpack _). vm_compute. exact I.
  - intros a b acc _ _ [= ->] [= ->]. reflexivity.
  - reflexivity.
  - reflexivity.
  - reflexivity.
  - exists g. split; [exact Hg|]. split; [exact Hsudo|exact Hnd].
Defined.
