(* ===== verification/Domain.v ===== *)
(** The domain node (node/src/domains/builder.rs, domain.rs and
    domain_instance_starter.rs): its configuration, the two tasks
    [DomainConfig::build] starts, the bootstrapper and the runner, and
    [Domain::close].

    The tasks and their environment form a transition system.  A poll of a task
    runs it to its next await point; one-shot channels are the interface
    [Oneshot]; what happens outside (the end of the bootstrapping, of the domain
    itself, a drop signal) are steps of the environment.  [future::select]
    prefers its left side. *)
From S2P Require Import Prelude Destructors Teardown Tasks Substrate ChainSpec.

#[local] Open Scope Z_scope.

(** ** Configuration *)

Record DomainConfig := mkDomainConfig {
  chain_id : string;
  domain_id : Z;
  maybe_operator_id : option Z;
  additional_args : list string;
  base : Base;
}.

Record DomainConfigBuilder := mkDomainConfigBuilder {
  db_chain_id : option string;
  db_domain_id : option Z;
  db_maybe_operator_id : option (option Z);
  db_additional_args : option (list string);
  db_base : BaseBuilder;
}.

Definition DomainConfigBuilder_default : DomainConfigBuilder :=
  mkDomainConfigBuilder None None None None BaseBuilder_default.

Definition DomainConfigBuilder_configuration (pkg_name pkg_version git_hash : string)
    (b : DomainConfigBuilder) : DomainConfig :=
  mkDomainConfig (default ""%string (db_chain_id b)) (default 0 (db_domain_id b))
    (default None (db_maybe_operator_id b)) (default [] (db_additional_args b))
    (BaseBuilder_build pkg_name pkg_version git_hash (db_base b)).

Definition DomainConfigBuilder_dev : DomainConfigBuilder :=
  mkDomainConfigBuilder (Some "dev"%string) (Some 0) None None
    (derive_base (set_dev_key_seed "//Alice") BaseBuilder_default).
Definition DomainConfigBuilder_gemini_3g : DomainConfigBuilder :=
  mkDomainConfigBuilder (Some "gemini-3g"%string) (Some 0) None None BaseBuilder_default.
Definition DomainConfigBuilder_devnet : DomainConfigBuilder :=
  mkDomainConfigBuilder (Some "devnet"%string) (Some 0) None None BaseBuilder_default.

(** [AccountId32ToAccountId20Converter::convert], on the bytes of the account. *)
Definition AccountId32ToAccountId20 (acc : list Z) : outcome (list Z) := slice acc 0 20.

(** ** Data *)

Inductive DomainBuildingProgress :=
| DefaultProgress | BuildingStarted | Bootstrapped | PreparingToStart | Starting.

Inductive RuntimeType := Evm.

Record BootstrapResult (Raw : Type) := mkBootstrapResult {
  raw_genesis : Raw;
  runtime_type : RuntimeType;
  domain_created_at : Z;
}.
Arguments mkBootstrapResult {Raw}.
Arguments raw_genesis {Raw}.
Arguments runtime_type {Raw}.
Arguments domain_created_at {Raw}.

(** The messages of the runner, by the place they are sent from. *)
Inductive domain_error :=
| BootstrapperFailed (e : string)
| BootstrapperGone
| DomainSpecFailed (e : string)
| PrepareFailed (e : string)
| RunFailed (e : string)
| JoinFailed (e : string).

Inductive cancel_reason :=
| BootstrapWasCancelled (reason : string)
| CancelledWaitingForBootstrap
| CancelledWhileRunning.

#[export] Instance domain_spec_api {G Raw} : ChainSpecApi (ChainSpecOf G * Raw) (list (string * Z)) := {|
  cs_id cs := spec_id cs.1;
  cs_boot_nodes cs := spec_boot_nodes cs.1;
  cs_telemetry_endpoints cs := spec_telemetry cs.1;
|}.

Inductive domain_task := DomainBootstrapper | DomainRunner.

Section domain.
Context {Raw Rpc Json : Type} {Os : Type -> Type} `{Oneshot Os} `{TelemetryApi (list (string * Z)) Json}.

Abbreviation DomainSpec := (ChainSpecOf EvmGenesis * Raw)%type.
Abbreviation DomainConfiguration := (Configuration DomainSpec (list (string * Z))).

(** What the code calls outside the repository. *)
Record domain_externals := mkDomainExternals {
  x_ss58_prefix : Z;
  x_decimal_places : Z;
  x_default_genesis : EvmGenesis;
  x_from_json_file : string -> result string (ChainSpecOf EvmGenesis);
  x_parse_multiaddr : string -> option string;
  x_generate_name : option string;
  x_config_dir : string -> string -> string;
  (** [format!("{}", n)] *)
  x_show : Z -> string;
}.

(** *** Preparing the domain ([DomainInstanceStarter]) *)

Record DomainInstanceStarter := mkStarter {
  service_config : DomainConfiguration;
  starter_operator_id : option Z;
  starter_domain_id : Z;
  starter_runtime_type : RuntimeType;
  additional_arguments : list string;
}.

Record DomainParams := mkDomainParams {
  dp_domain_id : Z;
  dp_domain_config : DomainConfiguration;
  dp_domain_created_at : Z;
  dp_maybe_operator_id : option Z;
  dp_import_throttling_buffer_size : Z;
  dp_provider_base_path : string;
  dp_provider_arguments : list string;
  dp_skip_empty_bundle_production : bool;
}.

(** [domain_service::new_full] builds the node; on success the task that runs
    it is spawned by the caller. *)
Variable new_full : DomainParams -> result string Rpc.
Variable base_path : DomainConfiguration -> string.

Definition prepare_for_start (starter : DomainInstanceStarter) (created_at : Z) : result string Rpc :=
  match starter_runtime_type starter with
  | Evm =>
      new_full (mkDomainParams (starter_domain_id starter) (service_config starter) created_at
                  (starter_operator_id starter) 10 (base_path (service_config starter))
                  (additional_arguments starter) true)
  end.

(** *** State *)

Inductive boot_pc := BootSpawned | BootFetching | BootDone.

Inductive runner_pc :=
| AwaitBootstrap
| GotBootstrap (b : BootstrapResult Raw)
| Configuring (b : BootstrapResult Raw) (spec : DomainSpec)
| Preparing (starter : DomainInstanceStarter) (created_at : Z)
| Prepared
| Running
| RunnerDone
| RunnerPanicked.

(** The task that runs the domain node. *)
Inductive start_task := NotStarted | StartRunning | StartEnded (r : result string (result string unit)).

Record state := mkState {
  current_building_progress : DomainBuildingProgress;
  rpc_handlers : option Rpc;
  boot : boot_pc;
  fetch : option (result string (BootstrapResult Raw));
  bootstrapping_result : Os (result string (TaskOutput (BootstrapResult Raw) string));
  bootstrapping_worker_drop : Os unit;
  runner : runner_pc;
  domain_runner_result : Os (result domain_error (TaskOutput unit cancel_reason));
  domain_runner_drop : Os unit;
  start : start_task;
}.

Context (x : domain_externals) (cfg : DomainConfig) (directory : string).
Variable chain_spec_domains_bootstrap_nodes : list string.

Definition initial : state :=
  mkState DefaultProgress None BootSpawned None os_new os_new AwaitBootstrap os_new os_new NotStarted.

Definition set_progress (p : DomainBuildingProgress) (s : state) : state :=
  mkState p (rpc_handlers s) (boot s) (fetch s) (bootstrapping_result s) (bootstrapping_worker_drop s)
    (runner s) (domain_runner_result s) (domain_runner_drop s) (start s).
Definition set_boot (b : boot_pc) (s : state) : state :=
  mkState (current_building_progress s) (rpc_handlers s) b (fetch s) (bootstrapping_result s)
    (bootstrapping_worker_drop s) (runner s) (domain_runner_result s) (domain_runner_drop s) (start s).
Definition set_fetch (f : option (result string (BootstrapResult Raw))) (s : state) : state :=
  mkState (current_building_progress s) (rpc_handlers s) (boot s) f (bootstrapping_result s)
    (bootstrapping_worker_drop s) (runner s) (domain_runner_result s) (domain_runner_drop s) (start s).
Definition set_runner (r : runner_pc) (s : state) : state :=
  mkState (current_building_progress s) (rpc_handlers s) (boot s) (fetch s) (bootstrapping_result s)
    (bootstrapping_worker_drop s) r (domain_runner_result s) (domain_runner_drop s) (start s).
Definition set_start (t : start_task) (s : state) : state :=
  mkState (current_building_progress s) (rpc_handlers s) (boot s) (fetch s) (bootstrapping_result s)
    (bootstrapping_worker_drop s) (runner s) (domain_runner_result s) (domain_runner_drop s) t.

(** [bootstrapping_result_sender.send(..)], the end of the bootstrapper. *)
Definition boot_finish (r : result string (TaskOutput (BootstrapResult Raw) string)) (s : state) : state :=
  mkState (current_building_progress s) (rpc_handlers s) BootDone (fetch s)
    (os_send r (bootstrapping_result s)) (bootstrapping_worker_drop s)
    (runner s) (domain_runner_result s) (domain_runner_drop s) (start s).

(** [domain_runner_result_sender.send(..); return;] *)
Definition runner_finish (r : result domain_error (TaskOutput unit cancel_reason)) (s : state) : state :=
  mkState (current_building_progress s) (rpc_handlers s) (boot s) (fetch s) (bootstrapping_result s)
    (bootstrapping_worker_drop s) RunnerDone (os_send r (domain_runner_result s))
    (domain_runner_drop s) (start s).

(** A panic drops the sender. *)
Definition runner_panic (s : state) : state :=
  mkState (current_building_progress s) (rpc_handlers s) (boot s) (fetch s) (bootstrapping_result s)
    (bootstrapping_worker_drop s) RunnerPanicked (os_drop_sender (domain_runner_result s))
    (domain_runner_drop s) (start s).

(** *** The bootstrapper *)

Definition bootstrap_error (e : string) : string :=
  String.append "Error while bootstrapping the domain:" (String.append (x_show x (domain_id cfg))
    (String.append " : " e)).
Definition bootstrap_cancelled : string :=
  String.append "received cancellation signal while bootstrapping the domain: "
    (String.append (x_show x (domain_id cfg)) ".").

Definition boot_poll (s : state) : option state :=
  match boot s with
  | BootSpawned => Some (set_boot BootFetching (set_progress BuildingStarted s))
  | BootFetching =>
      match fetch s with
      | Some r => Some (boot_finish (Value <$> map_err bootstrap_error r) s)
      | None =>
          match os_poll (bootstrapping_worker_drop s) with
          | Some _ => Some (boot_finish (Ok (Cancelled bootstrap_cancelled)) s)
          | None => None
          end
      end
  | BootDone => None
  end.

(** *** The runner *)

(** The boot nodes of the chain specification, when there are no others. *)
Definition fallback_boot_nodes (c : DomainConfiguration) : DomainConfiguration :=
  let n := c_network c in
  match n_boot_nodes n with
  | [] =>
      let n' := mkNetworkConfiguration (n_listen_addresses n) chain_spec_domains_bootstrap_nodes
        (n_force_synced n) (n_enable_mdns n) (n_allow_private_ip n) (n_allow_non_globals_in_dht n)
        (n_node_name n) (n_client_version n) (n_node_key_file n) (n_net_config_path n)
        (n_out_peers n) (n_in_peers n) in
      let '(mkConfiguration a1 a2 _ a4 a5 a6 a7 a8 a9 a10 a11 a12 a13 a14 a15 a16 a17 a18 a19 a20 a21
              a22 a23 a24 a25 a26 a27 a28 a29) := c in
      mkConfiguration a1 a2 n' a4 a5 a6 a7 a8 a9 a10 a11 a12 a13 a14 a15 a16 a17 a18 a19 a20 a21
        a22 a23 a24 a25 a26 a27 a28 a29
  | _ => c
  end.

Definition domain_configuration (spec : DomainSpec) : outcome DomainConfiguration :=
  c ← Base_configuration (x_parse_multiaddr x) (x_generate_name x) (x_config_dir x) (base cfg)
        (join directory (String.append "domain-" (x_show x (domain_id cfg)))) spec;
  Ret (fallback_boot_nodes c).

Definition domain_spec_of (b : BootstrapResult Raw) : result string DomainSpec :=
  create_domain_spec (x_ss58_prefix x) (x_decimal_places x) (x_default_genesis x)
    (x_from_json_file x) (chain_id cfg) (raw_genesis b).

Definition runner_poll (s : state) : option state :=
  match runner s with
  | AwaitBootstrap =>
      match os_poll (bootstrapping_result s) with
      | Some (Ok (Ok (Value b))) => Some (set_runner (GotBootstrap b) s)
      | Some (Ok (Ok (Cancelled reason))) =>
          Some (runner_finish (Ok (Cancelled (BootstrapWasCancelled reason))) s)
      | Some (Ok (Err e)) => Some (runner_finish (Err (BootstrapperFailed e)) s)
      | Some (Err _) => Some (runner_finish (Err BootstrapperGone) s)
      | None =>
          match os_poll (domain_runner_drop s) with
          | Some _ => Some (runner_finish (Ok (Cancelled CancelledWaitingForBootstrap)) s)
          | None => None
          end
      end
  | GotBootstrap b =>
      let s := set_progress Bootstrapped s in
      match domain_spec_of b with
      | Ok spec => Some (set_runner (Configuring b spec) s)
      | Err e => Some (runner_finish (Err (DomainSpecFailed e)) s)
      end
  | Configuring b spec =>
      match domain_configuration spec with
      | Ret c =>
          Some (set_runner (Preparing (mkStarter c (maybe_operator_id cfg) (domain_id cfg)
                                         (runtime_type b) (additional_args cfg)) (domain_created_at b))
                  (set_progress PreparingToStart s))
      | Panic _ => Some (runner_panic s)
      end
  | Preparing starter created_at =>
      match prepare_for_start starter created_at with
      | Ok rpc =>
          let s' := set_start StartRunning s in
          Some (mkState (current_building_progress s') (Some rpc) (boot s') (fetch s')
                  (bootstrapping_result s') (bootstrapping_worker_drop s') Prepared
                  (domain_runner_result s') (domain_runner_drop s') (start s'))
      | Err e => Some (runner_finish (Err (PrepareFailed e)) s)
      end
  | Prepared => Some (set_runner Running (set_progress Starting s))
  | Running =>
      match start s with
      | StartEnded (Ok (Ok _)) => Some (runner_finish (Ok (Value tt)) s)
      | StartEnded (Ok (Err e)) => Some (runner_finish (Err (RunFailed e)) s)
      | StartEnded (Err e) => Some (runner_finish (Err (JoinFailed e)) s)
      | _ =>
          match os_poll (domain_runner_drop s) with
          | Some _ => Some (runner_finish (Ok (Cancelled CancelledWhileRunning)) s)
          | None => None
          end
      end
  | RunnerDone | RunnerPanicked => None
  end.

(** *** Steps *)

(** The drop signal of a task: its sender sends, or is dropped. *)
Definition signalled (o o' : Os unit) : Prop :=
  os_poll o = None /\ (o' = os_send tt o \/ o' = os_drop_sender o).

Definition set_boot_drop (o : Os unit) (s : state) : state :=
  mkState (current_building_progress s) (rpc_handlers s) (boot s) (fetch s) (bootstrapping_result s)
    o (runner s) (domain_runner_result s) (domain_runner_drop s) (start s).
Definition set_runner_drop (o : Os unit) (s : state) : state :=
  mkState (current_building_progress s) (rpc_handlers s) (boot s) (fetch s) (bootstrapping_result s)
    (bootstrapping_worker_drop s) (runner s) (domain_runner_result s) o (start s).

Inductive step : state -> state -> Prop :=
| step_boot s s' : boot_poll s = Some s' -> step s s'
| step_runner s s' : runner_poll s = Some s' -> step s s'
| step_fetch s r : boot s = BootFetching -> fetch s = None -> step s (set_fetch (Some r) s)
| step_start s r : start s = StartRunning -> step s (set_start (StartEnded r) s)
| step_drop_boot s o : signalled (bootstrapping_worker_drop s) o -> step s (set_boot_drop o s)
| step_drop_runner s o : signalled (domain_runner_drop s) o -> step s (set_runner_drop o s).

(** *** [Domain::close] *)

(** Awaiting a destructor: give the signal, then wait for the task. *)
Fixpoint poll_boot (n : nat) (s : state) : state :=
  match n with
  | O => s
  | S n' => match boot_poll s with Some s' => poll_boot n' s' | None => s end
  end.
Fixpoint poll_runner (n : nat) (s : state) : state :=
  match n with
  | O => s
  | S n' => match runner_poll s with Some s' => poll_runner n' s' | None => s end
  end.

Definition await_task (t : domain_task) (s : state) : state :=
  match t with
  | DomainBootstrapper => poll_boot 2 (set_boot_drop (os_send tt (bootstrapping_worker_drop s)) s)
  | DomainRunner => poll_runner 6 (set_runner_drop (os_send tt (domain_runner_drop s)) s)
  end.

Definition run_event_in {F I} (e : event F domain_task I) (s : state) : state :=
  match e with AwaitedAsync t => await_task t s | _ => s end.

Inductive close_error := DestructorFailed (e : string) | ResultGone | DomainFailed (e : domain_error).

(** The result of the runner, as [close] reports it. *)
Definition close_result (r : result domain_error (TaskOutput unit cancel_reason)) : result close_error unit :=
  match r with
  | Err e => Err (DomainFailed e)
  | Ok (Value _) => Ok tt
  | Ok (Cancelled _) => Ok tt
  end.

(** The two destructors, in the order of registration. *)
Definition domain_entries {F I} : list (entry F domain_task I) :=
  [EAsync DomainBootstrapper; EAsync DomainRunner].

Definition domain_destructors {D F I} `{TeardownApi D F domain_task I} : D * result string unit :=
  td_register domain_entries
    (td_new (String.append "domain-" (String.append (x_show x (domain_id cfg)) "-worker-destructor"))).

(** [None]: still waiting. *)
Definition Domain_close {D F I} `{TeardownApi D F domain_task I} (d : D) (s : state)
    : outcome (option (state * result close_error unit)) :=
  r ← td_async_drop (fun _ => true) d;
  match r with
  | None => Ret None
  | Some (_, Err e) => Ret (Some (s, Err (DestructorFailed e)))
  | Some (es, Ok _) =>
      let s' := foldl (fun s e => run_event_in e s) s es in
      match runner s' with
      | RunnerPanicked => Panic "If joining is failing; that means the future being joined panicked"
      | _ =>
      match os_poll (domain_runner_result s') with
      | None => Ret None
      | Some (Err _) => Ret (Some (s', Err ResultGone))
      | Some (Ok r) => Ret (Some (s', close_result r))
      end
      end
  end.
End domain.

(** ** Lemmas *)

Section domain_facts.
Context {Raw Rpc Json : Type} {Os : Type -> Type} `{OneshotLaws Os} `{TelemetryApi (list (string * Z)) Json}.
Context (new_full : @DomainParams Raw -> result string Rpc).
Context (base_path : Configuration (ChainSpecOf EvmGenesis * Raw) (list (string * Z)) -> string).
Context (x : domain_externals) (cfg : DomainConfig) (directory : string).
Context (chain_spec_domains_bootstrap_nodes : list string).

Abbreviation St := (@state Raw Rpc Os).
Abbreviation domain_step := (step new_full base_path x cfg directory chain_spec_domains_bootstrap_nodes).
Abbreviation boot_task := (boot_poll x cfg).
Abbreviation runner_task :=
  (runner_poll new_full base_path x cfg directory chain_spec_domains_bootstrap_nodes).
Implicit Types s : St.

Definition rank (p : DomainBuildingProgress) : nat :=
  match p with
  | DefaultProgress => 0 | BuildingStarted => 1 | Bootstrapped => 2
  | PreparingToStart => 3 | Starting => 4
  end.

Definition finished s : Prop := runner s = RunnerDone \/ runner s = RunnerPanicked.

(** What the progress, the channels and the counters of the two tasks say about
    each other. *)
Record consistent s : Prop := {
  con_boot : match boot s with
    | BootSpawned => os_poll (bootstrapping_result s) = None /\ current_building_progress s = DefaultProgress
        /\ fetch s = None
    | BootFetching => os_poll (bootstrapping_result s) = None
        /\ current_building_progress s = BuildingStarted
    | BootDone => os_poll (bootstrapping_result s) <> None /\ current_building_progress s <> DefaultProgress
    end;
  con_runner : match runner s with
    | AwaitBootstrap => (rank (current_building_progress s) <= 1)%nat /\ start s = NotStarted
    | GotBootstrap _ => boot s = BootDone /\ current_building_progress s = BuildingStarted /\ start s = NotStarted
    | Configuring _ _ => boot s = BootDone /\ current_building_progress s = Bootstrapped /\ start s = NotStarted
    | Preparing _ _ => boot s = BootDone /\ current_building_progress s = PreparingToStart /\ start s = NotStarted
    | Prepared => boot s = BootDone /\ current_building_progress s = PreparingToStart /\ start s <> NotStarted
    | Running => boot s = BootDone /\ current_building_progress s = Starting /\ start s <> NotStarted
    | _ => current_building_progress s = Starting -> start s <> NotStarted
    end;
  con_rpc : is_Some (rpc_handlers s) <-> start s <> NotStarted;
  con_result : os_poll (domain_runner_result s) = None <-> ~ finished s;
}.

Lemma consistent_initial : consistent initial.
Proof.
  split; cbn; rewrite ?os_poll_new; unfold finished; cbn; [by auto|by auto| |].
  - split; [by intros []|done].
  - split; [intros _ [?|?]; done|done].
Qed.

Lemma boot_poll_spec s s' : boot_task s = Some s' -> consistent s ->
  consistent s' /\ (rank (current_building_progress s) <= rank (current_building_progress s'))%nat /\
  runner s' = runner s /\ domain_runner_drop s' = domain_runner_drop s /\ start s' = start s /\
  domain_runner_result s' = domain_runner_result s.
Proof.
  intros Hp [Hb Hr Hrpc Hres]. unfold boot_poll in Hp. destruct (boot s) eqn:Eb.
  - injection Hp as <-. destruct Hb as (Hb1 & Hb2 & Hb3). split; [|cbn; rewrite Hb2; cbn; by auto with lia].
    split; cbn; [by auto| |done|done].
    destruct (runner s); cbn; rewrite ?Eb in Hr; try (destruct Hr; done || lia); done.
  - assert (exists r, s' = boot_finish r s) as [r ->].
    { destruct (fetch s); [injection Hp as <-; eauto|].
      destruct (os_poll (bootstrapping_worker_drop s)); [|done]. injection Hp as <-. eauto. }
    destruct Hb as [Hb1 Hb2]. split; [|cbn; by auto].
    split; cbn; [rewrite os_poll_send by done; by rewrite Hb2| |done|done].
    destruct (runner s); try done; destruct Hr as [Hr _]; congruence.
  - done.
Qed.

(** The end of the runner, with a result or by a panic. *)
Lemma runner_end_consistent s p o :
  consistent s -> ~ finished s -> (rank (current_building_progress s) <= rank p)%nat ->
  (p = Starting -> start s <> NotStarted) ->
  (boot s <> BootDone -> p = current_building_progress s) ->
  os_poll o <> None -> forall pc, pc = RunnerDone \/ pc = RunnerPanicked ->
  consistent (mkState p (rpc_handlers s) (boot s) (fetch s) (bootstrapping_result s)
    (bootstrapping_worker_drop s) pc o (domain_runner_drop s) (start s)).
Proof.
  intros [Hb Hr Hrpc Hres] Hn Hrank Hst Hp Ho pc Hpc. split; cbn; [| |done|].
  - destruct (boot s); [rewrite Hp by done; done..|]. destruct Hb as [Hb1 Hb2]. split; [done|].
    intros ->. cbn in Hrank. destruct (current_building_progress s); cbn in Hrank; lia || done.
  - by destruct Hpc as [-> | ->].
  - unfold finished. cbn. tauto.
Qed.

Lemma result_sent s r : consistent s -> ~ finished s ->
  os_poll (os_send r (domain_runner_result s)) <> None.
Proof. intros Hcon Hn. rewrite os_poll_send by by apply (con_result _ Hcon). done. Qed.

Lemma result_dropped s : consistent s -> ~ finished s ->
  os_poll (os_drop_sender (domain_runner_result s)) <> None.
Proof. intros Hcon Hn. rewrite os_poll_drop_sender by by apply (con_result _ Hcon). done. Qed.

Lemma runner_poll_spec s s' : runner_task s = Some s' -> consistent s ->
  consistent s' /\ (rank (current_building_progress s) <= rank (current_building_progress s'))%nat /\
  boot s' = boot s /\ fetch s' = fetch s /\ domain_runner_drop s' = domain_runner_drop s /\
  bootstrapping_worker_drop s' = bootstrapping_worker_drop s.
Proof.
  intros Hp Hcon. pose proof Hcon as [Hb Hr Hrpc Hres]. unfold runner_poll in Hp.
  assert (Hfin : runner s <> RunnerDone -> runner s <> RunnerPanicked -> ~ finished s).
  { unfold finished. tauto. }
  assert (Hend : forall r, ~ finished s -> start s = NotStarted \/ start s <> NotStarted ->
    (current_building_progress s = Starting -> start s <> NotStarted) -> consistent (runner_finish r s)).
  { intros r Hn _ Hst. apply (runner_end_consistent s); auto using result_sent. }
  destruct (runner s) eqn:Er.
  - destruct Hr as [Hr1 Hr2]. specialize (Hfin ltac:(done) ltac:(done)).
    assert (Hf : forall r, consistent (runner_finish r s)).
    { intros r. apply Hend; [done|auto|]. intros Hs. rewrite Hs in Hr1. cbn in Hr1. lia. }
    destruct (os_poll (bootstrapping_result s)) as [[[[b|reason]|e]|[]]|] eqn:Eo.
    + injection Hp as <-. split; [|done]. destruct (boot s) eqn:Eb; [by destruct Hb|by destruct Hb|].
      split; cbn; [by rewrite Eb, Eo| |done|].
      * destruct (current_building_progress s); cbn in Hr1; (lia || by destruct Hb || done).
      * rewrite Hres. unfold finished. rewrite Er. cbn. naive_solver.
    + injection Hp as <-. split; [apply Hf|done].
    + injection Hp as <-. split; [apply Hf|done].
    + injection Hp as <-. split; [apply Hf|done].
    + destruct (os_poll (domain_runner_drop s)); [|done]. injection Hp as <-. split; [apply Hf|done].
  - destruct Hr as (Hr1 & Hr2 & Hr3). specialize (Hfin ltac:(done) ltac:(done)). rewrite Hr1 in Hb.
    destruct (domain_spec_of x cfg b) as [spec|e]; injection Hp as <-;
      (split; [|cbn; rewrite ?Hr2; cbn; by auto]).
    + split; cbn; [rewrite Hr1; by destruct Hb|done|done|]. rewrite Hres. unfold finished. rewrite Er. cbn. naive_solver.
    + apply (runner_end_consistent s); [done|done|rewrite Hr2; cbn; lia|done|done| |by auto].
      exact (result_sent s _ Hcon Hfin).
  - destruct Hr as (Hr1 & Hr2 & Hr3). specialize (Hfin ltac:(done) ltac:(done)). rewrite Hr1 in Hb.
    destruct (domain_configuration x cfg directory chain_spec_domains_bootstrap_nodes spec) as [c|w];
      injection Hp as <-; (split; [|cbn; rewrite ?Hr2; cbn; by auto]).
    + split; cbn; [rewrite Hr1; by destruct Hb|done|done|]. rewrite Hres. unfold finished. rewrite Er. cbn. naive_solver.
    + apply (runner_end_consistent s); [done|done|done|congruence|done| |by auto].
      exact (result_dropped s Hcon Hfin).
  - destruct Hr as (Hr1 & Hr2 & Hr3). specialize (Hfin ltac:(done) ltac:(done)). rewrite Hr1 in Hb.
    destruct (prepare_for_start new_full base_path starter created_at) as [rpc|e]; injection Hp as <-;
      (split; [|cbn; rewrite ?Hr2; cbn; by auto]).
    + split; cbn; [rewrite Hr1; by destruct Hb|done|by split; eauto|].
      rewrite Hres. unfold finished. rewrite Er. cbn. naive_solver.
    + apply Hend; [done|auto|]. congruence.
  - destruct Hr as (Hr1 & Hr2 & Hr3). injection Hp as <-. rewrite Hr1 in Hb.
    split; [|cbn; rewrite ?Hr2; cbn; by auto]. split; cbn; [rewrite Hr1; by destruct Hb|done|done|].
    rewrite Hres. unfold finished. rewrite Er. cbn. naive_solver.
  - destruct Hr as (Hr1 & Hr2 & Hr3). specialize (Hfin ltac:(done) ltac:(done)).
    assert (Hf : forall r, consistent (runner_finish r s)) by (intros r; apply Hend; auto).
    destruct (start s) as [| |[[[]|e]|e]]; [done| |injection Hp as <-; split; [apply Hf|done]..].
    destruct (os_poll (domain_runner_drop s)); [|done]. injection Hp as <-. split; [apply Hf|done].
  - done.
  - done.
Qed.

Lemma step_consistent s s' : domain_step s s' -> consistent s ->
  consistent s' /\ (rank (current_building_progress s) <= rank (current_building_progress s'))%nat.
Proof.
  intros Hstep Hcon. destruct Hstep as [s s' Hp|s s' Hp|s r Hb Hf|s r Hs|s o Ho|s o Ho].
  - by destruct (boot_poll_spec _ _ Hp Hcon) as (? & ? & _).
  - by destruct (runner_poll_spec _ _ Hp Hcon) as (? & ? & _).
  - split; [|done]. destruct Hcon as [Hc Hr Hrpc Hres]. split; cbn; [|done..]. rewrite Hb in *. done.
  - split; [|done]. destruct Hcon as [Hc Hr Hrpc Hres]. split; cbn; [done| | |done].
    + destruct (runner s); rewrite Hs in Hr; naive_solver.
    + rewrite Hrpc, Hs. done.
  - split; [|done]. by destruct Hcon.
  - split; [|done]. by destruct Hcon.
Qed.

Lemma reachable_consistent s : rtc domain_step initial s -> consistent s.
Proof.
  intros Hr. apply (invariant_rtc domain_step consistent initial s); [|done|apply consistent_initial].
  intros a b Ha Hab. by apply (step_consistent a b).
Qed.

(** *** The polls a task still needs *)

Definition runner_measure (r : @runner_pc Raw) : nat :=
  match r with
  | AwaitBootstrap => 6 | GotBootstrap _ => 5 | Configuring _ _ => 4 | Preparing _ _ => 3
  | Prepared => 2 | Running => 1 | RunnerDone | RunnerPanicked => 0
  end.
Definition boot_measure (b : boot_pc) : nat :=
  match b with BootSpawned => 2 | BootFetching => 1 | BootDone => 0 end.

Lemma runner_task_measure s s' : runner_task s = Some s' ->
  (runner_measure (runner s') < runner_measure (runner s))%nat.
Proof.
  intros Hp. unfold runner_poll in Hp. destruct (runner s) eqn:Er; cbn in *.
  - destruct (os_poll (bootstrapping_result s)) as [[[[b|reason]|e]|[]]|];
      [injection Hp as <-; cbn; lia..|].
    destruct (os_poll (domain_runner_drop s)); [|done]. injection Hp as <-. cbn. lia.
  - destruct (domain_spec_of x cfg b); injection Hp as <-; cbn; lia.
  - destruct (domain_configuration x cfg directory _ spec); injection Hp as <-; cbn; lia.
  - destruct (prepare_for_start new_full base_path starter created_at); injection Hp as <-; cbn; lia.
  - injection Hp as <-. cbn. lia.
  - destruct (start s) as [| |[[[]|e]|e]] eqn:Es;
      try (destruct (os_poll (domain_runner_drop s)); [|done]);
      injection Hp as <-; cbn; lia.
  - done.
  - done.
Qed.

Lemma boot_task_measure s s' : boot_task s = Some s' ->
  (boot_measure (boot s') < boot_measure (boot s))%nat /\ fetch s' = fetch s /\
  bootstrapping_worker_drop s' = bootstrapping_worker_drop s.
Proof.
  unfold boot_poll. destruct (boot s) eqn:Eb; [|destruct (fetch s) eqn:Ef;
    [|destruct (os_poll (bootstrapping_worker_drop s))]|]; intros [= <-] || done; cbn; auto.
Qed.

(** *** Closing *)

(** A result that was sent is the result of a runner that is done. *)
Definition sent s : Prop := runner s = RunnerDone -> exists r, os_poll (domain_runner_result s) = Some (Ok r).

Lemma runner_finish_sent s r : consistent s -> ~ finished s -> sent (runner_finish r s).
Proof.
  intros Hcon Hn _. exists r. cbn. apply os_poll_send. by apply (con_result _ Hcon).
Qed.

Lemma runner_task_sent s s' : consistent s -> runner_task s = Some s' -> sent s'.
Proof.
  intros Hcon Hp. unfold runner_poll in Hp.
  assert (Hsent : forall r, ~ finished s -> sent (runner_finish r s)) by auto using runner_finish_sent.
  assert (Hn : runner s <> RunnerDone -> runner s <> RunnerPanicked -> ~ finished s).
  { unfold finished. tauto. }
  destruct (runner s) eqn:Er; try specialize (Hn ltac:(done) ltac:(done)).
  - destruct (os_poll (bootstrapping_result s)) as [[[[b|reason]|e]|[]]|];
      [injection Hp as <-; by auto..|].
    destruct (os_poll (domain_runner_drop s)); [|done]. injection Hp as <-. auto.
  - destruct (domain_spec_of x cfg b); injection Hp as <-; [done|].
    intros _. eexists. cbn. apply os_poll_send. by apply (con_result _ Hcon).
  - destruct (domain_configuration x cfg directory _ spec); by injection Hp as <-.
  - destruct (prepare_for_start new_full base_path starter created_at); injection Hp as <-; [done|auto].
  - by injection Hp as <-.
  - destruct (start s) as [| |[[[]|e]|e]]; [| |injection Hp as <-; by auto..].
    + destruct (os_poll (domain_runner_drop s)); [|done]. injection Hp as <-. auto.
    + destruct (os_poll (domain_runner_drop s)); [|done]. injection Hp as <-. auto.
  - done.
  - done.
Qed.

Lemma step_sent s s' : domain_step s s' -> consistent s -> sent s -> sent s'.
Proof.
  intros Hstep Hcon Hsent. destruct Hstep as [s s' Hp|s s' Hp|s r Hb Hf|s r Hs|s o Ho|s o Ho]; try exact Hsent.
  - destruct (boot_poll_spec _ _ Hp Hcon) as (_ & _ & Hr & _ & _ & Hres). unfold sent. by rewrite Hr, Hres.
  - by apply (runner_task_sent s).
Qed.

Lemma reachable_sent s : rtc domain_step initial s -> sent s.
Proof.
  intros Hr. apply (invariant_rtc domain_step (fun s => consistent s /\ sent s) initial s) in Hr as [_ ?]; [done| |].
  - intros a b [Ha1 Ha2] Hab. split; [by apply (step_consistent a b)|by apply (step_sent a b)].
  - split; [apply consistent_initial|done].
Qed.

(** With its drop signal given, the runner never waits for long. *)
Lemma runner_unblocked s : os_poll (domain_runner_drop s) <> None -> runner_task s = None -> finished s.
Proof.
  unfold runner_poll, finished. destruct (os_poll (domain_runner_drop s)); [|done]. intros _.
  destruct (runner s); try by auto.
  - destruct (os_poll (bootstrapping_result s)) as [[[[?|?]|?]|[]]|]; done.
  - destruct (domain_spec_of x cfg b); done.
  - destruct (domain_configuration x cfg directory _ spec); done.
  - destruct (prepare_for_start new_full base_path starter created_at); done.
  - destruct (start s) as [| |[[[]|?]|?]]; done.
Qed.

Abbreviation run_runner :=
  (poll_runner new_full base_path x cfg directory chain_spec_domains_bootstrap_nodes).

(** The configuration of the domain that the bootstrap result asks for panics. *)
Definition configuration_panics (spec : ChainSpecOf EvmGenesis * Raw) : Prop :=
  match domain_configuration x cfg directory chain_spec_domains_bootstrap_nodes spec with
  | Panic _ => True
  | Ret _ => False
  end.
Definition bootstrap_panics (b : BootstrapResult Raw) : Prop :=
  match domain_spec_of x cfg b with Ok spec => configuration_panics spec | Err _ => False end.

(** The runner has panicked, or will when it goes on from the bootstrap result
    that it has or that waits for it. *)
Definition will_panic s : Prop :=
  match runner s with
  | RunnerPanicked => True
  | AwaitBootstrap =>
      match os_poll (bootstrapping_result s) with
      | Some (Ok (Ok (Value b))) => bootstrap_panics b
      | _ => False
      end
  | GotBootstrap b => bootstrap_panics b
  | Configuring _ spec => configuration_panics spec
  | _ => False
  end.

Lemma runner_task_will_panic s s' : runner_task s = Some s' -> (will_panic s' <-> will_panic s).
Proof.
  unfold runner_poll, will_panic, bootstrap_panics, configuration_panics.
  destruct (runner s) eqn:Er.
  - destruct (os_poll (bootstrapping_result s)) as [[[[?|?]|?]|[]]|];
      [intros [= <-]; done..|]. destruct (os_poll (domain_runner_drop s)); [|done]. by intros [= <-].
  - by destruct (domain_spec_of x cfg b); intros [= <-].
  - by destruct (domain_configuration x cfg directory _ spec); intros [= <-].
  - by destruct (prepare_for_start new_full base_path starter created_at); intros [= <-].
  - by intros [= <-].
  - destruct (start s) as [| |[[[]|?]|?]];
      try (destruct (os_poll (domain_runner_drop s)); [|done]); by intros [= <-].
  - done.
  - done.
Qed.

Lemma poll_runner_spec n : forall s, consistent s -> sent s -> os_poll (domain_runner_drop s) <> None ->
  (runner_measure (runner s) <= n)%nat ->
  let s' := run_runner n s in
  consistent s' /\ sent s' /\ finished s' /\ boot s' = boot s /\ fetch s' = fetch s /\
  bootstrapping_worker_drop s' = bootstrapping_worker_drop s /\ (finished s -> s' = s) /\
  (runner s' = RunnerPanicked <-> will_panic s).
Proof.
  induction n as [|n IH]; intros s Hcon Hsent Hdrop Hm; cbn.
  - assert (Hf : finished s).
    { unfold finished. destruct (runner s); cbn in Hm; try lia; auto. }
    split_and!; auto. unfold will_panic. by destruct Hf as [-> | ->].
  - destruct (runner_task s) as [s1|] eqn:Hp.
    + destruct (runner_poll_spec _ _ Hp Hcon) as (Hcon1 & _ & Hb & Hfe & Hd & Hbd).
      pose proof (runner_task_measure _ _ Hp) as Hm1.
      destruct (IH s1) as (? & ? & ? & Hb' & Hf' & Hbd' & _ & Hpanic);
        [done|by apply (runner_task_sent s)|by rewrite Hd|lia|].
      split_and!; [done..|congruence|congruence|congruence| |].
      * intros Hf. exfalso. unfold runner_poll in Hp. destruct Hf as [Hf|Hf]; rewrite Hf in Hp; done.
      * by rewrite Hpanic, (runner_task_will_panic s).
    + pose proof (runner_unblocked _ Hdrop Hp) as Hf. split_and!; auto.
      unfold will_panic. by destruct Hf as [-> | ->].
Qed.

Abbreviation run_boot := (poll_boot x cfg).

Lemma poll_boot_spec n : forall s, consistent s -> os_poll (bootstrapping_worker_drop s) <> None ->
  (boot_measure (boot s) <= n)%nat ->
  let s' := run_boot n s in
  consistent s' /\ boot s' = BootDone /\ runner s' = runner s /\ start s' = start s /\
  domain_runner_result s' = domain_runner_result s.
Proof.
  induction n as [|n IH]; intros s Hcon Hdrop Hm; cbn.
  - destruct (boot s) eqn:Eb; cbn in Hm; try lia. by split_and!.
  - destruct (boot_task s) as [s1|] eqn:Hp.
    + destruct (boot_poll_spec _ _ Hp Hcon) as (Hcon1 & _ & Hr & _ & Hst & Hres).
      destruct (boot_task_measure _ _ Hp) as (Hm1 & _ & Hd).
      destruct (IH s1) as (? & ? & ? & ? & ?); [done|by rewrite Hd|lia|].
      split_and!; congruence || done.
    + unfold boot_poll in Hp. destruct (boot s) eqn:Eb; [done| |by split_and!].
      destruct (fetch s); [done|]. by destruct (os_poll (bootstrapping_worker_drop s)).
Qed.

Lemma rtc_poll_runner n : forall s, rtc domain_step s (run_runner n s).
Proof.
  induction n as [|n IH]; intros s; cbn; [done|].
  destruct (runner_task s) as [s'|] eqn:Hp; [|done].
  eapply rtc_l; [by apply step_runner|apply IH].
Qed.

Lemma rtc_poll_boot n : forall s, rtc domain_step s (run_boot n s).
Proof.
  induction n as [|n IH]; intros s; cbn; [done|].
  destruct (boot_task s) as [s'|] eqn:Hp; [|done].
  eapply rtc_l; [by apply step_boot|apply IH].
Qed.

(** ** Properties *)

(** C18: along every run of the two tasks and their environment the building
    progress never goes back; once it says that the domain is starting, the RPC
    handlers are published and the domain's own task was started; handlers are
    published exactly when that task was started; and the result channel is
    resolved exactly when the runner has ended, so the result is sent once. *)
Theorem domain_progress s s' : rtc domain_step initial s -> domain_step s s' ->
  (rank (current_building_progress s) <= rank (current_building_progress s'))%nat /\
  (current_building_progress s' = Starting -> is_Some (rpc_handlers s') /\ start s' <> NotStarted) /\
  (is_Some (rpc_handlers s') <-> start s' <> NotStarted) /\
  (os_poll (domain_runner_result s') = None <-> ~ finished s').
Proof.
  intros Hr Hstep. destruct (step_consistent _ _ Hstep (reachable_consistent _ Hr)) as [Hcon Hrank].
  split; [done|]. destruct Hcon as [_ Hrun Hrpc Hres]. split; [|done].
  intros Hp. assert (start s' <> NotStarted) as Hs; [|by rewrite Hrpc].
  destruct (runner s'); rewrite Hp in Hrun; cbn in Hrun; try (by apply Hrun); naive_solver lia.
Qed.

Section closing.
Context {D F I : Type} `{TeardownLaws D F domain_task I}.

Lemma close_runs (d : D) s : td_holds d true (domain_entries (F := F) (I := I)) ->
  Domain_close new_full base_path x cfg directory chain_spec_domains_bootstrap_nodes d s =
  let s' := await_task new_full base_path x cfg directory chain_spec_domains_bootstrap_nodes
    DomainBootstrapper (await_task new_full base_path x cfg directory chain_spec_domains_bootstrap_nodes
    DomainRunner s) in
  match runner s' with
  | RunnerPanicked => Panic "If joining is failing; that means the future being joined panicked"
  | _ => match os_poll (domain_runner_result s') with
         | None => Ret None
         | Some (Err _) => Ret (Some (s', Err ResultGone))
         | Some (Ok r) => Ret (Some (s', close_result r))
         end
  end.
Proof.
  intros Hd. unfold Domain_close.
  rewrite (td_async_drop_runs (fun _ => true) d domain_entries Hd) by (repeat constructor). done.
Qed.

(** The tasks work and nobody has signalled them: their senders are in the set
    of the domain, which is not closed or dropped yet. *)
Definition working s s' : Prop :=
  domain_step s s' /\ domain_runner_drop s' = domain_runner_drop s /\
  bootstrapping_worker_drop s' = bootstrapping_worker_drop s.

Lemma working_reachable s : rtc working initial s ->
  rtc domain_step initial s /\ os_poll (domain_runner_drop s) = None /\
  os_poll (bootstrapping_worker_drop s) = None.
Proof.
  intros Hr.
  enough (forall s0 s, rtc working s0 s -> rtc domain_step s0 s /\ domain_runner_drop s = domain_runner_drop s0 /\
    bootstrapping_worker_drop s = bootstrapping_worker_drop s0) as Hall.
  { destruct (Hall _ _ Hr) as (? & -> & ->). cbn. by rewrite os_poll_new. }
  clear. intros s0 s. induction 1 as [|s0 s1 s (Hstep & Hd1 & Hd2) _ (IH & IH1 & IH2)]; [done|].
  split; [by eapply rtc_l|]. split; congruence.
Qed.

(** C20: closing a domain, from every state its tasks can reach before they are
    told to stop.  Both tasks end, the runner first.  The close panics exactly
    when the runner has panicked or still panics: it has, or is about to be
    given, a bootstrap result for which writing the domain's configuration
    panics.  Otherwise it finds the result of the runner, which is the one
    already sent if there is one, and fails exactly when that is an error. *)
Theorem domain_close_total (d : D) s :
  rtc working initial s -> td_holds d true (domain_entries (F := F) (I := I)) ->
  let close := Domain_close new_full base_path x cfg directory chain_spec_domains_bootstrap_nodes d s in
  (will_panic s <-> exists why, close = Panic why) /\
  (~ will_panic s -> exists s' r, close = Ret (Some (s', close_result r)) /\
     os_poll (domain_runner_result s') = Some (Ok r) /\ runner s' = RunnerDone /\ boot s' = BootDone /\
     (forall r0, os_poll (domain_runner_result s) = Some (Ok r0) -> r = r0) /\
     (close_result r = Ok tt <-> exists o, r = Ok o)).
Proof.
  intros (Hreach & Hd1 & Hd2)%working_reachable Hhold close. unfold close.
  rewrite (close_runs d s Hhold). cbn [await_task].
  set (s1 := set_runner_drop (os_send tt (domain_runner_drop s)) s).
  assert (Hcon1 : consistent s1) by (by destruct (reachable_consistent _ Hreach)).
  destruct (poll_runner_spec 6 s1 Hcon1 (reachable_sent _ Hreach)) as
    (Hcon2 & Hsent2 & Hfin2 & Hb2 & _ & Hbd2 & Hsame & Hpanic).
  { cbn. by rewrite os_poll_send. }
  { destruct (runner s1); cbn; lia. }
  change (will_panic s1) with (will_panic s) in Hpanic. set (s2 := run_runner 6 s1) in *.
  assert (Hpend2 : os_poll (bootstrapping_worker_drop s2) = None) by (rewrite Hbd2; exact Hd2).
  set (s3 := set_boot_drop (os_send tt (bootstrapping_worker_drop s2)) s2).
  assert (Hcon3 : consistent s3) by by destruct Hcon2.
  destruct (poll_boot_spec 2 s3 Hcon3) as (_ & Hb & Hr & Hst & Hres).
  { unfold s3. cbn [set_boot_drop bootstrapping_worker_drop]. by rewrite (os_poll_send _ _ Hpend2). }
  { destruct (boot s3); cbn; lia. }
  cbn zeta. rewrite Hr, Hres. cbn [s3 set_boot_drop runner domain_runner_result].
  destruct Hfin2 as [Hdone|Hpan]; cycle 1.
  { rewrite Hpan. split; [|by rewrite <-Hpanic]. rewrite <-Hpanic. split; [by eexists|done]. }
  destruct (Hsent2 Hdone) as [r Hr2]. rewrite Hdone in Hpanic |- *. rewrite Hr2. split.
  { rewrite <-Hpanic. split; [done|]. by intros [? ?]. }
  intros _. eexists _, r. split; [done|]. rewrite Hres, Hr. cbn.
  split_and!; [done|done|done| |].
  - intros r0 Hr0. assert (Hf : finished s1).
    { destruct (runner s1) eqn:E1; try (by left); try (by right);
        exfalso; apply (con_result _ Hcon1) in Hr0 || idtac;
        (assert (Hpend : os_poll (domain_runner_result s1) = None);
         [apply (con_result _ Hcon1); unfold finished; rewrite E1; naive_solver|cbn in Hpend; congruence]). }
    rewrite (Hsame Hf) in Hr2. cbn in Hr2. congruence.
  - destruct r as [[|]|]; cbn; naive_solver.
Qed.

(** C23: closing a domain that is running returns [Ok], but only the runner that
    watches the domain is ended: the task that runs the domain node itself has
    no drop signal, its join handle is dropped, and it still runs afterwards,
    with its RPC handlers published. *)
Theorem domain_close_detaches (d : D) s :
  rtc domain_step initial s -> runner s = Running -> start s = StartRunning ->
  os_poll (domain_runner_drop s) = None -> os_poll (bootstrapping_worker_drop s) = None ->
  td_holds d true (domain_entries (F := F) (I := I)) ->
  exists s', Domain_close new_full base_path x cfg directory chain_spec_domains_bootstrap_nodes d s =
    Ret (Some (s', Ok tt)) /\ start s' = StartRunning /\ is_Some (rpc_handlers s').
Proof.
  intros Hreach Hrun Hst Hd1 Hd2 Hhold. rewrite (close_runs d s Hhold).
  pose proof (reachable_consistent _ Hreach) as Hcon. pose proof Hcon as [Hb Hr Hrpc Hres].
  rewrite Hrun in Hr. destruct Hr as (Hboot & _ & Hns).
  assert (Hpend : os_poll (domain_runner_result s) = None).
  { apply Hres. unfold finished. rewrite Hrun. naive_solver. }
  set (s1 := set_runner_drop (os_send tt (domain_runner_drop s)) s).
  set (s2 := runner_finish (Ok (Cancelled CancelledWhileRunning)) s1).
  assert (Hrun6 : run_runner 6 s1 = s2).
  { assert (Hp : runner_task s1 = Some s2).
    { unfold runner_poll. change (runner s1) with (runner s). rewrite Hrun.
      change (start s1) with (start s). rewrite Hst.
      change (domain_runner_drop s1) with (os_send tt (domain_runner_drop s)). by rewrite os_poll_send. }
    cbn [poll_runner]. by rewrite Hp. }
  cbn [await_task]. fold s1. rewrite Hrun6.
  assert (Hboot2 : forall o, run_boot 2 (set_boot_drop o s2) = set_boot_drop o s2).
  { intros o. cbn [poll_boot]. unfold boot_poll. change (boot (set_boot_drop o s2)) with (boot s).
    by rewrite Hboot. }
  cbn zeta. rewrite Hboot2. cbn [runner domain_runner_result set_boot_drop s2 runner_finish s1 set_runner_drop].
  rewrite os_poll_send by done. eexists. split; [done|]. cbn. split; [done|]. by apply Hrpc.
Qed.
End closing.
End domain_facts.

(** ** Witnesses *)

Section domain_demo.
#[local] Instance demo_domain_telemetry : TelemetryApi (list (string * Z)) (string * Z) := {|
  te_to_json := id; te_from_json := Some; extra_to_json := id; te_new := Some |}.

Definition demo_domain_externals : domain_externals :=
  mkDomainExternals 2254 18 (mkEvmGenesis [] None [] []) (fun _ => Err "no such file"%string) Some
    (Some "demo-name"%string) join (fun _ => "0"%string).
Definition demo_domain_config : DomainConfig :=
  DomainConfigBuilder_configuration "sdk" "0" "0" DomainConfigBuilder_gemini_3g.
Definition demo_new_full (_ : @DomainParams nat) : result string string := Ok "rpc"%string.
Definition demo_bootstrap : BootstrapResult nat := mkBootstrapResult 7%nat Evm 1.

Abbreviation demo_step := (step (Rpc := string) (Os := Cell) demo_new_full (fun _ => ""%string)
  demo_domain_externals demo_domain_config "/tmp" ["boot"%string]).
Abbreviation demo_boot := (poll_boot (Rpc := string) (Os := Cell) demo_domain_externals demo_domain_config).
Abbreviation demo_run := (poll_runner (Rpc := string) (Os := Cell) demo_new_full (fun _ => ""%string)
  demo_domain_externals demo_domain_config "/tmp" ["boot"%string]).

(** The bootstrapper is fetching. *)
Definition demo_fetching : @state nat string Cell := demo_boot 1 initial.
(** The domain was bootstrapped and runs. *)
Definition demo_running : @state nat string Cell :=
  demo_run 5 (demo_boot 1 (set_fetch (Some (Ok demo_bootstrap)) demo_fetching)).

Lemma demo_fetching_reachable : rtc demo_step initial demo_fetching.
Proof. apply rtc_poll_boot. Qed.

Lemma demo_running_reachable : rtc demo_step initial demo_running.
Proof.
  etransitivity; [apply demo_fetching_reachable|]. eapply rtc_l; [by apply step_fetch|].
  etransitivity; [apply (rtc_poll_boot _ _ _ _ _ _ 1)|apply rtc_poll_runner].
Qed.

Definition demo_destructors : DestructorSet unit domain_task unit :=
  (domain_destructors demo_domain_externals demo_domain_config).1.

Lemma demo_destructors_hold : td_holds demo_destructors true domain_entries.
Proof. apply (td_register_holds domain_entries _ []). apply td_holds_new. Qed.

Lemma domain_progress_witness :
  is_Some (rpc_handlers (set_start (StartEnded (Ok (Ok tt))) demo_running)).
Proof.
  pose proof (domain_progress (Os := Cell) demo_new_full (fun _ => ""%string) demo_domain_externals
    demo_domain_config "/tmp" ["boot"%string] demo_running _ demo_running_reachable
    (step_start demo_new_full (fun _ => ""%string) demo_domain_externals demo_domain_config
      "/tmp" ["boot"%string] demo_running (Ok (Ok tt)) eq_refl)) as (_ & Hstart & _).
  apply Hstart. vm_compute. reflexivity.
Defined.

Abbreviation demo_working := (working (Rpc := string) (Os := Cell) demo_new_full (fun _ => ""%string)
  demo_domain_externals demo_domain_config "/tmp" ["boot"%string]).

Lemma demo_fetching_working : rtc demo_working initial demo_fetching.
Proof. apply rtc_once. split; [apply step_boot; vm_compute; reflexivity|split; reflexivity]. Qed.

(** The domain is closed while its bootstrap result is being fetched. *)
Lemma domain_close_total_witness :
  exists s' r, Domain_close demo_new_full (fun _ => ""%string) demo_domain_externals demo_domain_config
    "/tmp" ["boot"%string] demo_destructors demo_fetching = Ret (Some (s', close_result r)) /\
  r = Ok (Cancelled CancelledWaitingForBootstrap).
Proof.
  destruct (proj2 (domain_close_total (Os := Cell) demo_new_full (fun _ => ""%string) demo_domain_externals
    demo_domain_config "/tmp" ["boot"%string] demo_destructors demo_fetching demo_fetching_working
    demo_destructors_hold)) as (s' & r & Hc & Hr & _).
  - vm_compute. intros [].
  - exists s', r. split; [exact Hc|].
    assert (Hs : s' = demo_boot 2 (set_boot_drop (Some (Ok tt))
      (demo_run 6 (set_runner_drop (Some (Ok tt)) demo_fetching)))).
    { rewrite (close_runs (Os := Cell) demo_new_full _ _ _ _ _ demo_destructors demo_fetching
        demo_destructors_hold) in Hc. cbn [await_task] in Hc. revert Hc. vm_compute. congruence. }
    rewrite Hs in Hr. vm_compute in Hr. congruence.
Defined.

Lemma domain_close_detaches_witness :
  exists s', Domain_close demo_new_full (fun _ => ""%string) demo_domain_externals demo_domain_config
    "/tmp" ["boot"%string] demo_destructors demo_running = Ret (Some (s', Ok tt)) /\
  start s' = StartRunning /\ is_Some (rpc_handlers s').
Proof.
  apply (domain_close_detaches (Os := Cell) demo_new_full (fun _ => ""%string) demo_domain_externals
    demo_domain_config "/tmp" ["boot"%string] demo_destructors demo_running).
  - exact demo_running_reachable.
  - vm_compute. reflexivity.
  - vm_compute. reflexivity.
  - vm_compute. reflexivity.
  - vm_compute. reflexivity.
  - exact demo_destructors_hold.
Defined.
End domain_demo.
