(* ===== verification/Dsn.v ===== *)
(** The DSN of a node (dsn/src/builder.rs): its configuration, presets and
    [Dsn::build_dsn], which turns the configuration into the one of
    subspace-networking, wires the request handlers to the slots it shares with
    the farmer and starts with both slots empty. *)
From S2P Require Import Prelude Destructors Teardown Substrate Traits Pieces.

#[local] Open Scope Z_scope.

(** ** Configuration *)

Definition ListenAddresses_default : list string := ["/ip4/127.0.0.1/tcp/0"%string].
Definition InConnections_default : Z := 300.
Definition OutConnections_default : Z := 150.
Definition TargetConnections_default : Z := 15.
Definition PendingInConnections_default : Z := 100.
Definition PendingOutConnections_default : Z := 150.

Record Dsn := mkDsn {
  provider_storage_path : option string;
  dsn_listen_addresses : list string;
  dsn_boot_nodes : list string;
  external_addresses : list string;
  reserved_nodes : list string;
  allow_non_global_addresses_in_dht : bool;
  in_connections : Z;
  out_connections : Z;
  pending_in_connections : Z;
  pending_out_connections : Z;
  target_connections : Z;
}.

Record DsnBuilder := mkDsnBuilder {
  nb_provider_storage_path : option string;
  nb_listen_addresses : option (list string);
  nb_boot_nodes : option (list string);
  nb_external_addresses : option (list string);
  nb_reserved_nodes : option (list string);
  nb_allow_non_global_addresses_in_dht : option bool;
  nb_in_connections : option Z;
  nb_out_connections : option Z;
  nb_pending_in_connections : option Z;
  nb_pending_out_connections : option Z;
  nb_target_connections : option Z;
}.

Definition DsnBuilder_default : DsnBuilder :=
  mkDsnBuilder None None None None None None None None None None None.

Definition DsnBuilder_build (b : DsnBuilder) : Dsn :=
  mkDsn (nb_provider_storage_path b)
    (default ListenAddresses_default (nb_listen_addresses b))
    (default [] (nb_boot_nodes b)) (default [] (nb_external_addresses b))
    (default [] (nb_reserved_nodes b)) (default false (nb_allow_non_global_addresses_in_dht b))
    (default InConnections_default (nb_in_connections b))
    (default OutConnections_default (nb_out_connections b))
    (default PendingInConnections_default (nb_pending_in_connections b))
    (default PendingOutConnections_default (nb_pending_out_connections b))
    (default TargetConnections_default (nb_target_connections b)).

Definition DsnBuilder_dev : DsnBuilder :=
  mkDsnBuilder None None None None None (Some true) None None None None None.
Definition dsn_listen : list string := ["/ip6/::/tcp/30433"; "/ip4/0.0.0.0/tcp/30433"]%string.
Definition DsnBuilder_gemini_3g : DsnBuilder :=
  mkDsnBuilder None (Some dsn_listen) None None None None None None None None None.
Definition DsnBuilder_devnet : DsnBuilder :=
  mkDsnBuilder None (Some dsn_listen) None None None None None None None None None.

(** ** [build_dsn] *)

Section build_dsn.
Context {Keypair NetworkNode Runner Registry PeerId KnownPeers PieceIndex Cache Readers : Type}.
Context {PieceResponse SegmentRequest SegmentResponse Store D : Type} `{TeardownApi D unit unit nat}.

Record DsnOptions := mkDsnOptions {
  genesis_hash_hex : string;
  dsn_base_path : string;
  keypair : Keypair;
  get_piece_by_index : PieceIndex -> option (option Readers) -> option Cache -> option PieceResponse;
  get_segment_headers : SegmentRequest -> Store -> option SegmentResponse;
  segment_header_store : Store;
  is_metrics_enabled : bool;
}.

(** The slots shared with the farmer; [None]: empty. *)
Record DsnSlots := mkDsnSlots { farmer_readers_slot : option Readers; farmer_cache_slot : option Cache }.

(** [None] for a handler that does not answer. *)
Inductive DsnRequest := PieceRequest (i : PieceIndex) | HeadersRequest (r : SegmentRequest).
Inductive DsnResponse := PieceAnswer (r : PieceResponse) | HeadersAnswer (r : SegmentResponse).

(** The fields of [subspace_networking::Config] that are set. *)
Record NetworkingConfig := mkNetworkingConfig {
  protocol_version : string;
  listen_on : list string;
  nc_allow_non_global_addresses_in_dht : bool;
  networking_parameters_registry : KnownPeers;
  (** the handlers look at the slots when a request arrives *)
  request_response : DsnRequest -> DsnSlots -> option DsnResponse;
  reserved_peers : list string;
  max_established_incoming_connections : Z;
  max_established_outgoing_connections : Z;
  max_pending_incoming_connections : Z;
  max_pending_outgoing_connections : Z;
  bootstrap_addresses : list string;
  nc_external_addresses : list string;
  general_connected_peers_target : Z;
  special_connected_peers_target : Z;
  general_connected_peers_limit : Z;
  special_connected_peers_limit : Z;
  has_metrics : bool;
}.

Record DsnShared := mkDsnShared {
  dsn_node : NetworkNode;
  dsn_slots : DsnSlots;
  dsn_destructors : D;
}.

(** What the code calls outside the repository. *)
Record dsn_externals := mkDsnExternals {
  nx_profile : profile;
  nx_parse_multiaddr : string -> option string;
  nx_strip_peer_id : list string -> list (PeerId * string);
  (** path, peers to ignore *)
  KnownPeersManager_new : string -> list PeerId -> result string KnownPeers;
  construct : NetworkingConfig -> Keypair -> result string (NetworkNode * Runner);
  Registry_default : Registry;
}.
Context (x : dsn_externals).

Definition convert (l : list string) : outcome (list string) :=
  mapM (convert_multiaddr (nx_parse_multiaddr x)) l.

(** A weak pointer to the readers' slot: the slot lives as long as [DsnShared]. *)
Definition dsn_handlers (options : DsnOptions) (req : DsnRequest) (slots : DsnSlots) : option DsnResponse :=
  match req with
  | PieceRequest i =>
      PieceAnswer <$> get_piece_by_index options i (Some (farmer_readers_slot slots)) (farmer_cache_slot slots)
  | HeadersRequest r => HeadersAnswer <$> get_segment_headers options r (segment_header_store options)
  end.

Definition networking_config (dsn : Dsn) (options : DsnOptions) (bootstrap_nodes listen : list string)
    (registry : KnownPeers) : outcome NetworkingConfig :=
  reserved ← convert (reserved_nodes dsn);
  external ← convert (external_addresses dsn);
  let max_in := in_connections dsn in
  special_limit ← add_u (nx_profile x) 32 (target_connections dsn) (max_in / 4);
  Ret (mkNetworkingConfig (genesis_hash_hex options) listen (allow_non_global_addresses_in_dht dsn)
         registry (dsn_handlers options) reserved max_in (out_connections dsn)
         (pending_in_connections dsn) (pending_out_connections dsn) bootstrap_nodes external
         0 (target_connections dsn) (max_in / 4) special_limit (is_metrics_enabled options)).

(** The listener callback, handler number 0, is an item of the destructor set. *)
Definition build_dsn (dsn : Dsn) (options : DsnOptions)
    : outcome (result string (DsnShared * Runner * option Registry)) :=
  bootstrap_nodes ← convert (dsn_boot_nodes dsn);
  listen ← convert (dsn_listen_addresses dsn);
  match KnownPeersManager_new x (join (dsn_base_path options) "known_addresses.bin")
          (nx_strip_peer_id x bootstrap_nodes).*1 with
  | Err _ => Ret (Err "Failed to open known addresses database for DSN"%string)
  | Ok registry =>
      config ← networking_config dsn options bootstrap_nodes listen registry;
      match construct x config (keypair options) with
      | Err e => Ret (Err e)
      | Ok (node, runner) =>
          match td_add_item 0%nat (td_new_without_async "dsn-destructors") with
          | (_, Err e) => Ret (Err e)
          | (destructors, Ok _) =>
              Ret (Ok (mkDsnShared node (mkDsnSlots None None) destructors, runner,
                       if is_metrics_enabled options then Some (Registry_default x) else None))
          end
      end
  end.
End build_dsn.
Arguments DsnOptions : clear implicits.
Arguments dsn_externals : clear implicits.
Arguments DsnSlots : clear implicits.

(** ** Properties *)

Section dsn_properties.
Context {Keypair NetworkNode Runner Registry PeerId KnownPeers PieceIndex Cache Readers : Type}.
Context {PieceResponse SegmentRequest SegmentResponse Store : Type}.
Context (x : dsn_externals Keypair NetworkNode Runner Registry PeerId KnownPeers PieceIndex Cache
              Readers PieceResponse SegmentRequest SegmentResponse).
Implicit Types (options : DsnOptions Keypair PieceIndex Cache Readers PieceResponse SegmentRequest
                            SegmentResponse Store).

Lemma convert_id l : (forall a, a ∈ l -> nx_parse_multiaddr x a = Some a) -> convert x l = Ret l.
Proof.
  intros Hl. unfold convert. rewrite (mapM_Ret _ id); [by rewrite list_fmap_id|].
  intros a Ha. unfold convert_multiaddr. by rewrite (Hl a Ha).
Qed.

(** Every address is replaced by what it parses to; none is lost. *)
Lemma convert_Ret l l' : convert x l = Ret l' <-> Forall2 (fun a b => nx_parse_multiaddr x a = Some b) l l'.
Proof.
  unfold convert. revert l'. induction l as [|a l IH]; intros l'; cbn; unfold_monad.
  { split; [by intros [= <-]|]. intros Hl. by inversion Hl. }
  unfold convert_multiaddr, expect. split.
  - destruct (nx_parse_multiaddr x a) as [b|] eqn:Ha; [|done].
    destruct (mapM _ l) as [bs|] eqn:Hl; [|done]. intros [= <-]. constructor; [done|]. by apply IH.
  - intros Hl. inversion Hl as [|? b ? bs Ha Hbs]; subst. rewrite Ha. apply IH in Hbs.
    unfold convert_multiaddr, expect in Hbs. by rewrite Hbs.
Qed.

(** The connection limits of the DSN.  A quarter of the incoming connections
    may be kept with any peer; farmers may have that quarter on top of the
    target.  When the sum fits in 32 bits the configuration is produced with
    exactly these limits, never more general peers than incoming connections
    and never a limit below its target; when it does not fit, a build with
    overflow checks panics and one without them sets a limit below the target. *)
Lemma dsn_connection_limits (dsn : Dsn) options bootstrap listen registry :
  in_u 32 (in_connections dsn) -> in_u 32 (target_connections dsn) ->
  (forall a, a ∈ reserved_nodes dsn ++ external_addresses dsn ->
     nx_parse_multiaddr x a = Some a) ->
  (in_u 32 (target_connections dsn + in_connections dsn / 4) ->
     exists c, networking_config x dsn options bootstrap listen registry = Ret c /\
     general_connected_peers_limit c <= max_established_incoming_connections c /\
     general_connected_peers_target c <= general_connected_peers_limit c /\
     special_connected_peers_target c <= special_connected_peers_limit c /\
     special_connected_peers_limit c =
       special_connected_peers_target c + general_connected_peers_limit c) /\
  (~ in_u 32 (target_connections dsn + in_connections dsn / 4) ->
     match nx_profile x with
     | Debug => exists why, networking_config x dsn options bootstrap listen registry = Panic why
     | Release => exists c, networking_config x dsn options bootstrap listen registry = Ret c /\
         special_connected_peers_limit c < special_connected_peers_target c
     end).
Proof.
  intros Hin Htarget Haddr. unfold networking_config.
  rewrite !convert_id by (intros a Ha; apply Haddr; rewrite !elem_of_app; auto). cbn -[add_u Z.div].
  pose proof (Z.div_pos (in_connections dsn) 4). pose proof (Z.div_le_upper_bound (in_connections dsn) 4 (in_connections dsn)).
  assert (in_connections dsn / 4 < 2 ^ 30) by (apply Z.div_lt_upper_bound; unfold in_u in *; lia).
  unfold in_u in Hin, Htarget. split; intros Hsum; unfold add_u.
  - rewrite arith_exact by done. cbn -[Z.div]. eexists. split; [done|]. cbn -[Z.div]. lia.
  - unfold arith. rewrite decide_False by done. destruct (nx_profile x); cbn -[Z.div cast]; [eauto|].
    eexists. split; [done|]. cbn -[Z.div cast]. unfold in_u in Hsum.
    unfold cast. rewrite (Z.mod_eq _ (2 ^ 32)) by lia.
    assert (Hq : (target_connections dsn + in_connections dsn / 4) / 2 ^ 32 = 1).
    { symmetry. apply (Z.div_unique _ _ _ (target_connections dsn + in_connections dsn / 4 - 2 ^ 32)); lia. }
    rewrite Hq. lia.
Qed.
End dsn_properties.

Section dsn_piece_properties.
Context {RP Reader Sector PieceIndex Piece : Type}.
Context `{ReadersAndPiecesApi RP Reader Sector PieceIndex Piece}.
Context {Keypair NetworkNode Runner Registry PeerId KnownPeers SegmentRequest SegmentResponse Store D : Type}.
Context `{TeardownLaws D unit unit nat}.

(** C33: with the node's own piece handler, the network is constructed with
    handlers that answer no piece request while the slots are as [build_dsn]
    leaves them; once a farmer has registered its cache in the shared slot every
    piece request is answered, with the piece when the cache or the readers have
    it. *)
Theorem dsn_serves_after_registration
    (x : dsn_externals Keypair NetworkNode Runner Registry PeerId KnownPeers PieceIndex
           (PieceIndex -> option Piece) RP (PieceByIndexResponse Piece) SegmentRequest SegmentResponse)
    (dsn : Dsn) (options : DsnOptions Keypair PieceIndex (PieceIndex -> option Piece) RP
       (PieceByIndexResponse Piece) SegmentRequest SegmentResponse Store) shared runner registry :
  get_piece_by_index options = node_get_piece_by_index ->
  build_dsn (D := D) x dsn options = Ret (Ok (shared, runner, registry)) ->
  td_holds (dsn_destructors shared) false [EItem 0%nat] /\
  exists c, construct x c (keypair options) = Ok (dsn_node shared, runner) /\
  (forall i, request_response c (PieceRequest i) (dsn_slots shared) = None) /\
  forall cache readers i,
    request_response c (PieceRequest i) (mkDsnSlots readers (Some cache)) =
    Some (PieceAnswer (mkPieceResponse
      match cache i with
      | Some piece => Some piece
      | None => readers ≫= fun rp => default None (rp_read_piece i rp)
      end)).
Proof.
  intros Hget. unfold build_dsn.
  destruct (convert x (dsn_boot_nodes dsn)) as [boot|]; cbn; [|done].
  destruct (convert x (dsn_listen_addresses dsn)) as [listen|]; cbn; [|done].
  destruct (KnownPeersManager_new x _ _); [|done].
  destruct (networking_config x dsn options boot listen a) as [c|] eqn:Hc; cbn; [|done].
  assert (Hreq : request_response c = dsn_handlers options).
  { unfold networking_config in Hc. repeat (apply bind_Ret in Hc as (? & _ & Hc)). by injection Hc as <-. }
  destruct (construct x c (keypair options)) as [[node run]|] eqn:Hrun; [|done].
  destruct (td_holds_item (td_new_without_async "dsn-destructors") false [] 0%nat)
    as [Hok Hhold]; [apply td_holds_new_without_async|].
  destruct (td_add_item 0%nat (td_new_without_async "dsn-destructors")) as [d [[]|e]]; [|done].
  intros [= <- <- <-]. split; [done|]. exists c. rewrite Hreq. split; [done|]. cbn. rewrite Hget.
  split; [done|]. intros cache readers i. unfold node_get_piece_by_index. cbn. unfold farmer_get_piece_by_index. cbn.
  destruct (cache i); [done|]. destruct readers as [rp|]; cbn; [|done].
  by destruct (rp_read_piece i rp).
Qed.
End dsn_piece_properties.

(** ** Witnesses *)

Section dsn_demo.

(** The network hands back the configuration it was constructed with. *)
Abbreviation DemoConfig := (NetworkingConfig (KnownPeers := unit) (PieceIndex := Z) (Cache := Z -> option Z)
  (Readers := list (Z * Z)) (PieceResponse := PieceByIndexResponse Z) (SegmentRequest := unit)
  (SegmentResponse := unit)).

Definition demo_dsn_externals (p : profile) : dsn_externals unit DemoConfig unit unit string unit Z
    (Z -> option Z) (list (Z * Z)) (PieceByIndexResponse Z) unit unit :=
  mkDsnExternals p Some (fun l => (fun a => (a, a)) <$> l) (fun _ _ => Ok tt) (fun c _ => Ok (c, tt)) tt.

Definition demo_dsn_options : DsnOptions unit Z (Z -> option Z) (list (Z * Z)) (PieceByIndexResponse Z)
    unit unit unit :=
  mkDsnOptions "00" "/tmp" tt node_get_piece_by_index (fun _ _ => None) tt false.

Lemma dsn_connection_limits_witness :
  exists c, networking_config (demo_dsn_externals Release) (DsnBuilder_build DsnBuilder_gemini_3g)
    demo_dsn_options [] [] tt = Ret c /\
  special_connected_peers_limit c = special_connected_peers_target c + general_connected_peers_limit c.
Proof.
  destruct (proj1 (dsn_connection_limits (demo_dsn_externals Release)
    (DsnBuilder_build DsnBuilder_gemini_3g) demo_dsn_options [] [] tt
    ltac:(split; reflexivity || discriminate) ltac:(split; reflexivity || discriminate)
    (fun _ _ => eq_refl)) ltac:(split; reflexivity || discriminate)) as (c & Hc & _ & _ & _ & Hl).
  exists c. split; [exact Hc|exact Hl].
Defined.

Lemma dsn_serves_after_registration_witness :
  exists shared : DsnShared (NetworkNode := DemoConfig) (Cache := Z -> option Z) (Readers := list (Z * Z))
                    (D := DestructorSet unit unit nat),
  build_dsn (demo_dsn_externals Release) (DsnBuilder_build DsnBuilder_dev) demo_dsn_options =
    Ret (Ok (shared, tt, None)) /\ td_holds (dsn_destructors shared) false [EItem 0%nat].
Proof.
  eexists. split; [vm_compute; reflexivity|].
  refine (proj1 (dsn_serves_after_registration (D := DestructorSet unit unit nat)
    (demo_dsn_externals Release) (DsnBuilder_build DsnBuilder_dev) demo_dsn_options _ tt None eq_refl _)).
  vm_compute. reflexivity.
Defined.
End dsn_demo.
