(* ===== verification/Node.v ===== *)
(** The node (node/src/builder.rs and node/src/lib.rs): its configuration and
    presets, [Config::build], the task-manager task, [Node::close], syncing
    progress, block headers and node information.

    [Config::build] runs through the crates of Substrate and Subspace, which are
    parameters; it is composed of the models of the DSN, the domain, the
    Substrate configuration and the chain specification.  [futures::select!]
    polls its branches in an arbitrary order, which is an argument. *)
From S2P Require Import Prelude Destructors Teardown Tasks Substrate ChainSpec Domain Traits Pieces Dsn.

#[local] Open Scope Z_scope.

(** ** Configuration *)

Definition NodePieceCacheSize_default : Z := 3 * 1073741824.
Definition SegmentPublishConcurrency_default : Z := 10.

Record NodeConfig := mkNodeConfig {
  segment_publish_concurrency : Z;
  sync_from_dsn : bool;
  node_base : Base;
  node_dsn : Dsn;
  storage_monitor : option StorageMonitor;
  enable_subspace_block_relay : bool;
  node_domain : option DomainConfig;
  is_timekeeper : bool;
  timekeeper_cpu_cores : gset nat;
  config_pot_external_entropy : option (list Z);
}.

Record NodeBuilder := mkNodeBuilder {
  nb_segment_publish_concurrency : option Z;
  nb_sync_from_dsn : option bool;
  nb_base : BaseBuilder;
  nb_dsn : option Dsn;
  nb_storage_monitor : option (option StorageMonitor);
  nb_enable_subspace_block_relay : option bool;
  nb_domain : option (option DomainConfig);
  nb_is_timekeeper : option bool;
  nb_timekeeper_cpu_cores : option (gset nat);
  nb_pot_external_entropy : option (option (list Z));
}.

Definition NodeBuilder_new : NodeBuilder :=
  mkNodeBuilder None None BaseBuilder_default None None None None None None None.

Definition NodeBuilder_configuration (pkg_name pkg_version git_hash : string) (b : NodeBuilder) : NodeConfig :=
  mkNodeConfig (default SegmentPublishConcurrency_default (nb_segment_publish_concurrency b))
    (default false (nb_sync_from_dsn b)) (BaseBuilder_build pkg_name pkg_version git_hash (nb_base b))
    (default (DsnBuilder_build DsnBuilder_default) (nb_dsn b)) (default None (nb_storage_monitor b))
    (default false (nb_enable_subspace_block_relay b)) (default None (nb_domain b))
    (default false (nb_is_timekeeper b)) (default ∅ (nb_timekeeper_cpu_cores b))
    (default None (nb_pot_external_entropy b)).

Definition with_base (fs : list base_setter) (dsn : DsnBuilder) (timekeeper : option bool) : NodeBuilder :=
  mkNodeBuilder None None (derive_base_all fs BaseBuilder_default) (Some (DsnBuilder_build dsn))
    None None None timekeeper None None.

Definition NodeBuilder_dev : NodeBuilder :=
  with_base [set_force_authoring true; set_network NetworkBuilder_dev; set_rpc RpcBuilder_dev;
             set_offchain_worker OffchainWorkerBuilder_dev] DsnBuilder_dev (Some true).

Definition NodeBuilder_gemini_3g : NodeBuilder :=
  with_base [set_network NetworkBuilder_gemini_3g; set_rpc RpcBuilder_gemini_3g;
             set_offchain_worker OffchainWorkerBuilder_gemini_3g; set_role Authority;
             set_state_pruning ArchiveAll; set_blocks_pruning (BlocksPruning_from (ScKeepSome 256))]
    DsnBuilder_gemini_3g None.

Definition NodeBuilder_devnet : NodeBuilder :=
  with_base [set_network NetworkBuilder_devnet; set_rpc RpcBuilder_devnet;
             set_offchain_worker OffchainWorkerBuilder_devnet; set_role Authority;
             set_state_pruning ArchiveAll; set_blocks_pruning (BlocksPruning_from (ScKeepSome 256))]
    DsnBuilder_devnet None.

(** ** Values read from the chain specification *)

(** [pot_external_entropy]; [from_value] is [serde_json::from_value] at
    [Option<Vec<u8>>]. *)
Definition pot_external_entropy (from_value : json -> option (option (list Z)))
    (properties : Properties) (config_value : option (list Z)) : result string (list Z) :=
  spec_value ← (match from_value <$> properties !! "potExternalEntropy"%string with
                | None => Ok None
                | Some None => Err "Failed to decode PoT initial key"%string
                | Some (Some v) => Ok v
                end);
  Ok (default [] (match spec_value with Some v => Some v | None => config_value end)).

(** [.get(key).map(from_value).transpose()?.unwrap_or_default()] *)
Definition decode_property {A} (from_value : json -> option (list A)) (error : string)
    (o : option json) : result string (list A) :=
  match from_value <$> o with
  | None => Ok []
  | Some None => Err error
  | Some (Some l) => Ok l
  end.

(** ** The task-manager task *)

Inductive node_task := TaskManagerTask.
Inductive tm_branch := DropSignal | TaskManagerFuture | NodeRunner.

Definition task_manager_cancelled : string := "received drop signal for task manager".

Section task_manager.
Context {Os : Type -> Type} `{Oneshot Os}.

Record tm_state := mkTm {
  task_manager_drop : Os unit;
  (** what [task_manager.future()] has resolved to *)
  task_manager_future : option (result string unit);
  node_runner_exited : bool;
  task_manager_result : Os (result string (TaskOutput unit string));
  tm_done : bool;
}.

Definition tm_initial : tm_state := mkTm os_new None false os_new false.

(** What a branch of the [select!] sends, if it is ready. *)
Definition tm_ready (s : tm_state) (b : tm_branch) : option (result string (TaskOutput unit string)) :=
  match b with
  | DropSignal =>
      match os_poll (task_manager_drop s) with
      | Some _ => Some (Ok (Cancelled task_manager_cancelled))
      | None => None
      end
  | TaskManagerFuture =>
      match task_manager_future s with
      | Some (Ok v) => Some (Ok (Value v))
      | Some (Err e) => Some (Err e)
      | None => None
      end
  | NodeRunner => if node_runner_exited s then Some (Ok (Value tt)) else None
  end.

(** The first ready branch in the order of polling. *)
Fixpoint tm_select (order : list tm_branch) (s : tm_state) : option (result string (TaskOutput unit string)) :=
  match order with
  | [] => None
  | b :: order' => match tm_ready s b with Some r => Some r | None => tm_select order' s end
  end.

Definition tm_poll (order : list tm_branch) (s : tm_state) : tm_state :=
  if tm_done s then s
  else match tm_select order s with
       | None => s
       | Some r => mkTm (task_manager_drop s) (task_manager_future s) (node_runner_exited s)
                     (os_send r (task_manager_result s)) true
       end.

Definition tm_signal (o : Os unit -> Os unit) (s : tm_state) : tm_state :=
  mkTm (o (task_manager_drop s)) (task_manager_future s) (node_runner_exited s)
    (task_manager_result s) (tm_done s).

(** A destructor event of the node's set. *)
Definition tm_event {F I} (order : list tm_branch) (e : event F node_task I) (s : tm_state) : tm_state :=
  match e with
  | AwaitedAsync TaskManagerTask => tm_poll order (tm_signal (os_send tt) s)
  | DroppedAsync TaskManagerTask => tm_signal os_drop_sender s
  | _ => s
  end.

Inductive node_close_error :=
| NodeDomainFailed (e : close_error)
| NodeDestructorFailed (e : string)
| NodeResultGone
| TaskManagerFailed (e : string).

(** [Node::close]: [domain] is the result of closing the domain, if there is
    one.  An early return drops the node's destructor set.  [None]: waiting. *)
Definition Node_close {D F I} `{TeardownApi D F node_task I} (order : list tm_branch)
    (domain : option (result close_error unit)) (d : D) (s : tm_state)
    : outcome (option (tm_state * result node_close_error unit)) :=
  match domain with
  | Some (Err e) =>
      es ← td_drop d;
      Ret (Some (foldl (fun s e => tm_event order e s) s es, Err (NodeDomainFailed e)))
  | _ =>
      r ← td_async_drop (fun _ => true) d;
      match r with
      | None => Ret None
      | Some (_, Err e) => Ret (Some (s, Err (NodeDestructorFailed e)))
      | Some (es, Ok _) =>
          let s' := foldl (fun s e => tm_event order e s) s es in
          match os_poll (task_manager_result s') with
          | None => Ret None
          | Some (Err _) => Ret (Some (s', Err NodeResultGone))
          | Some (Ok (Err e)) => Ret (Some (s', Err (TaskManagerFailed e)))
          | Some (Ok (Ok _)) => Ret (Some (s', Ok tt))
          end
      end
  end.
End task_manager.
Arguments tm_state : clear implicits.

(** [Node::is_closed], on the node's destructor set. *)
Definition Node_is_closed {F A I} (destructors : DestructorSet F A I) : bool :=
  DestructorSet_already_ran destructors.

(** ** Syncing progress *)

Inductive SyncStatus := Importing | Downloading.
(** [SyncState] of sc-network-sync. *)
Inductive SyncState := SyncIdle | SyncPending | SyncImporting (target : Z) | SyncDownloading (target : Z).

Record SyncingProgress := mkSyncing { sp_at : Z; sp_target : Z; sp_status : SyncStatus }.

(** The stream keeps the numbers of the last item that was not an error. *)
Record SyncingProgressStream := mkSyncingStream { stream_at : Z; stream_target : Z }.

(** [poll_next], given what the inner stream answers: [None] for [Pending]. *)
Definition sync_poll_next (next : option (option (result string SyncingProgress)))
    (self : SyncingProgressStream) : SyncingProgressStream :=
  match next with
  | Some (Some (Ok p)) => mkSyncingStream (sp_at p) (sp_target p)
  | _ => self
  end.

(** u32 block numbers, cast to usize. *)
Definition sync_size_hint (self : SyncingProgressStream) : Z * option Z :=
  (cast 64 (stream_at self), Some (cast 64 (stream_target self))).

Definition status_failed : string := "Failed to fetch networking status".
Definition went_offline : string := "Node went offline".

(** One attempt of the first query. *)
Definition first_attempt (offline : bool) (status : result unit SyncState)
    : attempt (Z * SyncStatus) (option string) :=
  match status with
  | Ok (SyncImporting target) => Done (target, Importing)
  | Ok (SyncDownloading target) => Done (target, Downloading)
  | _ =>
      if offline then Transient (Some went_offline)
      else match status with
           | Err _ => Transient (Some status_failed)
           | Ok _ => Transient None
           end
  end.

(** One attempt of a later query. *)
Definition next_attempt (status : result unit SyncState) : attempt (result string (Z * SyncStatus)) unit :=
  match status with
  | Ok (SyncImporting target) => Done (Ok (target, Importing))
  | Ok (SyncDownloading target) => Done (Ok (target, Downloading))
  | Err _ => Done (Err status_failed)
  | Ok (SyncIdle | SyncPending) => Transient tt
  end.

(** One turn of the producer's loop: what each attempt sees, the best block
    when the item is sent, and whether the receiver is still there. *)
Record turn := mkTurn { turn_status : nat -> result unit SyncState; turn_best : Z; turn_alive : bool }.

Section syncing.
Context (R1 R2 : forall A E, (nat -> attempt A E) -> result E A).

Definition sync_item (best : Z) (r : result string (Z * SyncStatus)) : result string SyncingProgress :=
  (fun ts => mkSyncing best ts.1 ts.2) <$> r.

(** The items sent in the given turns, and whether the loop has ended. *)
Fixpoint produce (turns : list turn) : list (result string SyncingProgress) * bool :=
  match turns with
  | [] => ([], false)
  | t :: turns' =>
      match R2 _ _ (fun i => next_attempt (turn_status t i)) with
      | Err _ => ([], true)
      | Ok r =>
          if turn_alive t then
            let '(items, ended) := produce turns' in (sync_item (turn_best t) r :: items, ended)
          else ([], true)
      end
  end.

(** [subscribe_syncing_progress]: the stream, and its items in the given turns
    with the flag that the producer is gone (so that the stream ends). *)
Definition subscribe_syncing_progress (offline : nat -> bool) (first : nat -> bool * result unit SyncState)
    (best : Z) (turns : list turn)
    : result string (SyncingProgressStream * list (result string SyncingProgress) * bool) :=
  match R1 _ _ (fun i => if offline i then Transient tt else Done tt) with
  | Err _ => Err "Failed to connect to the network"%string
  | Ok _ =>
      match R2 _ _ (fun i => first_attempt (first i).1 (first i).2) with
      | Err (Some err) => Err err
      | Err None => Ok (mkSyncingStream 0 0, [], true)
      | Ok (target, status) =>
          let '(items, ended) := produce turns in
          Ok (mkSyncingStream best target, Ok (mkSyncing best target status) :: items, ended)
      end
  end.

(** [sync]: [None] while the stream is open. *)
Definition sync (offline : nat -> bool) (first : nat -> bool * result unit SyncState)
    (best : Z) (turns : list turn) : result string (option unit) :=
  match subscribe_syncing_progress offline first best turns with
  | Err e => Err e
  | Ok (_, _, ended) => Ok (if (ended : bool) then Some tt else None)
  end.
End syncing.

(** ** Headers and information *)

Section info.
Context {Hash PreDigest Version HistorySize : Type}.

Inductive DigestItem := PreRuntime (engine : string) (data : list Z) | OtherDigest.

Record Header := mkHeader {
  h_number : Z;
  h_parent_hash : Hash;
  h_state_root : Hash;
  h_extrinsics_root : Hash;
  h_digest : list DigestItem;
}.

Record BlockHeader := mkBlockHeader {
  bh_hash : Hash;
  bh_number : Z;
  bh_parent_hash : Hash;
  bh_state_root : Hash;
  bh_extrinsics_root : Hash;
  bh_pre_digest : option PreDigest;
}.

(** [Digest::log]: the first item the function accepts. *)
Fixpoint digest_log (l : list DigestItem) : option (list Z) :=
  match l with
  | [] => None
  | PreRuntime _ data :: _ => Some data
  | OtherDigest :: l' => digest_log l'
  end.

Definition BlockHeader_from (hash : Header -> Hash) (decode : list Z -> option PreDigest) (header : Header)
    : outcome BlockHeader :=
  pre_digest ← (match digest_log (h_digest header) with
                | None => Ret None
                | Some data => d ← expect "Pre digest is always scale encoded" (decode data); Ret (Some d)
                end);
  Ret (mkBlockHeader (hash header) (h_number header) (h_parent_hash header) (h_state_root header)
         (h_extrinsics_root header) pre_digest).

(** [Node::block_header]: a header that is there is converted. *)
Definition Node_block_header (hash : Header -> Hash) (decode : list Z -> option PreDigest)
    (lookup : result string (option Header)) : outcome (result string (option BlockHeader)) :=
  match lookup with
  | Err _ => Ret (Err "Failed to get primary node block hash by number"%string)
  | Ok None => Ret (Ok None)
  | Ok (Some h) => b ← BlockHeader_from hash decode h; Ret (Ok (Some b))
  end.

Record ClientInfo := mkClientInfo {
  ci_best_hash : Hash;
  ci_best_number : Z;
  ci_genesis_hash : Hash;
  ci_finalized_hash : Hash;
  ci_finalized_number : Z;
  ci_block_gap : option (Z * Z);
}.

Record NodeInfo := mkNodeInfo {
  chain_genesis_hash : Hash;
  best_block : Hash * Z;
  finalized_block : Hash * Z;
  block_gap : option (Z * Z);
  node_version : Version;
  info_name : string;
  connected_peers : Z;
  not_connected_peers : Z;
  history_size : HistorySize;
}.

(** [Node::get_info]; the peers are the lists of the network state. *)
Definition Node_get_info {Peer} (network_state : result unit (list Peer * list Peer))
    (chain_info : ClientInfo) (runtime_version : Hash -> result string Version)
    (farmer_app_info : result string HistorySize) (name : string) : result string NodeInfo :=
  '(connected, not_connected) ←
    map_err (fun _ => "Failed to fetch node info: node already exited"%string) network_state;
  version ← runtime_version (ci_best_hash chain_info);
  history ← farmer_app_info;
  Ok (mkNodeInfo (ci_genesis_hash chain_info) (ci_best_hash chain_info, ci_best_number chain_info)
        (ci_finalized_hash chain_info, ci_finalized_number chain_info) (ci_block_gap chain_info)
        version name (cast 64 (Z.of_nat (length connected)))
        (cast 64 (Z.of_nat (length not_connected))) history).
End info.

(** ** [Config::build] *)

Section node_build.
Context {KeyPair NetworkNode Registry PeerId KnownPeers Cache Readers : Type}.
Context {PieceIndex Piece SHeader Store : Type} `{FarmerTrait Cache Readers PieceIndex Piece}.
Context {Genesis Raw Rpc Json Partial Client NodeRpc F I D1 D2 : Type}.
Context {Os : Type -> Type} `{Oneshot Os} `{TelemetryApi (list (string * Z)) Json}.
Context `{TeardownApi D1 unit unit nat} `{TeardownApi D2 F node_task I} {D3 : Type}
        `{TeardownApi D3 F domain_task I}.

Abbreviation DsnOutside := (dsn_externals KeyPair NetworkNode unit Registry PeerId KnownPeers PieceIndex
  Cache Readers (PieceByIndexResponse Piece) SegmentHeaderRequest (SegmentHeaderResponse SHeader)).
Abbreviation NodeConfiguration := (Configuration (ChainSpecOf Genesis) (list (string * Z))).

(** What the code calls outside the repository, each with the error it reports. *)
Record node_externals := mkNodeExternals {
  nox_base : @domain_externals;
  nox_entropy_from_value : json -> option (option (list Z));
  nox_addresses_from_value : json -> option (list string);
  nox_map_from_value : json -> option (list (string * json));
  new_partial : NodeConfiguration -> list Z -> result string Partial;
  partial_store : Partial -> Store;
  into_keypair : string -> result string KeyPair;
  nox_dsn : DsnOutside;
  nox_genesis_hash_hex : Partial -> string;
  MAX_SEGMENT_HEADERS_PER_REQUEST : Z;
  store_max_segment_index : Store -> option Z;
  store_get_segment_header : Store -> Z -> option SHeader;
  run_future_in_dedicated_thread : string -> result string unit;
  node_new_full : NodeConfiguration -> Partial -> result string Client;
  (** [sdk_utils::Rpc::new] on the handlers of the full node *)
  rpc_new : Client -> NodeRpc;
  try_spawn_storage_monitor : StorageMonitorParams -> string -> result string unit;
}.
Context (x : node_externals).

(** A domain that is building: its tasks, its destructors and its boot nodes. *)
Record BuildingDomain := mkBuildingDomain {
  domain_state : @state Raw Rpc Os;
  domain_set : D3;
  domain_config : DomainConfig;
  domain_boot_nodes : list string;
}.

Record Node := mkNode {
  node_client : Client;
  node_rpc_handle : NodeRpc;
  node_name : string;
  node_dsn_shared : DsnShared (NetworkNode := NetworkNode) (Cache := Cache) (Readers := Readers) (D := D1);
  node_destructors : D2;
  node_task_manager : tm_state Os;
  maybe_domain : option BuildingDomain;
  (** the tasks put on the essential handle of the task manager *)
  essential_tasks : list string;
}.

(** [impl sdk_traits::Node for Node]. *)
#[export] Instance Node_trait : NodeTrait Node (DsnShared (NetworkNode := NetworkNode) (Cache := Cache)
    (Readers := Readers) (D := D1)) NodeRpc := {|
  trait_name := node_name; trait_dsn := node_dsn_shared; trait_rpc := node_rpc_handle |}.

Definition essential_domain_tasks : list string :=
  ["consensus-chain-relayer"; "consensus-message-listener"; "cross-domain-gossip-message-worker"]%string.

(** [spec.properties().get(key)]. *)
Definition spec_property (spec : ChainSpecOf Genesis) (key : string) : option json :=
  spec_properties spec !! key.

Definition lookup_assoc (key : string) (l : list (string * json)) : option json :=
  snd <$> (snd <$> list_find (fun kv => kv.1 = key) l).

(** [DomainConfig::build]: nothing has run yet; registering the two destructors
    is all that can fail. *)
Definition build_domain (cfg : DomainConfig) (boot : list string) : result string BuildingDomain :=
  match domain_destructors (nox_base x) cfg with
  | (set, Ok _) => Ok (mkBuildingDomain initial set cfg boot)
  | (_, Err e) => Err e
  end.

Definition node_build_domain (domains : list (string * json)) (cfg : option DomainConfig)
    : result string (option BuildingDomain * list string) :=
  match cfg with
  | None => Ok (None, [])
  | Some cfg =>
      boot ← decode_property (nox_addresses_from_value x)
               ("Failed to decode Domain: " +:+ x_show (nox_base x) (domain_id cfg) +:+ " bootstrap nodes")
               (lookup_assoc (x_show (nox_base x) (domain_id cfg)) domains);
      domain ← build_domain cfg boot;
      Ok (Some domain, essential_domain_tasks)
  end.

(** [get_segment_header_by_segment_indexes] on the node's store. *)
Definition node_headers_handler (req : SegmentHeaderRequest) (store : Store)
    : option (SegmentHeaderResponse SHeader) :=
  get_segment_header_by_segment_indexes (cast 64 (MAX_SEGMENT_HEADERS_PER_REQUEST x))
    (store_max_segment_index x store) (store_get_segment_header x store) req.

(** [dsn.boot_nodes.extend(chain_spec_boot_nodes)]. *)
Definition extend_boot_nodes (dsn : Dsn) (nodes : list string) : Dsn :=
  let '(mkDsn a b c d e f g h i j k) := dsn in mkDsn a b (c ++ nodes) d e f g h i j k.

(** The part of [build] before the full node is started. *)
Definition node_build_dsn (directory : string) (spec : ChainSpecOf Genesis) (cfg : NodeConfig)
    (base : NodeConfiguration) (partial : Partial)
    : outcome (result string (DsnShared (NetworkNode := NetworkNode) (Cache := Cache)
                                (Readers := Readers) (D := D1))) :=
  match into_keypair x (n_node_key_file (c_network base)) with
  | Err _ => Ret (Err "Failed to convert network keypair"%string)
  | Ok kp =>
      match decode_property (nox_addresses_from_value x) "Failed to decode DSN bootsrap nodes"%string
              (spec_property spec "dsnBootstrapNodes") with
      | Err e => Ret (Err e)
      | Ok nodes =>
          match build_dsn (D := D1) (nox_dsn x) (extend_boot_nodes (node_dsn cfg) nodes)
                (mkDsnOptions (nox_genesis_hash_hex x partial) directory kp node_get_piece_by_index
                   node_headers_handler (partial_store x partial)
                   (match c_prometheus_config base with Some _ => true | None => false end)) with
          | Ret (Ok (shared, _, _)) => Ret (Ok shared)
          | Ret (Err e) => Ret (Err e)
          | Panic why => Panic why
          end
      end
  end.

(** The part of [build] from the full node on; the runner of the DSN has its
    own thread. *)
Definition node_build_full (spec : ChainSpecOf Genesis) (cfg : NodeConfig) (base : NodeConfiguration)
    (partial : Partial) (dsn : DsnShared (NetworkNode := NetworkNode) (Cache := Cache)
                                 (Readers := Readers) (D := D1)) : result string Node :=
  let name := n_node_name (c_network base) in
  domains ← decode_property (nox_map_from_value x)
    "Failed to decode Domains bootstrap nodes"%string (spec_property spec "domainsBootstrapNodes");
  _ ← run_future_in_dedicated_thread x ("subspace-sdk-networking-" +:+ name);
  client ← node_new_full x base partial;
  _ ← match storage_monitor cfg with
      | Some m => try_spawn_storage_monitor x (StorageMonitor_into m) (c_database base)
      | None => Ok tt
      end;
  '(domain, tasks) ← node_build_domain domains (node_domain cfg);
  match td_add_async TaskManagerTask (td_new "node-destructors") with
  | (_, Err e) => Err e
  | (destructors, Ok _) => Ok (mkNode client (rpc_new x client) name dsn destructors tm_initial domain tasks)
  end.

Definition node_build (directory : string) (spec : ChainSpecOf Genesis) (cfg : NodeConfig)
    : outcome (result string Node) :=
  base ← Base_configuration (x_parse_multiaddr (nox_base x)) (x_generate_name (nox_base x))
           (x_config_dir (nox_base x)) (node_base cfg) directory spec;
  match map_err (String.append "Failed to get proof of time external entropy: ")
          (pot_external_entropy (nox_entropy_from_value x) (spec_properties spec)
             (config_pot_external_entropy cfg)) ≫= new_partial x base with
  | Err e => Ret (Err e)
  | Ok partial =>
      dsn ← node_build_dsn directory spec cfg base partial;
      Ret (dsn ≫= node_build_full spec cfg base partial)
  end.

(** ** What a node is built with *)

Context `{!TeardownLaws D1 unit unit nat} `{!TeardownLaws D2 F node_task I}
        `{!TeardownLaws D3 F domain_task I}.

(** The addresses [l'] are what the strings [l] parse to. *)
Definition converted (l l' : list string) : Prop :=
  Forall2 (fun a b => nx_parse_multiaddr (nox_dsn x) a = Some b) l l'.

(** The network of the node and what was shared with it. *)
Definition dsn_of_node (cfg : NodeConfig) (nodes : list string) 
    (shared : DsnShared (NetworkNode := NetworkNode) (Cache := Cache) (Readers := Readers) (D := D1)) : Prop :=
  td_holds (dsn_destructors shared) false [EItem 0%nat] /\
  dsn_slots shared = mkDsnSlots None None /\
  exists c kp runner, construct (nox_dsn x) c kp = Ok (dsn_node shared, runner) /\
    converted (dsn_boot_nodes (node_dsn cfg) ++ nodes) (bootstrap_addresses c) /\
    converted (dsn_listen_addresses (node_dsn cfg)) (listen_on c) /\
    converted (reserved_nodes (node_dsn cfg)) (reserved_peers c) /\
    max_established_incoming_connections c = in_connections (node_dsn cfg) /\
    forall i slots, request_response c (PieceRequest i) slots =
      PieceAnswer <$> node_get_piece_by_index i (Some (farmer_readers_slot slots)) (farmer_cache_slot slots).

Lemma node_build_dsn_Ok directory spec cfg base partial shared :
  node_build_dsn directory spec cfg base partial = Ret (Ok shared) ->
  exists nodes, decode_property (nox_addresses_from_value x) "Failed to decode DSN bootsrap nodes"%string
                  (spec_property spec "dsnBootstrapNodes") = Ok nodes /\
  dsn_of_node cfg nodes shared.
Proof.
  unfold node_build_dsn. destruct (into_keypair x _) as [kp|]; [|done].
  destruct (decode_property _ _ _) as [nodes|]; [|done].
  destruct (build_dsn _ _ _) as [[[[sh run] reg]|]|] eqn:Hb; [|done|done]. intros [= ->].
  exists nodes. split; [done|]. revert Hb. unfold build_dsn.
  assert (Hboot : dsn_boot_nodes (extend_boot_nodes (node_dsn cfg) nodes) =
                  dsn_boot_nodes (node_dsn cfg) ++ nodes) by by destruct (node_dsn cfg).
  rewrite Hboot. clear Hboot. intros (boot & Hboot%convert_Ret & Hb)%bind_Ret.
  apply bind_Ret in Hb as (listen & Hlisten%convert_Ret & Hb).
  destruct (KnownPeersManager_new _ _ _) as [r|]; [|done].
  apply bind_Ret in Hb as (c & Hc & Hb).
  destruct (construct _ c _) as [[nd rn]|] eqn:Hrun; [|done].
  destruct (td_holds_item (td_new_without_async "dsn-destructors") false [] 0%nat)
    as [Hok Hhold]; [apply td_holds_new_without_async|].
  destruct (td_add_item 0%nat (td_new_without_async "dsn-destructors")) as [d [[]|e]]; [|done].
  injection Hb as <- <- <-. split; [done|]. split; [done|]. exists c, kp, rn. split; [done|].
  unfold networking_config in Hc. apply bind_Ret in Hc as (reserved & Hres%convert_Ret & Hc).
  repeat (apply bind_Ret in Hc as (? & _ & Hc)). injection Hc as <-.
  by destruct (node_dsn cfg).
Qed.

(** The domain of the node, from its configuration and the boot nodes of the
    chain specification for its id. *)
Definition domain_of_node (domains : list (string * json)) (cfg : NodeConfig) (n : Node) : Prop :=
  match node_domain cfg with
  | None => maybe_domain n = None /\ essential_tasks n = []
  | Some dc =>
      exists dom boot, maybe_domain n = Some dom /\ essential_tasks n = essential_domain_tasks /\
        domain_config dom = dc /\ domain_boot_nodes dom = boot /\ domain_state dom = initial /\
        td_holds (domain_set dom) true domain_entries /\
        match lookup_assoc (x_show (nox_base x) (domain_id dc)) domains with
        | None => boot = []
        | Some v => nox_addresses_from_value x v = Some boot
        end
  end.

Lemma build_domain_Ok cfg boot dom : build_domain cfg boot = Ok dom ->
  domain_config dom = cfg /\ domain_boot_nodes dom = boot /\ domain_state dom = initial /\
  td_holds (domain_set dom) true domain_entries.
Proof.
  unfold build_domain, domain_destructors.
  destruct (td_register_holds domain_entries (td_new (D := D3) (F := F) (I := I)
    (String.append "domain-" (String.append (x_show (nox_base x) (domain_id cfg)) "-worker-destructor"))) [])
    as [Hok Hh]; [apply td_holds_new|].
  destruct (td_register _ _) as [set [[]|]]; [|done]. by intros [= <-].
Qed.

Lemma node_build_full_Ok spec cfg base partial dsn n :
  node_build_full spec cfg base partial dsn = Ok n ->
  node_dsn_shared n = dsn /\ node_task_manager n = tm_initial /\
  td_holds (node_destructors n) true [EAsync TaskManagerTask] /\
  node_name n = n_node_name (c_network base) /\
  exists domains, decode_property (nox_map_from_value x)
    "Failed to decode Domains bootstrap nodes"%string (spec_property spec "domainsBootstrapNodes") = Ok domains /\
  domain_of_node domains cfg n.
Proof.
  unfold node_build_full. destruct (decode_property _ _ _) as [domains|]; [|done]. cbn [mbind result_bind].
  destruct (run_future_in_dedicated_thread x _) as [?|]; [|done]. cbn [mbind result_bind].
  destruct (node_new_full x base partial) as [client|]; [|done]. cbn [mbind result_bind].
  destruct (match storage_monitor cfg with Some _ => _ | None => _ end) as [?|]; [|done]. cbn [mbind result_bind].
  destruct (node_build_domain domains (node_domain cfg)) as [[dom tasks]|] eqn:Hdom; [|done].
  cbn [mbind result_bind].
  destruct (td_holds_async (td_new (D := D2) (F := F) (I := I) "node-destructors") [] TaskManagerTask)
    as [Hok Hh]; [apply td_holds_new|].
  destruct (td_add_async _ _) as [d [[]|]]; [|done]. intros [= <-]. cbn.
  repeat split; [done|]. exists domains. split; [done|]. unfold domain_of_node.
  revert Hdom. unfold node_build_domain. destruct (node_domain cfg) as [dc|]; [|by intros [= <- <-]].
  unfold decode_property. destruct (lookup_assoc _ domains) as [v|]; cbn;
    [destruct (nox_addresses_from_value x v) as [boot|]; cbn; [|done]|].
  all: destruct (build_domain _ _) as [dm|] eqn:Hb; cbn; [|done]; intros [= <- <-];
    apply build_domain_Ok in Hb as (? & ? & ? & ?); eexists _, _; eauto 10.
Qed.

Lemma node_build_parts directory spec cfg n :
  node_build directory spec cfg = Ret (Ok n) ->
  td_holds (node_destructors n) true [EAsync TaskManagerTask] /\ node_task_manager n = tm_initial /\
  (exists nodes, decode_property (nox_addresses_from_value x) "Failed to decode DSN bootsrap nodes"%string
                   (spec_property spec "dsnBootstrapNodes") = Ok nodes /\
     dsn_of_node cfg nodes (node_dsn_shared n)) /\
  (exists domains, decode_property (nox_map_from_value x)
     "Failed to decode Domains bootstrap nodes"%string (spec_property spec "domainsBootstrapNodes") = Ok domains /\
     domain_of_node domains cfg n).
Proof.
  unfold node_build. intros (base & _ & Hn)%bind_Ret.
  destruct (map_err _ _ ≫= _) as [partial|]; [|done].
  apply bind_Ret in Hn as ([dsn|] & Hdsn & Hn); [|done]. injection Hn as Hn.
  apply node_build_full_Ok in Hn as (Hd & Ht & Hh & _ & Hdom).
  split; [done|]. split; [done|]. split; [|done]. rewrite Hd.
  by apply (node_build_dsn_Ok _ _ _ _ _ _ Hdsn).
Qed.

(** C26: what a node that was built consists of.  The network was constructed
    with the addresses that the configured boot nodes, followed by those of the
    chain specification, parse to (likewise the listen addresses and the reserved
    nodes), with the configured number of incoming connections and the node's own
    piece handler, and its slots for the farmer are empty; the node's set holds
    the task of the task manager alone; a configured domain is there with its
    two destructors, in its initial state, and with the boot nodes the chain
    specification lists under its id, and the three essential tasks run exactly
    then. *)
Theorem node_build_result directory spec cfg n :
  node_build directory spec cfg = Ret (Ok n) ->
  td_holds (node_destructors n) true [EAsync TaskManagerTask] /\ node_task_manager n = tm_initial /\
  (exists nodes, decode_property (nox_addresses_from_value x) "Failed to decode DSN bootsrap nodes"%string
                   (spec_property spec "dsnBootstrapNodes") = Ok nodes /\
     dsn_of_node cfg nodes (node_dsn_shared n)) /\
  (exists domains, decode_property (nox_map_from_value x)
     "Failed to decode Domains bootstrap nodes"%string (spec_property spec "domainsBootstrapNodes") = Ok domains /\
     domain_of_node domains cfg n).
Proof. apply node_build_parts. Qed.
End node_build.

(** ** Closing a node *)

Section node_task_properties.
Context {Os : Type -> Type} `{OneshotLaws Os} {D F I : Type} `{TeardownLaws D F node_task I}.
Implicit Types (s : tm_state Os) (d : D).

(** What happens to the task before the node is closed: a future it waits for
    finishes, or the task is polled. *)
Inductive tm_step : tm_state Os -> tm_state Os -> Prop :=
| tm_future_resolves s r : task_manager_future s = None ->
    tm_step s (mkTm (task_manager_drop s) (Some r) (node_runner_exited s) (task_manager_result s) (tm_done s))
| tm_runner_exits s : node_runner_exited s = false ->
    tm_step s (mkTm (task_manager_drop s) (task_manager_future s) true (task_manager_result s) (tm_done s))
| tm_polled s branches : DropSignal ∈ branches -> TaskManagerFuture ∈ branches ->
    tm_step s (tm_poll branches s).

(** A result is in the channel exactly when the task has ended. *)
Definition tm_results (s : tm_state Os) : Prop :=
  match os_poll (task_manager_result s) with
  | None => tm_done s = false
  | Some (Ok (Ok _)) => tm_done s = true
  | Some (Ok (Err e)) => tm_done s = true /\ task_manager_future s = Some (Err e)
  | Some (Err _) => False
  end.

Lemma tm_ready_error s b e :
  tm_ready s b = Some (Err e) -> task_manager_future s = Some (Err e).
Proof. destruct b; cbn; repeat destruct_match; naive_solver. Qed.

Lemma tm_select_error s branches e :
  tm_select branches s = Some (Err e) -> task_manager_future s = Some (Err e).
Proof.
  induction branches as [|b l IH]; cbn; [done|].
  destruct (tm_ready s b) as [[?|?]|] eqn:Hb; [done| |done].
  intros [= ->]. by apply tm_ready_error in Hb.
Qed.

Lemma tm_select_ready s branches b :
  b ∈ branches -> is_Some (tm_ready s b) -> is_Some (tm_select branches s).
Proof.
  induction branches as [|b' l IH]; cbn; [by intros ?%not_elem_of_nil|].
  destruct (tm_ready s b') eqn:Hb; [eauto|]. intros [->|Hin]%elem_of_cons [r Hr]; [congruence|].
  apply IH; eauto.
Qed.

Lemma tm_poll_results s branches : tm_results s -> tm_results (tm_poll branches s).
Proof.
  intros Hs. unfold tm_poll. destruct (tm_done s) eqn:Hdone; [done|].
  destruct (tm_select branches s) as [r|] eqn:Hsel; [|done].
  unfold tm_results in *. cbn. rewrite os_poll_send.
  - destruct r; [done|]. split; [done|]. by eapply tm_select_error.
  - rewrite Hdone in Hs. repeat destruct_match; naive_solver.
Qed.

Lemma tm_poll_keeps s branches :
  task_manager_drop (tm_poll branches s) = task_manager_drop s /\
  task_manager_future (tm_poll branches s) = task_manager_future s.
Proof. unfold tm_poll. repeat destruct_match; done. Qed.

Definition tm_open (s : tm_state Os) : Prop :=
  os_poll (task_manager_drop s) = None /\ tm_results s.

Lemma tm_open_reachable s : rtc tm_step tm_initial s -> tm_open s.
Proof.
  intros Hs. refine (invariant_rtc tm_step tm_open _ _ _ Hs _).
  - intros s1 s2 [Hd Hr] Hstep. destruct Hstep as [s1 r Hnone|s1|s1 branches _ _].
    + split; [done|]. unfold tm_results in *. cbn. repeat destruct_match; naive_solver.
    + done.
    + split; [by rewrite (proj1 (tm_poll_keeps _ _))|by apply tm_poll_results].
  - split; cbn; unfold tm_results; cbn; by rewrite !os_poll_new.
Qed.

(** The destructor: the signal, then the task runs to its end. *)
Lemma tm_event_awaited s branches : tm_open s -> DropSignal ∈ branches ->
  let s' := tm_event (F := F) (I := I) branches (AwaitedAsync TaskManagerTask) s in
  tm_done s' = true /\ tm_results s' /\ task_manager_future s' = task_manager_future s /\
  (tm_done s = true -> task_manager_result s' = task_manager_result s).
Proof.
  intros [Hd Hr] Hin. cbn. set (s1 := tm_signal (os_send tt) s).
  assert (Hr1 : tm_results s1) by exact Hr.
  split; [|split; [by apply tm_poll_results|split]].
  - unfold tm_poll. destruct (tm_done s1) eqn:Hdone; [done|].
    destruct (tm_select_ready s1 branches DropSignal Hin) as [r ->]; [|done].
    cbn. rewrite os_poll_send by done. eauto.
  - apply (proj2 (tm_poll_keeps s1 branches)).
  - intros Hdone. unfold tm_poll. change (tm_done s1) with (tm_done s). by rewrite Hdone.
Qed.

(** When the task, polled in the order [branches] after the drop signal was sent,
    reaches the future of Substrate before any other branch that is ready. *)
Definition future_first (branches : list tm_branch) s : Prop :=
  exists l1 l2, branches = l1 ++ TaskManagerFuture :: l2 /\ (DropSignal ∉ l1) /\ (TaskManagerFuture ∉ l1) /\
    (node_runner_exited s = true -> NodeRunner ∉ l1).

Lemma tm_select_future s branches e : task_manager_future s = Some (Err e) ->
  is_Some (os_poll (task_manager_drop s)) ->
  tm_select branches s = Some (Err e) <-> future_first branches s.
Proof.
  intros Hf [o Hdrop]. unfold future_first. induction branches as [|b l IH]; cbn [tm_select].
  { split; [done|]. intros ([] & ? & ? & _); done. }
  destruct b; cbn [tm_ready]; rewrite ?Hdrop, ?Hf.
  - split; [done|]. intros ([|c l1] & l2 & [= <- ->] & Hno & _). set_solver.
  - split; [intros _|done]. exists [], l. set_solver.
  - destruct (node_runner_exited s) eqn:Hr.
    + split; [done|]. intros ([|c l1] & l2 & [= <- ->] & _ & _ & Hno). specialize (Hno eq_refl). set_solver.
    + rewrite IH. split.
      * intros (l1 & l2 & -> & Hno1 & Hno2 & _). exists (NodeRunner :: l1), l2. set_solver.
      * intros ([|c l1] & l2 & [= <- ->] & Hno1 & Hno2 & _). exists l1, l2. set_solver.
Qed.

(** What the task has delivered once the destructor has run. *)
Lemma tm_event_delivered s branches : tm_open s ->
  forall e, os_poll (task_manager_result
    (tm_event (F := F) (I := I) branches (AwaitedAsync TaskManagerTask) s)) = Some (Ok (Err e)) <->
  os_poll (task_manager_result s) = Some (Ok (Err e)) \/
  os_poll (task_manager_result s) = None /\ task_manager_future s = Some (Err e) /\ future_first branches s.
Proof.
  intros [Hd Hr] e. unfold tm_event. set (s1 := tm_signal (os_send tt) s).
  assert (Hdrop : is_Some (os_poll (task_manager_drop s1))) by (cbn; rewrite os_poll_send by done; eauto).
  unfold tm_poll. change (tm_done s1) with (tm_done s). unfold tm_results in Hr.
  destruct (tm_done s) eqn:Hdone.
  { change (task_manager_result s1) with (task_manager_result s).
    split; [by left|]. intros [?|[Hn _]]; [done|]. by rewrite Hn in Hr. }
  assert (Hn : os_poll (task_manager_result s) = None)
    by (destruct (os_poll (task_manager_result s)) as [[[]|]|]; naive_solver).
  assert (Hff : future_first branches s1 = future_first branches s) by done.
  destruct (tm_select branches s1) as [r|] eqn:Hsel.
  - cbn [task_manager_result]. rewrite os_poll_send by done. split.
    + intros [= ->]. right. split; [done|]. pose proof (tm_select_error _ _ _ Hsel) as Hf.
      split; [done|]. by apply (tm_select_future s1 branches e Hf Hdrop).
    + intros [?|(_ & Hf & Hfirst)]; [congruence|].
      apply (tm_select_future s1 branches e Hf Hdrop) in Hfirst. congruence.
  - change (task_manager_result s1) with (task_manager_result s). split; [by rewrite Hn|].
    intros [?|(_ & Hf & Hfirst)]; [congruence|].
    apply (tm_select_future s1 branches e Hf Hdrop) in Hfirst. congruence.
Qed.

(** C13: closing a node whose task manager is in any state it can be in.  With
    no domain, or one that closes, the call ends, the task has ended, and the
    result is an error exactly when the task has delivered that error, before
    the call or while it is being closed; the latter happens exactly when the
    future of Substrate has failed and the task, polled once more, reaches it
    before the drop signal and before a node runner that has exited.  Otherwise
    the result is success.  When the domain fails to close its error is returned
    at once and the task has only been told to stop: nothing waits for it. *)
Theorem node_close (branches : list tm_branch) d s :
  rtc tm_step tm_initial s -> td_holds d true [EAsync TaskManagerTask] -> DropSignal ∈ branches ->
  (forall domain : option (result close_error unit), (forall e, domain <> Some (Err e)) ->
     exists s' r, Node_close branches domain d s = Ret (Some (s', r)) /\ tm_done s' = true /\
       (r = Ok tt \/ exists e, r = Err (TaskManagerFailed e)) /\
       (forall e, r = Err (TaskManagerFailed e) <->
          os_poll (task_manager_result s') = Some (Ok (Err e))) /\
       (forall e, r = Err (TaskManagerFailed e) <->
          os_poll (task_manager_result s) = Some (Ok (Err e)) \/
          os_poll (task_manager_result s) = None /\ task_manager_future s = Some (Err e) /\
            future_first branches s)) /\
  (forall e, exists s', Node_close branches (Some (Err e)) d s = Ret (Some (s', Err (NodeDomainFailed e))) /\
     tm_done s' = tm_done s /\ os_poll (task_manager_drop s') = Some (Err tt)).
Proof.
  intros Hopen%tm_open_reachable Hd Hin. split.
  - intros domain Hdomain.
    assert (Hc : Node_close branches domain d s =
      let s' := tm_event (F := F) (I := I) branches (AwaitedAsync TaskManagerTask) s in
      match os_poll (task_manager_result s') with
      | None => Ret None
      | Some (Err _) => Ret (Some (s', Err NodeResultGone))
      | Some (Ok (Err e)) => Ret (Some (s', Err (TaskManagerFailed e)))
      | Some (Ok (Ok _)) => Ret (Some (s', Ok tt))
      end).
    { unfold Node_close. destruct domain as [[]|]; [|naive_solver|];
        by rewrite (td_async_drop_runs _ _ _ Hd) by by repeat constructor. }
    rewrite Hc. destruct (tm_event_awaited s branches Hopen Hin) as (Hdone & Hres & Hfut & Hkeep).
    setoid_rewrite <-(tm_event_delivered s branches Hopen).
    cbv zeta in *. set (s' := tm_event _ _ _) in *. unfold tm_results in Hres.
    destruct (os_poll (task_manager_result s')) as [[[o|e]|[]]|] eqn:Hp;
      [| |done|rewrite Hdone in Hres; done].
    all: eexists _, _; split; [done|]; split; [done|]; split; [naive_solver|].
    all: split; intros e'; rewrite ?Hp; naive_solver.
  - intros e. unfold Node_close. destruct (td_drop_runs _ _ _ Hd) as (w & -> & Hw). cbn.
    eexists. split; [done|]. rewrite foldl_app. cbn.
    assert (Hskip : forall s, foldl (fun s e => tm_event branches e s) s w = s).
    { induction Hw as [|? w [n ->] _ IH]; intros s0; [done|]. apply IH. }
    rewrite Hskip. split; [done|]. cbn. apply os_poll_drop_sender, Hopen.
Qed.

(** What [Node::close] reports is decided by the order in which its task
    polls when Substrate's future fails while the node is being closed: polling
    the signal first reports success, polling the future first the error. *)
Lemma node_close_race d s e :
  rtc tm_step tm_initial s -> td_holds d true [EAsync TaskManagerTask] ->
  tm_done s = false -> task_manager_future s = Some (Err e) ->
  (exists s', Node_close [DropSignal; TaskManagerFuture; NodeRunner] None d s = Ret (Some (s', Ok tt))) /\
  (exists s', Node_close [TaskManagerFuture; DropSignal; NodeRunner] None d s =
     Ret (Some (s', Err (TaskManagerFailed e)))).
Proof.
  intros [Hdrop Hres]%tm_open_reachable Hd Hdone Hf.
  assert (Hnone : os_poll (task_manager_result s) = None).
  { unfold tm_results in Hres. rewrite Hdone in Hres. repeat destruct_match; naive_solver. }
  unfold Node_close. rewrite !(td_async_drop_runs _ _ _ Hd) by by repeat constructor.
  split; cbn; unfold tm_poll; cbn; rewrite Hdone; cbn; rewrite ?Hf, ?os_poll_send by done; cbn;
    rewrite ?os_poll_send by done; eauto.
Qed.
End node_task_properties.

(** No set a program can have built reports that it ran: [async_drop] consumes
    the set, and [Node::close] the node. *)
Lemma node_never_is_closed {F A I} (d : DestructorSet F A I) : built d -> Node_is_closed d = false.
Proof. intros [l Hd]%built_holds. apply Hd. Qed.

(** ** Syncing *)

Section syncing_properties.
Context (R1 R2 : forall A E, (nat -> attempt A E) -> result E A) `{!Retry R1} `{!Retry R2}.

(** A policy that gives up returns the last transient error; the first success wins. *)
Lemma retry_done R `{Hr : !Retry R} {A E} (op : nat -> attempt A E) a : op 0%nat = Done a -> R A E op = Ok a.
Proof.
  intros H0. destruct (Hr A E op) as (n & Hn & Hop). destruct n as [|n]; [by rewrite H0 in Hop|].
  destruct (Hn 0%nat) as [e He]; [lia|]. congruence.
Qed.

Lemma retry_transient R `{Hr : !Retry R} {A E} (op : nat -> attempt A E) e :
  (forall i, op i = Transient e) -> R A E op = Err e.
Proof. intros Hop. destruct (Hr A E op) as (n & _ & Hn). by rewrite Hop in Hn. Qed.

Definition idle (st : result unit SyncState) : Prop := st = Ok SyncIdle \/ st = Ok SyncPending.

(** The item a turn sends when its first query says anything but idle. *)
Definition turn_item (t : turn) : result string SyncingProgress :=
  match turn_status t 0%nat with
  | Ok (SyncImporting target) => Ok (mkSyncing (turn_best t) target Importing)
  | Ok (SyncDownloading target) => Ok (mkSyncing (turn_best t) target Downloading)
  | _ => Err status_failed
  end.

Definition reports (t : turn) : Prop := turn_alive t = true /\ ~ idle (turn_status t 0%nat).

Lemma produce_turn t turns : reports t ->
  produce R2 (t :: turns) = (turn_item t :: (produce R2 turns).1, (produce R2 turns).2).
Proof.
  intros [Halive Hidle]. unfold idle in Hidle. cbn.
  rewrite (retry_done R2 _ (match turn_status t 0%nat with
    | Ok (SyncImporting target) => Ok (target, Importing)
    | Ok (SyncDownloading target) => Ok (target, Downloading)
    | _ => Err status_failed end)).
  - rewrite Halive. destruct (produce R2 turns). unfold turn_item.
    by destruct (turn_status t 0%nat) as [[]|].
  - unfold next_attempt. destruct (turn_status t 0%nat) as [[]|]; try done; exfalso; auto.
Qed.

Lemma produce_reports turns rest : Forall reports turns ->
  produce R2 (turns ++ rest) = ((turn_item <$> turns) ++ (produce R2 rest).1, (produce R2 rest).2).
Proof.
  induction 1 as [|t turns Ht _ IH]; [cbn [app fmap list_fmap]; by rewrite <-surjective_pairing|].
  rewrite <-app_comm_cons, produce_turn by done. by rewrite IH.
Qed.

Lemma produce_idle t rest : (forall i, idle (turn_status t i)) -> produce R2 (t :: rest) = ([], true).
Proof.
  intros Hidle. cbn. rewrite (retry_transient R2 _ tt); [done|].
  intros i. unfold next_attempt. by destruct (Hidle i) as [-> | ->].
Qed.

Lemma first_done (first : nat -> bool * result unit SyncState) o target status :
  (first 0%nat = (o, Ok (SyncImporting target)) /\ status = Importing) \/
  (first 0%nat = (o, Ok (SyncDownloading target)) /\ status = Downloading) ->
  R2 _ _ (fun i => first_attempt (first i).1 (first i).2) = Ok (target, status).
Proof.
  intros Hf. apply (retry_done R2). by destruct Hf as [[-> ->] | [-> ->]].
Qed.

Lemma online_connects (offline : nat -> bool) : offline 0%nat = false ->
  R1 _ _ (fun i => if offline i then Transient tt else Done tt) = Ok tt.
Proof. intros H0. apply (retry_done R1). by rewrite H0. Qed.

(** The items of a syncing node.  The first one is the state at the call;
    every later turn whose query is answered sends one item, in order, and a
    failing query sends an error without ending the stream.  The stream ends
    after a turn that stays idle until the retries give up, and then with no
    further item. *)
Lemma syncing_progress_items offline first best target status o turns t rest :
  offline 0%nat = false ->
  (first 0%nat = (o, Ok (SyncImporting target)) /\ status = Importing) \/
  (first 0%nat = (o, Ok (SyncDownloading target)) /\ status = Downloading) ->
  Forall reports turns -> (forall i, idle (turn_status t i)) ->
  subscribe_syncing_progress R1 R2 offline first best turns =
    Ok (mkSyncingStream best target, Ok (mkSyncing best target status) :: (turn_item <$> turns), false) /\
  subscribe_syncing_progress R1 R2 offline first best (turns ++ t :: rest) =
    Ok (mkSyncingStream best target, Ok (mkSyncing best target status) :: (turn_item <$> turns), true).
Proof.
  intros Hon Hfirst Hturns Hidle. unfold subscribe_syncing_progress.
  rewrite (online_connects _ Hon), (first_done _ _ _ _ Hfirst).
  pose proof (produce_reports turns [] Hturns) as H1. rewrite app_nil_r in H1.
  pose proof (produce_reports turns (t :: rest) Hturns) as H2. rewrite (produce_idle t rest Hidle) in H2.
  cbn in H1, H2. rewrite app_nil_r in H1, H2. by rewrite H1, H2.
Qed.

(** The retries of a turn's query have given up. *)
Definition gives_up (t : turn) : Prop := R2 _ _ (fun i => next_attempt (turn_status t i)) = Err tt.

(** They give up only on a node that was idle at every attempt; otherwise the
    first attempt that is not idle decides. *)
Lemma gives_up_spec t :
  exists n, (forall i, (i < n)%nat -> idle (turn_status t i)) /\ (gives_up t <-> idle (turn_status t n)).
Proof.
  assert (Hattempt : forall i, (exists e, next_attempt (turn_status t i) = Transient e) <-> idle (turn_status t i)).
  { intros i. unfold idle, next_attempt. destruct (turn_status t i) as [[]|[]]; naive_solver. }
  unfold gives_up. destruct (retry_spec (R := R2) _ _ (fun i => next_attempt (turn_status t i))) as (n & Hn & Hlast).
  exists n. split; [intros i Hi; by apply Hattempt, Hn|]. rewrite <-Hattempt.
  destruct (next_attempt (turn_status t n)) as [r|[]] eqn:He; rewrite Hlast; naive_solver.
Qed.

Definition syncing (st : result unit SyncState) : Prop :=
  exists target, st = Ok (SyncImporting target) \/ st = Ok (SyncDownloading target).

(** The producer is gone after a turn that gives up or finds the receiver gone. *)
Lemma produce_ended turns :
  (produce R2 turns).2 = true <-> Exists (fun t => gives_up t \/ turn_alive t = false) turns.
Proof.
  unfold gives_up. induction turns as [|t turns IH]; cbn; [by rewrite Exists_nil|].
  rewrite Exists_cons, <-IH. destruct (R2 _ _ _) as [r|[]]; [|naive_solver].
  destruct (turn_alive t); [|naive_solver]. destruct (produce R2 turns) as [items ended]. naive_solver.
Qed.

Lemma sync_connected offline first best turns n :
  R1 _ _ (fun i => if (offline i : bool) then Transient tt else Done tt) = Ok tt ->
  match first_attempt (first n).1 (first n).2 with
  | Done a => R2 _ _ (fun i => first_attempt (first i).1 (first i).2) = Ok a
  | Transient e => R2 _ _ (fun i => first_attempt (first i).1 (first i).2) = Err e
  end ->
  sync R1 R2 offline first best turns =
  match (first n).2, (first n).1 with
  | Ok (SyncImporting _), _ | Ok (SyncDownloading _), _ =>
      Ok (if (produce R2 turns).2 then Some tt else None)
  | _, true => Err went_offline
  | Err _, false => Err status_failed
  | Ok _, false => Ok (Some tt)
  end.
Proof.
  unfold sync, subscribe_syncing_progress. intros ->.
  destruct (first n) as [[] [[]|]]; cbn; intros ->; try done; by destruct (produce R2 turns).
Qed.

(** C31: the outcome of [Node::sync].  The attempts to connect end with one that
    finds the node online, or give up on a node that was offline every time, and
    then [sync] fails.  The attempts of the first query end with one that finds
    the node syncing, or give up when it never was, and then the last attempt
    decides: an offline node fails (also an idle one), a failed query fails, and
    an idle node that is online returns success at once.  There is no other
    failure.  Once syncing has begun, [sync] has returned exactly when in one of
    the turns the retries gave up on the node, which was idle at every attempt,
    or the receiver was gone; turns whose query is answered, even with errors
    only, leave it waiting. *)
Theorem sync_outcome offline first best :
  exists n, (forall i, (i < n)%nat -> offline i = true) /\
  ((offline n = true /\
      forall turns, sync R1 R2 offline first best turns = Err "Failed to connect to the network"%string) \/
   (offline n = false /\ exists m, (forall i, (i < m)%nat -> ~ syncing (first i).2) /\
      forall turns,
      (forall e, sync R1 R2 offline first best turns = Err e <->
         (~ syncing (first m).2 /\ (first m).1 = true /\ e = went_offline) \/
         ((first m).2 = Err tt /\ (first m).1 = false /\ e = status_failed)) /\
      (sync R1 R2 offline first best turns = Ok (Some tt) <->
         (idle (first m).2 /\ (first m).1 = false) \/
         (syncing (first m).2 /\ Exists (fun t => gives_up t \/ turn_alive t = false) turns)))) /\
  forall t, exists k, (forall i, (i < k)%nat -> idle (turn_status t i)) /\
    (gives_up t <-> idle (turn_status t k)).
Proof.
  destruct (retry_spec (R := R1) _ _ (fun i => if offline i then Transient tt else Done tt))
    as (n & Hn & Hlast).
  exists n. split; [|split; [|apply gives_up_spec]].
  { intros i Hi. destruct (Hn i Hi) as [e He]. by destruct (offline i). }
  destruct (offline n); [left|right]; (split; [done|]).
  { intros turns. unfold sync, subscribe_syncing_progress. by rewrite Hlast. }
  destruct (retry_spec (R := R2) _ _ (fun i => first_attempt (first i).1 (first i).2)) as (m & Hm & Hfirst).
  exists m. split.
  { intros i Hi. destruct (Hm i Hi) as [e He]. intros [target Hs]. destruct (first i) as [o [[]|]];
      cbn in *; naive_solver. }
  intros turns. rewrite (sync_connected _ _ _ _ _ Hlast Hfirst), <-produce_ended.
  unfold idle, syncing. destruct (first m) as [[] [[]|[]]]; cbn; destruct (produce R2 turns).2;
    split; naive_solver.
Qed.

(** The bounds of the stream's [size_hint] are block numbers, not numbers of
    items: a stream that has ended still promises [best] more. *)
Lemma syncing_size_hint_not_items (offline : nat -> bool) first best target o t rest :
  offline 0%nat = false -> first 0%nat = (o, Ok (SyncImporting target)) ->
  (forall i, idle (turn_status t i)) -> in_u 32 best -> in_u 32 target ->
  exists stream item,
    subscribe_syncing_progress R1 R2 offline first best (t :: rest) = Ok (stream, [item], true) /\
    sync_size_hint (sync_poll_next (Some (Some item)) stream) = (best, Some target).
Proof.
  intros Hon Hfirst Hidle Hb Ht. eexists _, _. split.
  - apply (syncing_progress_items offline first best target Importing o [] t rest); auto.
  - unfold sync_size_hint. cbn. unfold in_u in *. by rewrite !cast_small by (unfold in_u in *; lia).
Qed.
End syncing_properties.

(** ** The entropy of proof of time *)

(** Where the entropy of proof of time comes from: an explicit value of the
    chain specification wins over the configured one, a missing or null one
    leaves the configured one, and neither gives the empty entropy; a value that
    does not decode fails the build, whatever is configured. *)
Lemma pot_external_entropy_precedence (from_value : json -> option (option (list Z)))
    (properties : Properties) (config_value : option (list Z)) v :
  from_value JNull = Some None ->
  (properties !! "potExternalEntropy"%string = None \/
   properties !! "potExternalEntropy"%string = Some JNull ->
     pot_external_entropy from_value properties config_value = Ok (default [] config_value)) /\
  (properties !! "potExternalEntropy"%string = Some v -> forall bytes, from_value v = Some (Some bytes) ->
     pot_external_entropy from_value properties config_value = Ok bytes) /\
  (properties !! "potExternalEntropy"%string = Some v -> from_value v = None ->
     exists e, pot_external_entropy from_value properties config_value = Err e).
Proof.
  intros Hnull. unfold pot_external_entropy. split; [|split].
  - intros [-> | ->]; cbn; rewrite ?Hnull; by destruct config_value.
  - intros -> bytes Hb. cbn. by rewrite Hb.
  - intros -> Hv. cbn. rewrite Hv. cbn. eauto.
Qed.

(** ** Witnesses *)

Section node_demo.
#[local] Instance demo_node_telemetry : TelemetryApi (list (string * Z)) (string * Z) := {|
  te_to_json := id; te_from_json := Some; extra_to_json := id; te_new := Some |}.

Abbreviation DemoSet := (DestructorSet unit node_task unit).

Definition demo_node_set : DemoSet := (add_async_destructor TaskManagerTask (new "node-destructors")).1.

Lemma demo_node_set_holds : td_holds demo_node_set true [EAsync TaskManagerTask].
Proof. apply (holds_add_async (new "node-destructors") []). apply holds_new. Qed.

(** Substrate's future failed, and the task has not been polled since. *)
Definition demo_failed : tm_state Cell := mkTm None (Some (Err "essential task failed"%string)) false None false.

Lemma demo_failed_reachable : rtc tm_step tm_initial demo_failed.
Proof. apply rtc_once. exact (tm_future_resolves tm_initial _ eq_refl). Qed.

(** The task is polled for the first time during [close], the future before the signal. *)
Lemma node_close_witness :
  exists s', Node_close [TaskManagerFuture; DropSignal; NodeRunner] None demo_node_set demo_failed =
    Ret (Some (s', Err (TaskManagerFailed "essential task failed"))).
Proof.
  destruct (proj1 (node_close (Os := Cell) [TaskManagerFuture; DropSignal; NodeRunner] demo_node_set
    demo_failed demo_failed_reachable demo_node_set_holds
    ltac:(apply elem_of_cons; right; apply elem_of_cons; left; reflexivity)) None)
    as (s' & r & Hc & _ & _ & _ & Hr).
  - intros e. discriminate.
  - exists s'. rewrite <-(proj2 (Hr "essential task failed"%string)); [exact Hc|]. right.
    split; [reflexivity|]. split; [reflexivity|]. exists [], [DropSignal; NodeRunner].
    split; [reflexivity|]. split; [apply not_elem_of_nil|]. split; [apply not_elem_of_nil|].
    intros _. apply not_elem_of_nil.
Defined.

Lemma node_close_race_witness :
  exists s', Node_close [DropSignal; TaskManagerFuture; NodeRunner] None demo_node_set demo_failed =
    Ret (Some (s', Ok tt)).
Proof.
  exact (proj1 (node_close_race (Os := Cell) demo_node_set demo_failed "essential task failed"
    demo_failed_reachable demo_node_set_holds eq_refl eq_refl)).
Defined.

Abbreviation demo_retry := (fun A E (op : nat -> attempt A E) => retry_upto 3 op).
Definition demo_importing : turn := mkTurn (fun _ => Ok (SyncImporting 100)) 42 true.
Definition demo_failing : turn := mkTurn (fun _ => Err tt) 43 true.
Definition demo_idle : turn := mkTurn (fun _ => Ok SyncIdle) 100 true.

Lemma demo_turns_report : Forall reports [demo_importing; demo_failing].
Proof. repeat constructor; cbn; try done; unfold idle; cbn; intros [?|?]; discriminate. Qed.

Lemma syncing_progress_items_witness :
  subscribe_syncing_progress demo_retry demo_retry (fun _ => false)
    (fun _ => (false, Ok (SyncDownloading 90))) 41 ([demo_importing; demo_failing] ++ [demo_idle]) =
  Ok (mkSyncingStream 41 90,
      [Ok (mkSyncing 41 90 Downloading); Ok (mkSyncing 42 100 Importing); Err status_failed], true).
Proof.
  exact (proj2 (syncing_progress_items demo_retry demo_retry (fun _ => false)
    (fun _ => (false, Ok (SyncDownloading 90))) 41 90 Downloading false
    [demo_importing; demo_failing] demo_idle [] eq_refl
    (or_intror (conj eq_refl eq_refl)) demo_turns_report (fun _ => or_introl eq_refl))).
Defined.

(** A node that is idle and goes offline before its first query is answered; and
    one that syncs for two turns and is idle in the third. *)
Lemma sync_outcome_witness :
  (exists m, sync demo_retry demo_retry (fun _ => false) (fun i => (Nat.leb m i, Ok SyncPending)) 41 [] =
     Err went_offline) /\
  sync demo_retry demo_retry (fun _ => false) (fun _ => (false, Ok (SyncImporting 90))) 41
    [demo_importing; demo_failing; demo_idle] = Ok (Some tt).
Proof.
  split.
  - exists 0%nat. destruct (sync_outcome demo_retry demo_retry (fun _ => false)
      (fun i => (Nat.leb 0 i, Ok SyncPending)) 41) as (n & _ & [[Hoff _]|(_ & m & _ & Hs)] & _); [discriminate|].
    apply (proj1 (Hs [])). left. split; [|split; reflexivity]. intros [target [Ht|Ht]]; discriminate.
  - destruct (sync_outcome demo_retry demo_retry (fun _ => false)
      (fun _ => (false, Ok (SyncImporting 90))) 41) as (n & _ & [[Hoff _]|(_ & m & _ & Hs)] & _); [discriminate|].
    apply (proj2 (Hs [demo_importing; demo_failing; demo_idle])). right.
    split; [exists 90; left; reflexivity|]. apply Exists_cons_tl, Exists_cons_tl, Exists_cons_hd.
    left. reflexivity.
Defined.

Definition demo_entropy (v : json) : option (option (list Z)) :=
  match v with JNull => Some None | JStr _ => Some (Some [1; 2]) | _ => None end.

Lemma pot_external_entropy_precedence_witness :
  pot_external_entropy demo_entropy (consensus_properties 2254 18) (Some [7]) = Ok [7] /\
  pot_external_entropy demo_entropy {["potExternalEntropy"%string := JStr "0102"]} (Some [7]) = Ok [1; 2].
Proof.
  split.
  - exact (proj1 (pot_external_entropy_precedence demo_entropy (consensus_properties 2254 18) (Some [7])
      JNull eq_refl) (or_intror eq_refl)).
  - exact (proj1 (proj2 (pot_external_entropy_precedence demo_entropy
      {["potExternalEntropy"%string := JStr "0102"]} (Some [7]) (JStr "0102") eq_refl)) eq_refl [1; 2] eq_refl).
Defined.

Definition demo_addresses (v : json) : option (list string) :=
  match v with
  | JArr l => collect_option ((fun v => match v with JStr s => Some s | _ => None end) <$> l)
  | _ => None
  end.
Definition demo_map (v : json) : option (list (string * json)) :=
  match v with JObj l => Some l | _ => None end.

#[local] Existing Instance demo_table.

Abbreviation DemoNetworking Table := (NetworkingConfig (KnownPeers := unit) (PieceIndex := Z)
  (Cache := Z -> option Z) (Readers := Table) (PieceResponse := PieceByIndexResponse Z)
  (SegmentRequest := SegmentHeaderRequest) (SegmentResponse := SegmentHeaderResponse string)).

Definition demo_node_externals {Table : Type} : node_externals (KeyPair := unit)
    (NetworkNode := DemoNetworking Table)
    (Registry := unit) (PeerId := string) (KnownPeers := unit) (Cache := Z -> option Z)
    (Readers := Table) (PieceIndex := Z) (Piece := Z) (SHeader := string) (Store := unit) (Genesis := unit)
    (Partial := unit) (Client := unit) (NodeRpc := unit) :=
  mkNodeExternals demo_domain_externals demo_entropy demo_addresses demo_map (fun _ _ => Ok tt) id
    (fun _ => Ok tt)
    (mkDsnExternals Release (fun a => Some ("parsed:" +:+ a)) (fun l => (fun a => (a, a)) <$> l) (fun _ _ => Ok tt) (fun c _ => Ok (c, tt)) tt)
    (fun _ => "00"%string) 1000 (fun _ => None) (fun _ _ => Some "header"%string) (fun _ => Ok tt) (fun _ _ => Ok tt) id
    (fun _ _ => Ok tt).

Definition demo_chain_spec : ChainSpecOf unit :=
  mkChainSpec "Demo" "demo" Development tt ["boot"%string] None None
    (<["dsnBootstrapNodes"%string := JArr [JStr "dsn-boot"]]>
    (<["domainsBootstrapNodes"%string := JObj [("0"%string, JArr [JStr "domain-boot"])]]>
       (consensus_properties 2254 18))).

Definition demo_node_config : NodeConfig :=
  NodeBuilder_configuration "sdk" "0" "0"
    (let '(mkNodeBuilder a b c d e f _ h i j) := NodeBuilder_gemini_3g in
     mkNodeBuilder a b c d e f (Some (Some demo_domain_config)) h i j).

Definition demo_build := node_build (Raw := unit) (Rpc := unit) (F := unit) (I := unit) (Os := Cell)
  (D1 := DestructorSet unit unit nat) (D2 := DemoSet) (D3 := DestructorSet unit domain_task unit)
  demo_node_externals "/tmp" demo_chain_spec demo_node_config.

Lemma demo_build_Ret :
  match demo_build with
  | Ret (Ok n) => domain_boot_nodes <$> maybe_domain n = Some ["domain-boot"%string] /\
      bootstrap_addresses (dsn_node (node_dsn_shared n)) = ["parsed:dsn-boot"%string]
  | _ => False
  end.
Proof. vm_compute. split; reflexivity. Qed.

Lemma node_build_result_witness :
  exists n, demo_build = Ret (Ok n) /\ td_holds (node_destructors n) true [EAsync TaskManagerTask] /\
  (exists dom, maybe_domain n = Some dom /\ domain_boot_nodes dom = ["domain-boot"%string]) /\
  bootstrap_addresses (dsn_node (node_dsn_shared n)) = ["parsed:dsn-boot"%string].
Proof.
  pose proof demo_build_Ret as Hdemo. destruct demo_build as [[n|e]|w] eqn:Hb; [|destruct Hdemo..].
  exists n. split; [reflexivity|]. destruct Hdemo as [Hdom Hboot].
  destruct (node_build_result demo_node_externals "/tmp" demo_chain_spec demo_node_config n Hb)
    as (Hset & _).
  split; [exact Hset|]. split; [|exact Hboot]. destruct (maybe_domain n) as [dom|]; [|discriminate Hdom].
  exists dom. split; [reflexivity|]. injection Hdom as Hdom. exact Hdom.
Defined.
End node_demo.
