(* ===== verification/Service.v ===== *)
(** The piece service of a node: what the DSN handler of a node may answer while
    farmers are built on the node, plot, and are shut down (the specification),
    and the handler itself as the sequence of its accesses to the shared slots
    (node/src/lib.rs [get_piece_by_index], farmer/src/lib.rs [get_piece_by_index]). *)
From S2P Require Import Prelude Traits Pieces.

#[local] Open Scope Z_scope.

(** ** The specification *)

Section service.
Context {Sector PieceIndex Piece : Type} `{Countable Sector}.
Variable sector_piece : Sector -> PieceIndex -> option Piece.

Abbreviation Cache := (PieceIndex -> option Piece).
Abbreviation answer := (option (PieceByIndexResponse Piece)).

(** A farmer is absent, being built, working, or being torn down.  The node is
    offline as long as there is no cache. *)
Inductive service_stage := NoService | Opening | Open | Closing.

Record service := mkService {
  svc_stage : service_stage;
  svc_cache : option Cache;
  svc_sectors : gset (Z * Sector);
}.

Inductive service_label :=
| Begun
| Advanced
| Started
| StartFailed
| Plotted (farm : Z) (sector : Sector) (replaced : option Sector)
| CacheMoved (cache : Cache).

Definition replace (farm : Z) (sector : Sector) (replaced : option Sector) (sectors : gset (Z * Sector)) :=
  {[(farm, sector)]} ∪ match replaced with Some old => sectors ∖ {[(farm, old)]} | None => sectors end.

Inductive service_step : service -> option service_label -> service -> Prop :=
| svc_begun : service_step (mkService NoService None ∅) (Some Begun) (mkService Opening None ∅)
| svc_refused : service_step (mkService NoService None ∅) (Some StartFailed) (mkService NoService None ∅)
(** opening: first the cache, then the sectors the farms already have *)
| svc_quiet c ss : service_step (mkService Opening c ss) (Some Advanced) (mkService Opening c ss)
| svc_cache_up cache :
    service_step (mkService Opening None ∅) (Some Advanced) (mkService Opening (Some cache) ∅)
| svc_sectors_up cache ss : (forall k s, (k, s) ∈ ss -> in_u 8 k) ->
    service_step (mkService Opening (Some cache) ∅) (Some Advanced) (mkService Opening (Some cache) ss)
| svc_started cache ss :
    service_step (mkService Opening (Some cache) ss) (Some Started) (mkService Open (Some cache) ss)
(** a build may fail, and be dropped or unwind, at any moment *)
| svc_start_failed c ss : service_step (mkService Opening c ss) (Some StartFailed) (mkService Closing c ss)
| svc_abandoned c ss : service_step (mkService Opening c ss) None (mkService Closing c ss)
| svc_plotted st cache ss k s old : in_u 8 k ->
    service_step (mkService st (Some cache) ss) (Some (Plotted k s old))
      (mkService st (Some cache) (replace k s old ss))
| svc_cache_moved st c ss cache : st <> NoService ->
    service_step (mkService st c ss) (Some (CacheMoved cache)) (mkService st ((fun _ => cache) <$> c) ss)
(** closing: the sectors go first, then the cache *)
| svc_close cache ss : service_step (mkService Open (Some cache) ss) None (mkService Closing (Some cache) ss)
| svc_forget cache ss : service_step (mkService Closing (Some cache) ss) None (mkService Closing (Some cache) ∅)
| svc_stop cache : service_step (mkService Closing (Some cache) ∅) None (mkService Closing None ∅)
| svc_ended : service_step (mkService Closing None ∅) None (mkService NoService None ∅).

(** A request is in flight for a while.  [permits s i before a]: at a moment when
    the service is in [s], a request for [i] that could be answered [before] can
    be answered [a]: nothing when the node is offline; the cached piece; no
    piece when the cache does not have it; and, when the cache did not have it
    at this moment or at an earlier one of the request, a piece that a sector
    served at this moment holds. *)
Definition misses (s : service) (i : PieceIndex) : Prop :=
  exists cache, svc_cache s = Some cache /\ cache i = None.

Definition permits (s : service) (i : PieceIndex) (before : answer -> Prop) (a : answer) : Prop :=
  before a \/
  match a with
  | None => svc_cache s = None
  | Some r =>
      match response_piece r with
      | None => misses s i
      | Some q =>
          (exists cache, svc_cache s = Some cache /\ cache i = Some q) \/
          (before (Some (mkPieceResponse None)) \/ misses s i) /\
          exists k sector, (k, sector) ∈ svc_sectors s /\ sector_piece sector i = Some q
      end
  end.

Inductive served_label :=
| ServiceLabel (l : service_label)
| Asked (n : nat) (i : PieceIndex)
| Answered (n : nat) (a : answer).

(** The requests in flight, with the answers they can be given. *)
Definition pending_request : Type := PieceIndex * (answer -> Prop).

Record served := mkServed { served_service : service; pending : gmap nat pending_request }.

(** A request that has found a cache follows its moves, also after the cache was
    withdrawn. *)
Definition observe (l : option service_label) (s : service) (p : pending_request) : pending_request :=
  (p.1, permits s p.1 (fun a => p.2 a \/
     match l with
     | Some (CacheMoved cache) => (exists r, p.2 (Some r)) /\ a = Some (mkPieceResponse (cache p.1))
     | _ => False
     end)).

Inductive spec_step : served -> option served_label -> served -> Prop :=
| spec_service s l s' pd : service_step s l s' ->
    spec_step (mkServed s pd) (ServiceLabel <$> l) (mkServed s' (observe l s' <$> pd))
| spec_asked s pd n i : pd !! n = None ->
    spec_step (mkServed s pd) (Some (Asked n i)) (mkServed s (<[n := (i, permits s i (fun _ => False))]> pd))
| spec_answered s pd n i allowed a : pd !! n = Some (i, allowed) -> allowed a ->
    spec_step (mkServed s pd) (Some (Answered n a)) (mkServed s (delete n pd))
(** the peer goes away *)
| spec_dropped s pd n : spec_step (mkServed s pd) None (mkServed s (delete n pd)).

Lemma permits_more s i (P : answer -> Prop) a : P a -> permits s i P a.
Proof. by left. Qed.

(** Looking twice at the same service permits nothing new. *)
Lemma permits_idem s i (P : answer -> Prop) a : permits s i (permits s i P) a -> permits s i P a.
Proof.
  intros [?|Ha]; [done|]. right. destruct a as [[[q|]]|]; cbn in *; [|done..].
  destruct Ha as [?|[[[?|?]|?] ?]]; auto.
Qed.
End service.
Arguments service Sector PieceIndex Piece {_ _}.
Arguments service_label Sector PieceIndex Piece : clear implicits.
Arguments served_label Sector PieceIndex Piece : clear implicits.
Arguments served Sector PieceIndex Piece {_ _}.

(** ** The handler of a request *)

Section request.
Context {RP Reader Sector PieceIndex Piece : Type}.
Context `{ReadersAndPiecesApi RP Reader Sector PieceIndex Piece}.

Abbreviation Cache := (PieceIndex -> option Piece).
Abbreviation answer := (option (PieceByIndexResponse Piece)).

(** Where the handler is between two accesses to what it shares with others.
    [Holding mine i cache]: it has cloned the handle that was in the cache slot;
    the clone shares the cache, whose contents are [cache] now, with the farmer,
    which is still there if [mine]. *)
Inductive request :=
| Looking (i : PieceIndex)
| Holding (mine : bool) (i : PieceIndex) (cache : Cache)
| Missed (i : PieceIndex)
| Replying (a : answer).

(** The next access.  The node is alive while its handler runs, so that the weak
    pointer to the readers can be upgraded. *)
Definition request_next (readers : option RP) (piece_cache : option Cache) (r : request) : option request :=
  match r with
  | Looking i =>
      Some (match piece_cache with
            | Some cache => Holding true i cache
            | None => Replying None
            end)
  | Holding _ i cache =>
      Some (match cache i with
            | Some piece => Replying (Some (mkPieceResponse (Some piece)))
            | None => Missed i
            end)
  | Missed i =>
      Some (Replying (Some (mkPieceResponse
        (match readers with
         | Some readers_and_pieces =>
             match rp_read_piece i readers_and_pieces with Some fut => fut | None => None end
         | None => None
         end))))
  | Replying _ => None
  end.

(** What the farmer does to the caches that requests hold. *)
Definition affected (l : option (service_label Sector PieceIndex Piece)) (r : request) : request :=
  match l, r with
  | Some Begun, Holding _ i cache => Holding false i cache
  | Some (CacheMoved cache'), Holding true i _ => Holding true i cache'
  | _, _ => r
  end.

(** Undisturbed, the handler answers within three accesses, what the handler
    answers in one go. *)
Lemma request_undisturbed readers piece_cache i : exists k, (k <= 3)%nat /\
  nsteps (fun r r' => request_next readers piece_cache r = Some r') k (Looking i)
    (Replying (node_get_piece_by_index i (Some readers) piece_cache)).
Proof.
  unfold node_get_piece_by_index. cbn. unfold farmer_get_piece_by_index.
  destruct piece_cache as [cache|]; [destruct (cache i) as [p|] eqn:Hp|].
  - exists 2%nat. split; [lia|]. do 2 (eapply nsteps_l; [done|]). cbn. rewrite Hp. constructor.
  - exists 3%nat. split; [lia|]. eapply nsteps_l; [done|]. eapply nsteps_l; [cbn; by rewrite Hp|].
    eapply nsteps_l; [done|]. constructor.
  - exists 1%nat. split; [lia|]. eapply nsteps_l; [done|]. constructor.
Qed.
End request.
