(* ===== verification/System.v ===== *)
(** A node and its farmers together: the slots of the node's DSN, which the
    farmer fills and empties while the node's request handler reads them
    (node/src/lib.rs, dsn/src/builder.rs, farmer/src/lib.rs).

    The farmers are a labelled transition system ([sys_step]): the steps of a
    build, which may fail or be dropped at any of them, the plotting handlers,
    the cache worker, and the shutdown, one destructor at a time.  With the
    requests in flight, each at one of its accesses to the slots, it is
    [served_step], which implements the piece service of [Service]. *)
From S2P Require Import Prelude Destructors Teardown Tasks Plotting Traits Pieces FarmDriver Farmer Building Substrate ChainSpec Domain Dsn Node Service.

#[local] Open Scope Z_scope.

(** ** The order of a shutdown *)

(** What is still to be run: a plotting handler goes before the table, the table
    before the cache, and both slots are emptied once. *)
Fixpoint orderly (es : list farmer_event) : Prop :=
  match es with
  | [] => True
  | e :: es' =>
      orderly es' /\
      match e with
      | DroppedItem (OnSectorPlotted _) => RanSync ReadersAndPiecesSlot ∈ es'
      | RanSync ReadersAndPiecesSlot =>
          (RanSync ReadersAndPiecesSlot ∉ es') /\ RanSync FarmerPieceCacheSlot ∈ es'
      | RanSync FarmerPieceCacheSlot => RanSync FarmerPieceCacheSlot ∉ es'
      | _ => True
      end
  end.

Lemma orderly_cache es : orderly es -> RanSync ReadersAndPiecesSlot ∈ es -> RanSync FarmerPieceCacheSlot ∈ es.
Proof.
  induction es as [|e es IH]; cbn; [by intros _ ?%elem_of_nil|].
  intros [Hes He] [<-|Hin]%elem_of_cons; apply elem_of_cons; right; [apply He|auto].
Qed.

Lemma orderly_handler es i : orderly es -> DroppedItem (OnSectorPlotted i) ∈ es -> RanSync ReadersAndPiecesSlot ∈ es.
Proof.
  induction es as [|e es IH]; cbn; [by intros _ ?%elem_of_nil|].
  intros [Hes He] [<-|Hin]%elem_of_cons; apply elem_of_cons; right; [apply He|auto].
Qed.

Lemma orderly_suffix es es' : orderly (es ++ es') -> orderly es'.
Proof. induction es as [|e es IH]; [done|]. intros [? _]. auto. Qed.

Lemma orderly_warnings (ws es : list farmer_event) :
  Forall (fun e => exists m, e = WarnedNotAsyncDropped m) ws -> orderly es -> orderly (ws ++ es).
Proof. intros Hws Hes. induction Hws as [|e ws [m ->] _ IH]; [done|]. by split. Qed.

Lemma orderly_items hs es : orderly es -> RanSync ReadersAndPiecesSlot ∈ es -> orderly ((DroppedItem <$> hs) ++ es).
Proof.
  intros Hes Hin. induction hs as [|h hs IH]; [done|]. split; [done|].
  destruct h; [|done..]. apply elem_of_app. by right.
Qed.

Lemma items_reversed n : reverse ((fun i => EItem (OnSectorPlotted i) : farmer_entry) <$> seq 0 n) =
  EItem <$> (OnSectorPlotted <$> reverse (seq 0 n)).
Proof. by rewrite <-fmap_reverse, <-list_fmap_compose. Qed.

Lemma close_events_orderly n : orderly (close_events n).
Proof. apply orderly_items; [cbn; set_solver|set_solver]. Qed.

Lemma drop_entries_orderly n (l : list farmer_entry) : l `prefix_of` farmer_entries n ->
  orderly (drop_entry <$> reverse l).
Proof.
  intros [k Hk]. apply (orderly_suffix (drop_entry <$> reverse k)). rewrite <-fmap_reverse_app, <-Hk.
  unfold farmer_entries. rewrite fmap_reverse_app, items_reversed, <-list_fmap_compose.
  apply (orderly_items (OnSectorPlotted <$> reverse (seq 0 n))); [cbn; set_solver|set_solver].
Qed.

(** ** The farmers of a node *)

Section system.
Context {RP Reader Sector PieceIndex Piece CoreSet FarmId D : Type} {Ch : Type -> Type}.
Context `{HApi : ReadersAndPiecesApi RP Reader Sector PieceIndex Piece} `{Countable Sector}.
Context {sector_piece : Sector -> PieceIndex -> option Piece}.
Context `{HLaws : !ReadersAndPiecesLaws RP Reader Sector PieceIndex Piece sector_piece}.
Context `{TeardownLaws D slot task handler} `{Mpsc Ch}.

Abbreviation Cache := (PieceIndex -> option Piece).
Abbreviation building A := (steps (build_state Cache RP D) FarmerBuildError A).
Variable x : externals Cache Reader Sector CoreSet FarmId.

(** [Building]: what is left of the build, and the locals of [build]; the world
    is the one of the system.  [ShuttingDown]: what the destructor set still
    runs, and the farms that are dropped after it. *)
Inductive phase :=
| NoFarmer
| Building (reward_address node_name : string) (rest : building Z) (locals : build_state Cache RP D)
| Farming (f : Farmer FarmId D Ch)
| ShuttingDown (farms : list (Farm D)) (es : list farmer_event).

Record system := mkSystem { sys_world : world Cache RP; sys_phase : phase }.

Definition sys_initial : system := mkSystem (mkWorld None None [] []) NoFarmer.

Definition with_world (w : world Cache RP) (locals : build_state Cache RP D) : build_state Cache RP D :=
  mkBuildState w (bs_destructors locals) (bs_farm_info locals) (sector_plotting_handler_ids locals).

(** The DSN and the farmer hold the same slots. *)
Definition slots_of (w : world Cache RP) : DsnSlots Cache RP :=
  mkDsnSlots (farmer_readers_and_pieces w) (farmer_piece_cache w).

Definition sectors_of (w : world Cache RP) : gset (Z * Sector) :=
  match farmer_readers_and_pieces w with Some rp => rp_sectors rp | None => ∅ end.

(** The event of a farm that its handler reports to the table. *)
Definition plot_event (i : nat) (sector : Sector) (old : option Sector) (w : world Cache RP)
    : outcome (world Cache RP) :=
  r ← handler_on_sector_plotted sector old (Z.of_nat i) (farmer_readers_and_pieces w);
  Ret (set_readers r w).

Inductive sys_step : system -> option (service_label Sector PieceIndex Piece) -> system -> Prop :=
| sys_begin cfg owner name cp farms w : farms <> [] ->
    sys_step (mkSystem w NoFarmer) (Some Begun)
      (mkSystem w (Building owner name (build_steps x cfg cp farms) (begun w)))
| sys_refused cfg owner name cp w w' e :
    build (Ch := Ch) (D := D) x cfg owner name cp [] w = Ret (w', Err e) ->
    sys_step (mkSystem w NoFarmer) (Some StartFailed) (mkSystem w' NoFarmer)
| sys_build_step owner name m locals locals' rest w :
    m (with_world w locals) = Ret (locals', Ok rest) ->
    sys_step (mkSystem w (Building owner name (Pause m) locals)) (Some Advanced)
      (mkSystem (bs_world locals') (Building owner name rest locals'))
| sys_build_fails owner name m locals locals' e es w w' :
    m (with_world w locals) = Ret (locals', Err e) -> leave locals' = Ret (w', es) ->
    sys_step (mkSystem w (Building owner name (Pause m) locals)) (Some StartFailed)
      (mkSystem w' (ShuttingDown [] es))
(** the future of [build] is dropped, or unwinds *)
| sys_build_abandoned owner name rest locals es w w' :
    leave (with_world w locals) = Ret (w', es) ->
    sys_step (mkSystem w (Building owner name rest locals)) None (mkSystem w' (ShuttingDown [] es))
| sys_built owner name app_max locals w :
    sys_step (mkSystem w (Building owner name (Completed app_max) locals)) (Some Started)
      (mkSystem w (Farming (farmer_of owner name app_max locals)))
| sys_plotted i sector old w w' ph :
    OnSectorPlotted i ∈ handlers w -> plot_event i sector old w = Ret w' ->
    sys_step (mkSystem w ph) (Some (Plotted (Z.of_nat i) sector old)) (mkSystem w' ph)
(** the worker fills and evicts; the slot, if filled, shares its cache *)
| sys_cache cache' w ph :
    PiecesCacheWorker ∈ running w ->
    sys_step (mkSystem w ph) (Some (CacheMoved cache'))
      (mkSystem (set_cache ((fun _ => cache') <$> farmer_piece_cache w) w) ph)
| sys_close f es w :
    td_async_drop (fun _ => true) (Farmer_destructors f) = Ret (Some (es, Ok tt)) ->
    sys_step (mkSystem w (Farming f)) None
      (mkSystem w (ShuttingDown (map_to_list (Farmer_farm_info f)).*2 es))
| sys_destruct farms e es w :
    sys_step (mkSystem w (ShuttingDown farms (e :: es))) None
      (mkSystem (destruct_event e w) (ShuttingDown farms es))
| sys_closed farms w w' :
    drop_farms farms w = Ret w' ->
    sys_step (mkSystem w (ShuttingDown farms [])) None (mkSystem w' NoFarmer).

(** *** The invariant *)

Record stopping (farms : list (Farm D)) (es : list farmer_event) (w : world Cache RP) : Prop := {
  st_order : orderly es;
  st_farms : Forall farm_ok farms;
  st_few i : DroppedItem (OnSectorPlotted i) ∈ es -> in_u 8 (Z.of_nat i);
  st_handlers h : h ∈ handlers w -> DroppedItem h ∈ es \/ exists f, f ∈ farms /\ owns_farm f h;
  st_running t : t ∈ running w -> AwaitedAsync t ∈ es \/ DroppedAsync t ∈ es;
  st_cache : is_Some (farmer_piece_cache w) <-> RanSync FarmerPieceCacheSlot ∈ es;
  st_readers : is_Some (farmer_readers_and_pieces w) <-> RanSync ReadersAndPiecesSlot ∈ es;
}.

Definition sys_inv (s : system) : Prop :=
  let w := sys_world s in
  match sys_phase s with
  | NoFarmer => w = mkWorld None None [] []
  | Building owner name rest locals =>
      exists n, interleaved rely guar (safe n) rest (complete n) (with_world w locals)
  | Farming f =>
      exists n, (n <= 256)%nat /\ built_farmer n f w /\
      is_Some (farmer_piece_cache w) /\ is_Some (farmer_readers_and_pieces w)
  | ShuttingDown farms es => stopping farms es w
  end.

(** The state of the service a state of the system stands for. *)
Definition service_of (s : system) : service Sector PieceIndex Piece :=
  mkService
    match sys_phase s with
    | NoFarmer => NoService | Building _ _ _ _ => Opening | Farming _ => Open | ShuttingDown _ _ => Closing
    end
    (farmer_piece_cache (sys_world s)) (sectors_of (sys_world s)).

(** *** Building *)

Lemma prefix_item n (l : list farmer_entry) h : l `prefix_of` farmer_entries n -> EItem h ∈ l ->
  (exists i, h = OnSectorPlotted i /\ (i < n)%nat) /\ ESync ReadersAndPiecesSlot ∈ l.
Proof.
  intros [k Hk] Hin. split; [apply farmer_entries_item; rewrite Hk; apply elem_of_app; by left|].
  unfold farmer_entries in Hk. symmetry in Hk.
  apply app_eq_inv in Hk as [(l' & -> & _)|(l' & Hl & _)]; [set_solver|]. exfalso.
  assert (Hbad : EItem h ∈ l ++ l') by (apply elem_of_app; by left). rewrite <-Hl in Hbad. set_solver.
Qed.

(** Whoever listens during a build is one of its farms, and finds both slots filled. *)
Lemma safe_handler n (s : build_state Cache RP D) i : safe n s -> OnSectorPlotted i ∈ handlers (bs_world s) ->
  in_u 8 (Z.of_nat i) /\ is_Some (farmer_readers_and_pieces (bs_world s)).
Proof.
  intros (l & ids & [Hinv Hids Hc Hr] & [Hl Hi Ht Hn]) Hin.
  assert (Hboth : (i < n)%nat /\ ESync ReadersAndPiecesSlot ∈ l).
  { destruct (inv_handlers _ _ _ Hinv _ Hin) as [?%elem_of_nil|[Hi'|[Hi'|(dir & f & Hf & Ho)]]]; [done|..].
    - rewrite Hids in Hi'. destruct (Hi _ Hi') as (i' & [= <-] & Hlt). split; [done|]. apply Ht.
      intros ->. by apply elem_of_nil in Hi'.
    - destruct (prefix_item _ _ _ Hl Hi') as ((i' & [= <-] & Hlt) & ?). done.
    - by destruct (owns_farm_other _ _ i (inv_farms _ _ _ Hinv _ _ Hf) Ho). }
  destruct Hboth as [Hlt Hin']. specialize (Hn Hin'). split; [unfold in_u; lia|]. by apply Hr.
Qed.

Lemma safe_cache n (s : build_state Cache RP D) : safe n s -> is_Some (farmer_readers_and_pieces (bs_world s)) ->
  is_Some (farmer_piece_cache (bs_world s)).
Proof.
  intros (l & ids & [_ _ Hc Hr] & [[k Hk] _ _ _]). rewrite Hr, Hc. intros Hin.
  unfold farmer_entries in Hk. destruct l as [|e1 [|e2 l]]; cbn in Hk; [set_solver| |].
  - injection Hk as <- _. set_solver.
  - injection Hk as <- <- _. set_solver.
Qed.

Lemma stopping_leave n (s : build_state Cache RP D) : safe n s ->
  exists w' es, leave s = Ret (w', es) /\ same_slots (bs_world s) w' /\ stopping [] es w'.
Proof.
  intros (l & ids & [Hinv Hids Hc Hr] & [Hl Hi Ht Hn]).
  destruct (locals_dropped _ _ Hinv) as (w' & Hw' & [Ec Er] & Hh & Hrun).
  destruct (td_drop_runs _ _ _ (inv_set _ _ _ Hinv)) as (ws & Hdrop & Hws).
  exists w', (ws ++ (drop_entry <$> reverse l)). unfold leave. rewrite Hw'. cbn. rewrite Hdrop.
  split; [done|]. split; [done|].
  assert (Hsync : forall sl, RanSync sl ∈ ws ++ (drop_entry <$> reverse l) <-> ESync sl ∈ l).
  { intros sl. split; [|by apply (drop_entries_in l (ESync sl))]. intros Hin.
    apply elem_of_app in Hin as [Hin|([f|a|h] & [= ->] & Hin)%list_elem_of_fmap]; [|by rewrite elem_of_reverse in Hin].
    rewrite Forall_forall in Hws. by apply Hws in Hin as [? ?]. }
  split.
  - apply orderly_warnings; [done|]. by apply drop_entries_orderly with n.
  - constructor.
  - intros i [Hin|([f|a|h] & [= <-] & Hin)%list_elem_of_fmap]%elem_of_app.
    { rewrite Forall_forall in Hws. by apply Hws in Hin as [? ?]. }
    rewrite elem_of_reverse in Hin. destruct (prefix_item _ _ _ Hl Hin) as ((i' & [= <-] & Hlt) & Hin').
    specialize (Hn Hin'). unfold in_u. lia.
  - intros h Hin. left. by apply (drop_entries_in l (EItem h)), Hh.
  - intros t Hin. right. by apply (drop_entries_in l (EAsync t)), Hrun.
  - by rewrite Ec, Hc, Hsync.
  - by rewrite Er, Hr, Hsync.
Qed.

(** *** Shutting down *)

Lemma stopping_destruct farms e es w : stopping farms (e :: es) w -> stopping farms es (destruct_event e w).
Proof.
  intros [[Ho He] Hf Hn Hh Ht Hc Hr]. change (destruct_event e w) with (destruct_events [e] w).
  split; [done|done|intros i Hi; apply Hn; by right| | | |].
  - intros h [Hin Hno]%handlers_after. destruct (Hh h Hin) as [[<-|?]%elem_of_cons|?]; [set_solver|auto..].
  - intros t (Hin & Hno & Hno')%running_after. destruct (Ht t Hin); set_solver.
  - destruct e as [[]|t|t|h|nm]; cbn; rewrite ?Hc; [|set_solver..]. split; [by intros []|done].
  - destruct e as [[]|t|t|h|nm]; cbn; rewrite ?Hr; [set_solver| |set_solver..]. split; [by intros []|].
    by destruct He.
Qed.

Lemma stopping_close n (f : Farmer FarmId D Ch) w : (n <= 256)%nat -> built_farmer n f w ->
  is_Some (farmer_piece_cache w) -> is_Some (farmer_readers_and_pieces w) ->
  td_async_drop (fun _ => true) (Farmer_destructors f) = Ret (Some (close_events n, Ok tt)) /\
  stopping (map_to_list (Farmer_farm_info f)).*2 (close_events n) w.
Proof.
  intros Hn Hf Hc Hr. split; [by apply built_async_drop with (w := w)|]. split.
  - apply close_events_orderly.
  - apply (bf_farms _ _ _ Hf).
  - intros i (i' & [= <-] & Hi)%close_events_items. unfold in_u. lia.
  - intros h Hin. destruct (bf_handlers _ _ _ Hf _ Hin) as [?|?]; [left; by apply close_events_items|by right].
  - intros t Hin. left. rewrite <-run_farmer_entries. apply list_elem_of_fmap.
    exists (EAsync t). rewrite elem_of_reverse. split; [done|]. by apply (bf_running _ _ _ Hf).
  - split; [intros _; unfold close_events; set_solver|done].
  - split; [intros _; unfold close_events; set_solver|done].
Qed.

(** In the end nothing of the farmer is left. *)
Lemma stopping_done farms w : stopping farms [] w -> drop_farms farms w = Ret (mkWorld None None [] []).
Proof.
  intros [_ Hf _ Hh Ht Hc Hr]. destruct (drop_farms_spec _ w Hf) as ([c r hs ts] & -> & [Ec Er] & Et & Eh).
  cbn in *. do 2 f_equal.
  - rewrite Ec. apply eq_None_not_Some. rewrite Hc. apply not_elem_of_nil.
  - rewrite Er. apply eq_None_not_Some. rewrite Hr. apply not_elem_of_nil.
  - apply elem_of_nil_inv. intros h Hin. apply Eh in Hin as [Hin Hno].
    destruct (Hh h Hin) as [?%elem_of_nil|(f & Hf' & Ho)]; [done|]. by apply (Hno f).
  - apply elem_of_nil_inv. intros t Hin%Et. by destruct (Ht t Hin) as [?%elem_of_nil|?%elem_of_nil].
Qed.

(** *** In every phase *)

(** Whoever listens is one of at most 256 farms, and finds the table. *)
Lemma inv_handler s i : sys_inv s -> OnSectorPlotted i ∈ handlers (sys_world s) ->
  in_u 8 (Z.of_nat i) /\ is_Some (farmer_readers_and_pieces (sys_world s)).
Proof.
  destruct s as [w [|owner name rest locals|f|farms es]]; cbn; intros Hinv Hin.
  - subst. by apply elem_of_nil in Hin.
  - destruct Hinv as (n & Hp). by apply (safe_handler n (with_world w locals)), Hin; apply (interleaved_safe _ _ _ _ _ _ Hp).
  - destruct Hinv as (n & Hn & Hf & _ & Hr). pose proof (built_sector_handler _ _ _ _ Hf Hin).
    split; [unfold in_u; lia|done].
  - destruct Hinv as [Ho Hf Hn Hh _ _ Hr]. destruct (Hh _ Hin) as [Hi|(f & Hf' & Hown)].
    + split; [by apply Hn|]. by apply Hr, (orderly_handler _ i).
    + rewrite Forall_forall in Hf. by destruct (owns_farm_other _ _ i (Hf _ Hf') Hown).
Qed.

(** The table is only there with the cache. *)
Lemma inv_cache s : sys_inv s -> is_Some (farmer_readers_and_pieces (sys_world s)) ->
  is_Some (farmer_piece_cache (sys_world s)).
Proof.
  destruct s as [w [|owner name rest locals|f|farms es]]; cbn; intros Hinv.
  - subst. by intros [].
  - destruct Hinv as (n & Hp). apply (safe_cache n (with_world w locals)), (interleaved_safe _ _ _ _ _ _ Hp).
  - by destruct Hinv as (n & _ & _ & Hc & _).
  - destruct Hinv as [Ho _ _ _ _ Hc Hr]. rewrite Hc, Hr. by apply orderly_cache.
Qed.

(** A step that only replaces the contents of filled slots keeps the invariant. *)
Lemma inv_same w w' ph : sys_inv (mkSystem w ph) ->
  handlers w' = handlers w -> running w' = running w ->
  (is_Some (farmer_readers_and_pieces w') <-> is_Some (farmer_readers_and_pieces w)) ->
  (is_Some (farmer_piece_cache w') <-> is_Some (farmer_piece_cache w)) ->
  sys_inv (mkSystem w' ph).
Proof.
  intros Hinv Eh Er Hr Hc. destruct ph as [|owner name rest locals|f|farms es]; cbn in *.
  - subst w. destruct w' as [[c|] [r|] hs ts]; cbn in *; subst; try done.
    + by destruct (proj1 Hc (ltac:(by eexists))).
    + by destruct (proj1 Hc (ltac:(by eexists))).
    + by destruct (proj1 Hr (ltac:(by eexists))).
  - destruct Hinv as (n & Hp). exists n. eapply interleaved_rely; [apply _|exact Hp|]. by split.
  - destruct Hinv as (n & Hn & Hf & Hc1 & Hr1). exists n. split; [done|]. rewrite Hc, Hr. split; [|done].
    apply (built_subset _ _ _ _ Hf); [by rewrite Eh|by rewrite Er].
  - destruct Hinv as [Ho Hf Hn Hh Ht Hc1 Hr1]. split; rewrite ?Eh, ?Er, ?Hr, ?Hc; done.
Qed.

(** The plotting handler never panics. *)
Lemma plot_event_Ret s i sector old : sys_inv s -> OnSectorPlotted i ∈ handlers (sys_world s) ->
  exists rp, farmer_readers_and_pieces (sys_world s) = Some rp /\
  plot_event i sector old (sys_world s) =
    Ret (set_readers (Some (rp_add_sector (Z.of_nat i) sector
           (match old with Some o => rp_delete_sector (Z.of_nat i) o rp | None => rp end))) (sys_world s)).
Proof.
  intros Hinv Hin. destruct (inv_handler s i Hinv Hin) as (Hi & [rp Hrp]).
  exists rp. split; [done|]. unfold plot_event, handler_on_sector_plotted, try_into_u.
  by rewrite Hrp, decide_True by done.
Qed.

Lemma inv_initial : sys_inv sys_initial.
Proof. done. Qed.

(** *** Refinement, step by step *)

(** The invariant holds again, and the service took the step or did not change. *)
Definition refines (s : system) (l : option (service_label Sector PieceIndex Piece)) (s' : system) : Prop :=
  sys_inv s' /\
  (service_step (service_of s) l (service_of s') \/ l = None /\ service_of s' = service_of s).

Lemma refines_begin cfg owner name cp farms w : sys_inv (mkSystem w NoFarmer) ->
  refines (mkSystem w NoFarmer) (Some Begun)
    (mkSystem w (Building owner name (build_steps x cfg cp farms) (begun w))).
Proof.
  cbn. intros ->. split; [|left; apply svc_begun].
  exists (length farms). by apply build_interleaved.
Qed.

Lemma refines_build_step owner name m (locals locals' : build_state Cache RP D) rest w :
  sys_inv (mkSystem w (Building owner name (Pause m) locals)) ->
  m (with_world w locals) = Ret (locals', Ok rest) ->
  refines (mkSystem w (Building owner name (Pause m) locals)) (Some Advanced)
    (mkSystem (bs_world locals') (Building owner name rest locals')).
Proof.
  intros (n & Hp) Hm. destruct (Hp (with_world w locals) ltac:(done)) as [_ Hstep].
  rewrite Hm in Hstep. destruct Hstep as [Hguar Hrest].
  split; [exists n; by destruct locals'|left]. unfold service_of, sectors_of. cbn.
  destruct Hguar as [[-> ->]|Hc Hr [cache ->] ->|rp [cache Hc] Hc' Hr -> Hb]; cbn in *.
  - apply svc_quiet.
  - rewrite Hc, Hr. apply svc_cache_up.
  - rewrite Hc', Hc, Hr. by apply svc_sectors_up.
Qed.

(** Leaving the build changes no slot yet. *)
Lemma refines_leave n owner name (rest : building Z) (locals s : build_state Cache RP D) w w' es :
  safe n s -> same_slots w (bs_world s) -> leave s = Ret (w', es) ->
  sys_inv (mkSystem w' (ShuttingDown [] es)) /\
  service_of (mkSystem w (Building owner name rest locals)) =
    mkService Opening (farmer_piece_cache w) (sectors_of w) /\
  service_of (mkSystem w' (ShuttingDown [] es)) = mkService Closing (farmer_piece_cache w) (sectors_of w).
Proof.
  intros Hsafe [Ec Er] Hleave. destruct (stopping_leave _ _ Hsafe) as (w2 & es2 & Hl & [Ec2 Er2] & Hst).
  rewrite Hleave in Hl. injection Hl as <- <-. split; [done|]. split; [done|].
  unfold service_of, sectors_of. cbn. by rewrite Ec2, Er2, Ec, Er.
Qed.

Lemma refines_build_fails owner name m (locals locals' : build_state Cache RP D) e es w w' :
  sys_inv (mkSystem w (Building owner name (Pause m) locals)) ->
  m (with_world w locals) = Ret (locals', Err e) -> leave locals' = Ret (w', es) ->
  refines (mkSystem w (Building owner name (Pause m) locals)) (Some StartFailed)
    (mkSystem w' (ShuttingDown [] es)).
Proof.
  intros (n & Hp) Hm Hleave. destruct (Hp (with_world w locals) ltac:(done)) as [Hsafe Hstep].
  rewrite Hm in Hstep. subst locals'.
  destruct (refines_leave n owner name (Pause m) locals _ w _ _ Hsafe ltac:(done) Hleave) as (Hinv & E1 & E2).
  split; [done|]. left. rewrite E1, E2. apply svc_start_failed.
Qed.

Lemma refines_abandoned owner name rest (locals : build_state Cache RP D) es w w' :
  sys_inv (mkSystem w (Building owner name rest locals)) -> leave (with_world w locals) = Ret (w', es) ->
  refines (mkSystem w (Building owner name rest locals)) None (mkSystem w' (ShuttingDown [] es)).
Proof.
  intros (n & Hp) Hleave. pose proof (interleaved_safe _ _ _ _ _ _ Hp) as Hsafe.
  destruct (refines_leave n owner name rest locals _ w _ _ Hsafe ltac:(done) Hleave) as (Hinv & E1 & E2).
  split; [done|]. left. rewrite E1, E2. apply svc_abandoned.
Qed.

Lemma refines_built owner name app_max (locals : build_state Cache RP D) w :
  sys_inv (mkSystem w (Building owner name (Completed app_max) locals)) ->
  refines (mkSystem w (Building owner name (Completed app_max) locals)) (Some Started)
    (mkSystem w (Farming (farmer_of owner name app_max locals))).
Proof.
  intros (n & Hp). destruct (Hp (with_world w locals) ltac:(done)) as [_ [[Hinv Hids Hc Hr] Hn]].
  assert (Hcs : is_Some (farmer_piece_cache w)) by (apply Hc; unfold farmer_entries; set_solver).
  assert (Hrs : is_Some (farmer_readers_and_pieces w)) by (apply Hr; unfold farmer_entries; set_solver).
  split.
  - exists n. split; [done|]. split; [|done]. by apply (inv_built n (with_world w locals)).
  - left. unfold service_of. cbn. destruct Hcs as [cache ->]. apply svc_started.
Qed.

Lemma refines_plotted i sector old w w' ph : sys_inv (mkSystem w ph) ->
  OnSectorPlotted i ∈ handlers w -> plot_event i sector old w = Ret w' ->
  refines (mkSystem w ph) (Some (Plotted (Z.of_nat i) sector old)) (mkSystem w' ph).
Proof.
  intros Hinv Hin Hp. destruct (inv_handler _ i Hinv Hin) as (Hi & Hrs).
  destruct (inv_cache _ Hinv Hrs) as [cache Hc]. cbn in Hc.
  destruct (plot_event_Ret _ i sector old Hinv Hin) as (rp & Hrp & Hp'). cbn in Hrp, Hp'.
  rewrite Hp' in Hp. injection Hp as <-. split.
  - apply (inv_same w); [done|done|done| |done]. cbn. rewrite Hrp. by split; eexists.
  - left. unfold service_of, sectors_of. cbn. rewrite Hc, Hrp.
    replace (rp_sectors (rp_add_sector _ _ _)) with (replace (Z.of_nat i) sector old (rp_sectors rp));
      [by apply svc_plotted|].
    unfold replace. rewrite rp_sectors_add. by destruct old; rewrite ?rp_sectors_delete.
Qed.

Lemma refines_cache cache' w ph : sys_inv (mkSystem w ph) -> PiecesCacheWorker ∈ running w ->
  refines (mkSystem w ph) (Some (CacheMoved cache'))
    (mkSystem (set_cache ((fun _ => cache') <$> farmer_piece_cache w) w) ph).
Proof.
  intros Hinv Hrun. split.
  - apply (inv_same w); [done|done|done|done|]. cbn. by rewrite fmap_is_Some.
  - left. unfold service_of. cbn. apply svc_cache_moved. destruct ph; try done.
    cbn in Hinv. subst w. by apply elem_of_nil in Hrun.
Qed.

Lemma refines_close f es w : sys_inv (mkSystem w (Farming f)) ->
  td_async_drop (fun _ => true) (Farmer_destructors f) = Ret (Some (es, Ok tt)) ->
  refines (mkSystem w (Farming f)) None (mkSystem w (ShuttingDown (map_to_list (Farmer_farm_info f)).*2 es)).
Proof.
  intros (n & Hn & Hf & Hc & Hr) Hes. cbn in Hf, Hc, Hr.
  destruct (stopping_close n f w Hn Hf Hc Hr) as [He Hst]. cbn in Hes, He. rewrite He in Hes. injection Hes as <-.
  split; [done|]. left. unfold service_of. cbn. destruct Hc as [cache ->]. apply svc_close.
Qed.

(** One destructor of the shutdown. *)
Lemma refines_destruct farms e es w : sys_inv (mkSystem w (ShuttingDown farms (e :: es))) ->
  refines (mkSystem w (ShuttingDown farms (e :: es))) None
    (mkSystem (destruct_event e w) (ShuttingDown farms es)).
Proof.
  intros Hst. cbn in Hst. split; [by apply stopping_destruct|]. destruct Hst as [[Ho He] _ _ _ _ Hc Hr].
  unfold service_of, sectors_of. destruct e as [[]|t|t|h|nm]; cbn; try (by right); left.
  - destruct (proj2 Hc ltac:(set_solver)) as [cache ->].
    replace (farmer_readers_and_pieces w) with (@None RP); [apply svc_stop|].
    symmetry. apply eq_None_not_Some. rewrite Hr, elem_of_cons. intros [?|Hin]; [done|].
    by apply He, orderly_cache.
  - destruct He as [_ Hcin]. destruct (proj2 Hc ltac:(set_solver)) as [cache ->]. apply svc_forget.
Qed.

Lemma refines_closed farms w w' : sys_inv (mkSystem w (ShuttingDown farms [])) ->
  drop_farms farms w = Ret w' -> refines (mkSystem w (ShuttingDown farms [])) None (mkSystem w' NoFarmer).
Proof.
  intros Hst Hd. cbn in Hst. rewrite (stopping_done _ _ Hst) in Hd. injection Hd as <-.
  split; [done|]. left. destruct Hst as [_ _ _ _ _ Hc Hr]. unfold service_of, sectors_of. cbn.
  replace (farmer_piece_cache w) with (@None Cache); [replace (farmer_readers_and_pieces w) with (@None RP)|].
  - apply svc_ended.
  - symmetry. apply eq_None_not_Some. rewrite Hr. apply not_elem_of_nil.
  - symmetry. apply eq_None_not_Some. rewrite Hc. apply not_elem_of_nil.
Qed.

Lemma sys_step_refines s l s' : sys_inv s -> sys_step s l s' -> refines s l s'.
Proof.
  intros Hinv Hstep. destruct Hstep as [| |owner name m locals locals' rest w Hm
    |owner name m locals locals' e es w w' Hm Hleave|owner name rest locals es w w' Hleave|
    |i sector old w w' ph Hin Hp|cache' w ph Hrun|f es w Hes| |farms w w' Hd].
  - by apply refines_begin.
  - cbn in *. simplify_eq. split; [done|]. left. apply svc_refused.
  - by apply refines_build_step.
  - by eapply refines_build_fails.
  - by apply refines_abandoned.
  - by apply refines_built.
  - by eapply refines_plotted.
  - by apply refines_cache.
  - by apply refines_close.
  - by apply refines_destruct.
  - by apply refines_closed.
Qed.

Lemma sys_inv_reachable ls s : run sys_step sys_initial ls s -> sys_inv s.
Proof.
  intros Hrun. refine (run_invariant sys_step sys_inv _ _ _ _ Hrun inv_initial).
  intros s1 l s2 Hinv Hstep. by apply (sys_step_refines _ _ _ Hinv Hstep).
Qed.

(** *** A build that nobody disturbs *)

Lemma steps_run owner name (p : building Z) : forall locals s app_max,
  run_steps p locals = Ret (s, Ok app_max) ->
  exists k, run sys_step (mkSystem (bs_world locals) (Building owner name p locals))
    (replicate k Advanced ++ [Started]) (mkSystem (bs_world s) (Farming (farmer_of owner name app_max s))).
Proof.
  induction p as [a|m IH] using steps_rest_ind; intros locals s app_max.
  - cbn. intros [= <- <-]. exists 0%nat. eapply run_visible; [apply sys_built|apply run_nil].
  - cbn. destruct (m locals) as [[locals' [rest|e]]|why] eqn:Hm; [|done..]. intros Hrun.
    destruct (IH locals locals' rest Hm _ _ _ Hrun) as [k Hk]. exists (S k).
    eapply run_visible; [|exact Hk]. apply sys_build_step. by destruct locals.
Qed.

Lemma build_runs cfg owner name cp farms w w' f :
  build x cfg owner name cp farms w = Ret (w', Ok f) ->
  exists k, run sys_step (mkSystem w NoFarmer) (Begun :: replicate k Advanced ++ [Started])
    (mkSystem w' (Farming f)).
Proof.
  intros Hb. assert (Hne : farms <> []) by (intros ->; done).
  rewrite (build_as_steps x cfg owner name cp farms w Hne) in Hb.
  destruct (run_steps _ _) as [[s [app_max|e]]|why] eqn:Hsteps; cbn in Hb; [|by destruct (leave s) as [[]|]|done].
  injection Hb as <- <-. destruct (steps_run owner name _ _ _ _ Hsteps) as [k Hk]. exists k.
  eapply run_visible; [by apply sys_begin|exact Hk].
Qed.

(** *** The shutdown ends *)

(** Silent steps of the shutdown that remain. *)
Definition close_work (s : system) : nat :=
  match sys_phase s with
  | NoFarmer => 0
  | Building _ _ _ locals => match td_drop (bs_destructors locals) with Ret es => 2 + length es | Panic _ => 0 end
  | Farming f =>
      match td_async_drop (fun _ => true) (Farmer_destructors f) with
      | Ret (Some (es, _)) => 2 + length es
      | _ => 0
      end
  | ShuttingDown _ es => 1 + length es
  end.

Definition silent (s s' : system) : Prop := sys_step s None s'.

Lemma silent_work s s' : silent s s' -> (close_work s' < close_work s)%nat.
Proof.
  unfold silent. intros Hstep. inversion Hstep as [| | | |owner name rest locals es w w' Hl| | | |f es w Hes|f e es w|f w w' Hdrop];
    subst; unfold close_work; cbn; [| |lia..].
  - unfold leave in Hl. apply bind_Ret in Hl as (w1 & _ & (es' & Hd & [= <- <-])%bind_Ret).
    cbn in Hd. rewrite Hd. lia.
  - cbn in Hes. rewrite Hes. cbn. lia.
Qed.

Lemma closing_returns farms es : forall w, sys_inv (mkSystem w (ShuttingDown farms es)) ->
  rtc silent (mkSystem w (ShuttingDown farms es)) sys_initial.
Proof.
  induction es as [|e es IH]; intros w Hinv.
  - apply rtc_once, sys_closed. by apply stopping_done.
  - eapply rtc_l; [apply sys_destruct|]. apply IH. by apply refines_destruct.
Qed.

(** C11: a farmer can always be shut down, and leaves no trace: from every
    reachable state, in the middle of a build or of a shutdown too, the remaining
    steps of the shutdown are bounded in number and lead back to the state of a
    node that never had a farmer, from which the next farmer can be built. *)
Theorem system_shutdown_completes ls s :
  run sys_step sys_initial ls s ->
  (forall n s', nsteps silent n s s' -> (n <= close_work s)%nat) /\ rtc silent s sys_initial.
Proof.
  intros Hinv%sys_inv_reachable. split.
  - intros n s' Hn. pose proof (measure_nsteps silent close_work n s s' silent_work Hn). lia.
  - destruct s as [w [|owner name rest locals|f|farms es]].
    + cbn in Hinv. by subst.
    + assert (Hleave : exists w' es, leave (with_world w locals) = Ret (w', es)).
      { destruct Hinv as (n & Hp). pose proof (interleaved_safe _ _ _ _ _ _ Hp) as Hsafe.
        destruct (stopping_leave _ _ Hsafe) as (w' & es & Hl & _). eauto. }
      destruct Hleave as (w' & es & Hl). eapply rtc_l; [by apply sys_build_abandoned|].
      apply closing_returns. by eapply refines_abandoned.
    + destruct Hinv as (n & Hn & Hf & Hc & Hr). destruct (stopping_close _ _ _ Hn Hf Hc Hr) as [He Hst].
      eapply rtc_l; [by apply sys_close|]. by apply closing_returns.
    + by apply closing_returns.
Qed.

(** ** With the requests *)

Abbreviation Request := (request (PieceIndex := PieceIndex) (Piece := Piece)).
Abbreviation Pending := (pending_request (PieceIndex := PieceIndex) (Piece := Piece)).

(** The requests that the node's handlers are working on. *)
Record served_system := mkServedSystem { sv_system : system; sv_requests : gmap nat Request }.

Inductive served_step : served_system -> option (served_label Sector PieceIndex Piece) -> served_system -> Prop :=
| sv_farmer s l s' rs : sys_step s l s' ->
    served_step (mkServedSystem s rs) (ServiceLabel <$> l) (mkServedSystem s' (affected l <$> rs))
| sv_asked s rs n i : rs !! n = None ->
    served_step (mkServedSystem s rs) (Some (Asked n i)) (mkServedSystem s (<[n := Looking i]> rs))
| sv_access s rs n r r' : rs !! n = Some r ->
    request_next (farmer_readers_and_pieces (sys_world s)) (farmer_piece_cache (sys_world s)) r = Some r' ->
    served_step (mkServedSystem s rs) None (mkServedSystem s (<[n := r']> rs))
| sv_answered s rs n a : rs !! n = Some (Replying a) ->
    served_step (mkServedSystem s rs) (Some (Answered n a)) (mkServedSystem s (delete n rs))
| sv_dropped s rs n : served_step (mkServedSystem s rs) None (mkServedSystem s (delete n rs)).

(** What a request has found so far is an answer it can be given. *)
Definition covered (r : Request) (p : Pending) : Prop :=
  match r with
  | Looking i => p.1 = i
  | Holding _ i cache => p.1 = i /\ p.2 (Some (mkPieceResponse (cache i)))
  | Missed i => p.1 = i /\ p.2 (Some (mkPieceResponse None))
  | Replying a => p.2 a
  end.

Definition agrees (s : system) (r : Request) (p : Pending) : Prop :=
  covered r p /\ forall a, permits sector_piece (service_of s) p.1 p.2 a -> p.2 a.

Definition simulated (s : served_system) (t : served Sector PieceIndex Piece) : Prop :=
  sys_inv (sv_system s) /\ served_service t = service_of (sv_system s) /\
  forall n, option_Forall2 (agrees (sv_system s)) (sv_requests s !! n) (pending t !! n).

(** A farmer's step, seen by a request. *)
Lemma agrees_observe s l s' r p : agrees s r p ->
  agrees s' (affected l r) (observe sector_piece l (service_of s') p).
Proof.
  intros [Hr _]. split; [|intros a; apply permits_idem].
  assert (Hmore : forall a, p.2 a -> (observe sector_piece l (service_of s') p).2 a)
    by (intros a Ha; left; by left).
  destruct r as [i|mine i cache|i|a]; cbn in Hr.
  - by destruct l as [[]|].
  - destruct Hr as [Hi Ha]. destruct l as [[| | | | |cache']|], mine; (split; [done|]); try (by apply Hmore).
    cbn. left. right. rewrite Hi. split; [by eexists|done].
  - destruct Hr as [Hi Ha]. destruct l as [[]|]; (split; [done|]); by apply Hmore.
  - destruct l as [[]|]; by apply Hmore.
Qed.

(** An access to the slots gives the request an answer it can be given now. *)
Lemma agrees_access s r r' p : agrees s r p ->
  request_next (farmer_readers_and_pieces (sys_world s)) (farmer_piece_cache (sys_world s)) r = Some r' ->
  agrees s r' p.
Proof.
  intros [Hr Hall] Hnext. split; [|done]. unfold permits, misses in Hall.
  destruct r as [i|mine i cache|i|a]; cbn in Hr, Hnext; [| | |done]; injection Hnext as <-.
  - subst i. destruct (farmer_piece_cache (sys_world s)) as [cache|] eqn:Hc; cbn.
    + split; [done|]. apply Hall. right. cbn. rewrite Hc. destruct (cache p.1) as [q|] eqn:Hq; [left|]; eauto.
    + apply Hall. by right.
  - destruct Hr as [Hi Ha]. destruct (cache i) as [q|]; cbn; auto.
  - destruct Hr as [Hi Ha]. cbn. destruct (farmer_readers_and_pieces (sys_world s)) as [rp|] eqn:Hrp; [|done].
    destruct (rp_read_piece i rp) as [[q|]|] eqn:Hq; [|done..]. apply Hall. right. cbn. right.
    split; [by left|]. unfold sectors_of. rewrite Hrp, Hi. by apply rp_read_held.
Qed.

Lemma served_step_simulated s t l s' : simulated s t -> served_step s l s' ->
  exists t', simulated s' t' /\ (spec_step sector_piece t l t' \/ l = None /\ t' = t).
Proof.
  destruct t as [svc pd]. intros (Hinv & Hsvc & Hreq) Hstep. cbn in Hsvc. subst svc.
  destruct Hstep as [s l s' rs Hstep|s rs n i Hn|s rs n r r' Hn Hnext|s rs n a Hn|s rs n]; cbn in Hinv, Hreq.
  - destruct (sys_step_refines _ _ _ Hinv Hstep) as [Hinv' [Hsvc|[-> Hsame]]].
    + eexists. split; [|left; by apply spec_service]. split; [done|]. split; [done|]. intros n.
      cbn. rewrite !lookup_fmap. destruct (Hreq n); cbn; constructor. by eapply agrees_observe.
    + exists (mkServed (service_of s) pd). split; [|by right]. split; [done|]. split; [done|]. intros n.
      cbn. rewrite lookup_fmap. destruct (Hreq n) as [r p [Hr Hall]|]; cbn; constructor.
      split; [by destruct r|]. by rewrite Hsame.
  - exists (mkServed (service_of s) (<[n := (i, permits sector_piece (service_of s) i (fun _ => False))]> pd)).
    split; [|left; apply spec_asked; specialize (Hreq n); rewrite Hn in Hreq; by inversion Hreq].
    split; [done|]. split; [done|]. intros m. cbn. rewrite !lookup_insert. case_decide; [|done].
    constructor. split; [done|]. intros a. apply permits_idem.
  - exists (mkServed (service_of s) pd). split; [|by right]. split; [done|]. split; [done|]. intros m. cbn.
    rewrite lookup_insert. case_decide as Hm; [|done]. subst m. specialize (Hreq n). rewrite Hn in Hreq.
    inversion Hreq as [? p Hag|]; subst. constructor. by eapply agrees_access.
  - specialize (Hreq n) as Hreqn. rewrite Hn in Hreqn. inversion Hreqn as [? p [Ha _] Heq Hp|]; subst.
    destruct p as [i allowed]. exists (mkServed (service_of s) (delete n pd)).
    split; [|left; by eapply spec_answered].
    split; [done|]. split; [done|]. intros m. cbn. rewrite !lookup_delete. by case_decide; [constructor|].
  - exists (mkServed (service_of s) (delete n pd)). split; [|left; apply spec_dropped]. split; [done|]. split; [done|]. intros m. cbn.
    rewrite !lookup_delete. by case_decide; [constructor|].
Qed.

(** The system implements the service, and no plotting handler ever panics. *)
Lemma system_implements_service ls s :
  run served_step (mkServedSystem sys_initial ∅) ls s ->
  (exists pd, run (spec_step sector_piece) (mkServed (mkService NoService None ∅) ∅) ls
     (mkServed (service_of (sv_system s)) pd)) /\
  forall i sector old, OnSectorPlotted i ∈ handlers (sys_world (sv_system s)) ->
    exists w, plot_event i sector old (sys_world (sv_system s)) = Ret w.
Proof.
  intros Hrun.
  destruct (simulation served_step (spec_step sector_piece) simulated
    (fun s t l s' => served_step_simulated s t l s') _ _ _ Hrun (mkServed (mkService NoService None ∅) ∅))
    as (t & (Hinv & Hsvc & _) & Hspec).
  { split; [done|]. split; [done|]. intros n. cbn. rewrite !lookup_empty. constructor. }
  split.
  - exists (pending t). rewrite <-Hsvc. by destruct t.
  - intros i sector old Hin. destruct (plot_event_Ret _ i sector old Hinv Hin) as (rp & _ & Hp). eauto.
Qed.

(** The steps of the farmers, while nobody asks. *)
Lemma farmer_run s ls s' : run sys_step s ls s' ->
  run served_step (mkServedSystem s ∅) (ServiceLabel <$> ls) (mkServedSystem s' ∅).
Proof.
  induction 1 as [s|s1 s2 s3 ls Hs _ IH|s1 s2 s3 l ls Hs _ IH]; [constructor|..].
  - pose proof (sv_farmer _ _ _ ∅ Hs) as Hstep. rewrite fmap_empty in Hstep. by eapply run_silent.
  - pose proof (sv_farmer _ _ _ ∅ Hs) as Hstep. rewrite fmap_empty in Hstep. by eapply run_visible.
Qed.
End system.
Arguments mkSystem {RP PieceIndex Piece FarmId D Ch}.
Arguments mkServedSystem {RP PieceIndex Piece FarmId D Ch}.

(** ** The built node *)

Section node_and_farmers.
Context {KeyPair NetworkNode Registry PeerId KnownPeers RP Reader Sector PieceIndex Piece SHeader Store : Type}.
Context {Genesis Raw Rpc Json Partial Client NodeRpc F I D1 D2 D3 CoreSet FarmId D : Type}.
Context {Os Ch : Type -> Type} `{Oneshot Os} `{TelemetryApi (list (string * Z)) Json} `{Mpsc Ch}.
Context `{TeardownLaws D1 unit unit nat} `{TeardownLaws D2 F node_task I} `{TeardownLaws D3 F domain_task I}
        `{TeardownLaws D slot task handler}.
Context `{HApi : ReadersAndPiecesApi RP Reader Sector PieceIndex Piece} `{Countable Sector}.
Context {sector_piece : Sector -> PieceIndex -> option Piece}.
Context `{HLaws : !ReadersAndPiecesLaws RP Reader Sector PieceIndex Piece sector_piece}.
Abbreviation Cache := (PieceIndex -> option Piece).
Variable x : node_externals (KeyPair := KeyPair) (NetworkNode := NetworkNode) (Registry := Registry)
  (PeerId := PeerId) (KnownPeers := KnownPeers) (Cache := Cache) (Readers := RP) (PieceIndex := PieceIndex)
  (Piece := Piece) (SHeader := SHeader) (Store := Store) (Genesis := Genesis) (Partial := Partial)
  (Client := Client) (NodeRpc := NodeRpc).
(** The crates of the farmer; it talks to the node through the node's RPC handle. *)
Variable farmer_x : NodeRpc -> externals Cache Reader Sector CoreSet FarmId.

Abbreviation NodeDsn := (DsnShared (NetworkNode := NetworkNode) (Cache := Cache) (Readers := RP) (D := D1)).

(** What a farmer built on a node starts from: the slots of the node's DSN. *)
Definition world_of {N} `{NodeTrait N NodeDsn NodeRpc} (node : N) : world Cache RP :=
  mkWorld (farmer_cache_slot (dsn_slots (trait_dsn node))) (farmer_readers_slot (dsn_slots (trait_dsn node))) [] [].

Definition build_on {N} `{NodeTrait N NodeDsn NodeRpc} (cfg : Config) (owner : string) (node : N) (cp : Z)
    (farms : list FarmDescription) :=
  build (D := D) (Ch := Ch) (farmer_x (trait_rpc node)) cfg owner (trait_name node) cp farms (world_of node).

(** C5: a node that was built, together with whatever farmers are built on it
    one after the other, implements the piece service.  The handler its network
    was constructed with answers a request with at most three accesses to the
    slots.  In any interleaving of these accesses with the steps of builds, which
    fill the cache slot before the table and may fail or be dropped in between,
    with plotting events, moves of the cache and the single steps of shutdowns,
    the visible behaviour is one of the service: nothing is answered unless the
    node was offline at some moment of the request, a piece that is answered was
    in the cache at such a moment, or in a sector served after the cache did not
    have it, and a stopping farmer withdraws its sectors before its cache.  No
    plotting handler ever panics.  A build that nobody disturbs is one such run. *)
Theorem node_serves_pieces directory spec cfg
    (n : Node (NetworkNode := NetworkNode) (Cache := Cache) (Readers := RP) (Raw := Raw) (Rpc := Rpc)
              (Client := Client) (NodeRpc := NodeRpc) (D1 := D1) (D2 := D2) (D3 := D3) (Os := Os)) :
  node_build x directory spec cfg = Ret (Ok n) ->
  (exists c kp runner, construct (nox_dsn x) c kp = Ok (dsn_node (node_dsn_shared n), runner) /\
   forall i slots, exists k a, (k <= 3)%nat /\
     nsteps (fun r r' => request_next (farmer_readers_slot slots) (farmer_cache_slot slots) r = Some r') k
       (Looking i) (Replying a) /\
     request_response c (PieceRequest i) slots = PieceAnswer <$> a) /\
  (forall ls s,
    run (served_step (D := D) (Ch := Ch) (farmer_x (trait_rpc n)))
      (mkServedSystem (mkSystem (world_of n) NoFarmer) ∅) ls s ->
    (exists pd, run (spec_step sector_piece) (mkServed (mkService NoService None ∅) ∅) ls
       (mkServed (service_of (sv_system s)) pd)) /\
    forall i sector old, OnSectorPlotted i ∈ handlers (sys_world (sv_system s)) ->
      exists w, plot_event i sector old (sys_world (sv_system s)) = Ret w) /\
  forall fcfg owner cp farms w f, build_on fcfg owner n cp farms = Ret (w, Ok f) ->
    exists k, run (served_step (farmer_x (trait_rpc n)))
      (mkServedSystem (mkSystem (world_of n) NoFarmer) ∅)
      (ServiceLabel <$> (Begun :: replicate k Advanced ++ [Started])) (mkServedSystem (mkSystem w (Farming f)) ∅).
Proof.
  intros Hb. destruct (node_build_parts _ _ _ _ _ Hb) as (_ & _ & (nodes & _ & Hdsn) & _).
  destruct Hdsn as (_ & Hslots & c & kp & runner & Hc & _ & _ & Hresp). split; [|split].
  - exists c, kp, runner. split; [done|]. intros i slots.
    destruct (request_undisturbed (farmer_readers_slot slots) (farmer_cache_slot slots) i) as (k & Hk & Hsteps).
    exists k, (node_get_piece_by_index i (Some (farmer_readers_slot slots)) (farmer_cache_slot slots)).
    split; [exact Hk|]. split; [exact Hsteps|]. apply Hresp.
  - intros ls s. unfold world_of. cbn. rewrite Hslots. apply system_implements_service.
  - intros fcfg owner cp farms w f Hf. destruct (build_runs _ _ _ _ _ _ _ _ _ Hf) as [k Hk].
    exists k. by apply farmer_run.
Qed.
End node_and_farmers.

(** ** Witnesses *)

Section system_demo.

(** Sector [s] holds the piece [10 * s], whose content is [s]. *)
Definition demo_sector_piece (s i : Z) : option Z := if decide (i = 10 * s) then Some s else None.
#[local] Instance demo_set_table : ReadersAndPiecesApi (gset (Z * Z)) unit Z Z Z := set_table demo_sector_piece.
#[local] Instance demo_set_table_laws :
  ReadersAndPiecesLaws (gset (Z * Z)) unit Z Z Z demo_sector_piece := set_table_laws demo_sector_piece.

Abbreviation DemoCache := (Z -> option Z).

(** A farm with two readable sectors; nothing is cached. *)
Definition demo_system_externals : externals DemoCache unit Z (list Z) nat :=
  mkExternals Release 16 65536 (fun _ => Ok tt) (fun _ => Ok 1000)
    (fun _ _ => [[0; 1; 2; 3]]) id (fun n l => take n l) [[0; 1; 2; 3]] (fun _ => Ok tt) (fun _ => None)
    (fun _ i => Ok (mkSingleDiskFarm i tt [Ok 7; Err "unreadable"%string; Ok 9] 3))
    100 100 (fun _ => 1000) 8.

Abbreviation DemoSystem := (system (RP := gset (Z * Z)) (PieceIndex := Z) (Piece := Z) (FarmId := nat)
  (D := DestructorSet slot task handler) (Ch := Queue)).

Definition demo_started : gset (Z * Z) := {[(0, 7); (0, 9)]}.

Definition demo_farmer := build (D := DestructorSet slot task handler) (Ch := Queue) demo_system_externals
  (configuration Builder_default) "owner" "node" 10 [mkFarmDescription "a" 5000000] (mkWorld None None [] []).

Lemma demo_farmer_Ret :
  match demo_farmer with
  | Ret (w, Ok f) =>
      sectors_of w = demo_started /\ farmer_piece_cache w = Some (fun _ => None) /\
      (farmer_readers_and_pieces w ≫= fun rp => rp_read_piece 90 rp) = Some (Some 9) /\
      close_work (mkSystem w (Farming f)) = 8%nat
  | _ => False
  end.
Proof. vm_compute. auto. Qed.

Abbreviation demo_sys_step := (sys_step (D := DestructorSet slot task handler) (Ch := Queue)
  demo_system_externals).
Abbreviation demo_served_step := (served_step (D := DestructorSet slot task handler) (Ch := Queue)
  demo_system_externals).

(** What a run in which a farmer is built, and then a piece of its second
    readable sector is asked for, shows. *)
Definition demo_building (k : nat) : list (service_label Z Z Z) := Begun :: replicate k Advanced ++ [Started].
Definition demo_labels (k : nat) : list (served_label Z Z Z) :=
  (ServiceLabel <$> demo_building k) ++ [Asked 0 90; Answered 0 (Some (mkPieceResponse (Some 9)))].

Lemma demo_system_run : exists k (s : DemoSystem),
  run demo_sys_step sys_initial (demo_building k) s /\ close_work s = 8%nat /\
  run demo_served_step (mkServedSystem sys_initial ∅) (demo_labels k) (mkServedSystem s ∅).
Proof.
  pose proof demo_farmer_Ret as Hdemo. destruct demo_farmer as [[w [f|e]]|why] eqn:Hb; [|destruct Hdemo..].
  destruct Hdemo as (Hs & Hc & Hr & Hw).
  destruct (build_runs demo_system_externals
    (configuration Builder_default) "owner" "node" 10 [mkFarmDescription "a" 5000000] _ w f Hb) as [k Hk].
  exists k, (mkSystem w (Farming f)). split; [exact Hk|]. split; [exact Hw|].
  eapply run_app; [apply farmer_run, Hk|].
  eapply run_visible; [by apply sv_asked|]. rewrite insert_empty.
  assert (Hstep : forall r r', request_next (farmer_readers_and_pieces w) (farmer_piece_cache w) r = Some r' ->
    demo_served_step (mkServedSystem (mkSystem w (Farming f)) {[0%nat := r]}) None
      (mkServedSystem (mkSystem w (Farming f)) {[0%nat := r']})).
  { intros r r' Hnext. pose proof (sv_access demo_system_externals (mkSystem w (Farming f)) {[0%nat := r]}
      0%nat r r' (lookup_singleton_eq _ _) Hnext) as Haccess. by rewrite insert_singleton_eq in Haccess. }
  eapply run_silent; [apply Hstep; rewrite Hc; reflexivity|].
  eapply run_silent; [apply Hstep; reflexivity|].
  eapply run_silent; [apply (Hstep (Missed 90) (Replying (Some (mkPieceResponse (Some 9)))));
    destruct (farmer_readers_and_pieces w) as [rp|]; [|done]; cbn in *; rewrite Hr; reflexivity|].
  eapply run_visible; [apply sv_answered, lookup_singleton_eq|]. rewrite delete_singleton_eq. apply run_nil.
Qed.

#[local] Instance demo_system_telemetry : TelemetryApi (list (string * Z)) (string * Z) := {|
  te_to_json := id; te_from_json := Some; extra_to_json := id; te_new := Some
|}.

Definition demo_node_build := node_build (Raw := unit) (Rpc := unit) (Json := string * Z) (F := unit) (I := unit)
  (Os := Cell) (D1 := DestructorSet unit unit nat) (D2 := DestructorSet unit node_task unit)
  (D3 := DestructorSet unit domain_task unit)
  (demo_node_externals (Table := gset (Z * Z))) "/tmp" demo_chain_spec demo_node_config.

Lemma demo_node_build_Ret :
  match demo_node_build with
  | Ret (Ok n) => dsn_slots (node_dsn_shared n) = mkDsnSlots None None
  | _ => False
  end.
Proof. vm_compute. reflexivity. Qed.

Lemma node_serves_pieces_witness :
  exists n, demo_node_build = Ret (Ok n) /\
  exists k s pd, run (spec_step demo_sector_piece) (mkServed (mkService NoService None ∅) ∅) (demo_labels k)
    (mkServed (service_of (s : DemoSystem)) pd).
Proof.
  pose proof demo_node_build_Ret as Hdemo.
  destruct demo_node_build as [[n|e]|why] eqn:Hb; [|destruct Hdemo..].
  exists n. split; [reflexivity|].
  destruct (node_serves_pieces (sector_piece := demo_sector_piece) (D := DestructorSet slot task handler)
    (Ch := Queue) demo_node_externals (fun _ => demo_system_externals) "/tmp" demo_chain_spec
    demo_node_config n Hb) as (_ & Hthm & _).
  destruct demo_system_run as (k & s & _ & _ & Hs). exists k, s.
  refine (proj1 (Hthm (demo_labels k) (mkServedSystem s ∅) _)).
  unfold world_of. cbn [trait_dsn Node_trait]. rewrite Hdemo. exact Hs.
Defined.

Lemma system_shutdown_completes_witness :
  exists s : DemoSystem, close_work s = 8%nat /\
    rtc (silent demo_system_externals) s sys_initial.
Proof.
  destruct demo_system_run as (k & s & Hs & Hw & _). exists s. split; [exact Hw|].
  exact (proj2 (system_shutdown_completes (CoreSet := list Z) demo_system_externals _ s Hs)).
Defined.
End system_demo.
