(* ===== verification/Codec.v ===== *)
(** Saving values as JSON and loading them again, the way the derived
    [Serialize] and [Deserialize] implementations of the configurations do:
    numbers with their range, text that is parsed again, [Option], [Vec], pairs,
    enums and structs, with the field attributes the sources use: [default],
    [skip_serializing_if] and [flatten].

    A value [loads] when saving it succeeds and loading what was saved gives it
    back.  Encodings of foreign types are codecs without laws: whether one of
    their values loads is a hypothesis about that value. *)
From S2P Require Import Prelude ChainSpec.

#[local] Open Scope Z_scope.

Record codec (A : Type) := mkCodec { enc : A -> option json; dec : json -> option A }.
Arguments mkCodec {A}.
Arguments enc {A}.
Arguments dec {A}.

Definition loads {A} (c : codec A) (a : A) : Prop := exists v, enc c a = Some v /\ dec c v = Some a.
(** Not saved as [null], so that an [Option] of it can be told from [None]. *)
Definition loads_some {A} (c : codec A) (a : A) : Prop :=
  exists v, enc c a = Some v /\ dec c v = Some a /\ v <> JNull.

(** ** Values *)

Definition bool_codec : codec bool :=
  mkCodec (fun b => Some (JBool b)) (fun v => match v with JBool b => Some b | _ => None end).
Definition string_codec : codec string :=
  mkCodec (fun s => Some (JStr s)) (fun v => match v with JStr s => Some s | _ => None end).
(** Integers from [lo], below [2^w]. *)
Definition int_codec (lo w : Z) : codec Z :=
  mkCodec (fun n => Some (JNum n))
    (fun v => match v with JNum n => if decide (lo <= n < 2 ^ w) then Some n else None | _ => None end).
(** A value with a textual form, parsed when it is loaded. *)
Definition text_codec (parse : string -> option string) : codec string :=
  mkCodec (fun s => Some (JStr s)) (fun v => match v with JStr s => parse s | _ => None end).
Definition option_codec {A} (c : codec A) : codec (option A) :=
  mkCodec (fun o => match o with Some a => enc c a | None => Some JNull end)
    (fun v => match v with JNull => Some None | _ => Some <$> dec c v end).
Definition list_codec {A} (c : codec A) : codec (list A) :=
  mkCodec (fun l => JArr <$> mapM (enc c) l)
    (fun v => match v with JArr l => mapM (dec c) l | _ => None end).
Definition pair_codec {A B} (c1 : codec A) (c2 : codec B) : codec (A * B) :=
  mkCodec (fun p => v1 ← enc c1 p.1; v2 ← enc c2 p.2; Some (JArr [v1; v2]))
    (fun v => match v with JArr [v1; v2] => a ← dec c1 v1; b ← dec c2 v2; Some (a, b) | _ => None end).
(** A type represented by another one. *)
Definition iso_codec {A B} (f : A -> B) (g : B -> A) (c : codec B) : codec A :=
  mkCodec (fun a => enc c (f a)) (fun v => g <$> dec c v).

(** ** Structs *)

(** [sdk_utils::is_default]. *)
Definition is_default {A} `{EqDecision A} (d a : A) : bool := bool_decide (a = d).

(** A field that is skipped, or what saving it gives. *)
Abbreviation entry := (string * option (option json))%type.
Definition field_of {A} (c : codec A) (k : string) (a : A) : entry := (k, Some (enc c a)).
Definition field_unless_default {A} `{EqDecision A} (c : codec A) (d : A) (k : string) (a : A) : entry :=
  (k, if is_default d a then None else Some (enc c a)).

(** The members that are saved; saving fails when a member cannot be saved. *)
Fixpoint members (l : list entry) : option (list (string * json)) :=
  match l with
  | [] => Some []
  | (_, None) :: l => members l
  | (k, Some o) :: l => v ← o; obj ← members l; Some ((k, v) :: obj)
  end.

Definition member (k : string) (obj : list (string * json)) : option json :=
  snd <$> (snd <$> list_find (fun kv => kv.1 = k) obj).

Arguments member : simpl never.

(** [#[serde(default)]]; a required field; an [Option] without attribute. *)
Definition get_or {A} (c : codec A) (d : A) (k : string) (obj : list (string * json)) : option A :=
  match member k obj with Some v => dec c v | None => Some d end.
Definition get {A} (c : codec A) (k : string) (obj : list (string * json)) : option A :=
  member k obj ≫= dec c.

(** [#[serde(flatten)]]: the flattened struct sees the members the struct itself
    does not name. *)
Definition flattened (own : list string) (obj : list (string * json)) : list (string * json) :=
  filter (fun kv => kv.1 ∉ own) obj.

Definition struct_codec {A} (to_entries : A -> list entry) (from : list (string * json) -> option A)
    : codec A :=
  mkCodec (fun a => JObj <$> members (to_entries a))
    (fun v => match v with JObj obj => from obj | _ => None end).

(** ** Lemmas on values *)

Lemma loads_some_loads {A} (c : codec A) a : loads_some c a -> loads c a.
Proof. intros (v & H1 & H2 & _). by exists v. Qed.

Lemma bool_loads b : loads bool_codec b.
Proof. by eexists. Qed.
Lemma string_loads s : loads_some string_codec s.
Proof. by eexists. Qed.
Lemma int_loads lo w n : lo <= n < 2 ^ w -> loads_some (int_codec lo w) n.
Proof. intros Hn. eexists. split; [done|]. cbn. by rewrite decide_True by done. Qed.
Lemma text_loads parse s : parse s = Some s -> loads_some (text_codec parse) s.
Proof. intros Hs. by eexists. Qed.

Lemma option_loads {A} (c : codec A) o :
  (forall a, o = Some a -> loads_some c a) -> loads (option_codec c) o.
Proof.
  intros Ho. destruct o as [a|]; [|by eexists]. destruct (Ho a eq_refl) as (v & H1 & H2 & H3).
  exists v. cbn. split; [done|]. rewrite H2. by destruct v.
Qed.

Lemma mapM_loads {A} (c : codec A) l : Forall (loads c) l ->
  exists vs, mapM (enc c) l = Some vs /\ mapM (dec c) vs = Some l.
Proof.
  induction 1 as [|a l (v & H1 & H2) _ (vs & H3 & H4)]; [by exists []|].
  exists (v :: vs). cbn. by rewrite H1, H2; cbn; rewrite H3, H4.
Qed.

Lemma list_loads {A} (c : codec A) l : Forall (loads c) l -> loads_some (list_codec c) l.
Proof. intros (vs & H1 & H2)%mapM_loads. exists (JArr vs). cbn. by rewrite H1. Qed.

Lemma pair_loads {A B} (c1 : codec A) (c2 : codec B) p :
  loads c1 p.1 -> loads c2 p.2 -> loads (pair_codec c1 c2) p.
Proof.
  intros (v1 & H1 & H2) (v2 & H3 & H4). exists (JArr [v1; v2]). cbn.
  rewrite H1, H2; cbn; rewrite H3, H4. by destruct p.
Qed.

Lemma iso_loads {A B} (f : A -> B) (g : B -> A) c a :
  g (f a) = a -> loads_some c (f a) -> loads_some (iso_codec f g c) a.
Proof. intros Ha (v & H1 & H2 & H3). exists v. cbn. by rewrite H2; cbn; rewrite Ha. Qed.

(** ** Lemmas on structs *)

Lemma member_cons k k' v obj :
  member k ((k', v) :: obj) = if decide (k' = k) then Some v else member k obj.
Proof.
  unfold member. cbn. case_decide; [done|]. by destruct (list_find _ obj) as [[]|].
Qed.

Lemma member_None k obj : k ∉ obj.*1 -> member k obj = None.
Proof.
  induction obj as [|[k' v] obj IH]; [done|]. cbn. intros Hk.
  rewrite member_cons, decide_False by set_solver. apply IH. set_solver.
Qed.

(** Entries that all can be saved are saved under their names. *)
Lemma members_Some (l : list entry) : NoDup l.*1 ->
  Forall (fun e => e.2 <> Some None) l ->
  exists obj, members l = Some obj /\ (forall k, k ∈ obj.*1 -> k ∈ l.*1) /\
  forall k o, (k, o) ∈ l -> member k obj = o ≫= id.
Proof.
  induction l as [|[k o] l IH]; intros Hnd Hall.
  { exists []. split; [done|]. split; [set_solver|]. intros k o Hin. by apply not_elem_of_nil in Hin. }
  rewrite fmap_cons in Hnd. apply NoDup_cons in Hnd as [Hk Hnd]. apply Forall_cons in Hall as [Ho Hall].
  destruct (IH Hnd Hall) as (obj & Hobj & Hdom & Hget). cbn in Hk, Ho |- *.
  assert (Hin : forall k' o', (k', o') ∈ l -> k <> k').
  { intros k' o' Hin <-. apply Hk. by apply (list_elem_of_fmap_2 fst _ (k, o')). }
  destruct o as [[v|]|]; [|done|].
  - exists ((k, v) :: obj). rewrite Hobj. cbn. split; [done|]. split; [set_solver|].
    intros k' o' [[= -> ->]|Hl]%elem_of_cons; rewrite member_cons; [by rewrite decide_True by done|].
    rewrite decide_False by by eapply Hin. by apply Hget.
  - exists obj. split; [done|]. split; [set_solver|].
    intros k' o' [[= -> ->]|Hl]%elem_of_cons; [|by apply Hget]. cbn. apply member_None.
    intros Hk'. by apply Hk, Hdom.
Qed.

Lemma field_unless_default_saved {A} `{EqDecision A} (c : codec A) d k a :
  loads c a -> (field_unless_default c d k a).2 <> Some None.
Proof. intros (v & Hv & _). unfold field_unless_default. cbn. by rewrite Hv; case_match. Qed.
Lemma field_of_saved {A} (c : codec A) k a : loads c a -> (field_of c k a).2 <> Some None.
Proof. intros (v & Hv & _). unfold field_of. cbn. by rewrite Hv. Qed.

(** Reading back a field, whatever else the object holds. *)
Lemma get_or_unless_default {A} `{EqDecision A} (c : codec A) d k a obj : loads c a ->
  member k obj = (field_unless_default c d k a).2 ≫= id -> get_or c d k obj = Some a.
Proof.
  intros (v & Hv & Hd) Hk. unfold get_or. rewrite Hk. unfold field_unless_default, is_default. cbn.
  case_bool_decide as Ha; cbn; [by rewrite Ha|]. by rewrite Hv.
Qed.
Lemma get_or_field_of {A} (c : codec A) d k a obj : loads c a ->
  member k obj = (field_of c k a).2 ≫= id -> get_or c d k obj = Some a.
Proof. intros (v & Hv & Hd) Hk. unfold get_or. rewrite Hk. cbn. by rewrite Hv. Qed.
Lemma get_field_of {A} (c : codec A) k a obj : loads c a ->
  member k obj = (field_of c k a).2 ≫= id -> get c k obj = Some a.
Proof. intros (v & Hv & Hd) Hk. unfold get. rewrite Hk. cbn. by rewrite Hv. Qed.

Lemma get_or_bad {A} (c : codec A) d k obj v : member k obj = Some v -> dec c v = None ->
  get_or c d k obj = None.
Proof. intros Hk Hv. unfold get_or. by rewrite Hk. Qed.

(** A struct's own fields are not hidden from the flattened one. *)
Lemma flattened_member own obj k : k ∉ own -> member k (flattened own obj) = member k obj.
Proof.
  intros Hk. unfold flattened. induction obj as [|[k' v] obj IH]; [done|].
  rewrite filter_cons. cbn. case_decide as Hk'; rewrite !member_cons, IH; [done|].
  rewrite decide_False; [done|]. intros ->. contradiction.
Qed.

(** An object holds what the entries say. *)
Definition holds_entries (obj : list (string * json)) (l : list entry) : Prop :=
  Forall (fun e => member e.1 obj = e.2 ≫= id) l.

Lemma struct_loads {A} (to_entries : A -> list entry) (from : list (string * json) -> option A) a :
  NoDup (to_entries a).*1 -> Forall (fun e => e.2 <> Some None) (to_entries a) ->
  (forall obj, holds_entries obj (to_entries a) ->
     (forall k, k ∉ (to_entries a).*1 -> member k obj = None) -> from obj = Some a) ->
  loads_some (struct_codec to_entries from) a.
Proof.
  intros Hnd Hall Hfrom. destruct (members_Some _ Hnd Hall) as (obj & Hobj & Hdom & Hget).
  exists (JObj obj). cbn. rewrite Hobj. split; [done|]. split; [|done]. apply Hfrom.
  - apply Forall_forall. intros [k o] Hin. by apply Hget.
  - intros k Hk. apply member_None. intros Hin. by apply Hk, Hdom.
Qed.

(** Flattening hides a struct's own members only. *)
Lemma flattened_holds own obj (l : list entry) : (forall k, k ∈ l.*1 -> k ∉ own) ->
  holds_entries obj l -> holds_entries (flattened own obj) l.
Proof.
  intros Hown. unfold holds_entries. rewrite !Forall_forall. intros Hl [k o] Hin. cbn.
  rewrite flattened_member; [by apply (Hl (k, o))|]. apply Hown. by apply (list_elem_of_fmap_2 fst _ (k, o)).
Qed.

(** Read the fields of a struct from an object that holds its entries. *)
Ltac read_fields H :=
  unfold holds_entries in H; repeat (apply Forall_cons in H as [? H]);
  repeat match goal with
  | Hk : member (field_unless_default ?c ?d ?k ?a).1 ?obj = _ |- context [get_or ?c ?d ?k ?obj] =>
      rewrite (get_or_unless_default c d k a obj ltac:(auto with sdk) Hk); clear Hk
  | Hk : member (field_of ?c ?k ?a).1 ?obj = _ |- context [get_or ?c ?d ?k ?obj] =>
      rewrite (get_or_field_of c d k a obj ltac:(auto with sdk) Hk); clear Hk
  | Hk : member (field_of ?c ?k ?a).1 ?obj = _ |- context [get ?c ?k ?obj] =>
      rewrite (get_field_of c k a obj ltac:(auto with sdk) Hk); clear Hk
  end.

(** The entries of a struct: distinct names, every field can be saved. *)
Ltac distinct_names := apply (bool_decide_unpack _); vm_compute; exact I.
Ltac fields_saved := repeat (apply Forall_cons; split; [auto with sdk|]); apply Forall_nil; exact I.

#[export] Hint Resolve bool_loads string_loads loads_some_loads option_loads list_loads pair_loads : sdk.
#[export] Hint Resolve field_unless_default_saved field_of_saved : sdk.
