(* ===== verification/SavedConfig.v ===== *)
(** Configurations on disk: the derived serialization of the configuration
    types ([Builder::configuration] of node and farmer is documented as the
    configuration for saving on disk), with the attributes of every field.

    Foreign types keep their own encodings, which are codecs without laws. *)
From S2P Require Import Prelude Substrate ChainSpec Domain Dsn Node Farmer Codec.

#[local] Open Scope Z_scope.

#[export] Instance Role_eq : EqDecision Role.
Proof. solve_decision. Defined.
#[export] Instance BlocksPruning_eq : EqDecision BlocksPruning.
Proof. solve_decision. Defined.
#[export] Instance Constraints_eq : EqDecision Constraints.
Proof. solve_decision. Defined.
#[export] Instance PruningMode_eq : EqDecision PruningMode.
Proof. solve_decision. Defined.
#[export] Instance RpcMethods_eq : EqDecision RpcMethods.
Proof. solve_decision. Defined.
#[export] Instance OffchainWorker_eq : EqDecision OffchainWorker.
Proof. solve_decision. Defined.
#[export] Instance Duration_eq : EqDecision Duration.
Proof. solve_decision. Defined.
#[export] Instance StorageMonitor_eq : EqDecision StorageMonitor.
Proof. solve_decision. Defined.
#[export] Instance Rpc_eq : EqDecision Substrate.Rpc.
Proof. solve_decision. Defined.
#[export] Instance Network_eq : EqDecision Network.
Proof. solve_decision. Defined.
#[export] Instance Base_eq : EqDecision Base.
Proof. solve_decision. Defined.
#[export] Instance Dsn_eq : EqDecision Dsn.Dsn.
Proof. solve_decision. Defined.
#[export] Instance DomainConfig_eq : EqDecision DomainConfig.
Proof. solve_decision. Defined.

(** ** Enums *)

(** A unit variant: its name, or its name with [null]. *)
Definition variant_name (v : json) : option string :=
  match v with JStr s | JObj [(s, JNull)] => Some s | _ => None end.
Definition unit_variant {A} (units : list (string * A)) (v : json) : option A :=
  s ← variant_name v; snd <$> (snd <$> list_find (fun u => u.1 = s) units).
(** A variant with a payload, next to unit variants. *)
Definition payload_variant {A B} (name : string) (c : codec B) (f : B -> A) (units : list (string * A))
    (v : json) : option A :=
  match v with
  | JObj [(k, p)] => if decide (k = name) then f <$> dec c p else unit_variant units v
  | _ => unit_variant units v
  end.

Definition Role_codec : codec Role :=
  mkCodec (fun r => Some (JStr match r with Full => "Full" | Authority => "Authority" end))
    (unit_variant [("Full"%string, Full); ("Authority"%string, Authority)]).
Definition RpcMethods_codec : codec RpcMethods :=
  mkCodec (fun m => Some (JStr match m with Auto => "Auto" | Safe => "Safe" | Unsafe => "Unsafe" end))
    (unit_variant [("Auto"%string, Auto); ("Safe"%string, Safe); ("Unsafe"%string, Unsafe)]).
Definition BlocksPruning_codec : codec BlocksPruning :=
  mkCodec (fun b => Some match b with
                         | KeepAll => JStr "KeepAll"
                         | KeepFinalized => JStr "KeepFinalized"
                         | KeepSome n => JObj [("Some"%string, JNum n)]
                         end)
    (payload_variant "Some" (int_codec 0 32) KeepSome
       [("KeepAll"%string, KeepAll); ("KeepFinalized"%string, KeepFinalized)]).
(** [max_blocks] has no attribute. *)
Definition Constraints_codec : codec Constraints :=
  struct_codec (fun c => [field_of (option_codec (int_codec 0 32)) "max_blocks" (max_blocks c)])
    (fun obj => n ← get_or (option_codec (int_codec 0 32)) None "max_blocks" obj; Some (mkConstraints n)).
Definition PruningMode_codec : codec PruningMode :=
  mkCodec (fun m => match m with
                    | ArchiveAll => Some (JStr "ArchiveAll")
                    | ArchiveCanonical => Some (JStr "ArchiveCanonical")
                    | Constrained c => v ← enc Constraints_codec c; Some (JObj [("Constrained"%string, v)])
                    end)
    (payload_variant "Constrained" Constraints_codec Constrained
       [("ArchiveAll"%string, ArchiveAll); ("ArchiveCanonical"%string, ArchiveCanonical)]).

(** ** Structs *)

(** The encodings of foreign types: paths, sizes ([bytesize_serde]), durations,
    socket addresses, multiaddresses without and with a peer, domain and
    operator ids. *)
Record leaf_codecs := mkLeafCodecs {
  path_codec : codec string;
  bytesize_codec : codec Z;
  duration_codec : codec Duration;
  socket_addr_codec : codec string;
  multiaddr_codec : codec string;
  multiaddr_with_peer_codec : codec string;
  domain_id_codec : codec Z;
  operator_id_codec : codec Z;
}.

Section saved.
Variable L : leaf_codecs.
(** The package name and version and the git hash of the build that loads. *)
Variables (pkg_name pkg_version git_hash : string).

Abbreviation usize := (int_codec 0 64).
Abbreviation nonzero_usize := (int_codec 1 64).

Definition StorageMonitor_codec : codec StorageMonitor :=
  struct_codec
    (fun m => [field_of (bytesize_codec L) "threshold" (threshold m);
               field_of (duration_codec L) "polling_period" (polling_period m)])
    (fun obj => t ← get (bytesize_codec L) "threshold" obj;
                p ← get (duration_codec L) "polling_period" obj; Some (mkStorageMonitor t p)).

Definition OffchainWorker_codec : codec OffchainWorker :=
  struct_codec
    (fun o => [field_unless_default bool_codec false "enabled" (enabled o);
               field_unless_default bool_codec false "indexing_enabled" (indexing_enabled o)])
    (fun obj => e ← get_or bool_codec false "enabled" obj;
                i ← get_or bool_codec false "indexing_enabled" obj; Some (mkOffchainWorker e i)).

Definition Rpc_codec : codec Substrate.Rpc :=
  struct_codec
    (fun r => [field_unless_default (option_codec (socket_addr_codec L)) None "addr" (addr r);
               field_unless_default (option_codec (int_codec 0 16)) None "port" (port r);
               field_unless_default (option_codec usize) None "max_connections" (max_connections r);
               field_unless_default (option_codec (list_codec string_codec)) None "cors" (cors r);
               field_unless_default RpcMethods_codec Auto "methods" (methods r);
               field_unless_default (option_codec usize) None "max_request_size" (max_request_size r);
               field_unless_default (option_codec usize) None "max_response_size" (max_response_size r);
               field_unless_default (option_codec usize) None "max_subs_per_conn" (max_subs_per_conn r)])
    (fun obj =>
       a ← get_or (option_codec (socket_addr_codec L)) None "addr" obj;
       p ← get_or (option_codec (int_codec 0 16)) None "port" obj;
       mc ← get_or (option_codec usize) None "max_connections" obj;
       co ← get_or (option_codec (list_codec string_codec)) None "cors" obj;
       me ← get_or RpcMethods_codec Auto "methods" obj;
       rq ← get_or (option_codec usize) None "max_request_size" obj;
       rs ← get_or (option_codec usize) None "max_response_size" obj;
       su ← get_or (option_codec usize) None "max_subs_per_conn" obj;
       Some (mkRpc a p mc co me rq rs su)).

Definition Network_codec : codec Network :=
  struct_codec
    (fun n => [field_unless_default bool_codec false "enable_mdns" (enable_mdns n);
               field_unless_default bool_codec false "allow_private_ip" (allow_private_ip n);
               field_unless_default bool_codec false "allow_non_globals_in_dht" (allow_non_globals_in_dht n);
               field_unless_default (list_codec (multiaddr_codec L)) [] "listen_addresses" (listen_addresses n);
               field_unless_default (list_codec (multiaddr_with_peer_codec L)) [] "boot_nodes" (boot_nodes n);
               field_unless_default bool_codec false "force_synced" (force_synced n);
               field_unless_default (option_codec string_codec) None "name" (name n);
               field_unless_default (option_codec string_codec) None "client_id" (client_id n)])
    (fun obj =>
       em ← get_or bool_codec false "enable_mdns" obj;
       ap ← get_or bool_codec false "allow_private_ip" obj;
       an ← get_or bool_codec false "allow_non_globals_in_dht" obj;
       la ← get_or (list_codec (multiaddr_codec L)) [] "listen_addresses" obj;
       bn ← get_or (list_codec (multiaddr_with_peer_codec L)) [] "boot_nodes" obj;
       fs ← get_or bool_codec false "force_synced" obj;
       nm ← get_or (option_codec string_codec) None "name" obj;
       ci ← get_or (option_codec string_codec) None "client_id" obj;
       Some (mkNetwork em ap an la bn fs nm ci)).

(** [Base] is flattened into the configurations that hold it. *)
Definition Base_entries (b : Base) : list entry :=
  [field_unless_default bool_codec false "force_authoring" (force_authoring b);
   field_unless_default Role_codec Full "role" (role b);
   field_unless_default BlocksPruning_codec KeepAll "blocks_pruning" (blocks_pruning b);
   field_unless_default PruningMode_codec ArchiveAll "state_pruning" (state_pruning b);
   field_unless_default string_codec (ImplName_default pkg_name) "impl_name" (impl_name b);
   field_unless_default string_codec (ImplVersion_default pkg_version git_hash) "impl_version" (impl_version b);
   field_unless_default Rpc_codec RpcBuilder_default "rpc" (rpc b);
   field_unless_default Network_codec NetworkBuilder_default "network" (network b);
   field_unless_default OffchainWorker_codec (mkOffchainWorker false false) "offchain_worker" (offchain_worker b);
   field_unless_default bool_codec false "informant_enable_color" (informant_enable_color b);
   field_unless_default (list_codec (pair_codec (multiaddr_codec L) (int_codec 0 8))) [] "telemetry" (telemetry b);
   field_unless_default (option_codec string_codec) None "dev_key_seed" (dev_key_seed b)].

Definition Base_from (obj : list (string * json)) : option Base :=
  fa ← get_or bool_codec false "force_authoring" obj;
  ro ← get_or Role_codec Full "role" obj;
  bp ← get_or BlocksPruning_codec KeepAll "blocks_pruning" obj;
  sp ← get_or PruningMode_codec ArchiveAll "state_pruning" obj;
  im ← get_or string_codec (ImplName_default pkg_name) "impl_name" obj;
  iv ← get_or string_codec (ImplVersion_default pkg_version git_hash) "impl_version" obj;
  rp ← get_or Rpc_codec RpcBuilder_default "rpc" obj;
  nw ← get_or Network_codec NetworkBuilder_default "network" obj;
  ow ← get_or OffchainWorker_codec (mkOffchainWorker false false) "offchain_worker" obj;
  co ← get_or bool_codec false "informant_enable_color" obj;
  te ← get_or (list_codec (pair_codec (multiaddr_codec L) (int_codec 0 8))) [] "telemetry" obj;
  dk ← get_or (option_codec string_codec) None "dev_key_seed" obj;
  Some (mkBase fa ro bp sp im iv rp nw ow co te dk).

Definition Base_default' : Base := Base_default pkg_name pkg_version git_hash.

(** [#[serde(flatten, skip_serializing_if = "is_default")]]. *)
Definition flatten_base (b : Base) : list entry :=
  if is_default Base_default' b then [] else Base_entries b.

Definition Dsn_default : Dsn.Dsn := DsnBuilder_build DsnBuilder_default.

Definition Dsn_codec : codec Dsn.Dsn :=
  struct_codec
    (fun d =>
       [field_unless_default (option_codec (path_codec L)) None "provider_storage_path" (provider_storage_path d);
        field_unless_default (list_codec (multiaddr_codec L)) ListenAddresses_default "listen_addresses"
          (dsn_listen_addresses d);
        field_unless_default (list_codec (multiaddr_with_peer_codec L)) [] "boot_nodes" (dsn_boot_nodes d);
        field_unless_default (list_codec (multiaddr_codec L)) [] "external_addresses" (external_addresses d);
        field_unless_default (list_codec (multiaddr_codec L)) [] "reserved_nodes" (reserved_nodes d);
        field_unless_default bool_codec false "allow_non_global_addresses_in_dht"
          (allow_non_global_addresses_in_dht d);
        field_unless_default (int_codec 0 32) InConnections_default "in_connections" (in_connections d);
        field_unless_default (int_codec 0 32) OutConnections_default "out_connections" (out_connections d);
        field_unless_default (int_codec 0 32) PendingInConnections_default "pending_in_connections"
          (pending_in_connections d);
        field_unless_default (int_codec 0 32) PendingOutConnections_default "pending_out_connections"
          (pending_out_connections d);
        field_unless_default (int_codec 0 32) TargetConnections_default "target_connections"
          (target_connections d)])
    (fun obj =>
       ps ← get_or (option_codec (path_codec L)) None "provider_storage_path" obj;
       la ← get_or (list_codec (multiaddr_codec L)) ListenAddresses_default "listen_addresses" obj;
       bn ← get_or (list_codec (multiaddr_with_peer_codec L)) [] "boot_nodes" obj;
       ea ← get_or (list_codec (multiaddr_codec L)) [] "external_addresses" obj;
       rn ← get_or (list_codec (multiaddr_codec L)) [] "reserved_nodes" obj;
       an ← get_or bool_codec false "allow_non_global_addresses_in_dht" obj;
       ic ← get_or (int_codec 0 32) InConnections_default "in_connections" obj;
       oc ← get_or (int_codec 0 32) OutConnections_default "out_connections" obj;
       pi ← get_or (int_codec 0 32) PendingInConnections_default "pending_in_connections" obj;
       po ← get_or (int_codec 0 32) PendingOutConnections_default "pending_out_connections" obj;
       tc ← get_or (int_codec 0 32) TargetConnections_default "target_connections" obj;
       Some (mkDsn ps la bn ea rn an ic oc pi po tc)).

Definition domain_own : list string := ["chain_id"; "domain_id"; "maybe_operator_id"; "additional_args"]%string.

Definition DomainConfig_codec : codec DomainConfig :=
  struct_codec
    (fun d =>
       [field_unless_default string_codec ""%string "chain_id" (chain_id d);
        field_unless_default (domain_id_codec L) 0 "domain_id" (domain_id d);
        field_unless_default (option_codec (operator_id_codec L)) None "maybe_operator_id" (maybe_operator_id d);
        field_unless_default (list_codec string_codec) [] "additional_args" (additional_args d)]
       ++ flatten_base (base d))
    (fun obj =>
       ci ← get_or string_codec ""%string "chain_id" obj;
       di ← get_or (domain_id_codec L) 0 "domain_id" obj;
       oi ← get_or (option_codec (operator_id_codec L)) None "maybe_operator_id" obj;
       aa ← get_or (list_codec string_codec) [] "additional_args" obj;
       ba ← Base_from (flattened domain_own obj);
       Some (mkDomainConfig ci di oi aa ba)).

(** [HashSet<usize>]: its elements in some order. *)
Definition cores_codec : codec (gset nat) :=
  iso_codec elements list_to_set (list_codec (iso_codec Z.of_nat Z.to_nat usize)).

Definition node_own : list string :=
  ["segment_publish_concurrency"; "sync_from_dsn"; "dsn"; "storage_monitor"; "enable_subspace_block_relay";
   "domain"; "is_timekeeper"; "timekeeper_cpu_cores"; "pot_external_entropy"]%string.

Definition NodeConfig_codec : codec NodeConfig :=
  struct_codec
    (fun n =>
       [field_unless_default nonzero_usize SegmentPublishConcurrency_default "segment_publish_concurrency"
          (segment_publish_concurrency n);
        field_unless_default bool_codec false "sync_from_dsn" (sync_from_dsn n);
        field_unless_default Dsn_codec Dsn_default "dsn" (node_dsn n);
        field_unless_default (option_codec StorageMonitor_codec) None "storage_monitor" (storage_monitor n);
        field_unless_default bool_codec false "enable_subspace_block_relay" (enable_subspace_block_relay n);
        field_unless_default (option_codec DomainConfig_codec) None "domain" (node_domain n);
        field_unless_default bool_codec false "is_timekeeper" (is_timekeeper n);
        field_unless_default cores_codec ∅ "timekeeper_cpu_cores" (timekeeper_cpu_cores n);
        field_unless_default (option_codec (list_codec (int_codec 0 8))) None "pot_external_entropy"
          (config_pot_external_entropy n)]
       ++ flatten_base (node_base n))
    (fun obj =>
       sp ← get_or nonzero_usize SegmentPublishConcurrency_default "segment_publish_concurrency" obj;
       sd ← get_or bool_codec false "sync_from_dsn" obj;
       ba ← Base_from (flattened node_own obj);
       ds ← get_or Dsn_codec Dsn_default "dsn" obj;
       sm ← get_or (option_codec StorageMonitor_codec) None "storage_monitor" obj;
       br ← get_or bool_codec false "enable_subspace_block_relay" obj;
       dm ← get_or (option_codec DomainConfig_codec) None "domain" obj;
       it ← get_or bool_codec false "is_timekeeper" obj;
       tc ← get_or cores_codec ∅ "timekeeper_cpu_cores" obj;
       pe ← get_or (option_codec (list_codec (int_codec 0 8))) None "pot_external_entropy" obj;
       Some (mkNodeConfig sp sd ba ds sm br dm it tc pe)).

(** The farmer's configuration: the thread-pool options have no attribute, so
    [None] is saved as [null]. *)
Definition FarmerConfig_from (obj : list (string * json)) : option Farmer.Config :=
  mc ← get_or nonzero_usize MaxConcurrentFarms_default "max_concurrent_farms" obj;
  pk ← get_or nonzero_usize ProvidedKeysLimit_default "provided_keys_limit" obj;
  mp ← get_or (option_codec (int_codec 0 16)) None "max_pieces_in_sector" obj;
  ft ← get_or (option_codec nonzero_usize) None "farming_thread_pool_size" obj;
  pt ← get_or (option_codec nonzero_usize) None "plotting_thread_pool_size" obj;
  sd ← get_or (option_codec nonzero_usize) None "sector_downloading_concurrency" obj;
  se ← get_or (option_codec nonzero_usize) None "sector_encoding_concurrency" obj;
  rt ← get_or (option_codec nonzero_usize) None "replotting_thread_pool_size" obj;
  Some (mkConfig mc pk mp ft pt sd se rt).

Definition FarmerConfig_codec : codec Farmer.Config :=
  struct_codec
    (fun c =>
       [field_unless_default nonzero_usize MaxConcurrentFarms_default "max_concurrent_farms"
          (max_concurrent_farms c);
        field_unless_default nonzero_usize ProvidedKeysLimit_default "provided_keys_limit"
          (provided_keys_limit c);
        field_of (option_codec (int_codec 0 16)) "max_pieces_in_sector" (max_pieces_in_sector c);
        field_of (option_codec nonzero_usize) "farming_thread_pool_size" (farming_thread_pool_size c);
        field_of (option_codec nonzero_usize) "plotting_thread_pool_size" (plotting_thread_pool_size c);
        field_of (option_codec nonzero_usize) "sector_downloading_concurrency" (sector_downloading_concurrency c);
        field_of (option_codec nonzero_usize) "sector_encoding_concurrency" (sector_encoding_concurrency c);
        field_of (option_codec nonzero_usize) "replotting_thread_pool_size" (replotting_thread_pool_size c)])
    FarmerConfig_from.

Definition FarmDescription_codec : codec FarmDescription :=
  struct_codec
    (fun f => [field_of (path_codec L) "directory" (directory f);
               field_of (bytesize_codec L) "space_pledged" (space_pledged f)])
    (fun obj => d ← get (path_codec L) "directory" obj; s ← get (bytesize_codec L) "space_pledged" obj;
                Some (mkFarmDescription d s)).

(** ** Values that fit their types, with foreign parts that load *)

Abbreviation opt P o := (forall a, o = Some a -> P a).

Record Rpc_ok (r : Substrate.Rpc) : Prop := {
  ok_addr : opt (loads_some (socket_addr_codec L)) (addr r);
  ok_port : opt (in_u 16) (port r);
  ok_max_connections : opt (in_u 64) (max_connections r);
  ok_max_request_size : opt (in_u 64) (max_request_size r);
  ok_max_response_size : opt (in_u 64) (max_response_size r);
  ok_max_subs_per_conn : opt (in_u 64) (max_subs_per_conn r);
}.

Record Network_ok (n : Network) : Prop := {
  ok_listen_addresses : Forall (loads (multiaddr_codec L)) (listen_addresses n);
  ok_boot_nodes : Forall (loads (multiaddr_with_peer_codec L)) (boot_nodes n);
}.

Record Base_ok (b : Base) : Prop := {
  ok_blocks_pruning n : blocks_pruning b = KeepSome n -> in_u 32 n;
  ok_state_pruning c : state_pruning b = Constrained c -> opt (in_u 32) (max_blocks c);
  ok_rpc : Rpc_ok (rpc b);
  ok_network : Network_ok (network b);
  ok_telemetry : Forall (fun p => loads (multiaddr_codec L) p.1 /\ in_u 8 p.2) (telemetry b);
}.

Record Dsn_ok (d : Dsn.Dsn) : Prop := {
  ok_storage_path : opt (loads_some (path_codec L)) (provider_storage_path d);
  ok_dsn_listen : Forall (loads (multiaddr_codec L)) (dsn_listen_addresses d);
  ok_dsn_boot : Forall (loads (multiaddr_with_peer_codec L)) (dsn_boot_nodes d);
  ok_external : Forall (loads (multiaddr_codec L)) (external_addresses d);
  ok_reserved : Forall (loads (multiaddr_codec L)) (reserved_nodes d);
  ok_in : in_u 32 (in_connections d);
  ok_out : in_u 32 (out_connections d);
  ok_pending_in : in_u 32 (pending_in_connections d);
  ok_pending_out : in_u 32 (pending_out_connections d);
  ok_target : in_u 32 (target_connections d);
}.

Record StorageMonitor_ok (m : StorageMonitor) : Prop := {
  ok_threshold : loads (bytesize_codec L) (threshold m);
  ok_polling_period : loads (duration_codec L) (polling_period m);
}.

Record DomainConfig_ok (d : DomainConfig) : Prop := {
  ok_domain_id : loads (domain_id_codec L) (domain_id d);
  ok_operator_id : opt (loads_some (operator_id_codec L)) (maybe_operator_id d);
  ok_domain_base : Base_ok (base d);
}.

Record NodeConfig_ok (n : NodeConfig) : Prop := {
  ok_publish : 1 <= segment_publish_concurrency n < 2 ^ 64;
  ok_base : Base_ok (node_base n);
  ok_dsn : Dsn_ok (node_dsn n);
  ok_storage_monitor : opt StorageMonitor_ok (storage_monitor n);
  ok_domain : opt DomainConfig_ok (node_domain n);
  ok_cores : set_Forall (fun c => in_u 64 (Z.of_nat c)) (timekeeper_cpu_cores n);
  ok_entropy : opt (Forall (in_u 8)) (config_pot_external_entropy n);
}.

Record FarmerConfig_ok (c : Farmer.Config) : Prop := {
  ok_farms : 1 <= max_concurrent_farms c < 2 ^ 64;
  ok_keys : 1 <= provided_keys_limit c < 2 ^ 64;
  ok_pieces : opt (in_u 16) (max_pieces_in_sector c);
  ok_farming : opt (fun n => 1 <= n < 2 ^ 64) (farming_thread_pool_size c);
  ok_plotting : opt (fun n => 1 <= n < 2 ^ 64) (plotting_thread_pool_size c);
  ok_downloading : opt (fun n => 1 <= n < 2 ^ 64) (sector_downloading_concurrency c);
  ok_encoding : opt (fun n => 1 <= n < 2 ^ 64) (sector_encoding_concurrency c);
  ok_replotting : opt (fun n => 1 <= n < 2 ^ 64) (replotting_thread_pool_size c);
}.

(** ** Lemmas *)

Lemma u_loads w n : in_u w n -> loads_some (int_codec 0 w) n.
Proof. apply int_loads. Qed.
Lemma opt_u_loads lo w o : opt (fun n => lo <= n < 2 ^ w) o -> loads (option_codec (int_codec lo w)) o.
Proof. intros Ho. apply option_loads. intros n Hn. by apply int_loads, Ho. Qed.
Lemma strings_load (l : list string) : loads_some (list_codec string_codec) l.
Proof. apply list_loads, Forall_true. auto with sdk. Qed.
Lemma opt_string_loads o : loads (option_codec string_codec) o.
Proof. apply option_loads. auto with sdk. Qed.
Lemma opt_strings_load o : loads (option_codec (list_codec string_codec)) o.
Proof. apply option_loads. intros. apply strings_load. Qed.
#[local] Hint Resolve u_loads opt_u_loads int_loads strings_load opt_string_loads opt_strings_load : sdk.

Lemma Role_loads r : loads Role_codec r.
Proof. by destruct r; eexists. Qed.
Lemma RpcMethods_loads m : loads RpcMethods_codec m.
Proof. by destruct m; eexists. Qed.
Lemma BlocksPruning_loads b : (forall n, b = KeepSome n -> in_u 32 n) -> loads BlocksPruning_codec b.
Proof.
  intros Hb. destruct b as [| |n]; [by eexists..|]. eexists. split; [done|]. cbn.
  by rewrite (decide_True (P := 0 <= n < _)) by by apply Hb.
Qed.
#[local] Hint Resolve Role_loads RpcMethods_loads BlocksPruning_loads : sdk.

Lemma Constraints_loads c : opt (in_u 32) (max_blocks c) -> loads_some Constraints_codec c.
Proof.
  intros Hc. apply struct_loads; [distinct_names|fields_saved|].
  intros obj Hobj _. read_fields Hobj. by destruct c.
Qed.

Lemma PruningMode_loads m :
  (forall c, m = Constrained c -> opt (in_u 32) (max_blocks c)) -> loads PruningMode_codec m.
Proof.
  intros Hm. destruct m as [| |c]; [by eexists..|].
  destruct (Constraints_loads c (Hm c eq_refl)) as (v & Hv & Hd & _).
  eexists. unfold PruningMode_codec. cbn [enc dec]. rewrite Hv. split; [done|].
  cbn [payload_variant]. rewrite decide_True by done. by rewrite Hd.
Qed.
#[local] Hint Resolve PruningMode_loads : sdk.

Lemma StorageMonitor_loads m : StorageMonitor_ok m -> loads_some StorageMonitor_codec m.
Proof.
  intros []. apply struct_loads; [distinct_names|fields_saved|].
  intros obj Hobj _. read_fields Hobj. by destruct m.
Qed.

Lemma OffchainWorker_loads o : loads OffchainWorker_codec o.
Proof.
  apply loads_some_loads, struct_loads; [distinct_names|fields_saved|].
  intros obj Hobj _. read_fields Hobj. by destruct o.
Qed.

Lemma Rpc_loads r : Rpc_ok r -> loads Rpc_codec r.
Proof.
  intros []. apply loads_some_loads, struct_loads; [distinct_names|fields_saved|].
  intros obj Hobj _. read_fields Hobj. by destruct r.
Qed.

Lemma Network_loads n : Network_ok n -> loads Network_codec n.
Proof.
  intros []. apply loads_some_loads, struct_loads; [distinct_names|fields_saved|].
  intros obj Hobj _. read_fields Hobj. by destruct n.
Qed.

Lemma Dsn_loads d : Dsn_ok d -> loads Dsn_codec d.
Proof.
  intros []. apply loads_some_loads, struct_loads; [distinct_names|fields_saved|].
  intros obj Hobj _. read_fields Hobj. by destruct d.
Qed.
#[local] Hint Resolve StorageMonitor_loads OffchainWorker_loads Rpc_loads Network_loads Dsn_loads : sdk.

(** *** The flattened base *)

Definition base_names : list string :=
  ["force_authoring"; "role"; "blocks_pruning"; "state_pruning"; "impl_name"; "impl_version"; "rpc";
   "network"; "offchain_worker"; "informant_enable_color"; "telemetry"; "dev_key_seed"]%string.

Lemma Base_entries_names b : (Base_entries b).*1 = base_names.
Proof. done. Qed.

Lemma telemetry_loads (l : list (string * Z)) :
  Forall (fun p => loads (multiaddr_codec L) p.1 /\ in_u 8 p.2) l ->
  loads (list_codec (pair_codec (multiaddr_codec L) (int_codec 0 8))) l.
Proof.
  intros Hl. apply loads_some_loads, list_loads. eapply Forall_impl; [exact Hl|].
  intros p [H1 H2]. apply pair_loads; auto with sdk.
Qed.
#[local] Hint Resolve telemetry_loads : sdk.

Lemma Base_reads b obj : Base_ok b -> holds_entries obj (Base_entries b) -> Base_from obj = Some b.
Proof. intros [] Hobj. unfold Base_from. read_fields Hobj. by destruct b. Qed.

Lemma flatten_base_saved b : Base_ok b -> Forall (fun e => e.2 <> Some None) (flatten_base b).
Proof. intros []. unfold flatten_base. case_match; [done|]. fields_saved. Qed.

Lemma Base_default_entries : Forall (fun e => e.2 = None) (Base_entries Base_default').
Proof.
  repeat (apply Forall_cons; split; [unfold field_unless_default, is_default; cbn; by rewrite bool_decide_true|]).
  by apply Forall_nil.
Qed.

Lemma flatten_base_names b k : k ∈ (flatten_base b).*1 -> k ∈ base_names.
Proof. unfold flatten_base. case_match; [by intros ?%not_elem_of_nil|done]. Qed.

(** The own members of a struct and those of its base have distinct names. *)
Lemma flatten_base_nodup (own : list entry) b :
  NoDup (own.*1 ++ base_names) -> NoDup (own ++ flatten_base b).*1.
Proof.
  intros (Hown & Hdisj & Hbase)%NoDup_app. rewrite fmap_app. apply NoDup_app. split; [done|]. split.
  - intros k Hk Hb. by apply (Hdisj k Hk), (flatten_base_names b).
  - unfold flatten_base. case_match; [constructor|done].
Qed.

Lemma flatten_base_reads (own : list entry) b obj :
  Base_ok b -> NoDup (own.*1 ++ base_names) -> holds_entries obj (own ++ flatten_base b) ->
  (forall k, k ∉ (own ++ flatten_base b).*1 -> member k obj = None) ->
  Base_from (flattened own.*1 obj) = Some b.
Proof.
  intros Hok (_ & Hdisj & _)%NoDup_app [_ Hobj]%Forall_app Hnone. apply Base_reads; [done|].
  assert (Hnames : forall k, k ∈ (Base_entries b).*1 -> k ∉ own.*1).
  { rewrite Base_entries_names. intros k Hb Ho. by apply (Hdisj k). }
  apply flattened_holds; [done|]. unfold flatten_base, is_default in *. case_bool_decide as Hb; [|done].
  subst b. unfold holds_entries. rewrite Forall_forall. intros [k o] Hin. cbn.
  pose proof Base_default_entries as Hd. rewrite Forall_forall in Hd.
  pose proof (Hd _ Hin) as Ho. cbn in Ho. subst o. cbn. apply Hnone. rewrite app_nil_r. apply Hnames.
  by apply (list_elem_of_fmap_2 fst _ (k, None)).
Qed.

(** A struct with a flattened base. *)
Lemma flattened_struct_loads {A} (own : A -> list entry) (of_base : A -> Base)
    (from : list (string * json) -> option A) a :
  Base_ok (of_base a) -> NoDup ((own a).*1 ++ base_names) ->
  Forall (fun e => e.2 <> Some None) (own a) ->
  (forall obj, holds_entries obj (own a) -> Base_from (flattened (own a).*1 obj) = Some (of_base a) ->
     from obj = Some a) ->
  loads_some (struct_codec (fun a => own a ++ flatten_base (of_base a)) from) a.
Proof.
  intros Hok Hnd Hown Hfrom. apply struct_loads.
  - by apply flatten_base_nodup.
  - apply Forall_app. split; [done|]. by apply flatten_base_saved.
  - intros obj Hobj Hnone. apply Hfrom; [by apply Forall_app in Hobj as [? _]|].
    by apply flatten_base_reads with (own := own a).
Qed.

Lemma DomainConfig_loads d : DomainConfig_ok d -> loads_some DomainConfig_codec d.
Proof.
  intros []. apply (flattened_struct_loads (fun d => [_; _; _; _]) base);
    [done|distinct_names|fields_saved|].
  intros obj Hobj Hbase. read_fields Hobj.
  change (Base_from (flattened domain_own obj) = Some (base d)) in Hbase. by rewrite Hbase; destruct d.
Qed.

Lemma cores_load (s : gset nat) : set_Forall (fun c => in_u 64 (Z.of_nat c)) s -> loads cores_codec s.
Proof.
  intros Hs. apply loads_some_loads, iso_loads; [apply list_to_set_elements_L|].
  apply list_loads, set_Forall_elements, set_Forall_impl with (1 := Hs).
  intros c Hc. apply loads_some_loads, iso_loads; [apply Nat2Z.id|]. auto with sdk.
Qed.

Lemma bytes_load (l : list Z) : Forall (in_u 8) l -> loads_some (list_codec (int_codec 0 8)) l.
Proof. intros Hl. apply list_loads. eapply Forall_impl; [exact Hl|]. auto with sdk. Qed.
#[local] Hint Resolve DomainConfig_loads cores_load bytes_load : sdk.

Lemma NodeConfig_loads n : NodeConfig_ok n -> loads_some NodeConfig_codec n.
Proof.
  intros []. apply (flattened_struct_loads (fun n => [_; _; _; _; _; _; _; _; _]) node_base);
    [done|distinct_names|fields_saved|].
  intros obj Hobj Hbase. read_fields Hobj.
  change (Base_from (flattened node_own obj) = Some (node_base n)) in Hbase. by rewrite Hbase; destruct n.
Qed.

Lemma FarmerConfig_loads c : FarmerConfig_ok c -> loads_some FarmerConfig_codec c.
Proof.
  intros []. apply struct_loads; [distinct_names|fields_saved|].
  intros obj Hobj _. unfold FarmerConfig_from. read_fields Hobj. by destruct c.
Qed.

Lemma FarmDescription_loads f :
  loads (path_codec L) (directory f) -> loads (bytesize_codec L) (space_pledged f) ->
  loads_some FarmDescription_codec f.
Proof.
  intros H1 H2. apply struct_loads; [distinct_names|fields_saved|].
  intros obj Hobj _. read_fields Hobj. by destruct f.
Qed.

Lemma FarmDescription_loads_inv f : loads FarmDescription_codec f ->
  loads (path_codec L) (directory f) /\ loads (bytesize_codec L) (space_pledged f).
Proof.
  intros (v & He & Hd). cbn in He.
  destruct (enc (path_codec L) (directory f)) as [v1|] eqn:H1; [|done].
  destruct (enc (bytesize_codec L) (space_pledged f)) as [v2|] eqn:H2; [|done].
  injection He as <-. change (dec FarmDescription_codec _) with
    (d ← dec (path_codec L) v1; s ← dec (bytesize_codec L) v2; Some (mkFarmDescription d s)) in Hd.
  destruct (dec (path_codec L) v1) as [d|] eqn:H3; [|done].
  destruct (dec (bytesize_codec L) v2) as [sp|] eqn:H4; [|done].
  injection Hd as <-. split; by eexists.
Qed.

Lemma list_loads_inv {A} (c : codec A) l : loads (list_codec c) l -> Forall (loads c) l.
Proof.
  intros (v & He & Hd). cbn in He. destruct (mapM (enc c) l) as [vs|] eqn:Hvs; [|done].
  injection He as <-. cbn in Hd. apply mapM_Some in Hvs. apply mapM_Some in Hd.
  revert l Hvs Hd. induction vs as [|v vs IH]; intros l Hvs Hd; inversion Hvs; inversion Hd; subst; constructor.
  - simplify_eq. by exists v.
  - simplify_eq. by apply IH.
Qed.
End saved.

(** ** Properties *)

Section saved_properties.
Variable L : leaf_codecs.
Variables (pkg_name pkg_version git_hash : string).

Abbreviation NodeConfigCodec := (NodeConfig_codec L pkg_name pkg_version git_hash).

(** C7: a node configuration whose numbers fit their types, and whose addresses,
    paths, sizes and durations survive their own encodings, can be saved and is
    loaded again unchanged, with all its parts: the flattened base, the DSN, the
    storage monitor and a domain with a base of its own.  The configuration of a
    fresh builder is saved as an empty object and loaded from one, so what the
    builder, [Default] and loading fill in for a missing field agree. *)
Theorem node_config_roundtrip (n : NodeConfig) :
  let fresh := NodeBuilder_configuration pkg_name pkg_version git_hash NodeBuilder_new in
  enc NodeConfigCodec fresh = Some (JObj []) /\ dec NodeConfigCodec (JObj []) = Some fresh /\
  (NodeConfig_ok L n -> loads NodeConfigCodec n).
Proof.
  intros fresh. split; [|split; [done|intros Hn; by apply loads_some_loads, NodeConfig_loads]].
  unfold NodeConfig_codec, struct_codec, fresh, field_unless_default, flatten_base, is_default. cbn.
  by rewrite !bool_decide_true.
Qed.

(** C21: the same for the farmer: a configuration within its types is loaded
    again unchanged, an empty object is the configuration of a fresh builder,
    and a file with zero concurrent farms or keys is refused.  A list of farm
    descriptions is loaded unchanged exactly when every path and every size
    survives its own encoding; a size that its human-readable form rounds does
    not. *)
Theorem farmer_config_roundtrip (c : Farmer.Config) (farms : list FarmDescription) :
  dec FarmerConfig_codec (JObj []) = Some (configuration Builder_default) /\
  (forall obj k, k ∈ ["max_concurrent_farms"; "provided_keys_limit"]%string ->
     member k obj = Some (JNum 0) -> dec FarmerConfig_codec (JObj obj) = None) /\
  (FarmerConfig_ok c -> loads FarmerConfig_codec c) /\
  (loads (list_codec (FarmDescription_codec L)) farms <->
   Forall (fun f => loads (path_codec L) (directory f) /\ loads (bytesize_codec L) (space_pledged f)) farms).
Proof.
  split; [done|]. split; [|split].
  - intros obj k Hk Hm. change (dec FarmerConfig_codec (JObj obj)) with (FarmerConfig_from obj).
    assert (Hbad : forall d, get_or (int_codec 1 64) d k obj = None) by (intros d; by apply (get_or_bad _ d k obj (JNum 0))).
    unfold FarmerConfig_from. rewrite !elem_of_cons in Hk.
    destruct Hk as [->|[->|Hk]]; [by rewrite Hbad| |by apply not_elem_of_nil in Hk].
    destruct (get_or _ _ "max_concurrent_farms" obj); [|done]. cbn. by rewrite Hbad.
  - intros Hc. by apply loads_some_loads, FarmerConfig_loads.
  - split; intros Hf.
    + eapply Forall_impl; [by apply list_loads_inv|]. intros f. apply FarmDescription_loads_inv.
    + apply loads_some_loads, list_loads. eapply Forall_impl; [exact Hf|].
      intros f [H1 H2]. by apply loads_some_loads, FarmDescription_loads.
Qed.
End saved_properties.

(** ** Witnesses *)

Definition demo_leaves : leaf_codecs :=
  mkLeafCodecs string_codec (int_codec 0 64)
    (iso_codec (fun d => (as_secs d, subsec_nanos d)) (fun p => mkDuration p.1 p.2)
       (pair_codec (int_codec 0 64) (int_codec 0 32)))
    (text_codec Some) (text_codec Some) (text_codec Some) (int_codec 0 32) (int_codec 0 64).

(** The Gemini preset with a storage monitor, a domain and a pruned state. *)
Definition demo_saved : NodeConfig :=
  let '(mkNodeConfig sp sd ba ds sm br dm it tc pe) :=
    NodeBuilder_configuration "sdk" "0" "0" NodeBuilder_gemini_3g in
  mkNodeConfig sp true (BaseBuilder_build "sdk" "0" "0" (derive_base (set_state_pruning
      (Constrained (mkConstraints (Some 256)))) BaseBuilder_default)) ds
    (Some (mkStorageMonitor 1048576 (mkDuration 5 0))) br
    (Some (DomainConfigBuilder_configuration "sdk" "0" "0" DomainConfigBuilder_gemini_3g)) it {[1%nat]}
    (Some [1; 2]).

Lemma demo_saved_ok : NodeConfig_ok demo_leaves demo_saved.
Proof.
  assert (Hsl : forall l : list string, Forall (loads (text_codec Some)) l).
  { intros l. apply Forall_true. intros s. by apply loads_some_loads, text_loads. }
  assert (Hb : forall b, (forall n, blocks_pruning b = KeepSome n -> in_u 32 n) ->
    (forall c, state_pruning b = Constrained c -> forall n, max_blocks c = Some n -> in_u 32 n) ->
    rpc b = RpcBuilder_default -> telemetry b = [] -> Base_ok demo_leaves b).
  { intros b H1 H2 H3 H4. split; [done|done|rewrite H3; by split|by split; apply Hsl|by rewrite H4]. }
  split.
  - by split.
  - apply Hb; try done. intros c [= <-] n [= <-]. by split.
  - split; [by intros ? [=]|apply Hsl..|by split|by split|by split|by split|by split].
  - intros m [= <-]. split; [apply loads_some_loads, int_loads; by split|by eexists].
  - intros d [= <-]. split; [apply loads_some_loads, int_loads; by split|done|by apply Hb].
  - change (timekeeper_cpu_cores demo_saved) with ({[1%nat]} : gset nat).
    intros c ->%elem_of_singleton. by split.
  - intros l [= <-]. by repeat constructor.
Qed.

Lemma node_config_roundtrip_witness :
  enc (NodeConfig_codec demo_leaves "sdk" "0" "0") demo_saved =
    Some (JObj [("sync_from_dsn", JBool true);
      ("dsn", JObj [("listen_addresses", JArr [JStr "/ip6/::/tcp/30433"; JStr "/ip4/0.0.0.0/tcp/30433"])]);
      ("storage_monitor", JObj [("threshold", JNum 1048576); ("polling_period", JArr [JNum 5; JNum 0])]);
      ("domain", JObj [("chain_id", JStr "gemini-3g")]);
      ("timekeeper_cpu_cores", JArr [JNum 1]);
      ("pot_external_entropy", JArr [JNum 1; JNum 2]);
      ("state_pruning", JObj [("Constrained", JObj [("max_blocks", JNum 256)])])])%string /\
  loads (NodeConfig_codec demo_leaves "sdk" "0" "0") demo_saved.
Proof.
  split; [vm_compute; reflexivity|].
  exact (proj2 (proj2 (node_config_roundtrip demo_leaves "sdk" "0" "0" demo_saved)) demo_saved_ok).
Defined.

(** Sizes saved in whole gigabytes, as a stand-in for a rounding text. *)
Definition demo_rounding : leaf_codecs :=
  mkLeafCodecs string_codec
    (mkCodec (fun n => Some (JNum (n / 10 ^ 9))) (fun v => match v with JNum n => Some (n * 10 ^ 9) | _ => None end))
    (duration_codec demo_leaves) (text_codec Some) (text_codec Some) (text_codec Some) (int_codec 0 32) (int_codec 0 64).

Lemma farmer_config_roundtrip_witness :
  loads FarmerConfig_codec (mkConfig 10 655360 (Some 1000) None (Some 4) None None None) /\
  loads (list_codec (FarmDescription_codec demo_rounding)) [mkFarmDescription "plot" (10 * 10 ^ 9)] /\
  (loads (list_codec (FarmDescription_codec demo_rounding)) [mkFarmDescription "plot" (10 * 10 ^ 9 + 1)] -> False).
Proof.
  split; [|split].
  - apply (farmer_config_roundtrip demo_leaves (mkConfig 10 655360 (Some 1000) None (Some 4) None None None) []).
    split; try (split; [discriminate|reflexivity]); intros n Hn; try discriminate Hn;
      injection Hn as <-; (split; [discriminate|reflexivity]).
  - apply (farmer_config_roundtrip demo_rounding (configuration Builder_default)
      [mkFarmDescription "plot" (10 * 10 ^ 9)]).
    constructor; [|constructor]. split; eexists; split; reflexivity.
  - intros Hl. apply (farmer_config_roundtrip demo_rounding (configuration Builder_default)
      [mkFarmDescription "plot" (10 * 10 ^ 9 + 1)]) in Hl.
    inversion Hl as [|? ? [_ (v & Hv & Hd)] _]; subst. injection Hv as <-. vm_compute in Hd. discriminate Hd.
Defined.
