(* ===== verification/Interaction.v ===== *)
(** Programs that talk to the SDK, as interaction trees: their finite runs, a
    calculus for what holds of every run, and an interpreter that plays a
    program against an environment.

    A run records what can be observed of its calls.  It ends with the result of
    the program or with a panic. *)
From S2P Require Import Prelude.
From ITree Require Core.ITreeDefinition.
From Stdlib Require Eqdep.

Module IT := ITree.Core.ITreeDefinition.
Abbreviation itree := IT.itree.

#[export] Instance itree_ret {E} : MRet (itree E) := fun A a => IT.go (IT.RetF a).
#[export] Instance itree_bind {E} : MBind (itree E) := fun A B k t => IT.ITree.bind t k.

Definition call {E : Type -> Type} {A} (e : E A) : itree E A := IT.ITree.trigger e.
Definition forever {E : Type -> Type} {I R} (body : I -> itree E (I + R)) : I -> itree E R :=
  IT.ITree.iter body.

(** What is observed of a call and its answer, and which calls panic. *)
Class Observe (E : Type -> Type) (O : Type) := {
  observed : forall A, E A -> A -> list O;
  panics : forall A, E A -> option string;
}.
Arguments observed {E O _} A _ _.
Arguments panics {E O _} A _.

Section runs.
Context {E : Type -> Type} {O : Type} `{Observe E O}.

(** [n] counts the nodes of the tree that were visited. *)
Inductive runs {R} : nat -> itree E R -> list O -> outcome R -> Prop :=
| runs_ret n t r : IT.observe t = IT.RetF r -> runs n t [] (Ret r)
| runs_tau n t t' tr r : IT.observe t = IT.TauF t' -> runs n t' tr r -> runs (S n) t tr r
| runs_vis n t A (e : E A) a k tr r :
    IT.observe t = IT.VisF e k -> runs n (k a) tr r -> runs (S n) t (observed A e a ++ tr) r
| runs_panic n t A (e : E A) k why :
    IT.observe t = IT.VisF e k -> panics A e = Some why -> runs n t [] (Panic why).

Lemma observe_bind {A B} (t : itree E A) (k : A -> itree E B) :
  IT.observe (t ≫= k) =
  match IT.observe t with
  | IT.RetF a => IT.observe (k a)
  | IT.TauF t' => IT.TauF (t' ≫= k)
  | IT.VisF e h => IT.VisF e (fun x => h x ≫= k)
  end.
Proof.
  change (IT.observe (t ≫= k)) with (IT.observe
    match IT.observe t with
    | IT.RetF a => k a
    | IT.TauF t' => IT.go (IT.TauF (t' ≫= k))
    | IT.VisF e h => IT.go (IT.VisF e (fun x => h x ≫= k))
    end).
  by destruct (IT.observe t).
Qed.

Lemma runs_observe {R} n (t t' : itree E R) tr r :
  IT.observe t = IT.observe t' -> runs n t tr r -> runs n t' tr r.
Proof.
  intros Ht Hrun. inversion Hrun as [m u y Hu|m u u' tr' r' Hu Hr|m u X e a h tr' r' Hu Hr|m u X e h why Hu Hp];
    subst; rewrite Ht in Hu; econstructor; eassumption.
Qed.

Lemma runs_TauF_inv {R} n (t t' : itree E R) tr r :
  IT.observe t = IT.TauF t' -> runs n t tr r -> exists m, n = S m /\ runs m t' tr r.
Proof.
  intros Ht Hrun. inversion Hrun as [m u y Hu|m u u' tr' r' Hu Hr|m u X e a h tr' r' Hu Hr|m u X e h why Hu Hp];
    subst; rewrite Ht in Hu; try discriminate Hu. injection Hu as ->. by exists m.
Qed.

Lemma runs_VisF_inv {R X} n (t : itree E R) (e : E X) (h : X -> itree E R) tr r :
  IT.observe t = IT.VisF e h -> runs n t tr r ->
  (exists why, panics X e = Some why /\ tr = [] /\ r = Panic why) \/
  (exists m a tr', n = S m /\ tr = observed X e a ++ tr' /\ runs m (h a) tr' r).
Proof.
  intros Ht Hrun.
  inversion Hrun as [m u y Hu|m u u' tr' r' Hu Hr|m u Y e' a h' tr' r' Hu Hr|m u Y e' h' why Hu Hp];
    subst; rewrite Ht in Hu; try discriminate Hu.
  - right. injection Hu as <- He Hh. apply Eqdep.EqdepTheory.inj_pair2 in He, Hh. subst. by exists m, a, tr'.
  - left. injection Hu as <- He _. apply Eqdep.EqdepTheory.inj_pair2 in He. subst. by exists why.
Qed.

(** A run of a sequence is a run of the first part that panics, or goes on with
    the second. *)
Lemma runs_bind_inv {A B} n (t : itree E A) (k : A -> itree E B) tr r :
  runs n (t ≫= k) tr r ->
  (exists why, r = Panic why /\ runs n t tr (Panic why)) \/
  (exists a n2 tr1 tr2, n2 <= n /\ tr = tr1 ++ tr2 /\ runs n t tr1 (Ret a) /\ runs n2 (k a) tr2 r).
Proof.
  revert t tr r. induction n as [n IH] using lt_wf_ind; intros t tr r Hrun.
  pose proof (observe_bind t k) as Hb. destruct (IT.observe t) as [x|t'|Y e h] eqn:Ht.
  - right. exists x, n, [], tr. split; [done|]. split; [done|]. split; [by constructor|].
    by apply runs_observe with (t ≫= k).
  - destruct (runs_TauF_inv _ _ _ _ _ Hb Hrun) as (m & -> & Hm).
    destruct (IH m ltac:(lia) t' tr r Hm) as [(why & -> & Hw)|(a & n2 & tr1 & tr2 & Hn & -> & H1 & H2)].
    + left. exists why. split; [done|]. by apply runs_tau with t'.
    + right. exists a, n2, tr1, tr2. split; [lia|]. split; [done|]. split; [by apply runs_tau with t'|done].
  - destruct (runs_VisF_inv _ _ _ _ _ _ Hb Hrun) as [(why & Hp & -> & ->)|(m & y & tr' & -> & -> & Hm)].
    { left. exists why. split; [done|]. by eapply runs_panic. }
    destruct (IH m ltac:(lia) (h y) tr' r Hm) as [(why & -> & Hw)|(a & n2 & tr1 & tr2 & Hn & -> & H1 & H2)].
    + left. exists why. split; [done|]. by apply runs_vis with h.
    + right. exists a, n2, (observed Y e y ++ tr1), tr2. split; [lia|]. split; [by rewrite app_assoc|].
      split; [by apply runs_vis with h|done].
Qed.

(** ** What holds of every run *)

Definition always {R} (t : itree E R) (Q : list O -> outcome R -> Prop) : Prop :=
  forall n tr r, runs n t tr r -> Q tr r.

Lemma always_mono {R} (t : itree E R) (Q Q' : list O -> outcome R -> Prop) :
  always t Q -> (forall tr r, Q tr r -> Q' tr r) -> always t Q'.
Proof. intros Ht HQ n tr r Hrun. by eapply HQ, Ht. Qed.

Lemma always_ret {R} (a : R) (Q : list O -> outcome R -> Prop) : Q [] (Ret a) -> always (mret a) Q.
Proof.
  intros HQ n tr r Hrun. inversion Hrun as [m u y Hu|m u u' tr' r' Hu Hr|m u X e b h tr' r' Hu Hr|m u X e h why Hu Hp];
    subst; cbn in Hu; try discriminate Hu. by injection Hu as <-.
Qed.

Lemma always_call {A} (e : E A) (Q : list O -> outcome A -> Prop) :
  (forall why, panics A e = Some why -> Q [] (Panic why)) ->
  (forall a, Q (observed A e a) (Ret a)) -> always (call e) Q.
Proof.
  intros Hp Ha n tr r Hrun.
  destruct (runs_VisF_inv n (call e) e (fun x => IT.go (IT.RetF x)) tr r eq_refl Hrun)
    as [(why & Hw & -> & ->)|(m & a & tr' & -> & -> & Hm)]; [by apply Hp|].
  enough (Hr : tr' = [] /\ r = Ret a) by (destruct Hr as [-> ->]; rewrite app_nil_r; apply Ha).
  revert Hm. apply (always_ret a (fun tr r => tr = [] /\ r = Ret a)). done.
Qed.

Lemma always_bind {A B} (t : itree E A) (k : A -> itree E B) (Q : list O -> outcome B -> Prop) :
  always t (fun tr1 r1 => match r1 with
                      | Ret a => always (k a) (fun tr2 r => Q (tr1 ++ tr2) r)
                      | Panic why => Q tr1 (Panic why)
                      end) ->
  always (t ≫= k) Q.
Proof.
  intros Ht n tr r Hrun.
  destruct (runs_bind_inv _ _ _ _ _ Hrun) as [(why & -> & Hw)|(a & n2 & tr1 & tr2 & _ & -> & H1 & H2)].
  - exact (Ht _ _ _ Hw).
  - exact (Ht _ _ _ H1 _ _ _ H2).
Qed.

(** The rule for loops: [P i] holds of the runs from [i] when one round
    establishes it from what the next round gives. *)
Lemma always_forever {I R} (body : I -> itree E (I + R)) (P : I -> list O -> outcome R -> Prop) :
  (forall i, always (body i) (fun tr r => match r with
                                      | Ret (inl j) => forall tr' r', P j tr' r' -> P i (tr ++ tr') r'
                                      | Ret (inr x) => P i tr (Ret x)
                                      | Panic why => P i tr (Panic why)
                                      end)) ->
  forall i, always (forever body i) (P i).
Proof.
  intros Hbody i n. revert i. induction n as [n IH] using lt_wf_ind; intros i tr r Hrun.
  set (next := fun lr : I + R => IT.ITree.on_left lr l (IT.go (IT.TauF (forever body l)))) in *.
  assert (Hunfold : runs n (body i ≫= next) tr r).
  { revert Hrun. apply runs_observe. done. }
  destruct (runs_bind_inv _ _ _ _ _ Hunfold) as [(why & -> & Hw)|([j|x] & n2 & tr1 & tr2 & Hn & -> & H1 & H2)].
  - exact (Hbody i _ _ _ Hw).
  - pose proof (Hbody i _ _ _ H1) as Hj. cbn in Hj. apply Hj.
    destruct (runs_TauF_inv n2 (next (inl j)) (forever body j) tr2 r eq_refl H2) as (m & -> & Hm).
    apply (IH m); [lia|done].
  - pose proof (Hbody i _ _ _ H1) as Hx. cbn in Hx.
    revert H2. apply (always_ret x (fun tr2 r => P i (tr1 ++ tr2) r)). by rewrite app_nil_r.
Qed.
End runs.

(** ** Playing a program *)

Section play.
Context {E : Type -> Type} {O : Type} `{Observe E O} {St : Type}.
(** The environment answers calls from its state, or does not answer. *)
Variable answer : forall A, E A -> St -> option (A * St).

Fixpoint play {R} (fuel : nat) (t : itree E R) (s : St) : option (list O * outcome R) :=
  match fuel with
  | 0 => None
  | S fuel =>
      match IT.observe t with
      | IT.RetF a => Some ([], Ret a)
      | IT.TauF t' => play fuel t' s
      | IT.VisF e k =>
          match panics _ e with
          | Some why => Some ([], Panic why)
          | None =>
              '(a, s') ← answer _ e s;
              '(tr, r) ← play fuel (k a) s';
              Some (observed _ e a ++ tr, r)
          end
      end
  end.

Lemma play_runs {R} fuel (t : itree E R) s tr r : play fuel t s = Some (tr, r) -> exists n, runs n t tr r.
Proof.
  revert t s tr r. induction fuel as [|fuel IH]; intros t s tr r; [done|]. cbn.
  destruct (IT.observe t) as [a|t'|X e k] eqn:Ht.
  - intros [= <- <-]. exists 0. by constructor.
  - intros (n & Hn)%IH. exists (S n). by apply runs_tau with t'.
  - destruct (panics X e) as [why|] eqn:Hp.
    + intros [= <- <-]. exists 0. by eapply runs_panic.
    + destruct (answer X e s) as [[a s']|]; [|done]. cbn.
      destruct (play fuel (k a) s') as [[tr' r']|] eqn:Hplay; [|done]. intros [= <- <-].
      destruct (IH _ _ _ _ Hplay) as (n & Hn). exists (S n). by apply runs_vis with k.
Qed.
End play.
