(* ===== verification/Programs.v ===== *)
(** The example programs (examples/mini-farmer.rs, sync.rs, complete.rs and
    simple.rs) as interaction trees over the calls of the SDK.

    The environment answers the calls; a signal is the answer to [CtrlC], asked
    wherever a [select!] may take its branch.  Values that are dropped at the
    end of a program leave no event.  Parsing the arguments, the log setup and
    the text of messages are left out; foreign types are parameters. *)
From S2P Require Import Prelude Substrate Plotting Dsn Node Farmer Interaction.

#[local] Open Scope Z_scope.

(** ** Builder calls of the examples *)

(** [Builder::dsn], [derive_base!]'s setters and [DsnBuilder::provider_storage_path]. *)
Definition nb_with_dsn (d : DsnBuilder) (b : NodeBuilder) : NodeBuilder :=
  let '(mkNodeBuilder sp sd ba _ sm br dm it tc pe) := b in
  mkNodeBuilder sp sd ba (Some (DsnBuilder_build d)) sm br dm it tc pe.
Definition nb_set (f : base_setter) (b : NodeBuilder) : NodeBuilder :=
  let '(mkNodeBuilder sp sd ba ds sm br dm it tc pe) := b in
  mkNodeBuilder sp sd (derive_base f ba) ds sm br dm it tc pe.
Definition nb_storage_path (p : string) (d : DsnBuilder) : DsnBuilder :=
  let '(mkDsnBuilder _ la bn ea rn an ic oc pi po tc) := d in
  mkDsnBuilder (Some p) la bn ea rn an ic oc pi po tc.

Definition nb_of (fs : list base_setter) : NodeBuilder := foldl (fun b f => nb_set f b) NodeBuilder_new fs.

Section programs.
Context {NodeH FarmerH FarmH Spec Key AccountId Header Hash Info Solution : Type}.
Context `{EqDecision Key, EqDecision AccountId}.
Variable account_of : Key -> AccountId.
Variable header_hash : Header -> Hash.
(** The reward address of the solution in the header's pre-digest. *)
Variable header_author : Header -> option Key.
Variables (pkg_name pkg_version git_hash : string).

Inductive chain_event :=
| VoteReward (reward : Z) (voter : AccountId)
| BlockReward (reward : Z) (block_author : AccountId)
| FarmerVote (reward_address : AccountId) (height : Z)
| OtherEvent.

Inductive message :=
| Exitting | NodeWasSynced | PlottingAt (p : InitialPlottingProgress) | PlottingFinished
| ReceivedReward (reward : Z) | VoteCounted (height : Z) | AuthoredBlock
| ListeningAt (addr : string) | NewBlock (h : Header) | FoundSolution (s : Solution) | ShowInfo (i : Info).

(** The tasks the examples spawn. *)
Inductive spawned := LogPlotting (farm : FarmH) | LogSolutions (farm : FarmH) | LogBlocks (node : NodeH).

Inductive sdkE : Type -> Type :=
| Panicked (why : string) : sdkE Empty_set
| CtrlC : sdkE bool
| Log (m : message) : sdkE unit
| TempDir : sdkE (result string string)
| ReadSpec (path : string) : sdkE (result string Spec)
| WriteSpec (path : string) (spec : Spec) : sdkE (result string unit)
| BuildNode (cfg : NodeConfig) (directory : string) (spec : Spec) : sdkE (result string NodeH)
| SyncNode (n : NodeH) : sdkE (result string unit)
| CloseNode (n : NodeH) : sdkE (result string unit)
| WipeNode (directory : string) : sdkE (result string unit)
| GetNodeInfo (n : NodeH) : sdkE (result string Info)
| ListenAddresses (n : NodeH) : sdkE (result string (list string))
| SubscribeHeads (n : NodeH) (finalized : bool) : sdkE (result string unit)
| NextHead (n : NodeH) : sdkE (option Header)
| GetEvents (n : NodeH) (hash : Hash) : sdkE (result string (list chain_event))
| BuildFarmer (cfg : Farmer.Config) (reward_address : Key) (n : NodeH) (farms : list FarmDescription)
    (cache_percentage : Z) : sdkE (result string FarmerH)
| CloseFarmer (f : FarmerH) : sdkE (result string unit)
| GetFarmerInfo (f : FarmerH) : sdkE (result string Info)
| IterFarms (f : FarmerH) : sdkE (list FarmH)
| SubscribeProgress (farm : FarmH) : sdkE unit
| NextProgress (farm : FarmH) : sdkE (option InitialPlottingProgress)
| SubscribeSolutions (farm : FarmH) : sdkE unit
| NextSolution (farm : FarmH) : sdkE (option Solution)
| WipeFarm (d : FarmDescription) : sdkE (result string unit)
| Spawn (task : spawned) : sdkE unit.

Abbreviation prog A := (itree sdkE A).

(** [unwrap] and [expect]. *)
Definition panic {A} (why : string) : prog A :=
  x ← call (Panicked why); match x : Empty_set with end.
Definition unwrap {A} (why : string) (r : result string A) : prog A :=
  match r with Ok a => mret a | Err _ => panic why end.
Definition unwrap_some {A} (why : string) (o : option A) : prog A :=
  match o with Some a => mret a | None => panic why end.
Definition unwrapped {A} (why : string) (e : sdkE (result string A)) : prog A :=
  r ← call e; unwrap why r.
(** [t?; ...] *)
Definition try {A B} (t : prog (result string A)) (k : A -> prog (result string B)) : prog (result string B) :=
  r ← t; match r with Ok a => k a | Err e => mret (Err e) end.
Definition context {A} (why : string) (t : prog (result string A)) : prog (result string A) :=
  r ← t; mret (map_err (fun e => why +:+ ": " +:+ e)%string r).

Fixpoint log_all (ms : list message) : prog unit :=
  match ms with [] => mret tt | m :: ms => _ ← call (Log m); log_all ms end.

(** [while let Some(x) = stream.next().await { .. }], [for_each]. *)
Definition while_some {A} (next : sdkE (option A)) (body : A -> prog unit) : prog unit :=
  forever (fun _ : unit =>
    o ← call next;
    match o with None => mret (inr tt) | Some x => _ ← body x; mret (inl tt) end) tt.

Definition spawned_task (t : spawned) : prog unit :=
  match t with
  | LogPlotting farm =>
      _ ← while_some (NextProgress farm) (fun p => call (Log (PlottingAt p)));
      call (Log PlottingFinished)
  | LogSolutions farm => while_some (NextSolution farm) (fun s => call (Log (FoundSolution s)))
  | LogBlocks n => while_some (NextHead n) (fun h => call (Log (NewBlock h)))
  end.

Definition node_config (b : NodeBuilder) : NodeConfig :=
  NodeBuilder_configuration pkg_name pkg_version git_hash b.

(** ** mini-farmer.rs *)

Inductive Chain := Gemini3f | Devnet | Dev.

Record mini_args := mkMiniArgs {
  arg_chain : Chain;
  arg_reward_address : Key;
  arg_base_path : option string;
  arg_plot_size : Z;
}.

Definition mini_node (chain : Chain) (node_dir : string) : NodeBuilder :=
  let storage := join node_dir "provider_storage" in
  nb_set (set_role Authority)
    match chain with
    | Gemini3f => nb_with_dsn (nb_storage_path storage DsnBuilder_gemini_3g) NodeBuilder_gemini_3g
    | Devnet => nb_with_dsn (nb_storage_path storage DsnBuilder_devnet) NodeBuilder_devnet
    | Dev => nb_with_dsn (nb_storage_path storage DsnBuilder_dev) NodeBuilder_dev
    end.

(** What the events of a block have to say to the owner of the reward address. *)
Definition event_message (key : Key) (e : chain_event) : option message :=
  match e with
  | VoteReward reward author | BlockReward reward author =>
      if decide (author = account_of key) then Some (ReceivedReward reward) else None
  | FarmerVote author height => if decide (author = account_of key) then Some (VoteCounted height) else None
  | OtherEvent => None
  end.
Definition author_message (key : Key) (h : Header) : list message :=
  match header_author h with
  | Some author => if decide (author = key) then [AuthoredBlock] else []
  | None => []
  end.

(** [rewards_sub] inside its [select!]; [None]: interrupted by a signal. *)
Definition rewards_sub (n : NodeH) (key : Key) : prog (option (result string unit)) :=
  interrupted ← call CtrlC;
  if interrupted : bool then mret None
  else
    r ← call (SubscribeHeads n true);
    match r with
    | Err e => mret (Some (Err e))
    | Ok _ =>
        forever (fun _ : unit =>
          interrupted ← call CtrlC;
          if interrupted : bool then mret (inr None)
          else
            o ← call (NextHead n);
            match o with
            | None => mret (inr (Some (Ok tt)))
            | Some header =>
                interrupted ← call CtrlC;
                if interrupted : bool then mret (inr None)
                else
                  r ← call (GetEvents n (header_hash header));
                  match r with
                  | Err e => mret (inr (Some (Err e)))
                  | Ok events =>
                      _ ← log_all (omap (event_message key) events);
                      _ ← log_all (author_message key header);
                      mret (inl tt)
                  end
            end) tt
    end.

Definition mini_farmer (spec_of : Chain -> Spec) (a : mini_args) : prog (result string unit) :=
  base_path ← (match arg_base_path a with
               | Some p => mret p
               | None => unwrapped "Failed to create temporary directory" TempDir
               end);
  let node_dir := join base_path "node" in
  try (call (BuildNode (node_config (mini_node (arg_chain a) node_dir)) node_dir (spec_of (arg_chain a))))
    (fun node =>
  interrupted ← call CtrlC;
  if interrupted : bool then
    _ ← call (Log Exitting);
    context "Failed to close node" (call (CloseNode node))
  else
    try (match arg_chain a with Dev => mret (Ok tt) | _ => call (SyncNode node) end) (fun _ =>
    _ ← call (Log NodeWasSynced);
    try (call (BuildFarmer (configuration Builder_default) (arg_reward_address a) node
                 [mkFarmDescription (join base_path "plot") (arg_plot_size a)] 1)) (fun farmer =>
    farms ← call (IterFarms farmer);
    farm ← unwrap_some "called `Option::unwrap()` on a `None` value" (head farms);
    _ ← call (SubscribeProgress farm);
    _ ← call (Spawn (LogPlotting farm));
    ended ← rewards_sub node (arg_reward_address a);
    _ ← (match ended with None => call (Log Exitting) | Some _ => mret tt end);
    try (context "Failed to close node" (call (CloseNode node))) (fun _ =>
    try (context "Failed to close farmer" (call (CloseFarmer farmer))) (fun _ =>
    mret (Ok tt)))))).

(** ** sync.rs *)

Inductive sync_args :=
| FarmArgs (plot : string) (plot_size : Z) (node : string) (spec : string)
| SyncArgs (boot_nodes : list string) (spec : string)
| GenerateSpec (path : string).

Definition returned {A} (o : outcome A) : prog A :=
  match o with Ret a => mret a | Panic why => panic why end.

(** [plot_size.as_u64() * 9 / 10]. *)
Definition pledged_share (p : profile) (plot_size : Z) : outcome Z :=
  n ← mul_u p 64 plot_size 9; div_u n 10.

Definition sync_node : NodeBuilder :=
  nb_of [set_network (mkNetwork false false false ["/ip4/127.0.0.1/tcp/0"%string] [] true None None);
         set_force_authoring true; set_role Authority].

Definition watch_blocks (node : NodeH) : prog (result string unit) :=
  try (call (SubscribeHeads node false)) (fun _ =>
  _ ← while_some (NextHead node) (fun header => call (Log (NewBlock header)));
  mret (Ok tt)).

Definition sync_main (p : profile) (dev_spec : Spec) (key13 : Key) (args : sync_args)
    : prog (result string unit) :=
  match args with
  | GenerateSpec path => call (WriteSpec path dev_spec)
  | FarmArgs plot plot_size node spec =>
      try (call (ReadSpec spec)) (fun chain_spec =>
      plot_size ← returned (pledged_share p plot_size);
      let plots := [mkFarmDescription (join plot "plot") plot_size] in
      try (call (BuildNode (node_config sync_node) node chain_spec)) (fun node =>
      try (call (BuildFarmer (configuration Builder_default) key13 node plots 1)) (fun _ =>
      try (call (ListenAddresses node)) (fun addresses =>
      addr ← unwrap_some "called `Option::unwrap()` on a `None` value" (head addresses);
      _ ← call (Log (ListeningAt addr));
      watch_blocks node))))
  | SyncArgs boot_nodes spec =>
      try (call TempDir) (fun node_dir =>
      try (call (ReadSpec spec)) (fun chain_spec =>
      try (call (BuildNode (node_config (nb_of [set_force_authoring true; set_role Authority;
              set_network (mkNetwork false false false [] boot_nodes false None None)])) node_dir chain_spec))
        (fun node =>
      _ ← unwrapped "called `Result::unwrap()` on an `Err` value" (SyncNode node);
      _ ← call (Log NodeWasSynced);
      watch_blocks node)))
  end.

(** ** complete.rs *)

Definition complete_base : list base_setter :=
  [set_blocks_pruning (KeepSome 1000); set_state_pruning ArchiveCanonical].
Definition complete_config : NodeConfig :=
  node_config (nb_of (complete_base ++
    [set_network (mkNetwork false false false [] [] false (Some "i1i1"%string) None)])).
Definition restarted_config : NodeConfig := node_config (nb_of complete_base).

Definition unwrap_err : string := "called `Result::unwrap()` on an `Err` value".

Fixpoint wipe_all (plots : list FarmDescription) : prog unit :=
  match plots with [] => mret tt | d :: plots => _ ← unwrapped unwrap_err (WipeFarm d); wipe_all plots end.

Definition complete (dev_spec : Spec) (key0 : Key) (gb : Z -> Z) : prog unit :=
  let plots := [mkFarmDescription "plot" (gb 10)] in
  node ← unwrapped "Failed to init a node" (BuildNode complete_config "node" dev_spec);
  _ ← unwrapped unwrap_err (SyncNode node);
  farmer ← unwrapped "Failed to init a farmer" (BuildFarmer (configuration Builder_default) key0 node plots 1);
  farms ← call (IterFarms farmer);
  farm ← unwrap_some "called `Option::unwrap()` on a `None` value" (head farms);
  _ ← call (SubscribeSolutions farm);
  _ ← call (Spawn (LogSolutions farm));
  _ ← unwrapped unwrap_err (SubscribeHeads node false);
  _ ← call (Spawn (LogBlocks node));
  info ← unwrapped unwrap_err (GetNodeInfo node);
  _ ← call (Log (ShowInfo info));
  info ← unwrapped unwrap_err (GetFarmerInfo farmer);
  _ ← call (Log (ShowInfo info));
  _ ← unwrapped unwrap_err (CloseFarmer farmer);
  _ ← unwrapped unwrap_err (CloseNode node);
  node ← unwrapped "Failed to init a node" (BuildNode restarted_config "node" dev_spec);
  _ ← unwrapped unwrap_err (SyncNode node);
  farmer ← unwrapped "Failed to init a farmer" (BuildFarmer (configuration Builder_default) key0 node plots 1);
  _ ← unwrapped unwrap_err (CloseFarmer farmer);
  _ ← unwrapped unwrap_err (CloseNode node);
  _ ← wipe_all plots;
  _ ← unwrapped unwrap_err (WipeNode "node");
  mret tt.

(** ** simple.rs *)

Fixpoint follow_plotting (farms : list FarmH) : prog unit :=
  match farms with
  | [] => mret tt
  | farm :: farms =>
      _ ← call (SubscribeProgress farm);
      _ ← while_some (NextProgress farm) (fun _ => mret tt);
      follow_plotting farms
  end.

(** [heads.take(n).for_each(..)]. *)
Fixpoint take_heads (n : nat) (node : NodeH) : prog unit :=
  match n with
  | 0%nat => mret tt
  | S n =>
      o ← call (NextHead node);
      match o with None => mret tt | Some h => _ ← call (Log (NewBlock h)); take_heads n node end
  end.

Definition simple (dev_spec : Spec) (key0 : Key) (mb : Z -> Z) : prog unit :=
  let plots := [mkFarmDescription "plot" (mb 100)] in
  node ← unwrapped unwrap_err
    (BuildNode (node_config (nb_of [set_force_authoring true; set_role Authority])) "node" dev_spec);
  farmer ← unwrapped "Failed to init a farmer" (BuildFarmer (configuration Builder_default) key0 node plots 1);
  farms ← call (IterFarms farmer);
  _ ← follow_plotting farms;
  _ ← call (Log PlottingFinished);
  _ ← unwrapped unwrap_err (SubscribeHeads node false);
  take_heads 10 node.

(** ** What can be observed *)

Inductive action :=
| NodeBuilt (cfg : NodeConfig) (directory : string) (spec : Spec) | NodeClosed (ok : bool) | NodeWiped (ok : bool)
| FarmerBuilt (cfg : Farmer.Config) (reward_address : Key) (farms : list FarmDescription) (cache_percentage : Z)
| FarmerClosed (ok : bool) | FarmWiped (d : FarmDescription) (ok : bool)
| Logged (m : message) | GotHead (h : Header) | GotEvents (events : list chain_event).

Definition sdk_observed (A : Type) (e : sdkE A) : A -> list action :=
  match e in sdkE A return A -> list action with
  | BuildNode cfg directory spec => fun r => if is_ok r then [NodeBuilt cfg directory spec] else []
  | CloseNode _ => fun r => [NodeClosed (is_ok r)]
  | WipeNode _ => fun r => [NodeWiped (is_ok r)]
  | BuildFarmer cfg key _ farms cp => fun r => if is_ok r then [FarmerBuilt cfg key farms cp] else []
  | CloseFarmer _ => fun r => [FarmerClosed (is_ok r)]
  | WipeFarm d => fun r => [FarmWiped d (is_ok r)]
  | Log m => fun _ => [Logged m]
  | NextHead _ => fun o => match o with Some h => [GotHead h] | None => [] end
  | GetEvents _ _ => fun r => match r with Ok events => [GotEvents events] | Err _ => [] end
  | _ => fun _ => []
  end.

#[export] Instance sdk_observe : Observe sdkE action := {|
  observed := sdk_observed;
  panics A e := match e with Panicked why => Some why | _ => None end;
|}.

(** Building, closing and wiping. *)
Definition life (tr : list action) : list action :=
  omap (fun a => match a with Logged _ | GotHead _ | GotEvents _ => None | _ => Some a end) tr.
(** Those that succeeded. *)
Definition succeeded (tr : list action) : list action :=
  omap (fun a => match a with
                 | NodeClosed false | NodeWiped false | FarmerClosed false | FarmWiped _ false => None
                 | _ => Some a
                 end) (life tr).

(** The messages about rewards, votes and blocks in a run. *)
Definition reward_messages (tr : list action) : list message :=
  omap (fun a => match a with
                 | Logged (ReceivedReward _ as m) | Logged (VoteCounted _ as m) | Logged (AuthoredBlock as m) => Some m
                 | _ => None
                 end) tr.

(** Those the blocks and events of the run call for. *)
Fixpoint due_messages (key : Key) (header : option Header) (tr : list action) : list message :=
  match tr with
  | [] => []
  | GotHead h :: tr => due_messages key (Some h) tr
  | GotEvents events :: tr =>
      omap (event_message key) events ++ match header with Some h => author_message key h | None => [] end
      ++ due_messages key header tr
  | _ :: tr => due_messages key header tr
  end.

(** The specification of [reward_messages], independent of the functions above:
    each reward of a vote or a block that goes to the account of the reward
    address is reported, each vote of that account is counted, in the order of
    the events; then a block whose author is the reward address. *)
Inductive events_call_for (key : Key) : list chain_event -> list message -> Prop :=
| ecf_nil : events_call_for key [] []
| ecf_vote_reward reward es ms : events_call_for key es ms ->
    events_call_for key (VoteReward reward (account_of key) :: es) (ReceivedReward reward :: ms)
| ecf_block_reward reward es ms : events_call_for key es ms ->
    events_call_for key (BlockReward reward (account_of key) :: es) (ReceivedReward reward :: ms)
| ecf_vote height es ms : events_call_for key es ms ->
    events_call_for key (FarmerVote (account_of key) height :: es) (VoteCounted height :: ms)
| ecf_of_others e es ms : (forall reward, e <> VoteReward reward (account_of key)) ->
    (forall reward, e <> BlockReward reward (account_of key)) ->
    (forall height, e <> FarmerVote (account_of key) height) ->
    events_call_for key es ms -> events_call_for key (e :: es) ms.

Inductive header_calls_for (key : Key) : option Header -> list message -> Prop :=
| hcf_author h : header_author h = Some key -> header_calls_for key (Some h) [AuthoredBlock]
| hcf_of_others h : header_author h <> Some key -> header_calls_for key (Some h) []
| hcf_none : header_calls_for key None [].

(** [header] is the last one received. *)
Inductive run_calls_for (key : Key) : option Header -> list action -> list message -> Prop :=
| rcf_nil header : run_calls_for key header [] []
| rcf_head header h tr ms : run_calls_for key (Some h) tr ms -> run_calls_for key header (GotHead h :: tr) ms
| rcf_events header es tr ms1 ms2 ms3 :
    events_call_for key es ms1 -> header_calls_for key header ms2 -> run_calls_for key header tr ms3 ->
    run_calls_for key header (GotEvents es :: tr) (ms1 ++ ms2 ++ ms3)
| rcf_other header a tr ms : (forall h, a <> GotHead h) -> (forall es, a <> GotEvents es) ->
    run_calls_for key header tr ms -> run_calls_for key header (a :: tr) ms.

(** How a run of the mini farmer ends: what it built and closed, and its result. *)
Inductive mini_ends (node farmer : action) : list action -> outcome (result string unit) -> Prop :=
| no_directory why : mini_ends node farmer [] (Panic why)
| no_node e : mini_ends node farmer [] (Ret (Err e))
| interrupted_sync ok e : mini_ends node farmer [node; NodeClosed ok] (Ret (if ok : bool then Ok tt else Err e))
| no_farmer e : mini_ends node farmer [node] (Ret (Err e))
| farmer_without_farms why : mini_ends node farmer [node; farmer] (Panic why)
| node_not_closed e : mini_ends node farmer [node; farmer; NodeClosed false] (Ret (Err e))
| both_closed ok e :
    mini_ends node farmer [node; farmer; NodeClosed true; FarmerClosed ok]
      (Ret (if ok : bool then Ok tt else Err e)).

(** The configuration a mini farmer's node is to have, field by field: the role
    of an authority, the provider storage below the node's directory, and for
    the rest the settings of the chain. *)
Definition hosted_rpc : Rpc :=
  mkRpc (Some "127.0.0.1:9944"%string) None None
    (Some ["http://localhost:*"; "http://127.0.0.1:*"; "https://localhost:*"; "https://127.0.0.1:*";
           "https://polkadot.js.org"]%string) Auto None None None.
Definition hosted_node (storage : string) : NodeConfig :=
  mkNodeConfig 10 false
    (mkBase false Authority (KeepSome 256) ArchiveAll pkg_name (pkg_version +:+ "-" +:+ git_hash)
       hosted_rpc
       (mkNetwork true false false ["/ip6/::/tcp/30333"; "/ip4/0.0.0.0/tcp/30333"]%string [] false None None)
       (mkOffchainWorker true false) false [] None)
    (mkDsn (Some storage) ["/ip6/::/tcp/30433"; "/ip4/0.0.0.0/tcp/30433"]%string [] [] [] false
       300 150 100 150 15)
    None false None false ∅ None.
Definition dev_node (storage : string) : NodeConfig :=
  mkNodeConfig 10 false
    (mkBase true Authority KeepAll ArchiveAll pkg_name (pkg_version +:+ "-" +:+ git_hash)
       (mkRpc None None None None Auto None None None)
       (mkNetwork false true false [] [] true None None) (mkOffchainWorker false false) false [] None)
    (mkDsn (Some storage) ["/ip4/127.0.0.1/tcp/0"%string] [] [] [] true 300 150 100 150 15)
    None false None true ∅ None.
Definition mini_config (chain : Chain) (dir : string) : NodeConfig :=
  match chain with
  | Dev => dev_node (join (join dir "node") "provider_storage")
  | Gemini3f | Devnet => hosted_node (join (join dir "node") "provider_storage")
  end.

(** What it builds: the node in the directory [node] with the specification of
    the chain, and a farmer with one farm in the directory [plot], one percent
    of cache and the defaults for the rest. *)
Definition mini_node_built (spec_of : Chain -> Spec) (a : mini_args) (dir : string) : action :=
  NodeBuilt (mini_config (arg_chain a) dir) (join dir "node") (spec_of (arg_chain a)).
Definition mini_farmer_built (a : mini_args) (dir : string) : action :=
  FarmerBuilt (Farmer.mkConfig 10 655360 None None None None None None) (arg_reward_address a)
    [mkFarmDescription (join dir "plot") (arg_plot_size a)] 1.
End programs.

Section program_lemmas.
Context {NodeH FarmerH FarmH Spec Key AccountId Header Hash Info Solution : Type}.
Context `{EqDecision Key, EqDecision AccountId}.
Variable account_of : Key -> AccountId.
Variable header_hash : Header -> Hash.
Variable header_author : Header -> option Key.
Variables (pkg_name pkg_version git_hash : string).
Abbreviation E := (sdkE (NodeH := NodeH) (FarmerH := FarmerH) (FarmH := FarmH) (Spec := Spec) (Key := Key)
  (AccountId := AccountId) (Header := Header) (Hash := Hash) (Info := Info) (Solution := Solution)).
Abbreviation Action := (action (Spec := Spec) (Key := Key) (AccountId := AccountId) (Header := Header) (Info := Info) (Solution := Solution)).

(** *** Rules for the pieces of a program *)

Lemma always_panic {A} why (Q : list Action -> outcome A -> Prop) :
  Q [] (Panic why) -> always (E := E) (panic why) Q.
Proof. intros HQ. apply always_bind, always_call; [|by intros []]. by intros why' [= <-]. Qed.

Lemma always_unwrap_some {A} why (o : option A) (Q : list Action -> outcome A -> Prop) :
  (forall a, o = Some a -> Q [] (Ret a)) -> (o = None -> Q [] (Panic why)) -> always (E := E) (unwrap_some why o) Q.
Proof. destruct o; intros H1 H2; [by apply always_ret, H1|by apply always_panic, H2]. Qed.

Lemma always_unwrapped {A} why (e : E (result string A)) (Q : list Action -> outcome A -> Prop) :
  panics _ e = None -> (forall a, Q (observed _ e (Ok a)) (Ret a)) ->
  (forall err, Q (observed _ e (Err err)) (Panic why)) -> always (E := E) (unwrapped why e) Q.
Proof.
  intros Hp Hok Herr. apply always_bind, always_call; [by rewrite Hp|]. intros [a|err].
  - apply always_ret. rewrite app_nil_r. apply Hok.
  - apply always_panic. rewrite app_nil_r. apply Herr.
Qed.

Lemma always_try {A B} (t : itree E (result string A)) k (Q : list Action -> outcome (result string B) -> Prop) :
  always t (fun tr r => match r with
                    | Ret (Ok a) => always (k a) (fun tr' r' => Q (tr ++ tr') r')
                    | Ret (Err e) => Q tr (Ret (Err e))
                    | Panic why => Q tr (Panic why)
                    end) ->
  always (try t k) Q.
Proof.
  intros Ht. apply always_bind. eapply always_mono; [exact Ht|]. intros tr [[a|e]|why] HQ; [done| |done].
  apply always_ret. by rewrite app_nil_r.
Qed.

Lemma always_context {A} why (t : itree E (result string A)) (Q : list Action -> outcome (result string A) -> Prop) :
  always t (fun tr r => match r with
                    | Ret (Ok a) => Q tr (Ret (Ok a))
                    | Ret (Err e) => forall e', Q tr (Ret (Err e'))
                    | Panic why => Q tr (Panic why)
                    end) ->
  always (context why t) Q.
Proof.
  intros Ht. apply always_bind. eapply always_mono; [exact Ht|]. intros tr [[a|e]|w] HQ; [| |done].
  - apply always_ret. by rewrite app_nil_r.
  - apply always_ret. rewrite app_nil_r. apply HQ.
Qed.

Lemma always_log_all ms (Q : list Action -> outcome unit -> Prop) :
  Q (Logged <$> ms) (Ret tt) -> always (E := E) (log_all ms) Q.
Proof.
  revert Q. induction ms as [|m ms IH]; intros Q HQ; [by apply always_ret|].
  apply always_bind, always_call; [done|]. intros []. by apply IH.
Qed.

(** *** Observations of a trace *)

Lemma life_app (tr tr' : list Action) : life (tr ++ tr') = life tr ++ life tr'.
Proof. apply omap_app. Qed.
Lemma life_logged ms : life (Logged <$> ms : list Action) = [].
Proof. induction ms; cbn; [done|]. done. Qed.

Abbreviation due := (due_messages account_of header_author).

(** A trace whose reward messages are the due ones, whatever came before. *)
Definition accounted (key : Key) (tr : list Action) : Prop :=
  life tr = [] /\ forall h, reward_messages tr = due key h tr.

Lemma reward_messages_of_events key events :
  reward_messages (Logged <$> omap (event_message account_of key) events : list Action) =
  omap (event_message account_of key) events.
Proof.
  unfold reward_messages.
  induction events as [|[reward voter|reward author|voter height|] events IH]; csimpl; [done|..|done];
    by case_decide; csimpl; rewrite IH.
Qed.
Lemma reward_messages_of_author key h :
  reward_messages (Logged <$> author_message header_author key h : list Action) =
  author_message header_author key h.
Proof. unfold author_message. repeat case_match; done. Qed.

Lemma due_logged key h ms (tr : list Action) : due key h ((Logged <$> ms) ++ tr) = due key h tr.
Proof. by induction ms. Qed.

Lemma rewards_sub_accounted (n : NodeH) key :
  always (rewards_sub account_of header_hash header_author n key : itree E _) (fun tr r =>
    accounted key tr /\ exists x, r = Ret x).
Proof.
  assert (Hnil : accounted key []) by done.
  apply always_bind, always_call; [done|]. intros []; [apply always_ret; eauto|].
  apply always_bind, always_call; [done|]. intros [[]|e]; [|apply always_ret; eauto]. cbn.
  apply (always_forever _ (fun _ tr r => accounted key tr /\ exists x, r = Ret x)). intros _.
  apply always_bind, always_call; [done|]. intros []; [apply always_ret; cbn; eauto|].
  apply always_bind, always_call; [done|]. intros [h|]; [|apply always_ret; cbn; eauto].
  apply always_bind, always_call; [done|]. intros []; [apply always_ret; cbn; eauto|].
  apply always_bind, always_call; [done|]. intros [events|e]; [|apply always_ret; cbn; eauto].
  apply always_bind, always_log_all, always_bind, always_log_all, always_ret. cbn.
  intros tr r [[Hlife Hdue] Hr]. split; [|done]. unfold accounted, life, reward_messages in *. rewrite app_nil_r.
  split.
  - csimpl. rewrite !omap_app, Hlife, app_nil_r. fold (life (Logged <$> omap (event_message account_of key) events : list Action)).
    fold (life (Logged <$> author_message header_author key h : list Action)). by rewrite !life_logged.
  - intros h'. csimpl. rewrite <-!(assoc_L app), !omap_app, !due_logged, (Hdue (Some h)).
    f_equal; [apply reward_messages_of_events|]. f_equal. apply reward_messages_of_author.
Qed.

(** The messages the program computes are those its specification calls for. *)
Lemma event_messages_called_for key es :
  events_call_for (Header := Header) (Info := Info) (Solution := Solution) account_of key es
    (omap (event_message account_of key) es).
Proof.
  induction es as [|[reward who|reward who|who height|] es IH]; cbn; [constructor|..|by apply ecf_of_others];
    (destruct (decide (who = account_of key)) as [->|]; cbn;
      [by constructor|by apply ecf_of_others; [congruence..|]]).
Qed.

Lemma author_message_called_for key h :
  header_calls_for (Info := Info) (Solution := Solution) header_author key (Some h)
    (author_message header_author key h).
Proof.
  unfold author_message. destruct (header_author h) as [author|] eqn:Ha; [|constructor; congruence].
  case_decide as Hk; [subst|]; constructor; congruence.
Qed.

Lemma due_called_for key header (tr : list Action) :
  run_calls_for account_of header_author key header tr (due key header tr).
Proof.
  revert header. induction tr as [|act tr IH]; intros header; [constructor|].
  destruct act; cbn; try (by apply rcf_other); [by apply rcf_head|].
  apply rcf_events; [apply event_messages_called_for| |done].
  destruct header; [apply author_message_called_for|constructor].
Qed.

Lemma mini_node_config chain dir :
  node_config pkg_name pkg_version git_hash (mini_node chain (join dir "node")) =
  mini_config pkg_name pkg_version git_hash chain dir.
Proof. by destruct chain. Qed.

(** How the mini farmer ends, and what it has said. *)
Definition ends key (node farmer : Action) (tr : list Action) (r : outcome (result string unit)) : Prop :=
  mini_ends node farmer (life tr) r /\ reward_messages tr = due key None tr.

Lemma due_app_quiet key h (tr tr' : list Action) :
  (forall h, due key h tr' = []) -> due key h (tr ++ tr') = due key h tr.
Proof.
  intros Hq. revert h. induction tr as [|act tr IH]; intros h0; [apply Hq|].
  destruct act; cbn; by rewrite IH.
Qed.

(** The last steps: [front] is the trace so far. *)
Lemma close_both key built_node built_farmer (node : NodeH) (farmer : FarmerH) (front : list Action) :
  life front = [built_node; built_farmer] -> reward_messages front = due key None front ->
  always (try (context "Failed to close node" (call (CloseNode node))) (fun _ =>
      try (context "Failed to close farmer" (call (CloseFarmer farmer))) (fun _ => mret (Ok tt))) : itree E _)
    (fun tr r => ends key built_node built_farmer (front ++ tr) r).
Proof.
  intros Hl Hr.
  assert (Hq : forall tr r, mini_ends built_node built_farmer ([built_node; built_farmer] ++ life tr) r ->
    reward_messages tr = [] -> (forall h, due key h tr = []) -> ends key built_node built_farmer (front ++ tr) r).
  { intros tr r Hends Hm Hd. split; [by rewrite life_app, Hl|]. rewrite due_app_quiet by done.
    unfold reward_messages in *. by rewrite omap_app, Hm, app_nil_r. }
  apply always_try, always_context, always_call; [done|]. intros [[]|e]; [|intros e'; apply Hq; [by constructor|done..]].
  apply always_try, always_context, always_call; [done|]. intros [[]|e].
  - apply always_ret. apply Hq; [by apply (both_closed _ _ true "")|done..].
  - intros e'. apply Hq; [by apply (both_closed _ _ false)|done..].
Qed.

Lemma mini_farmer_ends spec_of (a : mini_args (Key := Key)) :
  always (mini_farmer account_of header_hash header_author pkg_name pkg_version git_hash spec_of a : itree E _)
    (fun tr r => exists dir, (forall p, arg_base_path a = Some p -> dir = p) /\
     ends (arg_reward_address a) (mini_node_built pkg_name pkg_version git_hash spec_of a dir)
       (mini_farmer_built a dir) tr r).
Proof.
  set (key := arg_reward_address a).
  apply always_bind.
  assert (Hdir : always (match arg_base_path a with
                     | Some p => mret p
                     | None => unwrapped "Failed to create temporary directory" TempDir
                     end : itree E _)
    (fun tr r => tr = [] /\ match r with
                 | Ret dir => forall p, arg_base_path a = Some p -> dir = p
                 | Panic _ => arg_base_path a = None
                 end)).
  { destruct (arg_base_path a) as [p|]; [apply always_ret; by split; [|intros ? [= ->]]|].
    by apply always_unwrapped. }
  eapply always_mono; [exact Hdir|]. intros tr [dir|why] [-> Hp]; [|exists ""%string; split; [by rewrite Hp|by split; constructor]].
  cbn zeta. set (node_built := mini_node_built pkg_name pkg_version git_hash spec_of a dir : Action).
  set (farmer_built := mini_farmer_built a dir : Action).
  eapply always_mono with (Q := ends key node_built farmer_built); [|by eauto].
  rewrite mini_node_config.
  apply always_try, always_call; [done|]. intros [node|e]; [|by split; constructor].
  apply always_bind, always_call; [done|]. intros [].
  { apply always_bind, always_call; [done|]. intros []. apply always_context, always_call; [done|].
    intros [[]|e]; [|intros e']; (split; [|done]); [by apply (interrupted_sync _ _ true "")|by apply (interrupted_sync _ _ false)]. }
  apply always_try.
  assert (Hsync : always (match arg_chain a with Dev => mret (Ok tt) | _ => call (SyncNode node) end : itree E _)
    (fun tr r => tr = [] /\ exists x : result string unit, r = Ret x)).
  { destruct (arg_chain a); [apply always_call; eauto..|apply always_ret; eauto]; done. }
  eapply always_mono; [exact Hsync|]. intros tr ? [-> [[[]|e] ->]]; [|by split; constructor].
  apply always_bind, always_call; [done|]. intros [].
  apply always_try, always_call; [done|]. intros [farmer|e]; [|by split; constructor].
  apply always_bind, always_call; [done|]. intros farms.
  apply always_bind, always_unwrap_some; [intros farm _|intros _; by split; constructor].
  apply always_bind, always_call; [done|]. intros []. apply always_bind, always_call; [done|]. intros [].
  apply always_bind. eapply always_mono; [apply rewards_sub_accounted|]. intros tr ? [[Hlife Hdue] [ended ->]].
  apply always_bind.
  assert (Hlog : always (match ended with None => call (Log Exitting) | Some _ => mret tt end : itree E _)
    (fun tr r => r = Ret tt /\ life tr = [] /\ reward_messages tr = [] /\ forall h, due key h tr = [])).
  { destruct ended; [by apply always_ret|]. by apply always_call; [|intros []]. }
  eapply always_mono; [exact Hlog|]. intros tr' ? (-> & Hl' & Hr' & Hd').
  eapply always_mono; [apply (close_both key node_built farmer_built node farmer
    ([node_built; Logged NodeWasSynced; farmer_built] ++ tr ++ tr'))|].
  - rewrite !life_app, Hlife, Hl'. done.
  - rewrite (assoc_L app), due_app_quiet by done. unfold reward_messages in *. rewrite !omap_app, Hr', app_nil_r. csimpl.
    rewrite (Hdue None). done.
  - intros tr2 r Hends. cbn. cbn in Hends. by rewrite <-(assoc_L app) in Hends.
Qed.

(** C16: however the environment answers, a run of the mini farmer ends in one of
    the ways of [mini_ends]: nothing was built; the node could not be synced or
    the farmer not be built, and the node is dropped unclosed; a signal during
    the sync closes the node; after farming the node is closed and then the
    farmer, which stays unclosed when closing the node fails.  The result is an
    error exactly when a step failed.  Node and farmer have the configuration,
    directory, chain specification, reward address and farm of [mini_config],
    [mini_node_built] and [mini_farmer_built].  The messages about rewards are, in
    order, those the finalized blocks and their events call for
    ([run_calls_for]). *)
Theorem mini_farmer_runs spec_of (a : mini_args (Key := Key)) n (tr : list Action) r :
  runs n (mini_farmer account_of header_hash header_author pkg_name pkg_version git_hash spec_of a
    : itree E _) tr r ->
  exists dir, (forall p, arg_base_path a = Some p -> dir = p) /\
  mini_ends (mini_node_built pkg_name pkg_version git_hash spec_of a dir) (mini_farmer_built a dir) (life tr) r /\
  run_calls_for account_of header_author (arg_reward_address a) None tr (reward_messages tr).
Proof.
  intros Hrun. destruct (mini_farmer_ends spec_of a n tr r Hrun) as (dir & Hdir & Hends & ->).
  exists dir. split; [done|]. split; [done|]. apply due_called_for.
Qed.

(** What the complete example does when nothing fails. *)
Definition complete_life (spec : Spec) (key : Key) (plots : list FarmDescription) : list Action :=
  [NodeBuilt (complete_config pkg_name pkg_version git_hash) "node" spec;
   FarmerBuilt (configuration Builder_default) key plots 1; FarmerClosed true; NodeClosed true;
   NodeBuilt (restarted_config pkg_name pkg_version git_hash) "node" spec;
   FarmerBuilt (configuration Builder_default) key plots 1; FarmerClosed true; NodeClosed true]
  ++ ((fun d => FarmWiped d true) <$> plots) ++ [NodeWiped true].

(** A step that fails panics, after a part of what was to be done. *)
Ltac panicked := split; [eexists; cbn; reflexivity|by intros ?].
Ltac program_step :=
  first
    [ apply always_bind, always_call; [done|intros ?]
    | apply always_bind, always_unwrapped; [done|intros ?|intros ?; panicked]
    | apply always_bind, always_unwrap_some; [intros ? _|intros _; panicked] ].

(** C34: a run of the complete example that is not stopped by a panic builds node
    and farmer, closes the farmer before the node, does so a second time with
    the configuration that names no node, wipes the farms and then the node.  A
    run that panics has done the first part of this, in this order, and nothing
    else: never is a farmer left open while its node is closed. *)
Theorem complete_runs dev_spec key0 gb n (tr : list Action) r :
  runs n (complete pkg_name pkg_version git_hash dev_spec key0 gb : itree E _) tr r ->
  succeeded tr `prefix_of` complete_life dev_spec key0 [mkFarmDescription "plot" (gb 10)] /\
  (r = Ret tt -> life tr = complete_life dev_spec key0 [mkFarmDescription "plot" (gb 10)]).
Proof.
  revert n tr r. change (always (complete pkg_name pkg_version git_hash dev_spec key0 gb : itree E _) (fun tr r =>
    succeeded tr `prefix_of` complete_life dev_spec key0 [mkFarmDescription "plot" (gb 10)] /\
    (r = Ret tt -> life tr = complete_life dev_spec key0 [mkFarmDescription "plot" (gb 10)]))).
  unfold complete. cbn zeta. repeat program_step.
  apply always_bind, always_bind, always_unwrapped; [done|intros []|intros ?; panicked].
  apply always_ret. program_step. apply always_ret. cbn. split; [by exists []|done].
Qed.

(** The share of the plot [sync] pledges: nine tenths, unless the product does
    not fit in 64 bits, which panics with overflow checks and pledges less
    without. *)
Lemma pledged_share_spec p plot_size : in_u 64 plot_size ->
  (plot_size * 9 < 2 ^ 64 -> pledged_share p plot_size = Ret (plot_size * 9 / 10)) /\
  (2 ^ 64 <= plot_size * 9 ->
     pledged_share Debug plot_size = Panic "arithmetic overflow" /\
     exists s, pledged_share Release plot_size = Ret s /\ s < plot_size * 9 / 10).
Proof.
  intros Hs. unfold in_u in Hs. unfold pledged_share, mul_u. split; intros Ho.
  - by rewrite arith_exact by (unfold in_u; lia).
  - split; [unfold arith; by rewrite decide_False by (unfold in_u; lia)|].
    rewrite arith_release by lia. eexists. split; [done|].
    assert (Hc : cast 64 (plot_size * 9) <= plot_size * 9 - 2 ^ 64).
    { unfold cast. pose proof (Z.mod_eq (plot_size * 9) (2 ^ 64) ltac:(lia)).
      pose proof (Z.div_le_lower_bound (plot_size * 9) (2 ^ 64) 1 ltac:(lia) ltac:(lia)). nia. }
    apply Z.le_lt_trans with ((plot_size * 9 - 2 ^ 64) / 10); [by apply Z.div_le_mono; lia|].
    apply Z.div_lt_upper_bound; [lia|]. pose proof (Z.mul_succ_div_gt (plot_size * 9) 10). lia.
Qed.
End program_lemmas.

(** ** Witnesses *)

Section programs_demo.
Abbreviation DemoE := (sdkE (NodeH := unit) (FarmerH := unit) (FarmH := unit) (Spec := unit) (Key := Z)
  (AccountId := Z) (Header := Z) (Hash := Z) (Info := unit) (Solution := unit)).
Abbreviation DemoAction := (action (Spec := unit) (Key := Z) (AccountId := Z) (Header := Z) (Info := unit) (Solution := unit)).

(** An environment in which every call succeeds; its state are the blocks still
    to come. *)
Definition demo_answer (A : Type) (e : DemoE A) (s : list Z) : option (A * list Z) :=
  match e in sdkE A return option (A * list Z) with
  | Panicked _ => None
  | CtrlC => Some (false, s)
  | Log _ => Some (tt, s)
  | TempDir => Some (Ok "/tmp"%string, s)
  | ReadSpec _ => Some (Ok tt, s)
  | WriteSpec _ _ => Some (Ok tt, s)
  | BuildNode _ _ _ => Some (Ok tt, s)
  | SyncNode _ => Some (Ok tt, s)
  | CloseNode _ => Some (Ok tt, s)
  | WipeNode _ => Some (Ok tt, s)
  | GetNodeInfo _ => Some (Ok tt, s)
  | ListenAddresses _ => Some (Ok [], s)
  | SubscribeHeads _ _ => Some (Ok tt, s)
  | NextHead _ => Some (head s, tail s)
  | GetEvents _ hash =>
      Some (Ok (if decide (hash = 1) then [VoteReward 5 1007; OtherEvent; FarmerVote 1007 3; BlockReward 9 1] else []), s)
  | BuildFarmer _ _ _ _ _ => Some (Ok tt, s)
  | CloseFarmer _ => Some (Ok tt, s)
  | GetFarmerInfo _ => Some (Ok tt, s)
  | IterFarms _ => Some ([tt], s)
  | SubscribeProgress _ => Some (tt, s)
  | NextProgress _ => Some (None, s)
  | SubscribeSolutions _ => Some (tt, s)
  | NextSolution _ => Some (None, s)
  | WipeFarm _ => Some (Ok tt, s)
  | Spawn _ => Some (tt, s)
  end.

Definition demo_author (h : Z) : option Z := if decide (h = 2) then Some 7 else None.

Definition demo_mini : itree DemoE (result string unit) :=
  mini_farmer (fun k => k + 1000) id demo_author "sdk" "0" "0" (fun _ => tt) (mkMiniArgs Dev 7 None 1000).

Abbreviation demo_mini_node := (mini_node_built (Key := Z) (AccountId := Z) (Header := Z) (Info := unit)
  (Solution := unit) "sdk" "0" "0" (fun _ => tt) (mkMiniArgs Dev 7 None 1000)).
Abbreviation demo_mini_farmer := (mini_farmer_built (Spec := unit) (AccountId := Z) (Header := Z) (Info := unit)
  (Solution := unit) (mkMiniArgs Dev 7 None 1000)).

Lemma demo_mini_run :
  exists n (tr : list DemoAction), runs n demo_mini tr (Ret (Ok tt)) /\
  reward_messages tr = [ReceivedReward 5; VoteCounted 3; AuthoredBlock] /\
  succeeded tr = [demo_mini_node "/tmp"; demo_mini_farmer "/tmp"; NodeClosed true; FarmerClosed true].
Proof.
  destruct (play demo_answer 100 demo_mini [1; 2]) as [[tr r]|] eqn:Hplay; [|by vm_compute in Hplay].
  destruct (play_runs _ _ _ _ _ _ Hplay) as (n & Hn). vm_compute in Hplay. injection Hplay as Htr Hr.
  exists n, tr. rewrite <-Hr in Hn. split; [exact Hn|]. by rewrite <-Htr.
Qed.

Lemma mini_farmer_runs_witness :
  exists dir tr, mini_ends (demo_mini_node dir) (demo_mini_farmer dir) (life (tr : list DemoAction)) (Ret (Ok tt)) /\
  run_calls_for (fun k => k + 1000) demo_author 7 None tr [ReceivedReward 5; VoteCounted 3; AuthoredBlock].
Proof.
  destruct demo_mini_run as (n & tr & Hrun & Hmsg & _).
  destruct (mini_farmer_runs _ _ _ _ _ _ _ _ _ _ _ Hrun) as (dir & _ & Hends & Hcall).
  exists dir, tr. rewrite Hmsg in Hcall. split; [exact Hends|exact Hcall].
Defined.

Definition demo_complete : itree DemoE unit := complete "sdk" "0" "0" tt 0 (fun n => n * 1000).

Lemma demo_complete_run : exists n (tr : list DemoAction), runs n demo_complete tr (Ret tt).
Proof.
  destruct (play demo_answer 100 demo_complete []) as [[tr r]|] eqn:Hplay; [|by vm_compute in Hplay].
  destruct (play_runs _ _ _ _ _ _ Hplay) as (n & Hn). vm_compute in Hplay. injection Hplay as _ Hr.
  exists n, tr. by rewrite <-Hr in Hn.
Qed.

Lemma complete_runs_witness :
  exists tr, life (tr : list DemoAction) =
    complete_life "sdk" "0" "0" tt 0 [mkFarmDescription "plot" 10000].
Proof.
  destruct demo_complete_run as (n & tr & Hrun). exists tr.
  exact (proj2 (complete_runs "sdk" "0" "0" tt 0 (fun n => n * 1000) n tr (Ret tt) Hrun) eq_refl).
Defined.
End programs_demo.
