(* ===== verification/Rpc.v ===== *)
(** The node's RPC handle (utils/src/lib.rs, [Rpc]): subscriptions and
    events.  A subscription is a task that forwards notifications into a bounded
    channel; it is modelled as a transition system with its environment (the
    RPC module that notifies, the consumer that reads).  jsonrpsee's RPC module,
    the client traits generated for it and the SCALE codec are parameters. *)
From S2P Require Import Prelude Node.

#[local] Open Scope nat_scope.

(** ** Storage *)

Record StorageKey := mkStorageKey { storage_key : list Z }.

Section storage.
(** [sp_core_hashing::twox_128] of a name, and [state_getStorage]. *)
Context {Hash Event : Type} (twox_128 : string -> list Z).
Context (storage : list Z -> option Hash -> result string (option (list Z))).
Context (decode_all : list Z -> option (list Event)).

Definition StorageKey_new (keys : list string) : StorageKey := mkStorageKey (keys ≫= twox_128).
Definition StorageKey_events : StorageKey := StorageKey_new ["System"; "Events"]%string.

Definition get_storage (key : StorageKey) (block : option Hash) : result string (option (list Z)) :=
  map_err (String.append "Failed to fetch storage entry: ") (storage (storage_key key) block).

Definition Rpc_get_events (block : option Hash) : result string (list Event) :=
  data ← map_err (String.append "Failed to get events from storage: ") (get_storage StorageKey_events block);
  match data with
  | Some events => ok_or "Failed to decode events"%string (decode_all events)
  | None => Ok []
  end.
End storage.

(** ** Subscriptions *)

Section subscription.
Context {A : Type}.

Inductive forwarder := Receiving | Sending (item : A) | Flushing | ForwarderDone.

(** [arrived]: every notification of the module so far; [waiting]: those the
    forwarder has not received yet. *)
Record subscription := mkSubscription {
  arrived : list (result string A);
  waiting : list (result string A);
  source_closed : bool;
  task : forwarder;
  channel : list A;
  consumer_gone : bool;
  consumed : list A;
  stream_ended : bool;
}.

(** [mpsc::channel(10)] of the futures crate: the buffer and a slot per sender. *)
Definition channel_capacity : nat := 10 + 1.

Definition subscribed : subscription := mkSubscription [] [] false Receiving [] false [] false.

(** One turn of the forwarding task; [None]: it waits.  [SinkExt::send] sends the
    item and flushes: a sender that has used its own slot waits until the
    consumer reads; when the consumer is gone there is nothing to flush. *)
Definition forward (s : subscription) : option subscription :=
  let '(mkSubscription arr wait closed t chan gone got ended) := s in
  match t with
  | Receiving =>
      match wait with
      | Ok item :: wait' => Some (mkSubscription arr wait' closed (Sending item) chan gone got ended)
      | Err _ :: wait' => Some (mkSubscription arr wait' closed ForwarderDone chan gone got ended)
      | [] => if closed then Some (mkSubscription arr [] closed ForwarderDone chan gone got ended) else None
      end
  | Sending item =>
      if gone then Some (mkSubscription arr wait closed ForwarderDone chan gone got ended)
      else if decide (length chan < channel_capacity)
           then Some (mkSubscription arr wait closed Flushing (chan ++ [item]) gone got ended)
           else None
  | Flushing =>
      if gone || bool_decide (length chan < channel_capacity)
      then Some (mkSubscription arr wait closed Receiving chan gone got ended)
      else None
  | ForwarderDone => None
  end.

(** The consumer polls the stream; it ends when the sender is gone. *)
Definition consume (s : subscription) : option subscription :=
  let '(mkSubscription arr wait closed t chan gone got ended) := s in
  if gone || ended then None
  else match chan with
       | item :: chan' => Some (mkSubscription arr wait closed t chan' gone (got ++ [item]) ended)
       | [] => match t with
               | ForwarderDone => Some (mkSubscription arr wait closed t [] gone got true)
               | _ => None
               end
       end.

Inductive sub_step : subscription -> subscription -> Prop :=
| sub_forward s s' : forward s = Some s' -> sub_step s s'
| sub_consume s s' : consume s = Some s' -> sub_step s s'
| sub_arrive r arr wait t chan gone got ended :
    sub_step (mkSubscription arr wait false t chan gone got ended)
      (mkSubscription (arr ++ [r]) (wait ++ [r]) false t chan gone got ended)
| sub_close arr wait t chan gone got ended :
    sub_step (mkSubscription arr wait false t chan gone got ended)
      (mkSubscription arr wait true t chan gone got ended)
| sub_leave arr wait closed t chan got ended :
    sub_step (mkSubscription arr wait closed t chan false got ended)
      (mkSubscription arr wait closed t chan true got ended).

(** The notifications before the first error. *)
Fixpoint until_error (l : list (result string A)) : list A :=
  match l with Ok a :: l' => a :: until_error l' | _ => [] end.

Definition in_flight (t : forwarder) : list A := match t with Sending a => [a] | _ => [] end.

(** *** Properties *)

Fixpoint all_ok (l : list (result string A)) : bool :=
  match l with [] => true | Ok _ :: l' => all_ok l' | Err _ :: _ => false end.

Lemma until_error_app l1 l2 :
  until_error (l1 ++ l2) = until_error l1 ++ (if all_ok l1 then until_error l2 else []).
Proof. induction l1 as [|[a|e] l1 IH]; cbn; [done| |done]. by rewrite IH. Qed.

Lemma all_ok_app l1 l2 : all_ok (l1 ++ l2) = all_ok l1 && all_ok l2.
Proof. by induction l1 as [|[a|e] l1 IH]. Qed.

(** [read]: what the forwarder has received. *)
Definition sub_inv (s : subscription) : Prop :=
  exists read, arrived s = read ++ waiting s /\
  length (channel s) <= channel_capacity /\
  (stream_ended s = true -> channel s = [] /\ task s = ForwarderDone) /\
  match task s with
  | ForwarderDone =>
      consumer_gone s = false ->
      until_error read = consumed s ++ channel s /\
      (all_ok read = false \/ source_closed s = true /\ waiting s = [])
  | t => all_ok read = true /\
         (consumer_gone s = false -> until_error read = consumed s ++ channel s ++ in_flight t)
  end.

Lemma forward_inv s s' : sub_inv s -> forward s = Some s' -> sub_inv s'.
Proof.
  destruct s as [arr wait closed t chan gone got ended]. unfold sub_inv. cbn.
  intros (read & -> & Hcap & Hend & Ht). destruct t as [|item| |]; [| | |done].
  - destruct Ht as [Hok Hread]. destruct wait as [|[item|e] wait].
    + destruct closed; [|done]. intros [= <-]. exists read. cbn. split; [done|].
      split; [done|]. split; [naive_solver|]. intros Hg. rewrite (Hread Hg), app_nil_r. auto.
    + intros [= <-]. exists (read ++ [Ok item]). cbn. rewrite <-app_assoc, all_ok_app, until_error_app, Hok.
      split; [done|]. split; [done|]. split; [naive_solver|]. split; [done|].
      intros Hg. rewrite (Hread Hg), app_nil_r. cbn. by rewrite <-app_assoc.
    + intros [= <-]. exists (read ++ [Err e]). cbn. rewrite <-app_assoc, all_ok_app, until_error_app, Hok.
      split; [done|]. split; [done|]. split; [naive_solver|].
      intros Hg. rewrite (Hread Hg), !app_nil_r. auto.
  - destruct Ht as [Hok Hread]. destruct gone.
    + intros [= <-]. exists read. cbn. split; [done|]. split; [done|]. split; [naive_solver|done].
    + case_decide as Hlen; [|done]. intros [= <-]. exists read. cbn. rewrite length_app. cbn.
      split; [done|]. split; [lia|]. split; [naive_solver|]. split; [done|].
      intros _. rewrite (Hread eq_refl). by rewrite app_nil_r.
  - destruct (gone || _); [|done]. intros [= <-]. exists read. cbn. split; [done|]. split; [done|].
    split; [naive_solver|done].
Qed.

Lemma consume_inv s s' : sub_inv s -> consume s = Some s' -> sub_inv s'.
Proof.
  destruct s as [arr wait closed t chan gone got ended]. unfold sub_inv. cbn.
  intros (read & -> & Hcap & Hend & Ht). destruct gone, ended; try done. cbn.
  destruct chan as [|item chan].
  - destruct t; [done|done|done|]. intros [= <-]. exists read. cbn. auto.
  - intros [= <-]. exists read. cbn in *. split; [done|]. split; [lia|]. split; [done|].
    assert (Happ : forall l, got ++ item :: l = (got ++ [item]) ++ l) by (intros; by rewrite <-app_assoc).
    destruct t; cbn in *; rewrite <-?Happ; auto.
Qed.

Lemma sub_inv_reachable s : rtc sub_step subscribed s -> sub_inv s.
Proof.
  intros Hs. refine (invariant_rtc sub_step sub_inv _ _ _ Hs _).
  - intros s1 s2 Hinv Hstep. destruct Hstep as [s1 s2 Hf|s1 s2 Hc|r arr wait t chan gone got ended
      |arr wait t chan gone got ended|arr wait closed t chan got ended].
    + by eapply forward_inv.
    + by eapply consume_inv.
    + destruct Hinv as (read & Harr & Hcap & Hend & Ht). exists read. cbn in *. subst arr.
      split; [by rewrite app_assoc|]. split; [done|]. split; [done|].
      destruct t; try done. intros Hg. destruct (Ht Hg) as [? [?|[? _]]]; [auto|done].
    + destruct Hinv as (read & Harr & Hcap & Hend & Ht). exists read. cbn in *.
      split; [done|]. split; [done|]. split; [done|].
      destruct t; try done. intros Hg. destruct (Ht Hg) as [? [?|[? _]]]; [auto|done].
    + destruct Hinv as (read & Harr & Hcap & Hend & Ht). exists read. cbn in *.
      split; [done|]. split; [done|]. split; [done|]. destruct t; naive_solver.
  - exists []. cbn. split; [done|]. split; [lia|]. done.
Qed.

(** C28: what a consumer that stays has read is always a prefix, in order and
    without gaps, of the notifications before the first error; at most eleven
    items wait in the channel, however slow it is; and when the stream ends it
    has read all of them, because an error was received or the source closed. *)
Theorem subscription_in_order (s : subscription) :
  rtc sub_step subscribed s -> consumer_gone s = false ->
  consumed s `prefix_of` until_error (arrived s) /\
  length (channel s) <= channel_capacity /\
  (stream_ended s = true ->
     consumed s = until_error (arrived s) /\ (all_ok (arrived s) = false \/ source_closed s = true)).
Proof.
  intros (read & Harr & Hcap & Hend & Ht)%sub_inv_reachable Hg. rewrite Harr, until_error_app, all_ok_app.
  split; [|split; [done|]].
  - destruct (task s); [destruct Ht as [_ Ht]..|destruct (Ht Hg) as [Hread _]];
      [rewrite (Ht Hg)..|rewrite Hread]; rewrite <-?app_assoc; by apply prefix_app_r.
  - intros [Hc Hdone]%Hend. rewrite Hdone in Ht. destruct (Ht Hg) as [Hread Hwhy].
    rewrite Hc, app_nil_r in Hread. rewrite <-Hread. destruct Hwhy as [Hbad|[Hcl Hw]].
    + rewrite Hbad. cbn. rewrite app_nil_r. auto.
    + rewrite Hw. cbn. split; [by destruct (all_ok read); rewrite app_nil_r|auto].
Qed.

(** Work the task and the consumer still have, once no notification arrives. *)
Definition sub_work (s : subscription) : nat :=
  4 * length (waiting s) +
  match task s with Receiving => 1 | Flushing => 2 | Sending _ => 4 | ForwarderDone => 0 end +
  length (channel s) + (if stream_ended s then 0 else 1).

Definition drain_step (s s' : subscription) : Prop := forward s = Some s' \/ consume s = Some s'.

Lemma drain_work s s' : drain_step s s' -> sub_work s' < sub_work s.
Proof.
  destruct s as [arr wait closed t chan gone got ended]. intros [Hf|Hc].
  - cbn in Hf. destruct t as [|item| |]; [| | |done].
    + destruct wait as [|[a|e] wait]; [destruct closed; [|done]|..]; injection Hf as <-; unfold sub_work; cbn; lia.
    + destruct gone; [injection Hf as <-; unfold sub_work; cbn; lia|]. case_decide; [|done].
      injection Hf as <-. unfold sub_work. cbn. rewrite length_app. cbn. lia.
    + destruct (gone || _); [|done]. injection Hf as <-. unfold sub_work. cbn. lia.
  - cbn in Hc. destruct gone, ended; try done. cbn in Hc. destruct chan as [|item chan].
    + destruct t; try done. injection Hc as <-. unfold sub_work. cbn. lia.
    + injection Hc as <-. unfold sub_work. cbn. lia.
Qed.

(** A subscription whose source closed is never stuck before its stream ends. *)
Lemma drain_not_stuck s : source_closed s = true -> consumer_gone s = false -> stream_ended s = false ->
  exists s', drain_step s s'.
Proof.
  destruct s as [arr wait closed t chan gone got ended]. cbn. intros -> -> ->. unfold drain_step. cbn.
  destruct chan as [|item chan]; [|eauto]. destruct t as [|item| |]; [|eauto..].
  destruct wait as [|[a|e] wait]; eauto.
Qed.

Lemma drain_keeps s s' : drain_step s s' ->
  source_closed s' = source_closed s /\ consumer_gone s' = consumer_gone s /\ arrived s' = arrived s.
Proof.
  destruct s as [arr wait closed t chan gone got ended].
  intros [H|H]; cbn in H; repeat first [case_decide|destruct_match]; simplify_eq; done.
Qed.

(** C39: once the source has closed, the forwarding task and a consumer that
    keeps polling bring the stream to its end, in boundedly many steps, with
    every notification before the first error read. *)
Theorem subscription_drains (s : subscription) :
  rtc sub_step subscribed s -> source_closed s = true -> consumer_gone s = false ->
  (forall n s', nsteps drain_step n s s' -> n <= sub_work s) /\
  exists s', rtc drain_step s s' /\ stream_ended s' = true /\ consumed s' = until_error (arrived s).
Proof.
  intros Hs Hclosed Hg. split.
  - intros n s' Hn. pose proof (measure_nsteps drain_step sub_work n s s' drain_work Hn). lia.
  - remember (sub_work s) as w eqn:Hw. revert s Hs Hclosed Hg Hw.
    induction w as [w IH] using lt_wf_ind. intros s Hs Hclosed Hg ->.
    destruct (stream_ended s) eqn:Hend.
    + exists s. split; [done|]. split; [done|].
      destruct (sub_inv_reachable s Hs) as (read & Harr & _ & Hfin & Ht).
      destruct (Hfin Hend) as [Hc Hdone]. rewrite Hdone in Ht. destruct (Ht Hg) as [Hread Hwhy].
      rewrite Hc, app_nil_r in Hread. rewrite Harr, until_error_app, <-Hread.
      destruct Hwhy as [-> | [_ ->]]; [|destruct (all_ok read)]; by rewrite app_nil_r.
    + destruct (drain_not_stuck s Hclosed Hg Hend) as [s1 Hstep].
      destruct (drain_keeps s s1 Hstep) as (Hc1 & Hg1 & Ha1).
      destruct (IH (sub_work s1)) with (s := s1) as (s' & Hrun & Hfin); [by apply drain_work|..].
      * eapply rtc_r; [done|]. destruct Hstep; [by apply sub_forward|by apply sub_consume].
      * by rewrite Hc1.
      * by rewrite Hg1.
      * done.
      * exists s'. split; [by eapply rtc_l|]. by rewrite <-Ha1.
Qed.
End subscription.
Arguments subscription : clear implicits.
Arguments forwarder : clear implicits.

(** [stream.filter_map(|r| ready(r.ok()))] over a decoding subscription: a
    notification that does not decode is skipped. *)
Definition decoded {A B} (decode : A -> option B) (items : list A) : list B := omap decode items.

(** [Node::subscribe_new_heads] and [subscribe_finalized_heads]. *)
Definition subscribe_heads {A Hash PreDigest} (decode : A -> option (@Header Hash))
    (hash : @Header Hash -> Hash) (pre_digest : list Z -> option PreDigest) (items : list A)
    : outcome (list BlockHeader) :=
  mapM (BlockHeader_from hash pre_digest) (decoded decode items).

(** ** Witnesses *)

Section rpc_demo.

(** Two notifications, an error, one more; everything forwarded and read. *)
Definition demo_arrived : subscription Z :=
  mkSubscription [Ok 1; Ok 2; Err "lagged"%string; Ok 3]%Z [Ok 1; Ok 2; Err "lagged"%string; Ok 3]%Z true
    Receiving [] false [] false.

Lemma demo_arrived_reachable : rtc sub_step subscribed demo_arrived.
Proof.
  eapply rtc_l; [apply (sub_arrive (Ok 1%Z))|]. eapply rtc_l; [apply (sub_arrive (Ok 2%Z))|].
  eapply rtc_l; [apply (sub_arrive (Err "lagged"%string))|].
  eapply rtc_l; [apply (sub_arrive (Ok 3%Z))|]. eapply rtc_l; [apply sub_close|]. reflexivity.
Qed.

Lemma subscription_in_order_witness : consumed demo_arrived `prefix_of` [1; 2]%Z.
Proof. exact (proj1 (subscription_in_order demo_arrived demo_arrived_reachable eq_refl)). Defined.

Lemma subscription_drains_witness :
  exists s', rtc drain_step demo_arrived s' /\ consumed s' = [1; 2]%Z.
Proof.
  destruct (proj2 (subscription_drains demo_arrived demo_arrived_reachable eq_refl eq_refl))
    as (s' & Hrun & _ & Hc).
  exists s'. split; [exact Hrun|]. rewrite Hc. reflexivity.
Defined.
End rpc_demo.
