(* ===== verification/Handles.v ===== *)
(** The handles of a running node and farmer: the RPC handle as the client
    traits of jsonrpsee and as the farmer's [NodeClient] (utils/src/lib.rs), and
    the operations of [Node] and [Farmer] that only look at something or remove a
    directory (node/src/lib.rs, farmer/src/lib.rs).

    What the client traits generated by jsonrpsee do with a client is a parameter
    ([rpc_api]); a subscription they open is the decoder of its notifications,
    the notifications themselves are those of [Rpc.subscription]. *)
From S2P Require Import Prelude Newtypes Domain Node Farmer Rpc.

#[local] Open Scope Z_scope.

(** ** The RPC handle as a jsonrpsee client *)

Section client.
Context {Error Params Json Batch : Type}.

(** The methods of [ClientT], at the type of the raw response, and
    [SubscriptionClientT]. *)
Record rpc_client := mkRpcClient {
  ct_notification : string -> Params -> result Error unit;
  ct_request : string -> Params -> result Error Json;
  ct_batch_request : Batch -> outcome (result Error (list Json));
  sct_subscribe : string -> Params -> string -> result Error (subscription Json);
  sct_subscribe_to_method : string -> outcome (result Error (subscription Json));
}.

(** The RPC module the handle holds: its calls, and opening a subscription. *)
Variable module_call : string -> Params -> result Error Json.
Variable module_subscribe : string -> Params -> result Error unit.

(** A notification is a call whose response is discarded.  A new subscription is
    [Rpc.subscribed]; the unsubscribe method is not used. *)
Definition Rpc_client : rpc_client := {|
  ct_notification method params := _ ← module_call method params; Ok tt;
  ct_request method params := module_call method params;
  ct_batch_request _ := Panic "internal error: entered unreachable code: It isn't called at all";
  sct_subscribe subscribe_method params _ := _ ← module_subscribe subscribe_method params; Ok subscribed;
  sct_subscribe_to_method _ := Panic "internal error: entered unreachable code: It isn't called";
|}.
End client.
Arguments rpc_client : clear implicits.

(** ** [NodeClient for Rpc] *)

Section node_client.
Context {Error NodeClientError Params Json Batch : Type}.
Context {FarmerAppInfo SlotInfo Solution RewardSigningInfo RewardSignature SegmentHeader SegmentIndex : Type}.
Context {NodeSyncStatus Piece : Type}.

(** [SubspaceRpcApiClient], implemented by jsonrpsee for every client. *)
Record rpc_api := mkRpcApi {
  get_farmer_app_info : result Error FarmerAppInfo;
  api_subscribe_slot_info : result Error (Json -> result Error SlotInfo);
  api_submit_solution_response : Solution -> result Error unit;
  api_subscribe_reward_signing : result Error (Json -> result Error RewardSigningInfo);
  api_submit_reward_signature : RewardSignature -> result Error unit;
  api_subscribe_archived_segment_header : result Error (Json -> result Error SegmentHeader);
  api_subscribe_node_sync_status_change : result Error (Json -> result Error NodeSyncStatus);
  api_segment_headers : list SegmentIndex -> result Error (list (option SegmentHeader));
  api_piece : Z -> result Error (option (list Z));
  api_acknowledge_archived_segment_header : SegmentIndex -> result Error unit;
}.

(** A boxed stream, by what it yields for the notifications it is given. *)
Record node_client := mkNodeClient {
  farmer_app_info : result NodeClientError FarmerAppInfo;
  subscribe_slot_info : result NodeClientError (list Json -> list SlotInfo);
  submit_solution_response : Solution -> result NodeClientError unit;
  subscribe_reward_signing : result NodeClientError (list Json -> list RewardSigningInfo);
  submit_reward_signature : RewardSignature -> result NodeClientError unit;
  subscribe_archived_segment_headers : result NodeClientError (list Json -> list SegmentHeader);
  subscribe_node_sync_status_change : result NodeClientError (list Json -> list NodeSyncStatus);
  segment_headers : list SegmentIndex -> result NodeClientError (list (option SegmentHeader));
  piece : Z -> result NodeClientError (option Piece);
  acknowledge_archived_segment_header : SegmentIndex -> result NodeClientError unit;
}.

Variable api : rpc_client Error Params Json Batch -> rpc_api.
(** Boxing an error of jsonrpsee and a message, the bytes of a piece, [{}]. *)
Variables (boxed : Error -> NodeClientError) (boxed_message : string -> NodeClientError).
Variables (piece_try_from : list Z -> option Piece) (show : Z -> string).

(** [.await?.filter_map(|result| ready(result.ok()))]. *)
Definition ok_items {A} (r : result Error (Json -> result Error A)) : result NodeClientError (list Json -> list A) :=
  decode ← map_err boxed r; Ok (decoded (fun item => ok (decode item))).

Definition Rpc_node_client (rpc : rpc_client Error Params Json Batch) : node_client := {|
  farmer_app_info := map_err boxed (get_farmer_app_info (api rpc));
  subscribe_slot_info := ok_items (api_subscribe_slot_info (api rpc));
  submit_solution_response r := map_err boxed (api_submit_solution_response (api rpc) r);
  subscribe_reward_signing := ok_items (api_subscribe_reward_signing (api rpc));
  submit_reward_signature s := map_err boxed (api_submit_reward_signature (api rpc) s);
  subscribe_archived_segment_headers := ok_items (api_subscribe_archived_segment_header (api rpc));
  subscribe_node_sync_status_change := ok_items (api_subscribe_node_sync_status_change (api rpc));
  segment_headers indexes := map_err boxed (api_segment_headers (api rpc) indexes);
  piece index :=
    bytes ← map_err boxed (api_piece (api rpc) index);
    match bytes with
    | Some bytes =>
        p ← ok_or (boxed_message ("Cannot convert piece. PieceIndex=" +:+ show index)) (piece_try_from bytes);
        Ok (Some p)
    | None => Ok None
    end;
  acknowledge_archived_segment_header index :=
    map_err boxed (api_acknowledge_archived_segment_header (api rpc) index);
|}.

(** *** What the farmer gets from a subscription *)

Lemma omap_prefix {A B} (f : A -> option B) l l' : l `prefix_of` l' -> omap f l `prefix_of` omap f l'.
Proof. intros [k ->]. rewrite omap_app. by apply prefix_app_r. Qed.

Lemma ok_items_in_order {A} (r : result Error (Json -> result Error A)) f (s : subscription Json) :
  ok_items r = Ok f -> consumed s `prefix_of` until_error (arrived s) ->
  exists decode, r = Ok decode /\ f (consumed s) `prefix_of` f (until_error (arrived s)) /\
  f (until_error (arrived s)) = omap (fun item => ok (decode item)) (until_error (arrived s)).
Proof.
  intros Hr Hs. unfold ok_items in Hr. destruct r as [decode|e]; [|discriminate Hr].
  injection Hr as <-. exists decode. split; [done|]. split; [|done]. by apply omap_prefix.
Qed.
End node_client.

(** ** Operations of a node *)

Section node_operations.
Context {Hash Core Net Peer NetWithPeer Event Client : Type}.
Context `{TextForm Core, TextForm Net, TextForm NetWithPeer, TextForm Peer}.
Variable with_peer : Net -> Peer -> NetWithPeer.

(** [listen_addresses]: what the network service listens on, or its error. *)
Definition Node_listen_addresses (peer_id : Peer) (network_state : result unit (list Net))
    : outcome (result string (list (MultiaddrWithPeerId NetWithPeer))) :=
  match network_state with
  | Err _ => Ret (Err "Network worker exited"%string)
  | Ok listened =>
      l ← mapM (fun a => MultiaddrWithPeerId_new with_peer (Multiaddr_from_network (Core := Core)) a peer_id) listened;
      Ret (Ok l)
  end.

(** [dsn_listen_addresses]: the id of the DSN node goes through its text. *)
Definition Node_dsn_listen_addresses {DsnPeer} `{TextForm DsnPeer} (id : DsnPeer) (listeners : list Core)
    : outcome (result string (list (MultiaddrWithPeerId NetWithPeer))) :=
  peer_id ← expect "Conversion between 2 libp2p versions" (parse (to_string id));
  l ← mapM (fun a => MultiaddrWithPeerId_new with_peer (fun c => Ret (mkMultiaddr c)) a peer_id) listeners;
  Ret (Ok l).

(** [block_hash]; [lookup] is [BlockBackend::block_hash]. *)
Definition Node_block_hash (lookup : Z -> result string (option Hash)) (number : Z) : result string (option Hash) :=
  map_err (String.append "Failed to get primary node block hash by number: ") (lookup number).

(** [get_events]: the events of the records, with their phases and topics
    dropped. *)
Definition Node_get_events {Phase} (get_events : option Hash -> result string (list (Phase * Event)))
    (block : option Hash) : result string (list Event) :=
  records ← get_events block; Ok (map snd records).
End node_operations.

(** [Node::wipe] and [FarmDescription::wipe]; [remove_dir_all] is tokio's. *)
Section wipe.
Context {FS IoError : Type} (remove_dir_all : string -> FS -> FS * result IoError unit).

Definition Node_wipe (path : string) (fs : FS) : FS * result IoError unit := remove_dir_all path fs.
Definition FarmDescription_wipe (f : FarmDescription) (fs : FS) : FS * result IoError unit :=
  remove_dir_all (directory f) fs.
End wipe.

(** The entry points of the builder: [Node::builder], [dev], [gemini_3g],
    [devnet] and those of [Config]. *)
Definition Node_builder : NodeBuilder := NodeBuilder_new.
Definition Node_dev : NodeBuilder := NodeBuilder_dev.
Definition Node_gemini_3g : NodeBuilder := NodeBuilder_gemini_3g.
Definition Node_devnet : NodeBuilder := NodeBuilder_devnet.

Definition NodeConfig_dev : NodeBuilder := NodeBuilder_dev.
Definition NodeConfig_gemini_3g : NodeBuilder := NodeBuilder_gemini_3g.
Definition NodeConfig_devnet : NodeBuilder := NodeBuilder_devnet.

(** [Builder::build] configures, then builds. *)
Definition NodeBuilder_build {A} (build : NodeConfig -> outcome (result string A))
    (pkg_name pkg_version git_hash : string) (b : NodeBuilder) : outcome (result string A) :=
  build (NodeBuilder_configuration pkg_name pkg_version git_hash b).

(** The same for a domain. *)
Definition DomainConfig_dev : DomainConfigBuilder := DomainConfigBuilder_dev.
Definition DomainConfig_gemini_3g : DomainConfigBuilder := DomainConfigBuilder_gemini_3g.
Definition DomainConfig_devnet : DomainConfigBuilder := DomainConfigBuilder_devnet.
Definition DomainConfigBuilder_new : DomainConfigBuilder := DomainConfigBuilder_default.
Definition DomainConfigBuilder_build {A} (build : DomainConfig -> outcome (result string A))
    (pkg_name pkg_version git_hash : string) (b : DomainConfigBuilder) : outcome (result string A) :=
  build (DomainConfigBuilder_configuration pkg_name pkg_version git_hash b).

Definition FarmDescription_new (directory : string) (space_pledged : Z) : FarmDescription :=
  mkFarmDescription directory space_pledged.

Section farmer_operations.
Context {FarmId D : Type} {Ch : Type -> Type}.

(** [Farm::directory] and [allocated_space], [Farmer::iter_farms]: the values of
    the map, in the order of its iteration. *)
Definition Farm_get_directory (f : Farm D) : string := Farm_directory f.
Definition Farm_get_allocated_space {B} `{ByteSizeApi B} (f : Farm D) : ByteSize (B := B) :=
  ByteSize_b (Farm_allocated_space f).
Definition Farmer_iter_farms (f : Farmer FarmId D Ch) : list (Farm D) :=
  (map_to_list (Farmer_farm_info f)).*2.
End farmer_operations.

(** ** Properties *)

Section handle_properties.
Context {Core Net Peer NetWithPeer : Type}.
Context `{TextForm Core, TextForm Net, TextForm NetWithPeer, TextForm Peer}.
Variable with_peer : Net -> Peer -> NetWithPeer.

Lemma mapM_Forall2 {A B} (f : A -> outcome B) (P : A -> B -> Prop) l :
  (forall a, exists b, f a = Ret b /\ P a b) -> exists l', mapM f l = Ret l' /\ Forall2 P l l'.
Proof.
  intros Hf. induction l as [|a l (l' & Hl & IH)]; [by exists []|].
  destruct (Hf a) as (b & Hb & Hp). exists (b :: l'). cbn. rewrite Hb. cbn. rewrite Hl. by split; [|constructor].
Qed.

(** With libp2p versions that read each other's addresses, asking a live node
    for its listening addresses never panics: every address comes with the id of
    the node. *)
Lemma listen_addresses_total (peer_id : Peer) (listened : list Net) :
  reads Core Net -> reads Net Core -> (forall n : Net, parse (to_string n) = Some n) ->
  exists l, Node_listen_addresses (Core := Core) with_peer peer_id (Ok listened) = Ret (Ok l) /\
  Forall2 (fun a m => to_string m = to_string (with_peer a peer_id)) listened l.
Proof.
  intros _ Hnc Hn. unfold Node_listen_addresses.
  destruct (mapM_Forall2 (fun a => MultiaddrWithPeerId_new with_peer (Multiaddr_from_network (Core := Core)) a peer_id)
    (fun a m => to_string m = to_string (with_peer a peer_id)) listened) as (l & Hl & Hall).
  - intros a. destruct (Hnc a) as (c & Hc & Ht). exists (mkMultiaddrWithPeerId (with_peer a peer_id)).
    split; [|done]. unfold MultiaddrWithPeerId_new, Multiaddr_from_network, Multiaddr_into_network, through_text.
    cbn. rewrite Hc. cbn. by rewrite Ht, Hn.
  - exists l. by rewrite Hl.
Qed.
End handle_properties.
